(* ===== verification/_CoqProject ===== *)
-Q . S2P
Prelude.v
GoStr.v
GoTime.v
Sha256.v
Net.v
Json.v
JsonText.v
Io.v
Tls.v
Config.v
Db.v
Commands.v
CmdFilter.v
Rbac.v
Gateway.v
Wire.v
Cli.v
Auth.v
AuthRace.v
RateLimit.v
Vault.v
Session.v
Killswitch.v
AuditLog.v
AuditView.v
AdminOps.v
AdminDraw.v
World.v
AdminConsole.v
AdminProps.v
Bridge.v
Among.v
Fleet.v
Accept.v
Main.v
Tools.v
