(* ===== verification/Prelude.v ===== *)
(** * ZTTP: a verification development for the zero-trust SSH proxy

    ZTTP lets developers reach servers over SSH through a proxy that holds the keys.
    The client ([internal/cli], started by [cmd/zttp]) sends a framed request over TLS;
    the proxy ([cmd/proxy], [internal/proxy]) limits the rate, authenticates the user,
    asks the policy engine, fetches the server's key from Vault, opens the SSH session,
    copies bytes both ways through a command filter, records them, and can be told to
    kill the session.  Security administrators get a console in the same terminal.

    ** The files and the parts of the program

    - Go's standard library, as far as the sources use it: GoStr.v (strings, UTF-8,
      base64), GoTime.v, Sha256.v, Net.v, Json.v, JsonText.v (decoded text is UTF-8), Io.v
      (writers, keyboards, connections), Tls.v (what settings of TLS mean).
    - Config.v: [internal/config].
    - Db.v: [db/migrations] and every statement sent to PostgreSQL; the invariant
      [db_ok] of the tables, and [db_reach], what any sequence of statements can do.
    - Commands.v, CmdFilter.v: [rbac/commands.go] and [proxy/cmdfilter.go], which decide
      over the lines typed into a session.
    - Rbac.v: [rbac/rbac.go]; Gateway.v: [proxy/gateway_tui.go].
    - Wire.v, Cli.v: the protocol, from [cli/transport] on one side and the readers of
      [proxy/accept.go] on the other; [cli/connect], [cli/terminal] and [cli/app.go].
    - Auth.v: [internal/auth]; AuthRace.v: many calls of it at once; RateLimit.v: [internal/ratelimit] and
      [proxy/ratelimit.go]; Vault.v: [internal/vault].
    - Session.v, Killswitch.v: [internal/session], [internal/killswitch] and
      [cmd/proxy/handlers.go].
    - AuditLog.v: [internal/audit]; AuditView.v: the log viewers of [proxy/admin_tui.go].
    - AdminOps.v, AdminDraw.v, AdminConsole.v, AdminProps.v: the rest of that file - its
      operations, its screens, the state machine with one definition per [case], and
      what a stay at the console guarantees.
    - Bridge.v: one session, [proxy/bridge.go] and [proxy/keepalive.go]; Among.v: a session
      while others change what it shares with them; Fleet.v: all sessions of a node.
    - World.v, Accept.v: [Server] and [proxy/accept.go].
    - Main.v: [cmd/proxy/main.go], [internal/db], [proxy/listener.go], [internal/health].
    - Tools.v: [db/migrate] and [tools/hashpw].

    Operations keep the names of the Go functions.  A function with side effects takes
    the state it changes and returns it; an error is the left of [res].  [World.world]
    is the state connections share: limiter, database, Vault, registry, audit directory,
    memory, and the kills carried out.

    ** Concurrency

    A session is five threads over shared state (Bridge.v): [step] is one thing one
    thread does, a run is a list of such actions, and the theorems hold of all runs.  A
    fleet (Fleet.v) is every session of a node over one registry, one database and one
    audit directory; a list of [fleet_act] is any interleaving of all their threads, of
    new sessions, of lines of the admin log and of what others do in the database.  Seen
    from one session such a run is its own actions with changes in between that are
    [steady] for it (Among.v, [Fleet.fleet_projects]); so the invariants of Bridge.v, which
    are stable under steady changes, hold of every session of a fleet.  A client may stop
    taking what it is written: then no write to it returns, and what waits for one waits
    ([Bridge.blocked]).
    [handleConnection] is a function of the bytes the client sends and of scripts that
    say what everybody else does meanwhile, between the actions of its session too.
    Logins run side by side in AuthRace.v, where a call is split between its two statements.  At the top level (Main.v) a history is a
    list of happenings: connections, ticks of the background timers, kills over RPC, HTTP
    requests, the failure of the kill switch's server, which ends the process, and what
    goes on elsewhere, which includes the connections that have not ended.

    ** What is proved

    - From start-up on: [Main.start_up], [Main.proxy_sound], and for one connection
      [Accept.connection_authorized] and [Accept.gates]: every dial, bridge and console
      is for a user who has logged in, to a server the policy allows on the database as
      it stood, with the host key that is pinned unless a static Vault token or dev mode
      has switched that check off.
    - Who is let in: [Auth.Authenticate_sound], [Auth.lockout_after_threshold] and the
      limits of the lockout in [Auth.no_second_lockout]; under concurrent logins
      [AuthRace.no_failure_is_lost] and [AuthRace.guesses_are_bounded];
      [Rbac.Authorize_sound] against [may_access], [Rbac.Authorize_spec] branch by branch,
      and [Gateway.gateway_menu_is_authorized]: the menu lists what the engine grants.
    - What is typed: [Commands.IsCommandAllowed_spec], [CmdFilter.Write_line], and for
      every session of a fleet [Fleet.lines_permitted], for clients that send simple keys
      only; how the filter is got round otherwise: [CmdFilter.filter_ctrl_c_bypass] and the
      example [CmdFilter.ctrl_w_bypass].
    - Sessions, all at once: [Fleet.sessions_end] (liveness, by a measure on the threads)
      and its limit [Fleet.stalled_client_holds], [Fleet.fleet_projects],
      [Fleet.registry_is_live], [Fleet.ended_are_marked], [Fleet.kill_hits_one_session].
      One session alone: [Bridge.output_in_order], [Bridge.last_mark_wins],
      [Bridge.kill_steps_are_the_rpc]; [Killswitch.TerminateSession_spec] and
      [Session.cleanup_ends_orphans].
    - Recordings, of output and not of keys: [Fleet.recordings_separate], [AuditLog.recording_roundtrip],
      [AuditView.playback_faithful], [AuditView.ansi_clean_spec].
    - Keys: [Vault.key_is_wiped], [Vault.strict_host_key_check].
    - The wire: [Cli.login_reaches_proxy], from the keyboard to the proxy's record,
      [Wire.accepted_request_typed], what a request is whatever bytes it came in,
      [Wire.readConnectRequest_bounded], [Cli.RunPipe_in_order].
    - The limiter: [RateLimit.one_bucket_per_address], a refinement to one token bucket
      per address.
    - The console: [AdminProps.console_returns], [AdminProps.new_users_are_logged],
      [AdminProps.console_adds_user], [AdminOps.assignServers_spec], and two defects of
      adding servers, [AdminOps.added_server_unreachable] and
      [AdminOps.taken_name_replaces_key].
    - The migrator: [Tools.migrations_in_order].

    ** Interfaces

    What is not in the repository is a class: [Postgres] (collation, text of inet, UUIDs,
    messages), [IPv6Text], [UnicodeTables], [JsonErrors], [Bcrypt], [Viper], [TokenBucket],
    [VaultServer], [SSH], [SshDial], [PasswordSsh], [KeyGen], [UuidText], [Grpc],
    [SqlDatabase], and the terminal at the other end of a session, [Terminal].  Laws
    are documented behaviour (a bucket refills, a dial succeeds only if its callback
    accepted the key, what is put can be got), stated in the class or in a class of laws
    beside it; each class has a concrete instance, used by the witnesses.

    ** Fuel

    Functions that consume a text recurse on a number of bytes they are given as the
    length of that text ([runes], [strip_escapes], [play_loop]); each call takes at least
    one byte, so the number never runs out.  The JSON parser gets two units per rune
    ([Json.jvalue_enough]).  The loops that read keys - the gateway menu, the console, the
    login form - get one more than there are input events, and each round reads one at
    least ([Gateway.handleGatewayMenu_total], [AdminConsole.handleAdminConsole_total],
    [Cli.login_loop_total]), so that none of them runs out.

    ** Not modelled

    - TLS beyond its settings, gRPC and HTTP transport, the SSH protocol, goroutine scheduling below the
      steps named above, and Go's memory model; mutexes are taken to work.  Outside a
      session, in menus and refusals, a write to a client is taken to return; a session is
      killed at most once at a time.
    - What a shell makes of a line it is given (variables, aliases, history): the policy
      and the theorems are about the text of the line.
    - Log lines of zap, the shutdown of the HTTP server, and the parsing of
      command-line flags ([cmd/zttp]).
    - Generated code ([killswitch/proto]).
    - [proxy/resize.go], which has no caller. *)

From Stdlib Require Export ZArith Lia Strings.Ascii.
From stdpp Require Export base tactics sorting strings gmap numbers list_basics list_relations list_monad list_misc list_tactics list_numbers list.
From stdpp Require Import options.

Open Scope Z_scope.

(** ** Go strings and byte slices *)

(** A Go [string] and a Go [[]byte] are both sequences of bytes; a byte is an
    [ascii].  Conversions between the two are therefore the identity. *)
Abbreviation byte := ascii (only parsing).
Abbreviation str := (list ascii) (only parsing).

(** String literals of the source: [§"tmux"]. *)
Notation "§ s" := (String.list_ascii_of_string s%string)
  (at level 1, s at level 0, format "§ s") : list_scope.
Open Scope list_scope.

(** The numeric value of a byte, and the byte of a number ([byte(x)] keeps the
    low eight bits). *)
Definition bval (b : byte) : Z := Z.of_N (N_of_ascii b).
Definition to_byte (z : Z) : byte := ascii_of_N (Z.to_N (z mod 256)).

Definition ESC : str := [to_byte 27].
Definition CRLF : str := [to_byte 13; to_byte 10].
Definition LF : str := [to_byte 10].

(** [len(s)] as the signed integer Go returns. *)
Definition zlen {A} (l : list A) : Z := Z.of_nat (length l).

(** Indexing with a Go [int]: [None] is the run-time panic. *)
Definition zget {A} (l : list A) (i : Z) : option A :=
  if decide (0 <= i) then l !! Z.to_nat i else None.

(** [s[:len(s)-1]], the source's way of deleting the last byte. *)
Definition chop (s : str) : str := take (length s - 1) s.

(** ** Errors *)

(** A Go error value: the sentinel [sql.ErrNoRows], an error made from a text,
    or an error wrapped by [fmt.Errorf("msg: %w", err)]. *)
Inductive error :=
  | ErrNoRows
  | ErrText (msg : str)
  | ErrWrap (msg : str) (inner : error).

Fixpoint error_text (e : error) : str :=
  match e with
  | ErrNoRows => §"sql: no rows in result set"
  | ErrText msg => msg
  | ErrWrap msg e' => msg ++ §": " ++ error_text e'
  end.

#[export] Instance error_eq_dec : EqDecision error.
Proof. solve_decision. Defined.

(** A fallible result, as [(value, err)] pairs are used in the source: exactly
    one of the two is meaningful. *)
Abbreviation res A := (error + A)%type (only parsing).

#[export] Instance res_fmap : FMap (sum error) := fun A B f r =>
  match r with inl e => inl e | inr x => inr (f x) end.
#[export] Instance res_bind : MBind (sum error) := fun A B f r =>
  match r with inl e => inl e | inr x => f x end.

(** What a loop run with fuel comes to. *)
Inductive run_result (A : Type) := Finished (a : A) | Panicked | OutOfFuel.
Arguments Finished {A} a.
Arguments Panicked {A}.
Arguments OutOfFuel {A}.

(** ** Tactics *)

(** Split the hypotheses and the goal on the booleans, options and decisions the
    definitions branch on, then close what is left by computation. *)
Ltac split_ifs :=
  repeat (case_decide || case_bool_decide || case_match); simplify_eq.

(** Turn boolean hypotheses into propositions. *)
Ltac bools :=
  rewrite ?negb_true_iff, ?negb_false_iff, ?andb_true_iff, ?orb_false_iff,
    ?bool_decide_eq_true, ?bool_decide_eq_false in *; destruct_and?.

Ltac zl := unfold zlen in *; lia.

(** ** Bytes *)

Lemma bval_range b : 0 <= bval b < 256.
Proof. unfold bval. pose proof (N_ascii_bounded b). lia. Qed.

Lemma to_byte_bval b : to_byte (bval b) = b.
Proof.
  unfold to_byte. rewrite Z.mod_small by (pose proof (bval_range b); lia).
  unfold bval. by rewrite N2Z.id, ascii_N_embedding.
Qed.

Lemma bval_to_byte z : bval (to_byte z) = z mod 256.
Proof.
  unfold bval, to_byte.
  pose proof (Z.mod_pos_bound z 256 ltac:(lia)).
  rewrite N_ascii_embedding by lia. lia.
Qed.

Lemma bval_inj a b : bval a = bval b -> a = b.
Proof. intros H. by rewrite <- (to_byte_bval a), <- (to_byte_bval b), H. Qed.

(** ** Indexing *)

Lemma zget_Some {A} (l : list A) i x :
  zget l i = Some x <-> 0 <= i /\ l !! Z.to_nat i = Some x.
Proof. unfold zget. case_decide; naive_solver. Qed.

Lemma zget_is_Some {A} (l : list A) i : 0 <= i < zlen l -> is_Some (zget l i).
Proof.
  intros Hi. unfold zget, zlen in *. rewrite decide_True by lia.
  apply lookup_lt_is_Some. lia.
Qed.

Lemma zlen_nonneg {A} (l : list A) : 0 <= zlen l.
Proof. zl. Qed.

Lemma zlen_app {A} (l k : list A) : zlen (l ++ k) = zlen l + zlen k.
Proof. unfold zlen. rewrite length_app. lia. Qed.

Lemma zlen_cons {A} (x : A) l : zlen (x :: l) = 1 + zlen l.
Proof. unfold zlen. simpl. lia. Qed.

Lemma zlen_nil {A} : zlen (@nil A) = 0.
Proof. done. Qed.

(** The rest of a string after an index: [s[idx+1:]]. *)
Lemma drop_after {A} (p : list A) c t : drop (Z.to_nat (zlen p + 1)) (p ++ c :: t) = t.
Proof.
  replace (Z.to_nat (zlen p + 1)) with (length (p ++ [c])) by (rewrite length_app; simpl; zl).
  replace (p ++ c :: t) with ((p ++ [c]) ++ t) by (by rewrite <- app_assoc).
  apply drop_app_length.
Qed.

Lemma chop_snoc s b : chop (s ++ [b]) = s.
Proof. unfold chop. rewrite length_app. simpl. by rewrite Nat.add_sub, take_app_length. Qed.

Lemma chop_nil : chop [] = [].
Proof. done. Qed.

Lemma Forall_chop (P : byte -> Prop) s : Forall P s -> Forall P (chop s).
Proof. apply Forall_take. Qed.

(** ** Keys of a list of records *)

Lemma NoDup_map_inj {A B} (f : A -> B) l x y :
  NoDup (map f l) -> x ∈ l -> y ∈ l -> f x = f y -> x = y.
Proof.
  induction l as [|z l IH]; simpl; intros Hn Hx Hy Hf; [by apply not_elem_of_nil in Hx|].
  apply NoDup_cons in Hn as [Hz Hn].
  apply elem_of_cons in Hx as [->|Hx], Hy as [->|Hy]; [done| | |by apply IH].
  - destruct Hz. rewrite Hf. by apply list_elem_of_In, in_map, list_elem_of_In.
  - destruct Hz. rewrite <- Hf. by apply list_elem_of_In, in_map, list_elem_of_In.
Qed.

(** Filtering on a key keeps the one record that has it. *)
Lemma filter_key {A B} `{EqDecision B} (f : A -> B) l x k :
  NoDup (map f l) -> x ∈ l -> f x = k -> filter (fun y => f y = k) l = [x].
Proof.
  intros Hn Hx <-. induction l as [|z l IH]; [by apply not_elem_of_nil in Hx|].
  simpl in Hn. apply NoDup_cons in Hn as [Hz Hn]. rewrite filter_cons. case_decide as Hd.
  - f_equal.
    + apply elem_of_cons in Hx as [->|Hx]; [done|].
      destruct Hz. rewrite Hd. by apply list_elem_of_In, in_map, list_elem_of_In.
    + destruct (filter _ l) as [|w k] eqn:Hw; [done|].
      assert (w ∈ filter (fun y => f y = f x) l) as [Hfw Hwl]%list_elem_of_filter by (rewrite Hw; left).
      destruct Hz. rewrite Hd, <- Hfw. by apply list_elem_of_In, in_map, list_elem_of_In.
  - apply IH; [done|]. apply elem_of_cons in Hx as [->|Hx]; [done|done].
Qed.

Lemma filter_key_nil {A B} `{EqDecision B} (f : A -> B) l k :
  k ∉ map f l -> filter (fun y => f y = k) l = [].
Proof.
  intros Hk. destruct (filter _ l) as [|w r] eqn:Hw; [done|].
  assert (w ∈ filter (fun y => f y = k) l) as [Hfw Hwl]%list_elem_of_filter by (rewrite Hw; left).
  destruct Hk. rewrite <- Hfw. by apply list_elem_of_In, in_map, list_elem_of_In.
Qed.

Lemma elem_of_map_key {A B} (f : A -> B) l k : k ∈ map f l <-> exists x, x ∈ l /\ f x = k.
Proof.
  rewrite list_elem_of_In, in_map_iff. split; intros (x & H1 & H2); exists x.
  - by rewrite list_elem_of_In.
  - by rewrite <- list_elem_of_In.
Qed.

Create Rewrite HintDb zlen.
#[export] Hint Rewrite @zlen_app @zlen_cons @zlen_nil : zlen.

Create HintDb zttp.
#[export] Hint Resolve zlen_nonneg Forall_chop bval_range : zttp.
