(* ===== verification/GoStr.v ===== *)
(** * The parts of Go's standard library the sources use on strings and bytes

    [unicode/utf8] decoding, [strings.Fields], [strings.TrimSpace],
    [strings.EqualFold], [strings.LastIndex], [strings.Split], [strings.Join],
    [strings.Repeat], [strings.HasPrefix], the order of strings, the [%-Ns] and [%d] verbs of [fmt],
    [encoding/binary] on 32-bit words and [encoding/base64].

    Strings are byte lists.  Functions that Go defines on runes work here on the
    list of runes of the string, each with the bytes it was decoded from; an
    invalid byte is the rune [RuneError] of width one, as in Go.  The only table
    left open is the case-folding of two non-ASCII runes. *)

From S2P Require Import Prelude.
From stdpp Require Import pretty.
From stdpp Require Import options.
Open Scope Z_scope.

(** ** UTF-8 *)

Definition RuneError : Z := 65533.

Definition in_range (lo hi : Z) (b : byte) : bool := (lo <=? bval b) && (bval b <=? hi).

Definition is_cont : byte -> bool := in_range 128 191.

Definition rune2 (b0 b1 : byte) : option Z :=
  if in_range 194 223 b0 && is_cont b1
  then Some ((bval b0 - 192) * 64 + (bval b1 - 128)) else None.

Definition rune3 (b0 b1 b2 : byte) : option Z :=
  if in_range 224 239 b0
     && in_range (if bval b0 =? 224 then 160 else 128) (if bval b0 =? 237 then 159 else 191) b1
     && is_cont b2
  then Some ((bval b0 - 224) * 4096 + (bval b1 - 128) * 64 + (bval b2 - 128)) else None.

Definition rune4 (b0 b1 b2 b3 : byte) : option Z :=
  if in_range 240 244 b0
     && in_range (if bval b0 =? 240 then 144 else 128) (if bval b0 =? 244 then 143 else 191) b1
     && is_cont b2 && is_cont b3
  then Some ((bval b0 - 240) * 262144 + (bval b1 - 128) * 4096
             + (bval b2 - 128) * 64 + (bval b3 - 128)) else None.

(** [utf8.DecodeRuneInString]: the first rune and the bytes it takes. *)
Definition decode_rune (s : str) : option (Z * str) :=
  match s with
  | [] => None
  | b0 :: r0 =>
      let bad := Some (RuneError, [b0]) in
      if bval b0 <? 128 then Some (bval b0, [b0]) else
      match r0 with
      | [] => bad
      | b1 :: r1 =>
          match rune2 b0 b1 with
          | Some r => Some (r, [b0; b1])
          | None =>
              match r1 with
              | [] => bad
              | b2 :: r2 =>
                  match rune3 b0 b1 b2 with
                  | Some r => Some (r, [b0; b1; b2])
                  | None =>
                      match r2 with
                      | [] => bad
                      | b3 :: _ =>
                          match rune4 b0 b1 b2 b3 with
                          | Some r => Some (r, [b0; b1; b2; b3])
                          | None => bad
                          end
                      end
                  end
              end
          end
      end
  end.

(** The runes of a string, each with its bytes.  Every rune takes at least one
    byte, so the length of the string bounds their number. *)
Fixpoint runes_upto (n : nat) (s : str) : list (Z * str) :=
  match n with
  | O => []
  | S n' =>
      match decode_rune s with
      | None => []
      | Some (r, bs) => (r, bs) :: runes_upto n' (drop (length bs) s)
      end
  end.
Definition runes (s : str) : list (Z * str) := runes_upto (length s) s.

(** [utf8.RuneCountInString]. *)
Definition rune_count (s : str) : nat := length (runes s).

(** [unicode.IsSpace]: the White_Space property. *)
Definition is_space (r : Z) : bool :=
  ((9 <=? r) && (r <=? 13)) || (r =? 32) || (r =? 133) || (r =? 160) || (r =? 5760)
  || ((8192 <=? r) && (r <=? 8202)) || (r =? 8232) || (r =? 8233) || (r =? 8239)
  || (r =? 8287) || (r =? 12288).

(** ** Package strings *)

(** [strings.Fields]: the maximal runs of non-space runes. *)
Fixpoint fields_aux (cs : list (Z * str)) (cur : str) : list str :=
  match cs with
  | [] => if decide (cur = []) then [] else [cur]
  | (r, bs) :: cs' =>
      if is_space r
      then if decide (cur = []) then fields_aux cs' [] else cur :: fields_aux cs' []
      else fields_aux cs' (cur ++ bs)
  end.
Definition Fields (s : str) : list str := fields_aux (runes s) [].

Fixpoint drop_spaces (cs : list (Z * str)) : list (Z * str) :=
  match cs with
  | [] => []
  | (r, bs) :: cs' => if is_space r then drop_spaces cs' else cs
  end.

Definition chunk_bytes (cs : list (Z * str)) : str := concat (map snd cs).

(** [strings.TrimSpace].  UTF-8 is self-synchronising, so the last rune read
    backwards is the last rune of the forward decoding. *)
Definition TrimSpace (s : str) : str :=
  chunk_bytes (reverse (drop_spaces (reverse (drop_spaces (runes s))))).

(** [strings.LastIndex] of a one-byte substring. *)
Fixpoint LastIndexByte (s : str) (c : byte) : Z :=
  match s with
  | [] => -1
  | b :: s' =>
      let i := LastIndexByte s' c in
      if 0 <=? i then i + 1 else if decide (b = c) then 0 else -1
  end.

(** Case folding of two non-ASCII runes (the SimpleFold orbits of the Unicode
    tables); everything that touches ASCII is written out below. *)
Class UnicodeTables := { same_orbit : Z -> Z -> bool }.

Section fold.
Context {UT : UnicodeTables}.

(** The comparison step of [strings.EqualFold]: U+212A (Kelvin) and U+017F
    (long s) are the only non-ASCII runes in the orbit of an ASCII letter. *)
Definition fold_eq (sr tr : Z) : bool :=
  let lo := Z.min sr tr in
  let hi := Z.max sr tr in
  if lo =? hi then true
  else if hi <? 128 then (65 <=? lo) && (lo <=? 90) && (hi =? lo + 32)
  else if lo <? 128 then
    (((lo =? 75) || (lo =? 107)) && (hi =? 8490))
    || (((lo =? 83) || (lo =? 115)) && (hi =? 383))
  else same_orbit lo hi.

Fixpoint all_fold (l k : list (Z * str)) : bool :=
  match l, k with
  | [], [] => true
  | (x, _) :: l', (y, _) :: k' => fold_eq x y && all_fold l' k'
  | _, _ => false
  end.

Definition EqualFold (s t : str) : bool := all_fold (runes s) (runes t).
End fold.

(** [strings.Split] and [strings.Join] with a one-byte separator. *)
Fixpoint split_aux (s : str) (sep : byte) (cur : str) : list str :=
  match s with
  | [] => [cur]
  | b :: s' => if decide (b = sep) then cur :: split_aux s' sep [] else split_aux s' sep (cur ++ [b])
  end.
Definition Split (s : str) (sep : byte) : list str := split_aux s sep [].

Fixpoint Join (l : list str) (sep : str) : str :=
  match l with
  | [] => []
  | [s] => s
  | s :: l' => s ++ sep ++ Join l' sep
  end.

Definition Repeat (s : str) (n : nat) : str := concat (replicate n s).

Definition HasPrefix (s p : str) : bool := bool_decide (take (length p) s = p).

(** ** Package fmt *)

(** [%d]. *)
Definition is_digit (b : byte) : bool := (48 <=? bval b) && (bval b <=? 57).

Definition digits_value (s : str) : Z := fold_left (fun acc b => acc * 10 + (bval b - 48)) s 0.

Definition itoa (z : Z) : str := String.list_ascii_of_string (pretty z).

(** [%-Ns]: the width counts runes. *)
Definition pad (n : nat) (s : str) : str := s ++ replicate (n - rune_count s) " "%char.

(** ** Packages encoding/binary and encoding/base64 *)

Definition u32 (z : Z) : Z := z mod 2 ^ 32.

Definition le32 (z : Z) : str :=
  [to_byte z; to_byte (z / 2 ^ 8); to_byte (z / 2 ^ 16); to_byte (z / 2 ^ 24)].
Definition be32 (z : Z) : str := reverse (le32 z).

Fixpoint from_le (s : str) : Z :=
  match s with
  | [] => 0
  | b :: s' => bval b + 256 * from_le s'
  end.
Definition from_be (s : str) : Z := from_le (reverse s).

Definition b64_char (n : Z) : byte :=
  if n <? 26 then to_byte (65 + n)
  else if n <? 52 then to_byte (97 + (n - 26))
  else if n <? 62 then to_byte (48 + (n - 52))
  else if n =? 62 then "+"%char else "/"%char.

(** Base64 without padding ([base64.RawStdEncoding]) and with it
    ([base64.StdEncoding]). *)
Fixpoint b64_raw (s : str) : str :=
  match s with
  | a :: b :: c :: s' =>
      let v := (bval a * 256 + bval b) * 256 + bval c in
      b64_char (v / 2 ^ 18) :: b64_char (v / 2 ^ 12 mod 64)
      :: b64_char (v / 2 ^ 6 mod 64) :: b64_char (v mod 64) :: b64_raw s'
  | [a; b] =>
      let v := (bval a * 256 + bval b) * 4 in
      [b64_char (v / 2 ^ 12); b64_char (v / 2 ^ 6 mod 64); b64_char (v mod 64)]
  | [a] =>
      let v := bval a * 16 in
      [b64_char (v / 2 ^ 6); b64_char (v mod 64)]
  | [] => []
  end.

Definition b64_std (s : str) : str :=
  b64_raw s ++ replicate ((3 - length s mod 3) mod 3) "="%char.

(** The order of strings, as [<=] and [sort.Strings] have it. *)
Fixpoint bytes_le (s t : str) : bool :=
  match s, t with
  | [], _ => true
  | _, [] => false
  | a :: s', b :: t' => (bval a <? bval b) || ((bval a =? bval b) && bytes_le s' t')
  end.

(** A case folding with no orbit outside ASCII, to run the definitions. *)
Definition ascii_tables : UnicodeTables := {| same_orbit := fun _ _ => false |}.

(** ** Lemmas on runes *)

Lemma decode_rune_Some s r bs : decode_rune s = Some (r, bs) -> bs <> [] /\ exists k, s = bs ++ k.
Proof.
  unfold decode_rune. intros H. repeat (case_match; simplify_eq/=); split; try done;
    eexists; simpl; done.
Qed.

Lemma decode_rune_None s : decode_rune s = None -> s = [].
Proof. unfold decode_rune. intros H. by repeat (case_match; simplify_eq/=). Qed.

(** The first rune does not depend on what comes after its bytes, nor on how much
    of that is kept. *)
Lemma decode_rune_cut r bs u v :
  decode_rune (bs ++ u ++ v) = Some (r, bs) -> bs <> [] -> decode_rune (bs ++ u) = Some (r, bs).
Proof.
  intros H Hne. unfold decode_rune in *.
  destruct bs as [|b0 [|b1 [|b2 [|b3 [|b4 bs]]]]]; [done|..]; cbn [app] in *;
    try (destruct u as [|u0 [|u1 [|u2 u]]]; cbn [app] in *);
    repeat (case_match; simplify_eq/=; try done).
Qed.

Lemma runes_upto_enough n s : (length s <= n)%nat -> runes_upto n s = runes s.
Proof.
  unfold runes. remember (length s) as m eqn:Hm. revert n s Hm.
  induction m as [m IH] using lt_wf_ind. intros n s -> Hn. destruct s as [|b s].
  - by destruct n.
  - destruct n as [|n]; [simpl in Hn; lia|]. cbn [length runes_upto].
    destruct (decode_rune (b :: s)) as [[r bs]|] eqn:H; [|done].
    apply decode_rune_Some in H as (Hne & k & Hk). rewrite Hk, drop_app_length. f_equal.
    assert (length (b :: s) = length bs + length k)%nat as Hlen by (by rewrite Hk, length_app).
    simpl in *. destruct bs; [done|]. simpl in Hlen.
    rewrite (IH (length k)) by lia. symmetry. apply (IH (length k)); lia.
Qed.

Lemma runes_unfold s :
  runes s = match decode_rune s with
            | None => []
            | Some (r, bs) => (r, bs) :: runes (drop (length bs) s)
            end.
Proof.
  unfold runes at 1. destruct s as [|b s]; [done|]. cbn [length runes_upto].
  destruct (decode_rune (b :: s)) as [[r bs]|] eqn:H; [|done].
  rewrite runes_upto_enough; [done|]. apply decode_rune_Some in H as (Hne & k & _).
  rewrite length_drop. destruct bs; simpl; [done|lia].
Qed.

(** Induction on a string rune by rune. *)
Lemma runes_ind (P : str -> Prop) :
  P [] ->
  (forall r bs k, decode_rune (bs ++ k) = Some (r, bs) -> bs <> [] -> P k -> P (bs ++ k)) ->
  forall s, P s.
Proof.
  intros Hnil Hcons s. induction s as [s IH] using (induction_ltof1 _ (@length byte)).
  unfold ltof in IH. destruct (decode_rune s) as [[r bs]|] eqn:H.
  - pose proof (decode_rune_Some _ _ _ H) as (Hne & k & ->).
    apply (Hcons r); [done..|]. apply IH. rewrite length_app. destruct bs; [done|simpl; lia].
  - by apply decode_rune_None in H as ->.
Qed.

Lemma runes_cons r bs k :
  decode_rune (bs ++ k) = Some (r, bs) -> runes (bs ++ k) = (r, bs) :: runes k.
Proof. intros H. by rewrite runes_unfold, H, drop_app_length. Qed.

(** Every byte is in exactly one rune, in order. *)
Lemma chunk_bytes_runes s : chunk_bytes (runes s) = s.
Proof.
  induction s as [|r bs k H Hne IH] using runes_ind; [done|].
  rewrite (runes_cons r bs k) by done. unfold chunk_bytes in *. simpl. by rewrite IH.
Qed.

Lemma runes_nonempty s : Forall (fun c => c.2 <> []) (runes s).
Proof.
  induction s as [|r bs k H Hne IH] using runes_ind; [constructor|].
  rewrite (runes_cons r bs k) by done. by constructor.
Qed.

Definition is_ascii (b : byte) : Prop := bval b < 128.

Definition ascii_chunks (s : str) : list (Z * str) := map (fun b => (bval b, [b])) s.

Lemma decode_rune_ascii b s : is_ascii b -> decode_rune (b :: s) = Some (bval b, [b]).
Proof. unfold is_ascii. intros H. unfold decode_rune. by rewrite (proj2 (Z.ltb_lt _ _) H). Qed.

Lemma runes_ascii_cons b s : is_ascii b -> runes (b :: s) = (bval b, [b]) :: runes s.
Proof. intros H. by apply (runes_cons (bval b) [b] s), decode_rune_ascii. Qed.

Lemma runes_ascii_app a s : Forall is_ascii a -> runes (a ++ s) = ascii_chunks a ++ runes s.
Proof.
  induction 1 as [|b a Hb _ IH]; [done|]. simpl. by rewrite runes_ascii_cons, IH.
Qed.

Lemma runes_ascii s : Forall is_ascii s -> runes s = ascii_chunks s.
Proof. intros H. rewrite <- (app_nil_r s) at 1. rewrite runes_ascii_app by done. apply app_nil_r. Qed.

Lemma chunk_bytes_app l k : chunk_bytes (l ++ k) = chunk_bytes l ++ chunk_bytes k.
Proof. unfold chunk_bytes. by rewrite map_app, concat_app. Qed.

Lemma chunk_bytes_ascii s : chunk_bytes (ascii_chunks s) = s.
Proof. induction s as [|b s IH]; [done|]. unfold chunk_bytes in *. simpl. by rewrite IH. Qed.

Lemma rune_count_le s : (rune_count s <= length s)%nat.
Proof.
  unfold rune_count. rewrite <- (chunk_bytes_runes s) at 2. unfold chunk_bytes.
  pose proof (runes_nonempty s) as H. induction H as [|[r bs] l Hb _ IH]; [simpl; lia|].
  cbn [map concat snd]. rewrite length_app. simpl in *. destruct bs; simpl in *; [done|lia].
Qed.

(** *** Re-decoding a part of a string *)

Lemma runes_uncons s r bs cs :
  runes s = (r, bs) :: cs ->
  s = bs ++ chunk_bytes cs /\ bs <> [] /\ runes (chunk_bytes cs) = cs /\ decode_rune s = Some (r, bs).
Proof.
  rewrite runes_unfold. destruct (decode_rune s) as [[r' bs']|] eqn:H; [|done].
  intros [= -> -> <-]. rewrite chunk_bytes_runes.
  pose proof (decode_rune_Some _ _ _ H) as (Hne & k & ->). by rewrite drop_app_length.
Qed.

Lemma runes_suffix s pre post : runes s = pre ++ post -> runes (chunk_bytes post) = post.
Proof.
  revert s. induction pre as [|[r bs] pre IH]; intros s H; simpl in H.
  - by rewrite <- H, chunk_bytes_runes.
  - apply runes_uncons in H as (_ & _ & H & _). by apply IH in H.
Qed.

Lemma runes_prefix s pre post : runes s = pre ++ post -> runes (chunk_bytes pre) = pre.
Proof.
  revert s. induction pre as [|[r bs] pre IH]; intros s H; [done|].
  pose proof (runes_uncons s r bs (pre ++ post) H) as (Hs & Hne & Hcs & Hd).
  rewrite chunk_bytes_app in Hs. rewrite Hs in Hd. apply decode_rune_cut in Hd; [|done].
  change (chunk_bytes ((r, bs) :: pre)) with (bs ++ chunk_bytes pre).
  rewrite (runes_cons r) by done. by rewrite (IH _ Hcs).
Qed.

Lemma runes_segment s pre mid post : runes s = pre ++ mid ++ post -> runes (chunk_bytes mid) = mid.
Proof. intros H%runes_suffix. by apply runes_prefix in H. Qed.

(** ASCII runes are exactly the ASCII bytes. *)
Lemma decode_rune_ascii_rune s r bs :
  decode_rune s = Some (r, bs) -> r < 128 -> bs = [to_byte r] /\ 0 <= r.
Proof.
  destruct s as [|b0 s]; [done|]. pose proof (bval_range b0).
  unfold decode_rune, rune2, rune3, rune4, is_cont, in_range, RuneError. intros Hd Hr.
  repeat (case_match; simplify_eq/=; try lia).
  rewrite to_byte_bval. split; [done|lia].
Qed.

Lemma decode_rune_ascii_byte s r bs b :
  decode_rune s = Some (r, bs) -> b ∈ bs -> is_ascii b -> r = bval b /\ bs = [b].
Proof.
  destruct s as [|b0 s]; [done|]. unfold is_ascii.
  unfold decode_rune, rune2, rune3, rune4, is_cont, in_range. intros Hd Hb Ha.
  repeat (case_match; simplify_eq/=); rewrite ?elem_of_cons, ?elem_of_nil in Hb;
    destruct_or?; subst; try done; lia.
Qed.

Lemma elem_of_runes s c : c ∈ runes s -> exists k, decode_rune k = Some c.
Proof.
  induction s as [|r bs k H Hne IH] using runes_ind; [by intros ?%not_elem_of_nil|].
  rewrite (runes_cons r bs k) by done. intros [->|Hin]%elem_of_cons; [by exists (bs ++ k)|by apply IH].
Qed.

Lemma runes_ascii_rune s r bs : (r, bs) ∈ runes s -> r < 128 -> bs = [to_byte r] /\ 0 <= r.
Proof. intros [k Hk]%elem_of_runes. by apply (decode_rune_ascii_rune k). Qed.

Lemma runes_ascii_byte s r bs b :
  (r, bs) ∈ runes s -> b ∈ bs -> is_ascii b -> r = bval b /\ bs = [b].
Proof. intros [k Hk]%elem_of_runes. by apply (decode_rune_ascii_byte k). Qed.

(** An ASCII byte is always a rune of its own: decoding splits in front of it. *)
Lemma runes_app_ascii s b t : is_ascii b -> runes (s ++ b :: t) = runes s ++ runes (b :: t).
Proof.
  intros Hb. induction s as [s IH] using (induction_ltof1 _ (@length byte)). unfold ltof in IH.
  destruct (decode_rune (s ++ b :: t)) as [[r bs]|] eqn:Hd;
    [|apply decode_rune_None in Hd; by destruct s].
  destruct (decide (s = [])) as [->|Hs]; [done|].
  pose proof (decode_rune_Some _ _ _ Hd) as (Hne & k & Happ).
  assert (exists s', s = bs ++ s') as [s' ->].
  { apply app_eq_inv in Happ as [(l & -> & _)|(l & -> & Hl)]; [by eexists|].
    destruct l as [|b' l]; [exists []; by rewrite !app_nil_r|]. simplify_eq/=.
    apply (decode_rune_ascii_byte _ _ _ b') in Hd as [_ Hbs]; [|set_solver|done].
    destruct s as [|? [|]]; simplify_eq/=. }
  rewrite <- app_assoc in Hd |- *. rewrite (runes_cons r bs (s' ++ _)) by done.
  apply decode_rune_cut in Hd; [|done]. rewrite (runes_cons r bs s') by done. simpl.
  rewrite IH; [done|]. rewrite length_app. destruct bs; [done|simpl; lia].
Qed.

(** ** Lemmas on fields *)

(** What [Fields] returns, read on the runes: no field is empty, and a field is
    the bytes of a run of non-space runes of the string. *)
Definition field_of (cs : list (Z * str)) (f : str) : Prop :=
  exists pre run post, cs = pre ++ run ++ post /\ f = chunk_bytes run
    /\ Forall (fun c => is_space c.1 = false) run.

Lemma fields_aux_run all pre run cs f :
  all = pre ++ run ++ cs -> Forall (fun c => is_space c.1 = false) run ->
  f ∈ fields_aux cs (chunk_bytes run) -> f <> [] /\ field_of all f.
Proof.
  revert pre run. induction cs as [|[r bs] cs IH]; intros pre run Hall Hrun Hf.
  - simpl in Hf. case_decide; [by apply not_elem_of_nil in Hf|].
    apply list_elem_of_singleton in Hf as ->. split; [done|]. by exists pre, run, [].
  - simpl in Hf. destruct (is_space r) eqn:Hr.
    + assert (Hnext : f ∈ fields_aux cs (chunk_bytes []) -> f <> [] /\ field_of all f).
      { apply (IH (pre ++ run ++ [(r, bs)]) []); [|constructor].
        rewrite Hall, <- !app_assoc. done. }
      case_decide; [by apply Hnext|]. apply elem_of_cons in Hf as [->|Hf]; [|by apply Hnext].
      split; [done|]. by exists pre, run, ((r, bs) :: cs).
    + replace (chunk_bytes run ++ bs) with (chunk_bytes (run ++ [(r, bs)])) in Hf
        by (rewrite chunk_bytes_app; unfold chunk_bytes; simpl; by rewrite app_nil_r).
      eapply (IH pre (run ++ [(r, bs)])); [|by apply Forall_app_2; [|constructor]|done].
      rewrite Hall, <- !app_assoc. done.
Qed.

Lemma elem_of_Fields s f : f ∈ Fields s -> f <> [] /\ field_of (runes s) f.
Proof. apply (fields_aux_run (runes s) [] []); [done|constructor]. Qed.

(** Leading and trailing spaces do not matter to [Fields], and [TrimSpace] keeps
    a contiguous part of the string. *)
Lemma drop_spaces_suffix cs :
  exists sp, cs = sp ++ drop_spaces cs /\ Forall (fun c => is_space c.1 = true) sp.
Proof.
  induction cs as [|[r bs] cs (sp & Hcs & Hsp)]; simpl; [by exists []|].
  destruct (is_space r) eqn:Hr; [|by exists []].
  exists ((r, bs) :: sp). split; [|by constructor]. simpl. by f_equal.
Qed.

Lemma fields_aux_spaces_l sp cs :
  Forall (fun c => is_space c.1 = true) sp -> fields_aux (sp ++ cs) [] = fields_aux cs [].
Proof. induction 1 as [|[r bs] sp Hr _ IH]; [done|]. simpl in *. by rewrite Hr. Qed.

Lemma fields_aux_spaces_r sp cs cur :
  Forall (fun c => is_space c.1 = true) sp -> fields_aux (cs ++ sp) cur = fields_aux cs cur.
Proof.
  intros Hsp. revert cur. induction cs as [|[r bs] cs IH]; intros cur; simpl.
  - destruct Hsp as [|[r bs] sp Hr Hsp]; [done|]. simpl in *. rewrite Hr.
    pose proof (fields_aux_spaces_l sp [] Hsp) as Hnil. rewrite app_nil_r in Hnil.
    rewrite Hnil. done.
  - by rewrite !IH.
Qed.

Lemma TrimSpace_runes s :
  exists pre post, runes s = pre ++ runes (TrimSpace s) ++ post
    /\ Forall (fun c => is_space c.1 = true) pre /\ Forall (fun c => is_space c.1 = true) post.
Proof.
  destruct (drop_spaces_suffix (runes s)) as (pre & Hpre & Hsp).
  destruct (drop_spaces_suffix (reverse (drop_spaces (runes s)))) as (post & Hpost & Hsp').
  apply (f_equal reverse) in Hpost. rewrite reverse_involutive, reverse_app in Hpost.
  assert (Hall : runes s = pre ++ reverse (drop_spaces (reverse (drop_spaces (runes s))))
                    ++ reverse post) by (by rewrite <- Hpost).
  exists pre, (reverse post). split; [|split; [done|by apply Forall_reverse]].
  unfold TrimSpace. erewrite (runes_segment s); done.
Qed.

Lemma Fields_TrimSpace s : Fields (TrimSpace s) = Fields s.
Proof.
  destruct (TrimSpace_runes s) as (pre & post & Hs & Hpre & Hpost). unfold Fields.
  rewrite Hs, fields_aux_spaces_l, fields_aux_spaces_r by done. done.
Qed.

(** ** Lemmas on the other string functions *)

Lemma LastIndexByte_none s c : c ∉ s -> LastIndexByte s c = -1.
Proof.
  induction s as [|b s IH]; [done|]. intros [Hb Hs]%not_elem_of_cons. simpl.
  rewrite IH by done. case_decide; [by subst|done].
Qed.

Lemma LastIndexByte_app s t c : c ∉ t -> LastIndexByte (s ++ c :: t) c = zlen s.
Proof.
  intros Ht. induction s as [|b s IH]; simpl.
  - rewrite LastIndexByte_none by done. by rewrite decide_True.
  - rewrite IH. rewrite (proj2 (Z.leb_le 0 (zlen s))) by apply zlen_nonneg.
    rewrite zlen_cons. lia.
Qed.

(** The last index splits the string: either [c] does not occur and the index is
    negative, or what follows the index has no [c]. *)
Lemma LastIndexByte_spec s c :
  (LastIndexByte s c = -1 /\ c ∉ s)
  \/ exists p t, s = p ++ c :: t /\ LastIndexByte s c = zlen p /\ c ∉ t.
Proof.
  destruct (decide (c ∈ s)) as [Hin|Hn]; [right|left; split; [by apply LastIndexByte_none|done]].
  induction s as [|b s IH]; [by apply not_elem_of_nil in Hin|].
  destruct (decide (c ∈ s)) as [Hs|Hs].
  - destruct (IH Hs) as (p & t & -> & _ & Ht). exists (b :: p), t.
    split; [done|]. split; [|done]. by apply (LastIndexByte_app (b :: p)).
  - apply elem_of_cons in Hin as [->|?]; [|done]. exists [], s.
    split; [done|]. split; [|done]. by apply (LastIndexByte_app []).
Qed.

Lemma split_aux_nonempty s sep cur : split_aux s sep cur <> [].
Proof. revert cur. induction s as [|b s IH]; intros cur; simpl; [done|]. case_decide; [done|apply IH]. Qed.

(** Splitting a field that does not hold the separator, followed by the separator. *)
Lemma split_aux_app a s sep cur :
  sep ∉ a -> split_aux (a ++ sep :: s) sep cur = (cur ++ a) :: split_aux s sep [].
Proof.
  revert cur. induction a as [|b a IH]; intros cur Ha; simpl.
  - rewrite decide_True by done. by rewrite app_nil_r.
  - apply not_elem_of_cons in Ha as [Hb Ha]. rewrite decide_False by done.
    rewrite IH by done. by rewrite <- app_assoc.
Qed.

Lemma split_aux_last a sep cur : sep ∉ a -> split_aux a sep cur = [cur ++ a].
Proof.
  revert cur. induction a as [|b a IH]; intros cur Ha; simpl; [by rewrite app_nil_r|].
  apply not_elem_of_cons in Ha as [Hb Ha]. rewrite decide_False by done.
  rewrite IH by done. by rewrite <- app_assoc.
Qed.

(** ** Lemmas on 32-bit words *)

Lemma from_le_range s : 0 <= from_le s < 256 ^ zlen s.
Proof.
  induction s as [|b s IH]; [unfold zlen; simpl; lia|].
  pose proof (bval_range b). rewrite zlen_cons, Z.pow_add_r by (pose proof (zlen_nonneg s); lia).
  cbn [from_le]. lia.
Qed.

Lemma from_le_le32 z : from_le (le32 z) = u32 z.
Proof.
  unfold le32, u32. cbn [from_le]. rewrite !bval_to_byte.
  change (2 ^ 32) with (256 * (256 * (256 * 256))).
  change (2 ^ 24) with (256 * (256 * 256)). change (2 ^ 16) with (256 * 256).
  change (2 ^ 8) with 256.
  rewrite !Z.rem_mul_r, <- !Z.div_div by lia. lia.
Qed.

Lemma from_be_be32 z : from_be (be32 z) = u32 z.
Proof. unfold from_be, be32. by rewrite reverse_involutive, from_le_le32. Qed.

Lemma length_le32 z : length (le32 z) = 4%nat.
Proof. done. Qed.

Lemma length_be32 z : length (be32 z) = 4%nat.
Proof. done. Qed.

Lemma u32_small z : 0 <= z < 2 ^ 32 -> u32 z = z.
Proof. apply Z.mod_small. Qed.

(** ** Lemmas on base64 *)

Lemma length_b64_raw_32 s : length s = 32%nat -> length (b64_raw s) = 43%nat.
Proof. do 33 (destruct s as [|? s]; [done|]). done. Qed.

Lemma b64_std_32 s : length s = 32%nat -> b64_std s = b64_raw s ++ §"=".
Proof. intros Hs. unfold b64_std. by rewrite Hs. Qed.

#[export] Hint Rewrite length_le32 length_be32 from_le_le32 from_be_be32 : zlen.

(** ** Decimal numbers *)

Lemma digits_value_snoc s b : digits_value (s ++ [b]) = digits_value s * 10 + (bval b - 48).
Proof. unfold digits_value. by rewrite fold_left_app. Qed.

Lemma pretty_N_char_digit n : (n < 10)%N -> bval (pretty_N_char n) = 48 + Z.of_N n.
Proof.
  intros Hn. unfold pretty_N_char. assert (Z.of_N n < 10) as Hz by lia. clear Hn.
  destruct n as [|p]; [done|]. repeat (destruct p as [p|p|]; try done; try lia).
Qed.

(** The decimal text of a positive number: digits, the first not a zero. *)
Lemma pretty_N_go_spec x s :
  (0 < x)%N ->
  exists ds, String.list_ascii_of_string (pretty_N_go x s) = ds ++ String.list_ascii_of_string s
    /\ forallb is_digit ds = true /\ digits_value ds = Z.of_N x
    /\ exists d ds', ds = d :: ds' /\ 49 <= bval d <= 57.
Proof.
  revert s. induction (N.lt_wf_0 x) as [x _ IH]. intros s Hx. rewrite pretty_N_go_step by done.
  pose proof (N.mod_lt x 10 ltac:(done)) as Hm. pose proof (pretty_N_char_digit _ Hm) as Hd.
  assert (is_digit (pretty_N_char (x mod 10)) = true) as Hdig.
  { unfold is_digit. rewrite Hd. clear -Hm. revert Hm. generalize (x mod 10)%N. lia. }
  pose proof (N.div_mod x 10 ltac:(done)) as Hdm.
  destruct (decide (x `div` 10 = 0)%N) as [H0|H0].
  - rewrite H0. exists [pretty_N_char (x mod 10)]. split; [done|]. split; [simpl; by rewrite Hdig|].
    split; [unfold digits_value; simpl; lia|]. do 2 eexists. split; [done|].
    revert Hd Hdm Hm. rewrite H0. generalize (x mod 10)%N. lia.
  - destruct (IH (x `div` 10)%N ltac:(apply N.div_lt; lia) (String (pretty_N_char (x mod 10)) s) ltac:(lia))
      as (ds & Hs & Hf & Hv & d & ds' & -> & Hd').
    exists ((d :: ds') ++ [pretty_N_char (x mod 10)]). split; [by rewrite Hs, <- app_assoc|].
    split; [rewrite forallb_app, Hf; simpl; by rewrite Hdig|].
    split; [rewrite digits_value_snoc, Hv, Hd; lia|]. exists d. eexists. split; [done|lia].
Qed.

Lemma itoa_nonneg z :
  0 <= z ->
  forallb is_digit (itoa z) = true /\ digits_value (itoa z) = z
  /\ (itoa z = §"0" \/ exists d ds, itoa z = d :: ds /\ 49 <= bval d <= 57).
Proof.
  intros Hz. destruct z as [|p|p]; [split; [done|split; [done|by left]]| |lia].
  destruct (pretty_N_go_spec (Npos p) "" ltac:(done)) as (ds & Hs & Hf & Hv & d & ds' & -> & Hd).
  assert (itoa (Zpos p) = d :: ds') as ->.
  { unfold itoa. transitivity (String.list_ascii_of_string (pretty_N_go (Npos p) "")); [done|].
    rewrite Hs. apply app_nil_r. }
  split; [done|split; [done|]]. right. eauto.
Qed.

Lemma itoa_neg z : z < 0 -> itoa z = "-"%char :: itoa (- z).
Proof. by destruct z. Qed.

(** ** The order of strings *)

Lemma bytes_le_total s t : bytes_le s t = true \/ bytes_le t s = true.
Proof.
  revert t. induction s as [|a s IH]; intros [|b t]; simpl; [auto..|].
  destruct (IH t) as [H|H]; rewrite H;
    destruct (Z.lt_trichotomy (bval a) (bval b)) as [|[|]];
    (left; lia) || (right; lia) || (destruct (bytes_le s t); left; lia) || (destruct (bytes_le t s); right; lia).
Qed.

Lemma bytes_le_trans s t u : bytes_le s t = true -> bytes_le t u = true -> bytes_le s u = true.
Proof.
  revert t u. induction s as [|a s IH]; intros [|b t] [|c u]; simpl; try done.
  specialize (IH t u). destruct (bytes_le s t), (bytes_le t u), (bytes_le s u); 
    try (by discriminate (IH eq_refl eq_refl)); lia.
Qed.
