(* ===== verification/GoTime.v ===== *)
(** * The parts of Go's [time] package the sources use

    An instant is the number of nanoseconds since the Unix epoch; a duration is a
    number of nanoseconds.  Instants are formatted in UTC with the three layouts the
    sources have. *)

From S2P Require Import Prelude GoStr.
From stdpp Require Import options.
Open Scope Z_scope.

Definition Microsecond : Z := 1000.
Definition Millisecond : Z := 1000000.
Definition Second : Z := 1000000000.
Definition Minute : Z := 60 * Second.

Definition unix (t : Z) : Z := t / Second.
Definition nanosecond (t : Z) : Z := t mod Second.

(** [d.Seconds()] truncated to an int, for a duration that is not negative. *)
Definition whole_seconds (d : Z) : Z := Z.quot d Second.

(** ** The calendar *)

Record civil := Civil { year : Z; month : Z; day : Z }.

(** The proleptic Gregorian date of a day number since 1970-01-01; years are counted
    from March inside 400-year eras. *)
Definition civil_of_days (n : Z) : civil :=
  let z := n + 719468 in
  let era := z / 146097 in
  let doe := z mod 146097 in
  let yoe := (doe - doe / 1460 + doe / 36524 - doe / 146096) / 365 in
  let doy := doe - (365 * yoe + yoe / 4 - yoe / 100) in
  let mp := (5 * doy + 2) / 153 in
  let d := doy - (153 * mp + 2) / 5 + 1 in
  let m := if mp <? 10 then mp + 3 else mp - 9 in
  Civil (yoe + era * 400 + (if m <=? 2 then 1 else 0)) m d.

(** Zero-padded decimal. *)
Definition pad0 (n : nat) (z : Z) : str :=
  let s := itoa z in replicate (n - length s) "0"%char ++ s.

Definition date_text (t : Z) : str :=
  let c := civil_of_days (unix t / 86400) in
  pad0 4 (year c) ++ §"-" ++ pad0 2 (month c) ++ §"-" ++ pad0 2 (day c).

Definition hour_minute (t : Z) : str :=
  let s := unix t mod 86400 in pad0 2 (s / 3600) ++ §":" ++ pad0 2 (s / 60 mod 60).

(** [Format("2006-01-02 15:04")]. *)
Definition format_minute (t : Z) : str := date_text t ++ §" " ++ hour_minute t.

(** [Format(time.RFC3339)] of an instant in UTC. *)
Definition format_rfc3339 (t : Z) : str :=
  date_text t ++ §"T" ++ hour_minute t ++ §":" ++ pad0 2 (unix t mod 60) ++ §"Z".

Fixpoint strip_zeros (s : str) : str :=
  match s with
  | [] => []
  | b :: s' => let r := strip_zeros s' in if decide (r = [] /\ b = "0"%char) then [] else b :: r
  end.

(** [Format(time.RFC3339Nano)] of an instant in UTC: trailing zeros of the fraction
    are dropped, and the point with them. *)
Definition format_rfc3339nano (t : Z) : str :=
  let frac := strip_zeros (pad0 9 (nanosecond t)) in
  date_text t ++ §"T" ++ hour_minute t ++ §":" ++ pad0 2 (unix t mod 60)
  ++ (if bool_decide (frac = []) then [] else §"." ++ frac) ++ §"Z".

Example rfc3339_epoch : format_rfc3339 0 = §"1970-01-01T00:00:00Z".
Proof. vm_compute. reflexivity. Qed.

Example rfc3339_leap_day : format_rfc3339 (1709210096 * Second) = §"2024-02-29T12:34:56Z".
Proof. vm_compute. reflexivity. Qed.

Example rfc3339nano_fraction : format_rfc3339nano (1709210096 * Second + 120300000) = §"2024-02-29T12:34:56.1203Z".
Proof. vm_compute. reflexivity. Qed.

Example minute_before_epoch : format_minute (- Second) = §"1969-12-31 23:59".
Proof. vm_compute. reflexivity. Qed.
