(* ===== verification/Sha256.v ===== *)
(** * Go's [crypto/sha256] and [encoding/hex]

    The compression function on 32-bit words, the padding, and the lower-case
    hexadecimal text of a digest.  The examples are the published test vectors. *)

From S2P Require Import Prelude GoStr.
From stdpp Require Import options.
Open Scope Z_scope.

(** The constants of FIPS 180-4 are the first 32 bits of the fractional parts of the
    cube roots, and for the initial words of the square roots, of the first primes. *)
Fixpoint cube_root_upto (n : nat) (x r : Z) : Z :=
  match n with
  | O => r
  | S n => let r' := r + 2 ^ Z.of_nat n in cube_root_upto n x (if r' * r' * r' <=? x then r' else r)
  end.

Definition is_prime (p : Z) : bool :=
  forallb (fun q => negb (p mod q =? 0)) (map Z.of_nat (seq 2 (Z.to_nat (p - 2)))).

Definition primes : list Z := List.filter is_prime (map Z.of_nat (seq 2 310)).

Definition round_constants : list Z :=
  Eval vm_compute in map (fun p => u32 (cube_root_upto 36 (p * 2 ^ 96) 0)) primes.

Definition root_word (n : nat) : Z := u32 (Z.sqrt (nth n primes 0 * 2 ^ 64)).

Definition rotr (x n : Z) : Z := u32 (Z.lor (Z.shiftr x n) (Z.shiftl x (32 - n))).

Definition xor3 (a b c : Z) : Z := Z.lxor a (Z.lxor b c).

(** The chaining value: eight words. *)
Record words8 := Words { wa : Z; wb : Z; wc : Z; wd : Z; we : Z; wf : Z; wg : Z; wh : Z }.

Definition initial_words : words8 :=
  Eval vm_compute in
  Words (root_word 0) (root_word 1) (root_word 2) (root_word 3) (root_word 4) (root_word 5) (root_word 6) (root_word 7).

(** The message schedule, kept newest word first. *)
Definition next_word (w : list Z) : Z :=
  let at_ n := nth (n - 1) w 0 in
  let s0 := let x := at_ 15%nat in xor3 (rotr x 7) (rotr x 18) (Z.shiftr x 3) in
  let s1 := let x := at_ 2%nat in xor3 (rotr x 17) (rotr x 19) (Z.shiftr x 10) in
  u32 (at_ 16%nat + s0 + at_ 7%nat + s1).

Fixpoint extend (n : nat) (w : list Z) : list Z :=
  match n with O => w | S n => extend n (next_word w :: w) end.

Definition round (s : words8) (kw : Z * Z) : words8 :=
  let '(k, w) := kw in
  let s1 := xor3 (rotr (we s) 6) (rotr (we s) 11) (rotr (we s) 25) in
  let ch := Z.lxor (Z.land (we s) (wf s)) (Z.land (Z.lxor (we s) 0xffffffff) (wg s)) in
  let t1 := u32 (wh s + s1 + ch + k + w) in
  let s0 := xor3 (rotr (wa s) 2) (rotr (wa s) 13) (rotr (wa s) 22) in
  let maj := xor3 (Z.land (wa s) (wb s)) (Z.land (wa s) (wc s)) (Z.land (wb s) (wc s)) in
  let t2 := u32 (s0 + maj) in
  Words (u32 (t1 + t2)) (wa s) (wb s) (wc s) (u32 (wd s + t1)) (we s) (wf s) (wg s).

(** The big-endian words of a block of 64 bytes. *)
Fixpoint block_words (n : nat) (b : str) : list Z :=
  match n with O => [] | S n => from_be (take 4 b) :: block_words n (drop 4 b) end.

Definition compress (h : words8) (block : str) : words8 :=
  let w := reverse (extend 48 (reverse (block_words 16 block))) in
  let s := fold_left round (zip round_constants w) h in
  Words (u32 (wa h + wa s)) (u32 (wb h + wb s)) (u32 (wc h + wc s)) (u32 (wd h + wd s))
        (u32 (we h + we s)) (u32 (wf h + wf s)) (u32 (wg h + wg s)) (u32 (wh h + wh s)).

Definition padding (len : Z) : str :=
  [to_byte 128] ++ replicate (Z.to_nat ((55 - len) mod 64)) (to_byte 0)
  ++ be32 (len * 8 / 2 ^ 32) ++ be32 (len * 8).

Fixpoint compress_all (n : nat) (h : words8) (s : str) : words8 :=
  match n with O => h | S n => compress_all n (compress h (take 64 s)) (drop 64 s) end.

Definition sha256 (s : str) : str :=
  let m := s ++ padding (zlen s) in
  let h := compress_all (length m / 64) initial_words m in
  be32 (wa h) ++ be32 (wb h) ++ be32 (wc h) ++ be32 (wd h)
  ++ be32 (we h) ++ be32 (wf h) ++ be32 (wg h) ++ be32 (wh h).

Definition hex_char (n : Z) : byte := to_byte (if n <? 10 then 48 + n else 87 + n).

(** [hex.EncodeToString]. *)
Fixpoint hex_encode (s : str) : str :=
  match s with
  | [] => []
  | b :: s' => hex_char (bval b / 16) :: hex_char (bval b mod 16) :: hex_encode s'
  end.

Lemma length_sha256 s : length (sha256 s) = 32%nat.
Proof. unfold sha256. by rewrite !length_app, !length_be32. Qed.

Lemma length_hex_encode s : length (hex_encode s) = (2 * length s)%nat.
Proof. induction s as [|b s IH]; [done|]. simpl. lia. Qed.

Example sha256_empty :
  hex_encode (sha256 []) = §"e3b0c44298fc1c149afbf4c8996fb92427ae41e4649b934ca495991b7852b855".
Proof. vm_compute. reflexivity. Qed.

Example sha256_abc :
  hex_encode (sha256 §"abc") = §"ba7816bf8f01cfea414140de5dae2223b00361a396177a9cb410ff61f20015ad".
Proof. vm_compute. reflexivity. Qed.

Example sha256_two_blocks :
  hex_encode (sha256 §"abcdbcdecdefdefgefghfghighijhijkijkljklmklmnlmnomnopnopq")
  = §"248d6a61d20638b8e5c026930c3e6039a33ce45964ff2167f6ecedd419db06c1".
Proof. vm_compute. reflexivity. Qed.
