(* ===== verification/Net.v ===== *)
(** * The parts of Go's [net] package the sources use

    [net.ParseIP] and [net.IP.String], and [net.SplitHostPort].  A [net.IP] is
    represented by its canonical text, the nil address by [None].  The parser of
    IPv6 text is the one part left open. *)

From S2P Require Import Prelude GoStr.
From stdpp Require Import options.
Open Scope Z_scope.

(** ** net.ParseIP *)

(** One field of a dotted quad: decimal, at most 255, no leading zero. *)
Definition octet (f : str) : bool :=
  negb (bool_decide (f = [])) && forallb is_digit f
  && ((length f =? 1)%nat || negb (bool_decide (head f = Some "0"%char)))
  && (digits_value f <=? 255).

Definition parse_ipv4 (s : str) : option str :=
  let fs := Split s "."%char in
  if (length fs =? 4)%nat && forallb octet fs then Some s else None.

(** The IPv6 parser: from text to the canonical text of the address. *)
Class IPv6Text := {
  parse_ipv6 : str -> option str;
  parse_ipv6_no_slash : forall s a, parse_ipv6 s = Some a -> "/"%char ∉ s;
}.

(** The first of ['.'], [':'], ['%'] in the text decides which parser runs. *)
Fixpoint addr_kind (s : str) : option byte :=
  match s with
  | [] => None
  | b :: s' =>
      if decide (b = "."%char \/ b = ":"%char \/ b = "%"%char) then Some b else addr_kind s'
  end.

Definition ParseIP {V6 : IPv6Text} (s : str) : option str :=
  match addr_kind s with
  | Some k =>
      if decide (k = "."%char) then parse_ipv4 s
      else if decide (k = ":"%char) then parse_ipv6 s
      else None
  | None => None
  end.

(** [ip.String()]. *)
Definition IP_String (ip : option str) : str := default §"<nil>" ip.

(** ** net.SplitHostPort *)

Fixpoint IndexByte (s : str) (c : byte) : Z :=
  match s with
  | [] => -1
  | b :: s' => if decide (b = c) then 0 else let i := IndexByte s' c in if i <? 0 then -1 else i + 1
  end.

Definition from (s : str) (i : Z) : str := drop (Z.to_nat i) s.
Definition upto (s : str) (i : Z) : str := take (Z.to_nat i) s.

(** [None] is the error, on which the source goes on with empty strings. *)
Definition SplitHostPort (hostport : str) : option (str * str) :=
  let i := LastIndexByte hostport ":"%char in
  if i <? 0 then None else
  let port := from hostport (i + 1) in
  if decide (head hostport = Some "["%char) then
    let e := IndexByte hostport "]"%char in
    if e <? 0 then None
    else if negb (e + 1 =? i) then None
    else if 0 <=? IndexByte (from hostport 1) "["%char then None
    else if 0 <=? IndexByte (from hostport (e + 1)) "]"%char then None
    else Some (upto (from hostport 1) (e - 1), port)
  else
    let host := upto hostport i in
    if 0 <=? IndexByte host ":"%char then None
    else if 0 <=? IndexByte hostport "["%char then None
    else if 0 <=? IndexByte hostport "]"%char then None
    else Some (host, port).

(** [host, _, _ := net.SplitHostPort(addr)]. *)
Definition host_of (addr : str) : str := default [] (fst <$> SplitHostPort addr).

(** ** Lemmas *)

Lemma split_aux_elem s sep cur f b :
  f ∈ split_aux s sep cur -> b ∈ f -> b ∈ cur \/ b ∈ s.
Proof.
  revert cur. induction s as [|c s IH]; intros cur; simpl.
  - intros ?%list_elem_of_singleton; subst. by left.
  - case_decide as Hc.
    + intros [?|Hf]%elem_of_cons Hb; subst; [by left|].
      destruct (IH _ Hf Hb) as [Hn|?]; [by apply not_elem_of_nil in Hn|right; by right].
    + intros Hf Hb. destruct (IH _ Hf Hb) as [[?|?%list_elem_of_singleton]%elem_of_app|?]; subst;
        [by left|right; by left|right; by right].
Qed.

(** Every byte of the text is in one of its fields, or is the separator. *)
Lemma elem_of_split_aux s sep cur b :
  b ∈ cur \/ b ∈ s -> b <> sep -> exists f, f ∈ split_aux s sep cur /\ b ∈ f.
Proof.
  revert cur. induction s as [|c s IH]; intros cur Hb Hne; simpl.
  - exists cur. split; [by left|]. destruct Hb as [|Hn]; [done|by apply not_elem_of_nil in Hn].
  - case_decide as Hc.
    + destruct Hb as [Hb|[?|Hb]%elem_of_cons]; [|by subst|].
      * exists cur. split; [by left|done].
      * destruct (IH [] (or_intror Hb) Hne) as (f & ? & ?). exists f. split; [by right|done].
    + apply IH; [|done]. rewrite elem_of_app, list_elem_of_singleton.
      rewrite elem_of_cons in Hb. naive_solver.
Qed.

Lemma parse_ipv4_bytes s a b : parse_ipv4 s = Some a -> b ∈ s -> b = "."%char \/ is_digit b = true.
Proof.
  unfold parse_ipv4, Split. case_match eqn:H; [|done]. intros _ Hb.
  apply andb_prop in H as [_ Hf]. rewrite forallb_forall in Hf.
  destruct (decide (b = "."%char)) as [|Hne]; [by left|right].
  destruct (elem_of_split_aux s "."%char [] b) as (f & Hin & Hbf); [by right|done|].
  specialize (Hf f (proj1 (list_elem_of_In _ _) Hin)).
  unfold octet in Hf. rewrite !andb_true_iff in Hf. destruct Hf as [[[_ Hd] _] _].
  rewrite forallb_forall in Hd. by apply Hd, list_elem_of_In.
Qed.

Lemma parse_ipv4_id s a : parse_ipv4 s = Some a -> a = s.
Proof. unfold parse_ipv4. case_match; congruence. Qed.

(** A text with a slash, such as a network, is not an address. *)
Lemma ParseIP_slash {V6 : IPv6Text} s : "/"%char ∈ s -> ParseIP s = None.
Proof.
  intros Hs. unfold ParseIP. destruct (addr_kind s) as [k|]; [|done].
  case_decide; [|case_decide; [|done]].
  - destruct (parse_ipv4 s) eqn:Hp; [|done]. destruct (parse_ipv4_bytes s _ _ Hp Hs) as [?|Hd]; done.
  - destruct (parse_ipv6 s) eqn:Hp; [|done]. by destruct (parse_ipv6_no_slash _ _ Hp).
Qed.

(** Instance for concrete runs: no IPv6 address parses. *)
Definition no_ipv6 : IPv6Text.
Proof. by refine {| parse_ipv6 := fun _ => None |}. Defined.

Example ParseIP_seed : ParseIP (V6 := no_ipv6) §"10.0.1.10" = Some §"10.0.1.10".
Proof. reflexivity. Qed.

Example ParseIP_leading_zero : ParseIP (V6 := no_ipv6) §"10.0.01.10" = None.
Proof. reflexivity. Qed.

Example SplitHostPort_v6 : SplitHostPort §"[fe80::1]:443" = Some (§"fe80::1", §"443").
Proof. reflexivity. Qed.

Example SplitHostPort_v4 : host_of §"192.0.2.7:51022" = §"192.0.2.7".
Proof. reflexivity. Qed.
