(* ===== verification/Json.v ===== *)
(** * The parts of Go's [encoding/json] the sources use

    The encoder of strings, integers and flat objects (HTML escaping on, as
    [json.Marshal] has it), a parser of JSON texts, and how [json.Unmarshal] fills
    string and integer fields of a struct.  The parser works on the runes of the
    text.  Its fuel counts nested calls; two per rune are enough ([jvalue_enough]). *)

From S2P Require Import Prelude GoStr.
From stdpp Require Import options.
Open Scope Z_scope.

(** ** Encoding *)

Definition DQ : str := [to_byte 34].
Definition BSL : str := [to_byte 92].

Definition hex_digit (n : Z) : byte := to_byte (if n <? 10 then 48 + n else 87 + n).

(** One rune of a string, escaped ([appendString]). *)
Definition json_esc (c : Z * str) : str :=
  let '(r, bs) := c in
  if r <? 128 then
    if (r =? 34) || (r =? 92) then BSL ++ bs
    else if r =? 8 then BSL ++ §"b"
    else if r =? 12 then BSL ++ §"f"
    else if r =? 10 then BSL ++ §"n"
    else if r =? 13 then BSL ++ §"r"
    else if r =? 9 then BSL ++ §"t"
    else if (r <? 32) || (r =? 60) || (r =? 62) || (r =? 38)
    then BSL ++ §"u00" ++ [hex_digit (r / 16); hex_digit (r mod 16)]
    else bs
  else if (r =? RuneError) && (length bs =? 1)%nat then BSL ++ §"ufffd"
  else if (r =? 8232) || (r =? 8233) then BSL ++ §"u202" ++ [hex_digit (r mod 16)]
  else bs.

Definition json_body (s : str) : str := concat (map json_esc (runes s)).
Definition json_string (s : str) : str := DQ ++ json_body s ++ DQ.

(** Values the sources marshal, and a flat object of them. *)
Inductive jval := VStr (s : str) | VInt (z : Z).

Definition json_val (v : jval) : str :=
  match v with VStr s => json_string s | VInt z => itoa z end.

Definition json_member (m : str * jval) : str := json_string m.1 ++ §":" ++ json_val m.2.

Definition json_object (ms : list (str * jval)) : str :=
  §"{" ++ Join (map json_member ms) §"," ++ §"}".

(** ** Parsing *)

Inductive json :=
  | JNull
  | JBool (b : bool)
  | JNum (text : str)
  | JStr (s : str)
  | JArr (l : list json)
  | JObj (l : list (str * json)).

(** [utf8.EncodeRune]. *)
Definition encode_rune (r : Z) : str :=
  let r := if (r <? 0) || (1114111 <? r) || ((55296 <=? r) && (r <=? 57343)) then RuneError else r in
  if r <? 128 then [to_byte r]
  else if r <? 2048 then [to_byte (192 + r / 64); to_byte (128 + r mod 64)]
  else if r <? 65536 then [to_byte (224 + r / 4096); to_byte (128 + r / 64 mod 64); to_byte (128 + r mod 64)]
  else [to_byte (240 + r / 262144); to_byte (128 + r / 4096 mod 64); to_byte (128 + r / 64 mod 64); to_byte (128 + r mod 64)].

Definition hex_value (r : Z) : option Z :=
  if (48 <=? r) && (r <=? 57) then Some (r - 48)
  else if (97 <=? r) && (r <=? 102) then Some (r - 87)
  else if (65 <=? r) && (r <=? 70) then Some (r - 55)
  else None.

Definition hex4 (a b c d : Z) : option Z :=
  match hex_value a, hex_value b, hex_value c, hex_value d with
  | Some a, Some b, Some c, Some d => Some (((a * 16 + b) * 16 + c) * 16 + d)
  | _, _, _, _ => None
  end.

Definition is_surrogate (r : Z) : bool := (55296 <=? r) && (r <=? 57343).

(** [utf16.DecodeRune]. *)
Definition decode_surrogates (r1 r2 : Z) : option Z :=
  if (55296 <=? r1) && (r1 <=? 56319) && (56320 <=? r2) && (r2 <=? 57343)
  then Some ((r1 - 55296) * 1024 + (r2 - 56320) + 65536) else None.

Definition simple_escape (r : Z) : option Z :=
  if (r =? 34) || (r =? 92) || (r =? 47) then Some r
  else if r =? 98 then Some 8
  else if r =? 102 then Some 12
  else if r =? 110 then Some 10
  else if r =? 114 then Some 13
  else if r =? 116 then Some 9
  else None.

Abbreviation rune := (Z * str)%type (only parsing).

Definition cons_str (bs : str) (o : option (str * list rune)) : option (str * list rune) :=
  match o with Some (s, k) => Some (bs ++ s, k) | None => None end.

(** The rest of a string literal after its opening quote. *)
Fixpoint jstr (cs : list rune) : option (str * list rune) :=
  match cs with
  | [] => None
  | (r, bs) :: k =>
      if r =? 34 then Some ([], k)
      else if r =? 92 then
        match k with
        | [] => None
        | (e, _) :: k1 =>
            match simple_escape e with
            | Some v => cons_str [to_byte v] (jstr k1)
            | None =>
                if negb (e =? 117) then None else
                match k1 with
                | (a, _) :: (b, _) :: (c, _) :: (d, _) :: k2 =>
                    match hex4 a b c d with
                    | None => None
                    | Some v =>
                        if negb (is_surrogate v) then cons_str (encode_rune v) (jstr k2) else
                        match k2 with
                        | (92, _) :: (117, _) :: (a', _) :: (b', _) :: (c', _) :: (d', _) :: k3 =>
                            match hex4 a' b' c' d' ≫= decode_surrogates v with
                            | Some w => cons_str (encode_rune w) (jstr k3)
                            | None => cons_str (encode_rune RuneError) (jstr k2)
                            end
                        | _ => cons_str (encode_rune RuneError) (jstr k2)
                        end
                    end
                | _ => None
                end
            end
        end
      else if r <? 32 then None
      else cons_str (if (r =? RuneError) && (length bs =? 1)%nat then encode_rune RuneError else bs) (jstr k)
  end.

Definition json_space (r : Z) : bool := (r =? 32) || (r =? 9) || (r =? 10) || (r =? 13).

Fixpoint skip_ws (cs : list rune) : list rune :=
  match cs with
  | (r, bs) :: k => if json_space r then skip_ws k else cs
  | [] => []
  end.

Definition digit_rune (r : Z) : bool := (48 <=? r) && (r <=? 57).

(** The longest run of digits. *)
Fixpoint span_digits (cs : list rune) : str * list rune :=
  match cs with
  | (r, bs) :: k => if digit_rune r then let '(s, k') := span_digits k in (bs ++ s, k') else ([], cs)
  | [] => ([], [])
  end.

Definition jint (cs : list rune) : option (str * list rune) :=
  match cs with
  | (48, bs) :: k => Some (bs, k)
  | (r, bs) :: k => if digit_rune r then Some (span_digits cs) else None
  | [] => None
  end.

Definition jfrac (cs : list rune) : option (str * list rune) :=
  match cs with
  | (46, bs) :: k =>
      let '(s, k') := span_digits k in
      if bool_decide (s = []) then None else Some (bs ++ s, k')
  | _ => Some ([], cs)
  end.

Definition jexp (cs : list rune) : option (str * list rune) :=
  match cs with
  | (r, bs) :: k =>
      if (r =? 101) || (r =? 69) then
        let '(sign, k1) := match k with
                           | (r', bs') :: k' => if (r' =? 43) || (r' =? 45) then (bs', k') else ([], k)
                           | [] => ([], [])
                           end in
        let '(s, k') := span_digits k1 in
        if bool_decide (s = []) then None else Some (bs ++ sign ++ s, k')
      else Some ([], cs)
  | [] => Some ([], [])
  end.

(** A number literal, kept as text. *)
Definition jnum (cs : list rune) : option (str * list rune) :=
  let '(sign, cs) := match cs with (45, bs) :: k => (bs, k) | _ => ([], cs) end in
  '(i, cs) ← jint cs;
  '(f, cs) ← jfrac cs;
  '(e, cs) ← jexp cs;
  Some (sign ++ i ++ f ++ e, cs).

Definition jlit (w : str) (v : json) (cs : list rune) : option (json * list rune) :=
  if bool_decide (take (length w) cs = runes w) then Some (v, drop (length w) cs) else None.

Fixpoint jvalue (n : nat) (cs : list rune) : option (json * list rune) :=
  match n with
  | O => None
  | S n =>
      match skip_ws cs with
      | [] => None
      | (r, bs) :: k =>
          if r =? 34 then '(s, k) ← jstr k; Some (JStr s, k)
          else if r =? 123 then
            match skip_ws k with
            | (125, _) :: k' => Some (JObj [], k')
            | _ => '(ms, k') ← jmembers n k; Some (JObj ms, k')
            end
          else if r =? 91 then
            match skip_ws k with
            | (93, _) :: k' => Some (JArr [], k')
            | _ => '(vs, k') ← jelems n k; Some (JArr vs, k')
            end
          else if r =? 116 then jlit §"true" (JBool true) ((r, bs) :: k)
          else if r =? 102 then jlit §"false" (JBool false) ((r, bs) :: k)
          else if r =? 110 then jlit §"null" JNull ((r, bs) :: k)
          else '(s, k) ← jnum ((r, bs) :: k); Some (JNum s, k)
      end
  end
with jelems (n : nat) (cs : list rune) : option (list json * list rune) :=
  match n with
  | O => None
  | S n =>
      '(v, k) ← jvalue n cs;
      match skip_ws k with
      | (44, _) :: k' => '(vs, k'') ← jelems n k'; Some (v :: vs, k'')
      | (93, _) :: k' => Some ([v], k')
      | _ => None
      end
  end
with jmembers (n : nat) (cs : list rune) : option (list (str * json) * list rune) :=
  match n with
  | O => None
  | S n =>
      match skip_ws cs with
      | (34, _) :: k =>
          '(key, k) ← jstr k;
          match skip_ws k with
          | (58, _) :: k =>
              '(v, k) ← jvalue n k;
              match skip_ws k with
              | (44, _) :: k' => '(ms, k'') ← jmembers n k'; Some ((key, v) :: ms, k'')
              | (125, _) :: k' => Some ([(key, v)], k')
              | _ => None
              end
          | _ => None
          end
      | _ => None
      end
  end.

(** A whole text: one value and nothing but white space after it. *)
Definition json_parse (s : str) : option json :=
  let cs := runes s in
  '(v, k) ← jvalue (S (2 * length cs)) cs;
  if bool_decide (skip_ws k = []) then Some v else None.

(** ** Filling a struct *)

(** [strconv.ParseInt(text, 10, 64)] on the text of a JSON number. *)
Definition digit_text (s : str) : bool :=
  negb (bool_decide (s = [])) && forallb is_digit s.

Definition parse_int64 (s : str) : option Z :=
  let '(neg, ds) := match s with "-"%char :: ds => (true, ds) | _ => (false, s) end in
  if digit_text ds then
    let v := if neg : bool then - digits_value ds else digits_value ds in
    if (-(2 ^ 63) <=? v) && (v <? 2 ^ 63) then Some v else None
  else None.

(** A string field and an integer field given one member's value: [None] is a type
    error, null leaves the field alone. *)
Definition set_string (old : str) (v : json) : option str :=
  match v with JStr s => Some s | JNull => Some old | _ => None end.

Definition set_int (old : Z) (v : json) : option Z :=
  match v with JNum t => parse_int64 t | JNull => Some old | _ => None end.

(** Whether a member's key names a field: exactly, or else up to case. *)
Definition key_matches {UT : UnicodeTables} (key field : str) : bool :=
  bool_decide (key = field) || EqualFold key field.

(** ** The parser makes progress, and its fuel suffices *)

(** Invert a chain of [match]es and binds that succeeded. *)
Ltac inv_parse H :=
  repeat (simpl in H; unfold mbind, option_bind in H; case_match; simplify_eq/=; try discriminate).

Lemma skip_ws_le cs : (length (skip_ws cs) <= length cs)%nat.
Proof. induction cs as [|[r bs] k IH]; simpl; [done|]. case_match; simpl; lia. Qed.

Lemma cons_str_Some bs o s k : cons_str bs o = Some (s, k) -> exists s', o = Some (s', k) /\ s = bs ++ s'.
Proof. destruct o as [[s' k']|]; simpl; intros; simplify_eq. eauto. Qed.

Lemma jstr_shorter cs s k : jstr cs = Some (s, k) -> (length k < length cs)%nat.
Proof.
  revert s k. induction cs as [cs IH] using (induction_ltof1 _ (@length rune)). unfold ltof in IH.
  intros s k H. destruct cs as [|[r bs] cs]; [done|]. cbn [jstr] in H.
  repeat (case_match; simplify_eq; try discriminate);
    repeat match goal with
    | H : cons_str _ _ = Some _ |- _ => apply cons_str_Some in H as (? & H & ->)
    | H : jstr _ = Some _ |- _ => apply IH in H; [simpl in *; lia|simpl; lia]
    end; simpl; lia.
Qed.

Lemma span_digits_le cs s k : span_digits cs = (s, k) -> (length k <= length cs)%nat.
Proof.
  revert s k. induction cs as [|[r bs] cs IH]; simpl; intros s k H; [by simplify_eq|].
  destruct (span_digits cs) as [s' k'] eqn:Hs. specialize (IH _ _ eq_refl).
  case_match; simplify_eq/=; lia.
Qed.

Lemma jint_shorter cs s k : jint cs = Some (s, k) -> (length k < length cs)%nat.
Proof.
  destruct cs as [|[r bs] cs]; [done|]. unfold jint. intros H.
  assert (Hg : forall s0 k0, span_digits ((r, bs) :: cs) = (s0, k0) -> digit_rune r = true -> (length k0 < length ((r, bs) :: cs))%nat).
  { simpl. intros s0 k0 Hs Hr. rewrite Hr in Hs. destruct (span_digits cs) eqn:Hc.
    apply span_digits_le in Hc. simplify_eq. lia. }
  repeat case_match; simplify_eq/=; try lia; eapply Hg; eauto.
Qed.

Lemma jfrac_le cs s k : jfrac cs = Some (s, k) -> (length k <= length cs)%nat.
Proof.
  unfold jfrac. intros H. repeat (case_match; simplify_eq/=; try lia).
  all: match goal with H : span_digits _ = _ |- _ => apply span_digits_le in H; lia end.
Qed.

Lemma jexp_le cs s k : jexp cs = Some (s, k) -> (length k <= length cs)%nat.
Proof.
  unfold jexp. intros H. repeat (case_match; simplify_eq/=; try lia).
  all: match goal with H : span_digits _ = _ |- _ => apply span_digits_le in H; simpl in *; lia end.
Qed.

Lemma jnum_shorter cs s k : jnum cs = Some (s, k) -> (length k < length cs)%nat.
Proof.
  unfold jnum. intros H. destruct (match cs with (45, bs) :: k => (bs, k) | _ => ([], cs) end) as [sign cs1] eqn:Hs.
  assert (length cs1 <= length cs)%nat by (clear H; repeat (case_match; simplify_eq/=; try lia)).
  destruct (jint cs1) as [[i cs2]|] eqn:Hi; simplify_eq/=.
  destruct (jfrac cs2) as [[f cs3]|] eqn:Hf; simplify_eq/=.
  destruct (jexp cs3) as [[e cs4]|] eqn:He; simplify_eq/=.
  apply jint_shorter in Hi. apply jfrac_le in Hf. apply jexp_le in He. lia.
Qed.

Lemma jlit_shorter w v c cs v' k : w <> [] -> jlit w v (c :: cs) = Some (v', k) -> (length k < length (c :: cs))%nat.
Proof.
  unfold jlit. intros Hw H. case_bool_decide; simplify_eq. rewrite length_drop.
  destruct w; [done|simpl; lia].
Qed.

(** What each parser leaves is shorter than what it was given. *)
Definition shrinks {A} (p : list rune -> option (A * list rune)) : Prop :=
  forall cs a k, p cs = Some (a, k) -> (length k < length cs)%nat.

Lemma parsers_shrink n : shrinks (jvalue n) /\ shrinks (jelems n) /\ shrinks (jmembers n).
Proof.
  unfold shrinks. induction n as [|n (IHv & IHe & IHm)]; [done|]. split; [|split]; intros cs a k H.
  - cbn [jvalue] in H. pose proof (skip_ws_le cs) as Hw.
    destruct (skip_ws cs) as [|[r bs] cs1] eqn:Hs; [done|]. simpl in Hw.
    destruct (r =? 34). { destruct (jstr cs1) as [[s k1]|] eqn:Hj; simplify_eq/=. apply jstr_shorter in Hj. lia. }
    destruct (r =? 123).
    { pose proof (skip_ws_le cs1) as Hw1.
      destruct (jmembers n cs1) as [[ms k1]|] eqn:Hj; simpl in H; [apply IHm in Hj|];
        repeat (case_match; simplify_eq/=; try lia). }
    destruct (r =? 91).
    { pose proof (skip_ws_le cs1) as Hw1.
      destruct (jelems n cs1) as [[ms k1]|] eqn:Hj; simpl in H; [apply IHe in Hj|];
        repeat (case_match; simplify_eq/=; try lia). }
    destruct (r =? 116); [apply jlit_shorter in H; [simpl in H; lia|done]|].
    destruct (r =? 102); [apply jlit_shorter in H; [simpl in H; lia|done]|].
    destruct (r =? 110); [apply jlit_shorter in H; [simpl in H; lia|done]|].
    destruct (jnum _) as [[s k1]|] eqn:Hj; simplify_eq/=. apply jnum_shorter in Hj. simpl in Hj. lia.
  - cbn [jelems] in H. destruct (jvalue n cs) as [[v k1]|] eqn:Hv; simplify_eq/=. apply IHv in Hv.
    pose proof (skip_ws_le k1). destruct (skip_ws k1) as [|[r bs] k2]; [done|]. simpl in *.
    destruct (jelems n k2) as [[vs k3]|] eqn:He; simpl in H; [apply IHe in He|];
      repeat (case_match; simplify_eq/=; try lia).
  - cbn [jmembers] in H. pose proof (skip_ws_le cs). destruct (skip_ws cs) as [|[r bs] k1]; [done|].
    simpl in *. destruct (decide (r = 34)) as [->|]; [|repeat (case_match; simplify_eq/=; try lia)].
    destruct (jstr k1) as [[key k2]|] eqn:Hj; simplify_eq/=. apply jstr_shorter in Hj.
    pose proof (skip_ws_le k2). destruct (skip_ws k2) as [|[r bs'] k3]; [done|]. simpl in *.
    destruct (decide (r = 58)) as [->|]; [|repeat (case_match; simplify_eq/=; try lia)].
    destruct (jvalue n k3) as [[v k4]|] eqn:Hv; simplify_eq/=. apply IHv in Hv.
    pose proof (skip_ws_le k4). destruct (skip_ws k4) as [|[r bs''] k5]; [done|]. simpl in *.
    destruct (jmembers n k5) as [[ms k6]|] eqn:Hm; simpl in H; [apply IHm in Hm|];
      repeat (case_match; simplify_eq/=; try lia).
Qed.

(** Fuel beyond two per rune changes nothing. *)
Lemma parsers_enough n :
  (forall m cs, (2 * length cs < n)%nat -> (2 * length cs < m)%nat -> jvalue n cs = jvalue m cs)
  /\ (forall m cs, (2 * length cs + 1 < n)%nat -> (2 * length cs + 1 < m)%nat -> jelems n cs = jelems m cs)
  /\ (forall m cs, (2 * length cs + 1 < n)%nat -> (2 * length cs + 1 < m)%nat -> jmembers n cs = jmembers m cs).
Proof.
  induction n as [|n (IHv & IHe & IHm)]; [split; [|split]; intros; lia|].
  split; [|split]; intros [|m] cs Hn Hm; try lia.
  - cbn [jvalue]. pose proof (skip_ws_le cs) as Hw.
    destruct (skip_ws cs) as [|[r bs] cs1]; [done|]. simpl in Hw.
    rewrite (IHm m cs1), (IHe m cs1) by lia. done.
  - cbn [jelems]. rewrite (IHv m cs) by lia. destruct (jvalue m cs) as [[v k]|] eqn:Hv; [|done]. simpl.
    apply parsers_shrink in Hv. pose proof (skip_ws_le k). destruct (skip_ws k) as [|[r bs] k']; [done|].
    simpl in *. rewrite (IHe m k') by lia. done.
  - cbn [jmembers]. pose proof (skip_ws_le cs). destruct (skip_ws cs) as [|[r bs] k]; [done|].
    destruct (jstr k) as [[key k1]|] eqn:Hj; [|done]. apply jstr_shorter in Hj. simpl in *.
    pose proof (skip_ws_le k1). destruct (skip_ws k1) as [|[r' bs'] k2]; [done|]. simpl in *.
    rewrite (IHv m k2) by lia. destruct (jvalue m k2) as [[v k3]|] eqn:Hv; [|done]. simpl.
    apply parsers_shrink in Hv. pose proof (skip_ws_le k3). destruct (skip_ws k3) as [|[r3 bs3] k4]; [done|].
    simpl in *. rewrite (IHm m k4) by lia. done.
Qed.

(** With the fuel of [json_parse] the answer is that of any larger fuel. *)
Lemma jvalue_enough n cs : (2 * length cs < n)%nat -> jvalue n cs = jvalue (S (2 * length cs)) cs.
Proof. intros Hn. apply parsers_enough; lia. Qed.

(** ** Round trips *)

(** A string with each invalid byte replaced by the replacement character. *)
Definition valid_rune (c : rune) : bool := negb ((c.1 =? RuneError) && (length c.2 =? 1)%nat).
Definition to_valid (s : str) : str :=
  concat (map (fun c : rune => if valid_rune c then c.2 else encode_rune RuneError) (runes s)).

Lemma to_valid_id s : forallb valid_rune (runes s) = true -> to_valid s = s.
Proof.
  intros Hv. unfold to_valid. transitivity (chunk_bytes (runes s)); [|apply chunk_bytes_runes].
  unfold chunk_bytes. f_equal. apply map_ext_in. intros c Hc.
  rewrite forallb_forall in Hv. by rewrite Hv.
Qed.

(** A valid rune is decoded from its bytes alone. *)
Lemma decode_rune_ext r bs k k' :
  decode_rune (bs ++ k) = Some (r, bs) -> valid_rune (r, bs) = true -> decode_rune (bs ++ k') = Some (r, bs).
Proof.
  intros H Hv. pose proof (decode_rune_Some _ _ _ H) as [Hne _]. unfold decode_rune, valid_rune in *.
  destruct bs as [|b0 [|b1 [|b2 [|b3 [|b4 bs]]]]]; [done|..]; cbn [app] in *;
    repeat (case_match; simplify_eq/=; try done).
Qed.

Lemma jstr_ascii b K :
  is_ascii b -> jstr (ascii_chunks (json_esc (bval b, [b])) ++ K) = cons_str [b] (jstr K).
Proof.
  unfold is_ascii. intros Hb.
  destruct b as [[] [] [] [] [] [] [] []]; try (exfalso; vm_compute in Hb; congruence); reflexivity.
Qed.

Lemma all_ascii s : forallb (fun x => bval x <? 128) s = true -> Forall is_ascii s.
Proof.
  intros H. apply Forall_forall. intros x Hx. rewrite forallb_forall in H.
  apply Z.ltb_lt, H, list_elem_of_In, Hx.
Qed.

Lemma json_esc_ascii_chars b : is_ascii b -> Forall is_ascii (json_esc (bval b, [b])).
Proof.
  unfold is_ascii at 1. intros Hb. apply all_ascii.
  destruct b as [[] [] [] [] [] [] [] []]; try (exfalso; vm_compute in Hb; congruence); reflexivity.
Qed.

(** A three-byte rune is encoded by the bytes it was decoded from. *)
Lemma decode_encode s r bs :
  decode_rune s = Some (r, bs) -> 8192 <= r < 16384 -> bs = encode_rune r.
Proof.
  intros H Hr. destruct s as [|b0 s]; [done|].
  pose proof (bval_range b0). unfold encode_rune.
  replace ((r <? 0) || (1114111 <? r) || ((55296 <=? r) && (r <=? 57343))) with false by lia.
  replace (r <? 128) with false by lia. replace (r <? 2048) with false by lia. replace (r <? 65536) with true by lia.
  unfold decode_rune, rune2, rune3, rune4, is_cont, in_range, RuneError in H.
  repeat (case_match; simplify_eq/=; try lia).
  match goal with |- [_; ?x; ?y] = _ => pose proof (bval_range x); pose proof (bval_range y) end.
  f_equal; [|f_equal; [|f_equal]]; apply bval_inj; rewrite bval_to_byte; Z.div_mod_to_equations; lia.
Qed.

(** The runes of an escaped body are the runes of its escapes, one after another. *)
Lemma jstr_rune r bs k t :
  decode_rune (bs ++ k) = Some (r, bs) ->
  jstr (runes (json_esc (r, bs) ++ t))
  = cons_str (if valid_rune (r, bs) then bs else encode_rune RuneError) (jstr (runes t)).
Proof.
  intros H. destruct (Z.ltb_spec r 128) as [Hr|Hr].
  - pose proof (decode_rune_ascii_rune _ _ _ H Hr) as [-> H0].
    assert (bval (to_byte r) = r) as Hb by (rewrite bval_to_byte, Z.mod_small; lia).
    rewrite <- Hb at 1. rewrite runes_ascii_app, jstr_ascii; [|unfold is_ascii; lia|apply json_esc_ascii_chars; unfold is_ascii; lia].
    replace (valid_rune (r, [to_byte r])) with true; [done|].
    unfold valid_rune, RuneError. simpl. replace (r =? 65533) with false by lia. done.
  - unfold json_esc. replace (r <? 128) with false by lia. destruct (valid_rune (r, bs)) eqn:Hv.
    + replace ((r =? RuneError) && (length bs =? 1)%nat) with false
        by (unfold valid_rune in Hv; simpl in Hv; by apply negb_true_iff in Hv).
      destruct ((r =? 8232) || (r =? 8233)) eqn:Hs.
      * assert (bs = encode_rune r) as ->.
        { eapply decode_encode; [done|lia]. }
        assert (r = 8232 \/ r = 8233) as [-> | ->] by lia;
          (rewrite runes_ascii_app by (apply all_ascii; reflexivity)); reflexivity.
      * rewrite (runes_cons r bs t) by (by eapply decode_rune_ext). cbn [jstr].
        replace (r =? 34) with false by lia. replace (r =? 92) with false by lia.
        replace (r <? 32) with false by lia.
        unfold valid_rune in Hv; simpl in Hv. apply negb_true_iff in Hv. by rewrite Hv.
    + assert ((r =? RuneError) && (length bs =? 1)%nat = true) as ->
        by (unfold valid_rune in Hv; simpl in Hv; by apply negb_false_iff in Hv).
      rewrite runes_ascii_app by (apply all_ascii; reflexivity). reflexivity.
Qed.

Lemma runes_DQ t : runes (DQ ++ t) = (34, DQ) :: runes t.
Proof. by rewrite runes_ascii_app by (apply all_ascii; reflexivity). Qed.

(** Decoding an encoded string gives it back, invalid bytes replaced. *)
Lemma jstr_json_body s t : jstr (runes (json_body s ++ DQ ++ t)) = Some (to_valid s, runes t).
Proof.
  induction s as [|r bs k H Hne IH] using runes_ind; [change (json_body []) with (@nil ascii); rewrite app_nil_l; by rewrite runes_DQ|].
  unfold json_body, to_valid in *. rewrite (runes_cons r bs k) by done. cbn [map concat].
  rewrite <- app_assoc. rewrite (jstr_rune r bs k) by done. rewrite IH. done.
Qed.

Lemma jvalue_quote n bs k :
  jvalue (S n) ((34, bs) :: k) = ('(s, k) ← jstr k; Some (JStr s, k)).
Proof. reflexivity. Qed.

Lemma json_string_app s t : json_string s ++ t = DQ ++ json_body s ++ DQ ++ t.
Proof. unfold json_string. by rewrite <- !app_assoc. Qed.

Lemma jvalue_string n s t :
  jvalue (S n) (runes (json_string s ++ t)) = Some (JStr (to_valid s), runes t).
Proof. by rewrite json_string_app, runes_DQ, jvalue_quote, jstr_json_body. Qed.

(** What may follow a number: anything that does not continue it. *)
Definition ends_number (t : str) : Prop :=
  match t with
  | [] => True
  | b :: _ => is_ascii b /\ is_digit b = false /\ bval b <> 46 /\ bval b <> 101 /\ bval b <> 69
  end.

Lemma is_digit_ascii b : is_digit b = true -> is_ascii b.
Proof. unfold is_digit, is_ascii. lia. Qed.

Lemma digits_ascii s : forallb is_digit s = true -> Forall is_ascii s.
Proof.
  rewrite forallb_forall. intros H. apply Forall_forall. intros b Hb%list_elem_of_In. by apply is_digit_ascii, H.
Qed.

Lemma span_digits_run s t :
  forallb is_digit s = true -> ends_number t -> span_digits (runes (s ++ t)) = (s, runes t).
Proof.
  intros Hs Ht. rewrite runes_ascii_app by (by apply digits_ascii).
  induction s as [|b s IH]; simpl in *.
  - destruct t as [|b t]; [done|]. destruct Ht as (Ha & Hd & _). rewrite runes_ascii_cons by done. simpl.
    unfold digit_rune. fold (is_digit b). by rewrite Hd.
  - apply andb_prop in Hs as [Hb Hs]. unfold digit_rune at 1. fold (is_digit b). by rewrite Hb, IH.
Qed.

(** No fraction and no exponent follows. *)
Lemma jfrac_none t : ends_number t -> jfrac (runes t) = Some ([], runes t).
Proof.
  destruct t as [|b t]; [done|]. intros (Ha & _ & Hp & _). rewrite runes_ascii_cons by done.
  unfold jfrac. repeat case_match; simplify_eq; try done; lia.
Qed.

Lemma jexp_none t : ends_number t -> jexp (runes t) = Some ([], runes t).
Proof.
  destruct t as [|b t]; [done|]. intros (Ha & _ & _ & He & HE). rewrite runes_ascii_cons by done.
  unfold jexp. by replace ((bval b =? 101) || (bval b =? 69)) with false by lia.
Qed.

Lemma jint_nonzero r bs k :
  r <> 48 -> jint ((r, bs) :: k) = if digit_rune r then Some (span_digits ((r, bs) :: k)) else None.
Proof.
  intros Hr. unfold jint. destruct r as [|p|p]; try done.
  do 6 (destruct p as [p|p|]; try done).
Qed.

Lemma jint_itoa z t : 0 <= z -> ends_number t -> jint (runes (itoa z ++ t)) = Some (itoa z, runes t).
Proof.
  intros Hz Ht. destruct (itoa_nonneg z Hz) as (Hf & _ & [Hi|(d & ds & Hi & Hd)]).
  - rewrite Hi. change (§"0" ++ t) with ("0"%char :: t). by rewrite runes_ascii_cons.
  - pose proof (span_digits_run (itoa z) t Hf Ht) as Hsp. rewrite Hi in *. simpl app in *.
    rewrite runes_ascii_cons in * by (unfold is_ascii; lia). rewrite jint_nonzero, Hsp by lia.
    unfold digit_rune. by replace ((48 <=? bval d) && (bval d <=? 57)) with true by lia.
Qed.

Lemma jnum_itoa z t : ends_number t -> jnum (runes (itoa z ++ t)) = Some (itoa z, runes t).
Proof.
  intros Ht. unfold jnum. destruct (Z.ltb_spec z 0) as [Hz|Hz].
  - rewrite itoa_neg by done. simpl app. rewrite runes_ascii_cons by done.
    change (bval "-") with 45. cbv beta iota. rewrite jint_itoa by (done || lia). simpl. rewrite jfrac_none by done. simpl.
    rewrite jexp_none by done. simpl. by rewrite app_nil_r.
  - destruct (itoa_nonneg z Hz) as (Hf & _ & Hi).
    assert (match runes (itoa z ++ t) with (45, bs) :: k => (bs, k) | _ => ([], runes (itoa z ++ t)) end
            = ([], runes (itoa z ++ t))) as ->.
    { destruct Hi as [->|(d & ds & -> & Hd)].
      - change (§"0" ++ t) with ("0"%char :: t). by rewrite runes_ascii_cons.
      - simpl app. rewrite runes_ascii_cons by (unfold is_ascii; lia).
        destruct (bval d) as [|p|p]; try done. do 6 (destruct p as [p|p|]; try (done || lia)). }
    rewrite jint_itoa by done. simpl. rewrite jfrac_none by done. simpl.
    rewrite jexp_none by done. simpl. by rewrite app_nil_r.
Qed.

Lemma parse_int64_itoa z : -(2 ^ 63) <= z < 2 ^ 63 -> parse_int64 (itoa z) = Some z.
Proof.
  intros Hr. unfold parse_int64.
  assert (forall y, 0 <= y -> digit_text (itoa y) = true /\ digits_value (itoa y) = y) as Hd.
  { intros y Hy. destruct (itoa_nonneg y Hy) as (Hf & Hv & Hi). unfold digit_text.
    rewrite Hf, Hv. destruct Hi as [->|(d & ds & -> & _)]; done. }
  destruct (Z.ltb_spec z 0) as [Hz|Hz].
  - rewrite itoa_neg by done. destruct (Hd (- z)) as [-> ->]; [lia|].
    rewrite Z.opp_involutive. by replace ((-(2 ^ 63) <=? z) && (z <? 2 ^ 63)) with true by lia.
  - destruct (Hd z Hz) as [H1 H2]. destruct (itoa_nonneg z Hz) as (Hf & _ & Hi).
    assert (match itoa z with "-"%char :: ds => (true, ds) | _ => (false, itoa z) end = (false, itoa z)) as ->.
    { destruct Hi as [->|(d & ds & -> & Hdd)]; [done|].
      destruct d as [[] [] [] [] [] [] [] []]; try done; exfalso; destruct Hdd as [Hdd _]; vm_compute in Hdd; congruence. }
    rewrite H1, H2. by replace ((-(2 ^ 63) <=? z) && (z <? 2 ^ 63)) with true by lia.
Qed.

(** What a member reads back as. *)
Definition read_back (m : str * jval) : str * json :=
  (to_valid m.1, match m.2 with VStr s => JStr (to_valid s) | VInt z => JNum (itoa z) end).

Lemma jvalue_number n z t :
  ends_number t -> jvalue (S n) (runes (itoa z ++ t)) = Some (JNum (itoa z), runes t).
Proof.
  intros Ht. pose proof (jnum_itoa z t Ht) as Hn.
  assert (exists b s, itoa z = b :: s /\ (bval b = 45 \/ 48 <= bval b <= 57)) as (b & s & Hi & Hb).
  { destruct (Z.ltb_spec z 0) as [Hz|Hz]; [rewrite itoa_neg by done; by do 2 eexists; split; [done|left]|].
    destruct (itoa_nonneg z Hz) as (_ & _ & [->|(d & ds & -> & Hd)]);
      do 2 eexists; split; try done; right; [done|lia]. }
  rewrite Hi in *. simpl app in *. rewrite runes_ascii_cons in * by (unfold is_ascii; lia).
  cbn [jvalue skip_ws]. unfold json_space.
  replace ((bval b =? 32) || (bval b =? 9) || (bval b =? 10) || (bval b =? 13)) with false by lia.
  replace (bval b =? 34) with false by lia. replace (bval b =? 123) with false by lia.
  replace (bval b =? 91) with false by lia. replace (bval b =? 116) with false by lia.
  replace (bval b =? 102) with false by lia. replace (bval b =? 110) with false by lia.
  by rewrite Hn.
Qed.

Lemma jvalue_val n v t :
  ends_number t -> jvalue (S n) (runes (json_val v ++ t)) = Some ((read_back ([], v)).2, runes t).
Proof. intros Ht. destruct v as [s|z]; [exact (jvalue_string n s t)|exact (jvalue_number n z t Ht)]. Qed.

Lemma runes_cons_chars s t : forallb (fun x => bval x <? 128) s = true -> runes (s ++ t) = ascii_chunks s ++ runes t.
Proof. intros Hs. by apply runes_ascii_app, all_ascii. Qed.

Lemma jmembers_step n k t :
  jmembers (S n) (runes (json_string k ++ §":" ++ t))
  = ('(v, k4) ← jvalue n (runes t);
     match skip_ws k4 with
     | (44, _) :: k' => '(ms, k'') ← jmembers n k'; Some ((to_valid k, v) :: ms, k'')
     | (125, _) :: k' => Some ([(to_valid k, v)], k')
     | _ => None
     end).
Proof.
  rewrite json_string_app, runes_DQ.
  change (jmembers (S n) ((34, DQ) :: runes (json_body k ++ DQ ++ §":" ++ t)))
    with ('(key, k) ← jstr (runes (json_body k ++ DQ ++ §":" ++ t));
          match skip_ws k with
          | (58, _) :: k =>
              '(v, k) ← jvalue n k;
              match skip_ws k with
              | (44, _) :: k' => '(ms, k'') ← jmembers n k'; Some ((key, v) :: ms, k'')
              | (125, _) :: k' => Some ([(key, v)], k')
              | _ => None
              end
          | _ => None
          end).
  rewrite jstr_json_body. by rewrite runes_cons_chars.
Qed.

Lemma jmembers_object n ms t :
  ms <> [] -> (length ms < n)%nat ->
  jmembers n (runes (Join (map json_member ms) §"," ++ §"}" ++ t)) = Some (map read_back ms, runes t).
Proof.
  revert n. induction ms as [|[k v] ms IH]; intros n Hne Hn; [done|].
  destruct n as [|[|n]]; [simpl in Hn; lia..|].
  destruct ms as [|m ms].
  - change (Join (map json_member [(k, v)]) §",") with (json_string k ++ §":" ++ json_val v).
    rewrite <- !app_assoc, jmembers_step.
    rewrite jvalue_val by (split; [done|]; done). cbn [mbind option_bind].
    by rewrite runes_cons_chars.
  - change (Join (map json_member ((k, v) :: m :: ms)) §",")
      with ((json_string k ++ §":" ++ json_val v) ++ §"," ++ Join (map json_member (m :: ms)) §",").
    rewrite <- !app_assoc, jmembers_step.
    rewrite jvalue_val by (split; [done|]; done). cbn [mbind option_bind].
    rewrite runes_cons_chars by done.
    change (skip_ws (ascii_chunks §"," ++ ?x)) with ((44, §",") :: x).
    cbv beta iota. rewrite IH by (done || simpl in *; lia). done.
Qed.

(** Parsing a marshalled object. *)
Lemma json_parse_object ms :
  ms <> [] -> json_parse (json_object ms) = Some (JObj (map read_back ms)).
Proof.
  intros Hne. unfold json_parse.
  set (cs := runes (json_object ms)).
  rewrite <- (jvalue_enough (2 * length cs + length ms + 3) cs) by lia.
  replace (2 * length cs + length ms + 3)%nat with (S (2 * length cs + length ms + 2)) by lia.
  subst cs. set (n := (_ + 2)%nat). unfold json_object.
  rewrite runes_cons_chars by done.
  assert (exists x, runes (Join (map json_member ms) §"," ++ §"}") = (34, DQ) :: x) as [x Hx].
  { assert (exists k y, Join (map json_member ms) §"," = json_string k ++ y) as (k & y & ->).
    { destruct ms as [|[k v] [|m ms]]; [done|by exists k, (§":" ++ json_val v)|].
      exists k, (§":" ++ json_val v ++ §"," ++ Join (map json_member (m :: ms)) §",").
      change (Join (map json_member ((k, v) :: m :: ms)) §",")
        with ((json_string k ++ §":" ++ json_val v) ++ §"," ++ Join (map json_member (m :: ms)) §",").
      by rewrite <- !app_assoc. }
    rewrite <- app_assoc, json_string_app, runes_DQ. eauto. }
  pose proof (jmembers_object n ms [] Hne ltac:(lia)) as Hm.
  rewrite app_nil_r, Hx in Hm. rewrite Hx.
  change (jvalue (S n) (ascii_chunks §"{" ++ (34, DQ) :: x))
    with ('(ms, k') ← jmembers n ((34, DQ) :: x); Some (JObj ms, k')).
  by rewrite Hm.
Qed.
