(* ===== verification/JsonText.v ===== *)
(** * Decoded JSON text is valid UTF-8

    Go's decoder replaces what is no rune by U+FFFD, so whatever bytes a message holds,
    the strings and keys of the value it decodes to are valid text: the type of the
    requests the proxy accepts (Wire.v). *)

From S2P Require Import Prelude GoStr Json.
From stdpp Require Import options.
Open Scope Z_scope.

(** Text that is UTF-8 throughout. *)
Definition valid_text (s : str) : Prop := forallb valid_rune (runes s) = true.

#[export] Instance valid_text_dec s : Decision (valid_text s).
Proof. unfold valid_text. apply _. Defined.

(** A value whose strings and keys are valid text. *)
Fixpoint json_text (v : json) : Prop :=
  match v with
  | JStr s => valid_text s
  | JArr l => foldr (fun v P => json_text v /\ P) True l
  | JObj ms => foldr (fun m P => valid_text m.1 /\ json_text m.2 /\ P) True ms
  | _ => True
  end.

(** A piece of a text that is one valid rune, whatever comes after it. *)
Definition one_rune (bs : str) : Prop :=
  exists r, valid_rune (r, bs) = true /\ forall k, decode_rune (bs ++ k) = Some (r, bs).

(** What the decoder reads: a rune, or a single byte that is none. *)
Definition sound_rune (c : rune) : Prop :=
  valid_rune c = true -> forall k, decode_rune (c.2 ++ k) = Some c.

Section lemmas.

Lemma valid_text_nil : valid_text [].
Proof. done. Qed.

Lemma valid_text_app bs s : one_rune bs -> valid_text s -> valid_text (bs ++ s).
Proof. intros (r & Hr & Hd) Hs. unfold valid_text. rewrite (runes_cons r bs s) by apply Hd. cbn [forallb]. by rewrite Hr. Qed.

Lemma runes_sound s : Forall sound_rune (runes s).
Proof.
  induction s as [|r bs k H Hne IH] using runes_ind; [constructor|].
  rewrite (runes_cons r bs k) by done. constructor; [|done]. intros Hv k'. by eapply decode_rune_ext.
Qed.

Lemma bval_small z : 0 <= z < 256 -> bval (to_byte z) = z.
Proof. intros Hz. by rewrite bval_to_byte, Z.mod_small. Qed.

Lemma is_cont_low z : 0 <= z < 64 -> is_cont (to_byte (128 + z)) = true.
Proof. intros Hz. unfold is_cont, in_range. rewrite bval_small; lia. Qed.

(** The three longer forms, from their groups of six bits. *)
Lemma decode_two a b k :
  2 <= a < 32 -> 0 <= b < 64 ->
  let bs := [to_byte (192 + a); to_byte (128 + b)] in decode_rune (bs ++ k) = Some (64 * a + b, bs).
Proof.
  intros Ha Hb bs. subst bs. cbn [app decode_rune]. unfold rune2, in_range at 1.
  rewrite is_cont_low, !bval_small by lia. replace (192 + a <? 128) with false by lia.
  replace (_ && _ && _) with true by lia. do 2 f_equal. lia.
Qed.

Lemma rune2_big x y : 224 <= x < 256 -> rune2 (to_byte x) y = None.
Proof. intros Hx. unfold rune2, in_range at 1. rewrite bval_small by lia. by replace ((194 <=? x) && (x <=? 223)) with false by lia. Qed.

Lemma rune3_big x y z : 240 <= x < 256 -> rune3 (to_byte x) y z = None.
Proof. intros Hx. unfold rune3, in_range at 1. rewrite bval_small by lia. by replace ((224 <=? x) && (x <=? 239)) with false by lia. Qed.

Lemma decode_three a b c k :
  0 <= a < 16 -> 0 <= b < 64 -> 0 <= c < 64 -> (a = 0 -> 32 <= b) -> (a = 13 -> b < 32) ->
  let bs := [to_byte (224 + a); to_byte (128 + b); to_byte (128 + c)] in
  decode_rune (bs ++ k) = Some (4096 * a + 64 * b + c, bs).
Proof.
  intros Ha Hb Hc H0 H13 bs. subst bs. cbn [app decode_rune]. rewrite rune2_big by lia.
  unfold rune3, in_range. rewrite (is_cont_low c), !bval_small by lia. replace (224 + a <? 128) with false by lia.
  replace (_ && _ && _ && _) with true; [do 2 f_equal; lia|].
  destruct (Z.eqb_spec (224 + a) 224), (Z.eqb_spec (224 + a) 237); lia.
Qed.

Lemma decode_four a b c e k :
  0 <= a < 5 -> 0 <= b < 64 -> 0 <= c < 64 -> 0 <= e < 64 -> (a = 0 -> 16 <= b) -> (a = 4 -> b < 16) ->
  let bs := [to_byte (240 + a); to_byte (128 + b); to_byte (128 + c); to_byte (128 + e)] in
  decode_rune (bs ++ k) = Some (262144 * a + 4096 * b + 64 * c + e, bs).
Proof.
  intros Ha Hb Hc He H0 H4 bs. subst bs. cbn [app decode_rune]. rewrite rune2_big, rune3_big by lia.
  unfold rune4, in_range. rewrite (is_cont_low c), (is_cont_low e), !bval_small by lia. replace (240 + a <? 128) with false by lia.
  replace (_ && _ && _ && _ && _) with true; [do 2 f_equal; lia|].
  destruct (Z.eqb_spec (240 + a) 240), (Z.eqb_spec (240 + a) 244); lia.
Qed.

(** Every rune of Unicode that is not a surrogate is read back from its encoding. *)
Lemma decode_encoded r k :
  0 <= r <= 1114111 -> is_surrogate r = false -> decode_rune (encode_rune r ++ k) = Some (r, encode_rune r).
Proof.
  unfold is_surrogate. intros Hr Hs. unfold encode_rune.
  replace ((r <? 0) || (1114111 <? r) || ((55296 <=? r) && (r <=? 57343))) with false by lia.
  pose proof (Z.div_mod r 64 ltac:(lia)) as E1. pose proof (Z.mod_pos_bound r 64 ltac:(lia)).
  pose proof (Z.div_mod (r / 64) 64 ltac:(lia)) as E2. pose proof (Z.mod_pos_bound (r / 64) 64 ltac:(lia)).
  pose proof (Z.div_mod (r / 64 / 64) 64 ltac:(lia)) as E3. pose proof (Z.mod_pos_bound (r / 64 / 64) 64 ltac:(lia)).
  assert (r / 4096 = r / 64 / 64) as -> by (by rewrite Z.div_div).
  assert (r / 262144 = r / 64 / 64 / 64) as -> by (by rewrite !Z.div_div).
  destruct (Z.ltb_spec r 128); [|destruct (Z.ltb_spec r 2048); [|destruct (Z.ltb_spec r 65536)]].
  - cbn [app decode_rune]. rewrite bval_small by lia. by replace (r <? 128) with true by lia.
  - rewrite decode_two by lia. do 2 f_equal. lia.
  - rewrite decode_three by lia. do 2 f_equal. lia.
  - rewrite decode_four by lia. do 2 f_equal. lia.
Qed.

Lemma encode_rune_one r : one_rune (encode_rune r).
Proof.
  destruct ((r <? 0) || (1114111 <? r) || ((55296 <=? r) && (r <=? 57343))) eqn:E.
  - exists RuneError. unfold encode_rune. rewrite E. split; [reflexivity|]. intros k. exact (decode_encoded RuneError k ltac:(done) eq_refl).
  - exists r. split; [|intros k; apply decode_encoded; [lia|unfold is_surrogate; lia]].
    unfold valid_rune, RuneError. cbn [fst snd]. destruct (Z.eqb_spec r 65533) as [->|]; reflexivity.
Qed.

Lemma ascii_one z : 0 <= z < 128 -> one_rune [to_byte z].
Proof.
  intros Hz. exists z. split; [|intros k; cbn [app decode_rune]; rewrite bval_small by lia; by replace (z <? 128) with true by lia].
  unfold valid_rune, RuneError. cbn [fst snd]. by replace (z =? 65533) with false by lia.
Qed.

Lemma simple_escape_range e v : simple_escape e = Some v -> 0 <= v < 128.
Proof. unfold simple_escape. intros H. repeat (case_match; simplify_eq; try lia). Qed.
End lemmas.

(** ** The parser *)

Section parser.

(** A parser is clean if on sound runes it gives a result that is [P] and leaves sound
    runes. *)
Definition clean {A} (P : A -> Prop) (p : list rune -> option (A * list rune)) : Prop :=
  forall cs a k, p cs = Some (a, k) -> Forall sound_rune cs -> P a /\ Forall sound_rune k.

Lemma jstr_clean : clean valid_text jstr.
Proof.
  intros cs. induction cs as [cs IH] using (induction_ltof1 _ (@length rune)). unfold ltof in IH.
  intros s k H Hc. destruct cs as [|[r bs] cs]; [done|]. apply Forall_cons in Hc as [Hr Hc]. cbn [jstr] in H.
  destruct (r =? 34); [by simplify_eq|].
  assert (forall bs' cs', one_rune bs' -> cons_str bs' (jstr cs') = Some (s, k) -> (length cs' <= length cs)%nat ->
    Forall sound_rune cs' -> valid_text s /\ Forall sound_rune k) as Hgo.
  { intros bs' cs' Hb (s' & H' & ->)%cons_str_Some Hl Hc'. apply IH in H' as [Hs' ?]; [|simpl; lia|done].
    split; [by apply valid_text_app|done]. }
  destruct (r =? 92).
  - repeat (case_match; simplify_eq; try discriminate);
      (eapply Hgo; [|exact H|cbn [length]; lia|]); try apply encode_rune_one;
      try (apply ascii_one; by eapply simple_escape_range);
      rewrite !Forall_cons in *; tauto.
  - destruct (r <? 32); [done|]. eapply Hgo; [|exact H|done|done].
    destruct ((r =? RuneError) && (length bs =? 1)%nat) eqn:E; [apply encode_rune_one|].
    exists r. unfold sound_rune, valid_rune in *. cbn [fst snd] in *. rewrite E in *. auto.
Qed.

Lemma suffix_sound (k cs : list rune) : k `suffix_of` cs -> Forall sound_rune cs -> Forall sound_rune k.
Proof. intros [l ->] H. by apply Forall_app in H as [_ ?]. Qed.

Lemma skip_ws_sound cs : Forall sound_rune cs -> Forall sound_rune (skip_ws cs).
Proof. induction 1 as [|[r bs] cs Hr Hc IH]; cbn [skip_ws]; [constructor|]. case_match; [done|by constructor]. Qed.

Lemma span_digits_suffix cs s k : span_digits cs = (s, k) -> k `suffix_of` cs.
Proof.
  revert s k. induction cs as [|[r bs] cs IH]; simpl; intros s k H; [by simplify_eq|].
  destruct (span_digits cs) as [s' k'] eqn:Hs. specialize (IH _ _ eq_refl).
  case_match; simplify_eq/=; [by apply suffix_cons_r|done].
Qed.

Lemma jint_suffix cs s k : jint cs = Some (s, k) -> k `suffix_of` cs.
Proof.
  destruct cs as [|[r bs] cs]; [done|]. unfold jint. intros H.
  destruct (decide (r = 48)) as [->|]; [simplify_eq; by apply suffix_cons_r|].
  destruct (span_digits ((r, bs) :: cs)) as [s0 k0] eqn:Hs. apply span_digits_suffix in Hs.
  by repeat (case_match; simplify_eq/=).
Qed.

Lemma jfrac_suffix cs s k : jfrac cs = Some (s, k) -> k `suffix_of` cs.
Proof.
  unfold jfrac. intros H. repeat (case_match; simplify_eq/=; try done).
  all: match goal with H : span_digits _ = _ |- _ => apply span_digits_suffix in H; by apply suffix_cons_r end.
Qed.

Lemma jexp_suffix cs s k : jexp cs = Some (s, k) -> k `suffix_of` cs.
Proof.
  unfold jexp. intros H. repeat (case_match; simplify_eq/=; try done).
  all: match goal with H : span_digits _ = _ |- _ => apply span_digits_suffix in H; repeat apply suffix_cons_r; done end.
Qed.

Lemma jnum_clean : clean (fun _ => True) jnum.
Proof.
  intros cs s k H Hc. split; [done|]. unfold jnum in H.
  destruct (match cs with (45, bs) :: k => (bs, k) | _ => ([], cs) end) as [sign cs1] eqn:Hs.
  assert (cs1 `suffix_of` cs) as H1.
  { clear H. repeat (case_match; simplify_eq/=; try done). by apply suffix_cons_r. }
  destruct (jint cs1) as [[i cs2]|] eqn:Hi; simplify_eq/=. destruct (jfrac cs2) as [[f cs3]|] eqn:Hf; simplify_eq/=.
  destruct (jexp cs3) as [[e cs4]|] eqn:He; simplify_eq/=.
  apply jint_suffix in Hi. apply jfrac_suffix in Hf. apply jexp_suffix in He.
  eapply suffix_sound; [|exact Hc]. etrans; [exact He|]. etrans; [exact Hf|]. by etrans.
Qed.

Lemma jlit_clean w v : json_text v -> clean json_text (jlit w v).
Proof. intros Hv cs a k H Hc. unfold jlit in H. case_bool_decide; simplify_eq. split; [done|]. by apply Forall_drop. Qed.

(** Every value the parser returns has valid strings. *)
Lemma parsers_clean n :
  clean json_text (jvalue n) /\ clean (fun l => json_text (JArr l)) (jelems n) /\ clean (fun ms => json_text (JObj ms)) (jmembers n).
Proof.
  induction n as [|n (IHv & IHe & IHm)]; [done|]. split; [|split]; intros cs a k H Hc.
  - cbn [jvalue] in H. apply skip_ws_sound in Hc. destruct (skip_ws cs) as [|[r bs] cs1]; [done|].
    pose proof Hc as [Hr Hc1]%Forall_cons. pose proof (skip_ws_sound cs1 Hc1) as Hc2.
    destruct (r =? 34). { destruct (jstr cs1) as [[s k1]|] eqn:Hj; simplify_eq/=. exact (jstr_clean _ _ _ Hj Hc1). }
    destruct (r =? 123).
    { destruct (skip_ws cs1) as [|[r1 bs1] k0];
        (destruct (jmembers n cs1) as [[ms k1]|] eqn:Hj; simpl in H; [destruct (IHm _ _ _ Hj Hc1); simpl in *|]);
        repeat first [progress simplify_eq/= | case_match]; try done; by apply Forall_cons in Hc2 as [_ ?]. }
    destruct (r =? 91).
    { destruct (skip_ws cs1) as [|[r1 bs1] k0];
        (destruct (jelems n cs1) as [[ms k1]|] eqn:Hj; simpl in H; [destruct (IHe _ _ _ Hj Hc1); simpl in *|]);
        repeat first [progress simplify_eq/= | case_match]; try done; by apply Forall_cons in Hc2 as [_ ?]. }
    destruct (r =? 116); [by eapply (jlit_clean _ (JBool true))|].
    destruct (r =? 102); [by eapply (jlit_clean _ (JBool false))|].
    destruct (r =? 110); [by eapply (jlit_clean _ JNull)|].
    destruct (jnum _) as [[s k1]|] eqn:Hj; simplify_eq/=. split; [done|]. exact (proj2 (jnum_clean _ _ _ Hj Hc)).
  - cbn [jelems] in H. destruct (jvalue n cs) as [[v k1]|] eqn:Hv; simplify_eq/=. destruct (IHv _ _ _ Hv Hc) as [Hvt Hk1].
    apply skip_ws_sound in Hk1. destruct (skip_ws k1) as [|[r bs] k2]; [done|]. pose proof Hk1 as [_ Hk2]%Forall_cons.
    (destruct (jelems n k2) as [[vs k3]|] eqn:He; simpl in H; [destruct (IHe _ _ _ He Hk2); simpl in *|]);
      by repeat first [progress simplify_eq/= | case_match].
  - cbn [jmembers] in H. apply skip_ws_sound in Hc. destruct (skip_ws cs) as [|[r bs] k1]; [done|].
    apply Forall_cons in Hc as [_ Hk1]. destruct (decide (r = 34)) as [->|]; [|by repeat (case_match; simplify_eq/=)].
    destruct (jstr k1) as [[key k2]|] eqn:Hj; simplify_eq/=. destruct (jstr_clean _ _ _ Hj Hk1) as [Hkey Hk2].
    apply skip_ws_sound in Hk2. destruct (skip_ws k2) as [|[r bs'] k3]; [done|]. apply Forall_cons in Hk2 as [_ Hk3].
    destruct (decide (r = 58)) as [->|]; [|by repeat (case_match; simplify_eq/=)].
    destruct (jvalue n k3) as [[v k4]|] eqn:Hv; simplify_eq/=. destruct (IHv _ _ _ Hv Hk3) as [Hvt Hk4].
    apply skip_ws_sound in Hk4. destruct (skip_ws k4) as [|[r bs''] k5]; [done|]. pose proof Hk4 as [_ Hk5]%Forall_cons.
    (destruct (jmembers n k5) as [[ms k6]|] eqn:Hm; simpl in H; [destruct (IHm _ _ _ Hm Hk5); simpl in *|]);
      by repeat first [progress simplify_eq/= | case_match].
Qed.

Lemma json_parse_text s v : json_parse s = Some v -> json_text v.
Proof.
  unfold json_parse. destruct (jvalue _ _) as [[v0 k]|] eqn:H; [|done]. cbn. case_bool_decide; [|done].
  intros [= <-]. eapply parsers_clean; [exact H|apply runes_sound].
Qed.
End parser.
