(* ===== verification/Io.v ===== *)
(** * Writers, the client connection and the keyboard

    An [io.Writer] is a sink with a budget of writes that succeed.  The client
    connection is the list of what its peer will send, pauses included, and what
    has been written to it.  On top of these: [readKey], [waitForCtrlC] and
    [flushConn] of [internal/proxy/admin_tui.go], and [readKey] of
    [internal/cli/connect/login_tui.go]. *)

From S2P Require Import Prelude GoStr.
From stdpp Require Import options.
Open Scope Z_scope.

(** ** io.Writer *)

(** What has been written, how many more writes succeed ([None]: all of them),
    and the error the others return. *)
Record sink := Sink { written : str; budget : option nat; sink_err : error }.

Definition new_sink : sink := Sink [] None (ErrText §"closed").

Definition sink_write (w : sink) (p : str) : option error * sink :=
  match budget w with
  | Some O => (Some (sink_err w), w)
  | Some (S n) => (None, Sink (written w ++ p) (Some n) (sink_err w))
  | None => (None, Sink (written w ++ p) None (sink_err w))
  end.

Lemma sink_write_spec w p :
  (sink_write w p = (Some (sink_err w), w))
  \/ exists w', sink_write w p = (None, w') /\ written w' = written w ++ p /\ sink_err w' = sink_err w.
Proof.
  unfold sink_write. destruct (budget w) as [[|n]|]; [by left|right..]; by eexists.
Qed.

Lemma sink_write_unlimited w p :
  budget w = None -> sink_write w p = (None, Sink (written w ++ p) None (sink_err w)).
Proof. unfold sink_write. by intros ->. Qed.

(** ** The client connection *)

(** What the peer does next: send a byte, or pause for longer than whatever read
    deadline is in force.  After the last event the connection reads as closed. *)
Inductive inev := InByte (b : byte) | InGap.

Definition typed (s : str) : list inev := map InByte s.

(** [Conn.Read] of one byte with a deadline, on a list of events. *)
Inductive read1 := RByte (b : byte) | RTimeout | REof.

Definition read_deadline (i : list inev) : read1 * list inev :=
  match i with
  | [] => (REof, [])
  | InByte b :: i' => (RByte b, i')
  | InGap :: i' => (RTimeout, i')
  end.

(** [Conn.Read] of one byte without a deadline waits through every pause; the
    retry of [readKey] on a timeout does the same. *)
Fixpoint read_wait (i : list inev) : option byte * list inev :=
  match i with
  | [] => (None, [])
  | InByte b :: i' => (Some b, i')
  | InGap :: i' => read_wait i'
  end.

(** [io.ReadFull(conn, b2)] of two bytes under one deadline. *)
Definition read_two (i : list inev) : option (byte * byte) * list inev :=
  match read_deadline i with
  | (RByte b1, i1) =>
      match read_deadline i1 with
      | (RByte b2, i2) => (Some (b1, b2), i2)
      | (_, i2) => (None, i2)
      end
  | (_, i1) => (None, i1)
  end.

(** ** Keys *)

Inductive key :=
  | KUp | KDown | KRight | KLeft | KEsc | KEnter | KBackspace | KCtrlC | KCtrlS
  | KChr (b : byte).

#[export] Instance key_eq_dec : EqDecision key.
Proof. solve_decision. Defined.

(** The string the source returns for each key. *)
Definition key_name (k : key) : str :=
  match k with
  | KUp => §"UP" | KDown => §"DOWN" | KRight => §"RIGHT" | KLeft => §"LEFT"
  | KEsc => §"ESC" | KEnter => §"ENTER" | KBackspace => §"BACKSPACE"
  | KCtrlC => §"CTRL_C" | KCtrlS => §"CTRL_S"
  | KChr b => [b]
  end.

Definition arrow_or_esc (o : option (byte * byte)) : key :=
  match o with
  | Some (b1, b2) =>
      if decide (b1 = "["%char) then
        if decide (b2 = "A"%char) then KUp
        else if decide (b2 = "B"%char) then KDown
        else if decide (b2 = "C"%char) then KRight
        else if decide (b2 = "D"%char) then KLeft
        else KEsc
      else KEsc
  | None => KEsc
  end.

(** [(s *Server) readKey]: [None] is a read error. *)
Definition readKey (i : list inev) : option key * list inev :=
  match read_wait i with
  | (None, i1) => (None, i1)
  | (Some b, i1) =>
      if bval b =? 27 then
        let '(o, i2) := read_two i1 in (Some (arrow_or_esc o), i2)
      else if (bval b =? 13) || (bval b =? 10) then (Some KEnter, i1)
      else if (bval b =? 127) || (bval b =? 8) then (Some KBackspace, i1)
      else if bval b =? 3 then (Some KCtrlC, i1)
      else if bval b =? 19 then (Some KCtrlS, i1)
      else (Some (KChr b), i1)
  end.

(** [io.ReadFull(os.Stdin, b2)] where the terminal takes no deadline: pauses are waited
    through. *)
Definition read_two_wait (i : list inev) : option (byte * byte) * list inev :=
  match read_wait i with
  | (Some b1, i1) =>
      match read_wait i1 with
      | (Some b2, i2) => (Some (b1, b2), i2)
      | (None, i2) => (None, i2)
      end
  | (None, i1) => (None, i1)
  end.

(** [readKey] of the CLI's login form: the same, but Ctrl-S is an ordinary byte, and
    whether the standard input honours [SetReadDeadline] depends on how it was opened. *)
Definition cli_readKey (deadlines : bool) (i : list inev) : option key * list inev :=
  match read_wait i with
  | (None, i1) => (None, i1)
  | (Some b, i1) =>
      if bval b =? 27 then
        let '(o, i2) := if deadlines then read_two i1 else read_two_wait i1 in (Some (arrow_or_esc o), i2)
      else if (bval b =? 13) || (bval b =? 10) then (Some KEnter, i1)
      else if (bval b =? 127) || (bval b =? 8) then (Some KBackspace, i1)
      else if bval b =? 3 then (Some KCtrlC, i1)
      else (Some (KChr b), i1)
  end.

(** [flushConn]: read and drop until the deadline passes or the peer is gone. *)
Fixpoint flushConn (i : list inev) : list inev :=
  match i with
  | [] => []
  | InByte _ :: i' => flushConn i'
  | InGap :: i' => i'
  end.

(** [waitForCtrlC]: drop everything up to a Ctrl-C, then what is pending behind it. *)
Fixpoint waitForCtrlC (i : list inev) : list inev :=
  match i with
  | [] => []
  | InByte b :: i' => if bval b =? 3 then flushConn i' else waitForCtrlC i'
  | InGap :: i' => waitForCtrlC i'
  end.

(** ** The connection as the server holds it *)

(** [read_err] is what a read returns once the peer's events are used up, or after
    [Close]; [timeout_err] what it returns when a deadline passes. *)
Record conn := Conn {
  inp : list inev;
  outp : sink;
  is_open : bool;
  read_err : error;
  timeout_err : error;
}.

(** [conn.Write(p)] with the error dropped, as the source always does. *)
Definition conn_write (c : conn) (p : str) : conn :=
  if is_open c then Conn (inp c) (sink_write (outp c) p).2 true (read_err c) (timeout_err c) else c.

Definition conn_close (c : conn) : conn := Conn (inp c) (outp c) false (read_err c) (timeout_err c).

Definition set_inp (c : conn) (i : list inev) : conn := Conn i (outp c) (is_open c) (read_err c) (timeout_err c).

Definition ErrEOF : error := ErrText §"EOF".
Definition ErrUnexpectedEOF : error := ErrText §"unexpected EOF".

(** [io.ReadFull] of [n] bytes: the bytes read and how it ended.  With a deadline a
    pause ends it; without one, pauses are waited through. *)
Inductive full_end := FullDone | FullTimeout | FullEof.

Fixpoint read_full (deadline : bool) (n : Z) (i : list inev) : (str * full_end) * list inev :=
  if n <=? 0 then (([], FullDone), i) else
  match i with
  | [] => (([], FullEof), [])
  | InByte b :: i' => let '((s, e), i'') := read_full deadline (n - 1) i' in ((b :: s, e), i'')
  | InGap :: i' => if deadline then (([], FullTimeout), i') else read_full deadline n i'
  end.

(** [io.ReadFull(conn, buf)] with [len(buf) = n]. *)
Definition conn_read_full (deadline : bool) (n : Z) (c : conn) : res str * conn :=
  if n <=? 0 then (inr [], c) else
  if negb (is_open c) then (inl (read_err c), c) else
  let '((s, e), i) := read_full deadline n (inp c) in
  let c := set_inp c i in
  (match e with
   | FullDone => inr s
   | FullTimeout => inl (timeout_err c)
   | FullEof =>
       inl (if decide (s <> [] /\ read_err c = ErrEOF) then ErrUnexpectedEOF else read_err c)
   end, c).

(** [s.readKey(conn)]. *)
Definition conn_readKey (c : conn) : (res key) * conn :=
  if is_open c then
    match readKey (inp c) with
    | (Some k, i) => (inr k, set_inp c i)
    | (None, i) => (inl (read_err c), set_inp c i)
    end
  else (inl (read_err c), c).

Definition client (typed_bytes : str) : conn := Conn (typed typed_bytes) new_sink true ErrEOF (ErrText §"i/o timeout").

Definition clearScreen (c : conn) : conn := conn_write c (ESC ++ §"[2J" ++ ESC ++ §"[H").

(** ** Colours *)

Definition ColorReset : str := ESC ++ §"[0m".
Definition ColorCyan : str := ESC ++ §"[36m".
Definition ColorGreen : str := ESC ++ §"[32m".
Definition ColorRed : str := ESC ++ §"[31m".
Definition ColorBold : str := ESC ++ §"[1m".

(** ** Lemmas *)

(** The source switches on the strings; no two keys have the same string, so
    switching on the constructors is the same. *)
Lemma key_name_inj k1 k2 : key_name k1 = key_name k2 -> k1 = k2.
Proof. destruct k1, k2; simpl; intros H; simplify_eq; done. Qed.

Lemma read_wait_shorter i b i' : read_wait i = (Some b, i') -> (length i' < length i)%nat.
Proof.
  induction i as [|[b0|] i IH]; simpl; intros H; simplify_eq; [lia|]. apply IH in H. lia.
Qed.

Lemma read_two_le i o i' : read_two i = (o, i') -> (length i' <= length i)%nat.
Proof.
  unfold read_two, read_deadline. intros H.
  destruct i as [|[b1|] [|[b2|] i]]; simplify_eq/=; lia.
Qed.

(** Every key read consumes input, which is what makes the menu loops end when
    the peer stops typing. *)
Lemma readKey_shorter i k i' : readKey i = (Some k, i') -> (length i' < length i)%nat.
Proof.
  unfold readKey. destruct (read_wait i) as [[b|] i1] eqn:Hr; [|done]. intros H.
  apply read_wait_shorter in Hr. destruct (read_two i1) as [o i2] eqn:H2.
  apply read_two_le in H2. repeat case_match; simplify_eq; lia.
Qed.

Lemma read_wait_le i o i' : read_wait i = (o, i') -> (length i' <= length i)%nat.
Proof.
  revert o i'. induction i as [|[b0|] i IH]; simpl; intros o i' H; simplify_eq/=; [lia..|]. apply IH in H. lia.
Qed.

Lemma read_two_wait_le i o i' : read_two_wait i = (o, i') -> (length i' <= length i)%nat.
Proof.
  unfold read_two_wait. destruct (read_wait i) as [[b1|] i1] eqn:H1; apply read_wait_le in H1; [|by intros [= _ <-]].
  destruct (read_wait i1) as [[b2|] i2] eqn:H2; apply read_wait_le in H2; intros [= _ <-]; lia.
Qed.

Lemma cli_readKey_shorter deadlines i k i' : cli_readKey deadlines i = (Some k, i') -> (length i' < length i)%nat.
Proof.
  unfold cli_readKey. destruct (read_wait i) as [[b|] i1] eqn:Hr; [|done]. intros H.
  apply read_wait_shorter in Hr.
  assert (forall o i2, (if deadlines then read_two i1 else read_two_wait i1) = (o, i2) -> (length i2 <= length i1)%nat) as Hle.
  { intros o i2. destruct deadlines; [apply read_two_le|apply read_two_wait_le]. }
  destruct (if deadlines then read_two i1 else read_two_wait i1) as [o i2] eqn:H2.
  specialize (Hle o i2 eq_refl). repeat case_match; simplify_eq; lia.
Qed.

Lemma flushConn_le i : (length (flushConn i) <= length i)%nat.
Proof. induction i as [|[b|] i IH]; simpl; lia. Qed.

Lemma waitForCtrlC_le i : (length (waitForCtrlC i) <= length i)%nat.
Proof.
  induction i as [|[b|] i IH]; simpl; [lia| |lia].
  pose proof (flushConn_le i). case_match; lia.
Qed.

(** A graphic byte is a key of its own, read off the head of the input. *)
Lemma readKey_graphic b i : 32 <= bval b <= 126 -> readKey (InByte b :: i) = (Some (KChr b), i).
Proof. intros Hb. unfold readKey. simpl. repeat case_match; try done; lia. Qed.

#[export] Hint Resolve flushConn_le waitForCtrlC_le readKey_shorter : zttp.

Lemma conn_write_fields c p :
  inp (conn_write c p) = inp c /\ is_open (conn_write c p) = is_open c
  /\ read_err (conn_write c p) = read_err c.
Proof. unfold conn_write. by destruct (is_open c) eqn:?. Qed.

Lemma inp_conn_write c p : inp (conn_write c p) = inp c.
Proof. apply conn_write_fields. Qed.

Lemma is_open_conn_write c p : is_open (conn_write c p) = is_open c.
Proof. apply conn_write_fields. Qed.

Lemma inp_clearScreen c : inp (clearScreen c) = inp c.
Proof. apply inp_conn_write. Qed.

Lemma conn_readKey_shorter c k c' :
  conn_readKey c = (inr k, c') -> (length (inp c') < length (inp c))%nat.
Proof.
  unfold conn_readKey. destruct (is_open c); [|done].
  destruct (readKey (inp c)) as [[k'|] i] eqn:Hr; [|done]. intros [= <- <-]. simpl.
  by eapply readKey_shorter.
Qed.

#[export] Hint Rewrite inp_conn_write is_open_conn_write inp_clearScreen : zttp.

Lemma read_full_spec d s i : read_full d (zlen s) (typed s ++ i) = ((s, FullDone), i).
Proof.
  unfold typed. induction s as [|b s IH]; simpl; [by destruct i as [|[]]|].
  replace (zlen (b :: s) <=? 0) with false by (rewrite zlen_cons; pose proof (zlen_nonneg s); lia).
  replace (zlen (b :: s) - 1) with (zlen s) by (rewrite zlen_cons; lia). by rewrite IH.
Qed.

Lemma read_full_length d n i s i' :
  read_full d n i = ((s, FullDone), i') -> zlen s = Z.max 0 n /\ (length i' <= length i)%nat.
Proof.
  revert n s i'. induction i as [|[b|] i IH]; simpl; intros n s i' H.
  - destruct (n <=? 0) eqn:Hn; simplify_eq. rewrite zlen_nil. split; [lia|done].
  - destruct (n <=? 0) eqn:Hn; [simplify_eq; rewrite zlen_nil; split; [lia|done]|].
    destruct (read_full d (n - 1) i) as [[s1 e1] i1] eqn:Hr. simplify_eq.
    apply IH in Hr as [? ?]. rewrite zlen_cons. split; lia.
  - destruct (n <=? 0) eqn:Hn; [simplify_eq; rewrite zlen_nil; split; [lia|done]|].
    destruct d; [done|]. apply IH in H as [? ?]. split; lia.
Qed.

(** How many bytes the peer has sent. *)
Fixpoint nbytes (i : list inev) : Z :=
  match i with
  | [] => 0
  | InByte _ :: i' => 1 + nbytes i'
  | InGap :: i' => nbytes i'
  end.

Lemma read_full_consumes d n i s e i' :
  read_full d n i = ((s, e), i') -> nbytes i = zlen s + nbytes i'.
Proof.
  revert n s i'. induction i as [|[b|] i IH]; intros n s i' H; cbn [read_full] in H.
  - destruct (n <=? 0); by simplify_eq.
  - destruct (n <=? 0); [by simplify_eq|].
    destruct (read_full d (n - 1) i) as [[s1 e1] i1] eqn:Hr. simplify_eq.
    apply IH in Hr. simpl. rewrite zlen_cons. lia.
  - destruct (n <=? 0); [by simplify_eq|]. destruct d; [by simplify_eq|]. simpl. by eapply IH.
Qed.

(** A read never looks past the bytes it was asked for. *)
Lemma read_full_bytes d n i s e i' :
  read_full d n i = ((s, e), i') -> zlen s <= Z.max 0 n.
Proof.
  revert n s i'. induction i as [|[b|] i IH]; simpl; intros n s i' H.
  - destruct (n <=? 0) eqn:Hn; simplify_eq; rewrite zlen_nil; lia.
  - destruct (n <=? 0) eqn:Hn; [simplify_eq; rewrite zlen_nil; lia|].
    destruct (read_full d (n - 1) i) as [[s1 e1] i1] eqn:Hr. simplify_eq.
    apply IH in Hr. rewrite zlen_cons. lia.
  - destruct (n <=? 0) eqn:Hn; [simplify_eq; rewrite zlen_nil; lia|].
    destruct d; [simplify_eq; rewrite zlen_nil; lia|]. apply IH in H. lia.
Qed.

Lemma conn_read_full_spec d s i c :
  is_open c = true -> inp c = typed s ++ i -> conn_read_full d (zlen s) c = (inr s, set_inp c i).
Proof.
  intros Ho Hi. unfold conn_read_full. destruct (zlen s <=? 0) eqn:Hz.
  - destruct s; [|rewrite zlen_cons in Hz; pose proof (zlen_nonneg s); lia].
    simpl in Hi. rewrite <- Hi. by destruct c.
  - by rewrite Ho, Hi, read_full_spec.
Qed.

Lemma conn_read_full_consumes d n c r c' :
  conn_read_full d n c = (r, c') -> nbytes (inp c) - nbytes (inp c') <= Z.max 0 n.
Proof.
  unfold conn_read_full. intros H.
  destruct (n <=? 0); [simplify_eq; lia|]. destruct (is_open c); [|simplify_eq/=; lia].
  simpl in H. destruct (read_full d n (inp c)) as [[s e] i] eqn:Hr. simplify_eq/=.
  pose proof (read_full_consumes _ _ _ _ _ _ Hr). pose proof (read_full_bytes _ _ _ _ _ _ Hr). lia.
Qed.

Lemma conn_read_full_length d n c s c' :
  conn_read_full d n c = (inr s, c') -> zlen s = Z.max 0 n.
Proof.
  unfold conn_read_full. intros H. destruct (n <=? 0) eqn:Hn; [simplify_eq; rewrite zlen_nil; lia|].
  destruct (is_open c); [|done]. simpl in H.
  destruct (read_full d n (inp c)) as [[s1 e] i] eqn:Hr. destruct e; simplify_eq.
  by apply read_full_length in Hr as [? _].
Qed.

(** An open connection whose peer takes every write. *)
Lemma conn_write_open c p :
  is_open c = true -> budget (outp c) = None ->
  conn_write c p
  = Conn (inp c) (Sink (written (outp c) ++ p) None (sink_err (outp c))) true (read_err c) (timeout_err c).
Proof. intros Ho Hb. unfold conn_write. by rewrite Ho, sink_write_unlimited. Qed.
