(* ===== verification/Tls.v ===== *)
(** * What [crypto/tls] makes of the settings the sources give it

    The fields of [tls.Config] that the proxy's listener ([internal/proxy/listener.go]) and
    the CLI's dialler ([cli/transport/transport.go]) set, the protocol version that two
    sides agree on, and the cipher suites that then remain.  Handshakes and records are
    not modelled. *)

From S2P Require Import Prelude GoStr Io.
From stdpp Require Import options.
Open Scope Z_scope.

Definition VersionTLS10 : Z := 769.
Definition VersionTLS11 : Z := 770.
Definition VersionTLS12 : Z := 771.
Definition VersionTLS13 : Z := 772.

Definition TLS_AES_128_GCM_SHA256 : Z := 4865.
Definition TLS_AES_256_GCM_SHA384 : Z := 4866.
Definition TLS_CHACHA20_POLY1305_SHA256 : Z := 4867.

(** Zero and the empty list stand for the package's defaults. *)
Record tls_config := TlsConfig {
  MinVersion : Z;
  MaxVersion : Z;
  CipherSuites : list Z;
  InsecureSkipVerify : bool;
}.

(** The versions a side offers or takes, best first; from 1.2 to 1.3 by default. *)
Definition supported_versions (cfg : tls_config) : list Z :=
  filter (fun v => (if MinVersion cfg =? 0 then VersionTLS12 else MinVersion cfg) <= v
                   /\ (MaxVersion cfg = 0 \/ v <= MaxVersion cfg))
    [VersionTLS13; VersionTLS12; VersionTLS11; VersionTLS10].

(** The version a side settles on with a peer that offers these; none ends the handshake. *)
Definition mutual_version (cfg : tls_config) (offered : list Z) : option Z :=
  head (filter (fun v => v ∈ offered) (supported_versions cfg)).

(** The suites that may be used with a version: those of TLS 1.3 cannot be configured. *)
Definition suites (cfg : tls_config) (version : Z) (defaults : list Z) : list Z :=
  if bool_decide (version = VersionTLS13) then [TLS_AES_128_GCM_SHA256; TLS_AES_256_GCM_SHA384; TLS_CHACHA20_POLY1305_SHA256]
  else if bool_decide (CipherSuites cfg = []) then defaults else CipherSuites cfg.

(** The configuration in [NewTLSListener], and the one in [ConnectTLS]. *)
Definition listener_config : tls_config :=
  TlsConfig VersionTLS13 VersionTLS13 [TLS_AES_256_GCM_SHA384; TLS_CHACHA20_POLY1305_SHA256] false.

Definition client_config : tls_config := TlsConfig VersionTLS13 VersionTLS13 [] true.

(** ** Lemmas *)

(** With 1.3 as floor and ceiling there is no other version. *)
Lemma only_tls13 cfg offered v :
  MinVersion cfg = VersionTLS13 -> MaxVersion cfg = VersionTLS13 ->
  mutual_version cfg offered = Some v <-> v = VersionTLS13 /\ VersionTLS13 ∈ offered.
Proof.
  intros Hmin Hmax. unfold mutual_version, supported_versions. rewrite Hmin, Hmax.
  change (filter _ [VersionTLS13; _; _; _]) with [VersionTLS13]. rewrite filter_cons.
  case_decide; cbn; naive_solver.
Qed.

(** The two ends of the program meet. *)
Lemma client_meets_listener : mutual_version listener_config (supported_versions client_config) = Some VersionTLS13.
Proof. reflexivity. Qed.

(** Naming two suites does not keep the third away. *)
Example third_suite_remains defaults :
  mutual_version listener_config [VersionTLS13; VersionTLS12] = Some VersionTLS13
  /\ TLS_AES_128_GCM_SHA256 ∉ CipherSuites listener_config
  /\ TLS_AES_128_GCM_SHA256 ∈ suites listener_config VersionTLS13 defaults.
Proof.
  split; [reflexivity|]. split; apply (bool_decide_unpack _); vm_compute; exact I.
Qed.
