(* ===== verification/Db.v ===== *)
(** * The database: [db/migrations/*.sql] and the statements the sources run

    One list of records per table, in an order nobody may rely on; the
    constraints of the schema are checked by the statements that write.  SQL's
    three-valued logic is written out.  Each statement is a function on the
    tables; [run] and [query] put it behind a connection that can fail.

    Left open, as properties of the PostgreSQL server: the collation, the text
    forms of [inet], the error messages and the generator of UUIDs.  A UUID is
    represented by its canonical text.  The columns [created_at] and
    [policies.id], which no statement reads, are left out. *)

From S2P Require Import Prelude GoStr.
From stdpp Require Import options.
Open Scope Z_scope.

(** ** Rows *)

(** An [INET] value: the address, in canonical text, and the mask length. *)
Record inet := Inet { inet_addr : str; inet_mask : Z }.

#[export] Instance inet_eq_dec : EqDecision inet.
Proof. solve_decision. Defined.

Record user_row := UserRow {
  u_id : str;
  u_username : str;
  u_password_hash : str;
  u_role : str;
  u_failed_attempts : Z;
  u_locked_until : option Z;
  u_override_role_access : bool;
}.

Record server_row := ServerRow {
  s_id : str;
  s_hostname : str;
  s_private_ip : inet;
  s_vault_secret_path : str;
  s_ssh_user : str;
  s_environment : str;
}.

(** Elements of a PostgreSQL array may be NULL. *)
Record policy_row := PolicyRow {
  p_role : str;
  p_allowed_environments : list (option str);
  p_allowed_commands : option (list (option str));
}.

Record grant_row := GrantRow { g_user_id : str; g_server_id : str }.

Record session_row := SessionRow {
  a_session_id : str;
  a_user_id : str;
  a_server_id : str;
  a_proxy_node_ip : inet;
  a_start_time : Z;
  a_status : str;
}.

#[export] Instance grant_row_eq_dec : EqDecision grant_row.
Proof. solve_decision. Defined.

(** ** The server's own behaviour *)

Inductive violation :=
  | NotUnique (constraint : str)
  | TooLong (limit : nat)
  | BadText
  | BadInet (text : str)
  | IntRange
  | NoParent (constraint : str)
  | CheckFailed (constraint : str).

Class Postgres := {
  collate : str -> str -> bool;
  collate_total : forall a b, collate a b = true \/ collate b a = true;
  collate_trans : forall a b c, collate a b = true -> collate b c = true -> collate a c = true;
  inet_in : str -> option inet;
  inet_show_mask : Z -> str;
  uuid_gen : nat -> str;
  pg_message : violation -> str;
  pq_null_element : str;
}.

(** What happens to the next statement sent: it runs; it fails before taking
    effect; it takes effect but the reply is lost; or the reply breaks off after
    some rows. *)
Inductive outcome := Done | Down (msg : str) | Lost (msg : str) | Cut (rows : nat) (msg : str).

Record database := DB {
  users : list user_row;
  servers : list server_row;
  policies : list policy_row;
  grants : list grant_row;
  active_sessions : list session_row;
  outcomes : list outcome;
  next_uuid : nat;
}.

Definition set_users (d : database) x := DB x (servers d) (policies d) (grants d) (active_sessions d) (outcomes d) (next_uuid d).
Definition set_servers (d : database) x := DB (users d) x (policies d) (grants d) (active_sessions d) (outcomes d) (next_uuid d).
Definition set_policies (d : database) x := DB (users d) (servers d) x (grants d) (active_sessions d) (outcomes d) (next_uuid d).
Definition set_grants (d : database) x := DB (users d) (servers d) (policies d) x (active_sessions d) (outcomes d) (next_uuid d).
Definition set_sessions (d : database) x := DB (users d) (servers d) (policies d) (grants d) x (outcomes d) (next_uuid d).
Definition set_outcomes (d : database) x := DB (users d) (servers d) (policies d) (grants d) (active_sessions d) x (next_uuid d).
Definition next_id (d : database) := DB (users d) (servers d) (policies d) (grants d) (active_sessions d) (outcomes d) (S (next_uuid d)).

(** ** Sending a statement *)

(** [ExecContext] and [QueryRowContext(...).Scan(...)]. *)
Definition run {A} (stmt : database -> res A * database) (d : database) : res A * database :=
  match outcomes d with
  | [] => stmt d
  | Done :: os => stmt (set_outcomes d os)
  | Down m :: os | Cut _ m :: os => (inl (ErrText m), set_outcomes d os)
  | Lost m :: os => (inl (ErrText m), (stmt (set_outcomes d os)).2)
  end.

(** [QueryContext] and its rows: the rows that [rows.Next] hands out and what
    [rows.Err] says at the end. *)
Definition query {A} (sel : database -> res (list A)) (d : database) : res (list A * option error) * database :=
  match outcomes d with
  | [] => ((fun rs => (rs, None)) <$> sel d, d)
  | Done :: os => ((fun rs => (rs, None)) <$> sel d, set_outcomes d os)
  | Down m :: os | Lost m :: os => (inl (ErrText m), set_outcomes d os)
  | Cut n m :: os => ((fun rs => (take n rs, Some (ErrText m))) <$> sel d, set_outcomes d os)
  end.

(** ** Values *)

(** Text the server accepts: valid UTF-8 without NUL. *)
Definition text_ok (s : str) : bool :=
  forallb (fun c : Z * str => negb (c.1 =? 0) && negb ((c.1 =? RuneError) && (length c.2 =? 1)%nat)) (runes s).

(** Assignment to a [VARCHAR(n)] column: longer text is an error unless the
    excess is spaces. *)
Definition varchar (n : nat) (s : str) : option str :=
  if (rune_count s <=? n)%nat then Some s
  else if forallb (fun c : Z * str => c.1 =? 32) (drop n (runes s))
  then Some (chunk_bytes (take n (runes s))) else None.

Definition int4 (z : Z) : bool := (-2147483648 <=? z) && (z <=? 2147483647).

(** Three-valued logic; [None] is NULL. *)
Definition sql_or (a b : option bool) : option bool :=
  match a, b with
  | Some true, _ | _, Some true => Some true
  | Some false, Some false => Some false
  | _, _ => None
  end.

Definition sql_and (a b : option bool) : option bool :=
  match a, b with
  | Some false, _ | _, Some false => Some false
  | Some true, Some true => Some true
  | _, _ => None
  end.

(** [x = ANY(arr)]. *)
Definition sql_any (x : str) (arr : option (list (option str))) : option bool :=
  match arr with
  | None => None
  | Some l =>
      if bool_decide (Some x ∈ l) then Some true
      else if bool_decide (None ∈ l) then None
      else Some false
  end.

(** A WHERE clause keeps a row when its condition is true, not when it is NULL. *)
Definition is_true (b : option bool) : bool := bool_decide (b = Some true).

(** The right-hand side of a LEFT JOIN: the matching rows, or one row of NULLs. *)
Definition left_join {A} (l : list A) : list (option A) :=
  match l with [] => [None] | _ => Some <$> l end.

Section pg.
Context {PG : Postgres}.

Definition pg_error (v : violation) : error := ErrText (pg_message v).

(** [ORDER BY] on a text column. *)
Definition key_le {A} (key : A -> str) (a b : A) : Prop := collate (key a) (key b) = true.

#[export] Instance key_le_dec {A} (key : A -> str) : RelDecision (key_le key).
Proof. intros a b. unfold key_le. apply _. Defined.

Definition order_by {A} (key : A -> str) (l : list A) : list A := merge_sort (key_le key) l.

(** Scanning a [TEXT[]] into a [pq.StringArray]: NULL is the nil slice, a NULL
    element an error. *)
Definition scan_string_array (a : option (list (option str))) : res (option (list str)) :=
  match a with
  | None => inr None
  | Some l =>
      match mapM id l with
      | Some l' => inr (Some l')
      | None => inl (ErrText pq_null_element)
      end
  end.

(** [host(x)] and [x::text] of an inet: the second always shows the mask. *)
Definition inet_host (i : inet) : str := inet_addr i.
Definition inet_text (i : inet) : str := inet_addr i ++ §"/" ++ inet_show_mask (inet_mask i).

(** ** Statements that write *)

(** [INSERT INTO users (username, password_hash, role) ... RETURNING id::text]. *)
Definition insert_user (username hash role : str) (d : database) : res str * database :=
  if negb (text_ok username && text_ok hash && text_ok role) then (inl (pg_error BadText), d) else
  match varchar 50 username, varchar 255 hash, varchar 50 role with
  | Some un, Some ha, Some ro =>
      let id := uuid_gen (next_uuid d) in
      let d := next_id d in
      if bool_decide (id ∈ map u_id (users d)) then (inl (pg_error (NotUnique §"users_pkey")), d)
      else if bool_decide (un ∈ map u_username (users d))
      then (inl (pg_error (NotUnique §"users_username_key")), d)
      else (inr id, set_users d (users d ++ [UserRow id un ha ro 0 None false]))
  | None, _, _ => (inl (pg_error (TooLong 50)), d)
  | _, None, _ => (inl (pg_error (TooLong 255)), d)
  | _, _, None => (inl (pg_error (TooLong 50)), d)
  end.

(** [INSERT INTO servers (hostname, private_ip, vault_secret_path, environment, ssh_user)]. *)
Definition insert_server (hostname ip path env ssh_user : str) (d : database) : res () * database :=
  if negb (text_ok hostname && text_ok ip && text_ok path && text_ok env && text_ok ssh_user)
  then (inl (pg_error BadText), d) else
  match inet_in ip with
  | None => (inl (pg_error (BadInet ip)), d)
  | Some i =>
      match varchar 100 hostname, varchar 255 path, varchar 50 env, varchar 50 ssh_user with
      | Some ho, Some pa, Some en, Some us =>
          let id := uuid_gen (next_uuid d) in
          let d := next_id d in
          if bool_decide (id ∈ map s_id (servers d)) then (inl (pg_error (NotUnique §"servers_pkey")), d)
          else if bool_decide (ho ∈ map s_hostname (servers d))
          then (inl (pg_error (NotUnique §"servers_hostname_key")), d)
          else (inr tt, set_servers d (servers d ++ [ServerRow id ho i pa us en]))
      | None, _, _, _ => (inl (pg_error (TooLong 100)), d)
      | _, None, _, _ => (inl (pg_error (TooLong 255)), d)
      | _, _, _, _ => (inl (pg_error (TooLong 50)), d)
      end
  end.

(** [INSERT INTO policies ... ('unassigned', ARRAY[]::varchar[]) ON CONFLICT DO NOTHING]. *)
Definition ensure_unassigned (d : database) : res () * database :=
  if bool_decide (§"unassigned" ∈ map p_role (policies d)) then (inr tt, d)
  else (inr tt, set_policies d (policies d ++ [PolicyRow §"unassigned" [] None])).

(** [INSERT INTO user_server_grants (user_id, server_id) ... ON CONFLICT DO NOTHING]. *)
Definition insert_grant (user server : str) (d : database) : res () * database :=
  if bool_decide (GrantRow user server ∈ grants d) then (inr tt, d)
  else if negb (bool_decide (user ∈ map u_id (users d))) then (inl (pg_error (NoParent §"user_server_grants_user_id_fkey")), d)
  else if negb (bool_decide (server ∈ map s_id (servers d))) then (inl (pg_error (NoParent §"user_server_grants_server_id_fkey")), d)
  else (inr tt, set_grants d (grants d ++ [GrantRow user server])).

(** [DELETE FROM user_server_grants WHERE user_id = $1 AND server_id = $2]: the
    number of rows deleted. *)
Definition delete_grant (user server : str) (d : database) : res Z * database :=
  let keep := filter (fun g => g <> GrantRow user server) (grants d) in
  (inr (zlen (grants d) - zlen keep), set_grants d keep).

Definition update_user (id : str) (f : user_row -> user_row) (d : database) : database :=
  set_users d (map (fun u => if bool_decide (u_id u = id) then f u else u) (users d)).

(** [UPDATE users SET override_role_access = true WHERE id = $1]. *)
Definition set_override (id : str) (d : database) : res () * database :=
  (inr tt, update_user id (fun u =>
     UserRow (u_id u) (u_username u) (u_password_hash u) (u_role u)
             (u_failed_attempts u) (u_locked_until u) true) d).

(** [UPDATE users SET failed_attempts = 0, locked_until = NULL WHERE id = $1]. *)
Definition reset_attempts (id : str) (d : database) : res () * database :=
  (inr tt, update_user id (fun u =>
     UserRow (u_id u) (u_username u) (u_password_hash u) (u_role u)
             0 None (u_override_role_access u)) d).

(** The row after the UPDATE of [atomicIncrementAndMaybeLock]. *)
Definition count_failure (threshold secs db_now : Z) (u : user_row) : user_row :=
  UserRow (u_id u) (u_username u) (u_password_hash u) (u_role u)
    (u_failed_attempts u + 1)
    (if (threshold <=? u_failed_attempts u + 1) && bool_decide (u_locked_until u = None)
     then Some (db_now + secs * 1000000000) else u_locked_until u)
    (u_override_role_access u).

(** That UPDATE, with its RETURNING clause. *)
Definition increment_attempts (threshold secs db_now : Z) (id : str) (d : database)
  : res (Z * option Z) * database :=
  match filter (fun u => u_id u = id) (users d) with
  | [] => (inl ErrNoRows, d)
  | u :: _ =>
      if negb (int4 threshold && int4 (u_failed_attempts u + 1)) then (inl (pg_error IntRange), d) else
      let u' := count_failure threshold secs db_now u in
      (inr (u_failed_attempts u', u_locked_until u'), update_user id (count_failure threshold secs db_now) d)
  end.

(** [INSERT INTO active_sessions (...) VALUES ($1, $2, $3, $4::inet, NOW(), 'active')]. *)
Definition insert_session (id user server node : str) (db_now : Z) (d : database) : res () * database :=
  match inet_in node with
  | None => (inl (pg_error (BadInet node)), d)
  | Some i =>
      if bool_decide (id ∈ map a_session_id (active_sessions d)) then (inl (pg_error (NotUnique §"active_sessions_pkey")), d)
      else if negb (bool_decide (user ∈ map u_id (users d))) then (inl (pg_error (NoParent §"active_sessions_user_id_fkey")), d)
      else if negb (bool_decide (server ∈ map s_id (servers d))) then (inl (pg_error (NoParent §"active_sessions_server_id_fkey")), d)
      else (inr tt, set_sessions d (active_sessions d ++ [SessionRow id user server i db_now §"active"]))
  end.

Definition session_statuses : list str :=
  [§"active"; §"terminated"; §"terminated-timeout"; §"terminated-kill"].

Definition with_status (st : str) (a : session_row) : session_row :=
  SessionRow (a_session_id a) (a_user_id a) (a_server_id a) (a_proxy_node_ip a) (a_start_time a) st.

(** [UPDATE active_sessions SET status = $1 WHERE session_id = $2]. *)
Definition update_status (st id : str) (d : database) : res () * database :=
  if bool_decide (id ∈ map a_session_id (active_sessions d)) && negb (bool_decide (st ∈ session_statuses))
  then (inl (pg_error (CheckFailed §"active_sessions_status_check")), d)
  else (inr tt, set_sessions d (map (fun a =>
          if bool_decide (a_session_id a = id) then with_status st a else a) (active_sessions d))).

(** [UPDATE active_sessions SET status = 'terminated' WHERE proxy_node_ip = $1::inet
    AND status = 'active']: the number of rows updated. *)
Definition orphaned (i : inet) (a : session_row) : bool :=
  bool_decide (a_proxy_node_ip a = i) && bool_decide (a_status a = §"active").

Definition terminate_orphans (node : str) (d : database) : res Z * database :=
  match inet_in node with
  | None => (inl (pg_error (BadInet node)), d)
  | Some i =>
      (inr (zlen (filter (fun a => orphaned i a = true) (active_sessions d))),
       set_sessions d (map (fun a => if orphaned i a then with_status §"terminated" a else a) (active_sessions d)))
  end.

(** ** The invariant of the schema *)

Record db_ok (d : database) : Prop := {
  ok_user_ids : NoDup (map u_id (users d));
  ok_usernames : NoDup (map u_username (users d));
  ok_server_ids : NoDup (map s_id (servers d));
  ok_hostnames : NoDup (map s_hostname (servers d));
  ok_roles : NoDup (map p_role (policies d));
  ok_grants : NoDup (grants d);
  ok_grants_fk : Forall (fun g => g_user_id g ∈ map u_id (users d)
                                  /\ g_server_id g ∈ map s_id (servers d)) (grants d);
  ok_session_ids : NoDup (map a_session_id (active_sessions d));
  ok_sessions_fk : Forall (fun a => a_user_id a ∈ map u_id (users d)
                                    /\ a_server_id a ∈ map s_id (servers d)) (active_sessions d);
  ok_statuses : Forall (fun a => a_status a ∈ session_statuses) (active_sessions d);
  ok_attempts : Forall (fun u => 0 <= u_failed_attempts u <= 2147483647) (users d);
  ok_role_text : Forall (fun u => text_ok (u_role u) = true) (users d);
  ok_hostname_text : Forall (fun s => text_ok (s_hostname s) = true) (servers d);
}.

(** One statement reaching the server, whatever becomes of its reply. *)
Inductive db_step : database -> database -> Prop :=
  | step_insert_user un ha ro d : db_step d (insert_user un ha ro d).2
  | step_insert_server ho ip pa en us d : db_step d (insert_server ho ip pa en us d).2
  | step_ensure_unassigned d : db_step d (ensure_unassigned d).2
  | step_insert_grant u s d : db_step d (insert_grant u s d).2
  | step_delete_grant u s d : db_step d (delete_grant u s d).2
  | step_set_override id d : db_step d (set_override id d).2
  | step_reset_attempts id d : db_step d (reset_attempts id d).2
  | step_increment_attempts th secs now id d : db_step d (increment_attempts th secs now id d).2
  | step_insert_session id u s n now d : db_step d (insert_session id u s n now d).2
  | step_update_status st id d : db_step d (update_status st id d).2
  | step_terminate_orphans n d : db_step d (terminate_orphans n d).2
  | step_outcomes os d : db_step d (set_outcomes d os).

(** Any number of statements. *)
Definition db_reach : database -> database -> Prop := rtc db_step.

#[export] Instance db_reach_preorder : PreOrder db_reach.
Proof. split; unfold db_reach; apply _. Qed.

(** ** Lemmas *)

Lemma map_update_user {B} (g : user_row -> B) id f d :
  (forall u, g (f u) = g u) -> map g (users (update_user id f d)) = map g (users d).
Proof.
  intros Hg. simpl. rewrite map_map. apply map_ext. intros u. by case_bool_decide.
Qed.

Lemma update_user_ok id f d :
  db_ok d -> (forall u, u_id (f u) = u_id u) -> (forall u, u_username (f u) = u_username u) ->
  (forall u, u_role (f u) = u_role u) ->
  (forall u, u ∈ users d -> u_id u = id -> 0 <= u_failed_attempts (f u) <= 2147483647) ->
  db_ok (update_user id f d).
Proof.
  intros [] Hid Hun Hro Hf.
  pose proof (map_update_user u_id id f d Hid) as Eid.
  pose proof (map_update_user u_username id f d Hun) as Eun.
  constructor; rewrite ?Eid, ?Eun; try done.
  - simpl. apply Forall_map, Forall_forall. intros u Hu. unfold compose. case_bool_decide; [by apply Hf|].
    rewrite Forall_forall in ok_attempts0. auto.
  - simpl. apply Forall_map. eapply Forall_impl; [exact ok_role_text0|].
    intros u Hu. unfold compose. case_bool_decide; [by rewrite Hro|done].
Qed.

Lemma NoDup_map_snoc {A B} (f : A -> B) l x :
  NoDup (map f l) -> f x ∉ map f l -> NoDup (map f (l ++ [x])).
Proof.
  intros Hl Hx. rewrite map_app. simpl. apply NoDup_app. split; [done|split; [|apply NoDup_singleton]].
  intros y Hy ->%list_elem_of_singleton. done.
Qed.

Lemma map_snoc_subseteq {A B} (f : A -> B) l x : map f l ⊆ map f (l ++ [x]).
Proof. rewrite map_app. intros y Hy. apply elem_of_app. by left. Qed.

(** Where the foreign keys of a table point to may grow. *)
Lemma fk_grow {A} (f g : A -> str) l (us us' ss ss' : list str) :
  us ⊆ us' -> ss ⊆ ss' ->
  Forall (fun x => f x ∈ us /\ g x ∈ ss) l -> Forall (fun x => f x ∈ us' /\ g x ∈ ss') l.
Proof. intros Hu Hs Hl. eapply Forall_impl; [done|]. intros x [? ?]. auto. Qed.

(** Text that was accepted stays acceptable when it is cut to the column. *)
Lemma varchar_ok n s s' : varchar n s = Some s' -> text_ok s = true -> text_ok s' = true.
Proof.
  unfold varchar, text_ok. intros H Hs. repeat case_match; simplify_eq; [done|].
  rewrite (runes_prefix s _ (drop n (runes s))) by (by rewrite take_drop).
  rewrite forallb_forall in *. intros c Hc. apply Hs.
  rewrite <- (take_drop n (runes s)). apply in_or_app. by left.
Qed.

Lemma next_id_ok d : db_ok d -> db_ok (next_id d).
Proof. by intros []. Qed.

Lemma set_outcomes_ok os d : db_ok d -> db_ok (set_outcomes d os).
Proof. by intros []. Qed.

Lemma insert_user_ok un ha ro d : db_ok d -> db_ok (insert_user un ha ro d).2.
Proof.
  intros Hd. unfold insert_user. cbv zeta.
  repeat case_match; simpl; try done; try (by apply next_id_ok).
  repeat case_bool_decide; simplify_eq/=. destruct Hd.
  constructor; simpl; try done; try (by apply NoDup_map_snoc).
  - eapply fk_grow; [apply map_snoc_subseteq|done..].
  - eapply fk_grow; [apply map_snoc_subseteq|done..].
  - apply Forall_app. split; [done|]. constructor; simpl; [lia|done].
  - apply Forall_app. split; [done|]. constructor; simpl; [|done].
    eapply varchar_ok; [done|]. by bools.
Qed.

Lemma insert_server_ok ho ip pa en us d : db_ok d -> db_ok (insert_server ho ip pa en us d).2.
Proof.
  intros Hd. unfold insert_server. cbv zeta.
  repeat case_match; simpl; try done; try (by apply next_id_ok).
  repeat case_bool_decide; simplify_eq/=. destruct Hd.
  constructor; simpl; try done; try (by apply NoDup_map_snoc).
  - eapply fk_grow; [done|apply map_snoc_subseteq|done..].
  - eapply fk_grow; [done|apply map_snoc_subseteq|done..].
  - apply Forall_app. split; [done|]. constructor; simpl; [|done].
    eapply varchar_ok; [done|]. by bools.
Qed.

Lemma ensure_unassigned_ok d : db_ok d -> db_ok (ensure_unassigned d).2.
Proof.
  intros Hd. unfold ensure_unassigned. case_bool_decide; [done|]. destruct Hd.
  constructor; simpl; try done. by apply NoDup_map_snoc.
Qed.

Lemma insert_grant_ok u s d : db_ok d -> db_ok (insert_grant u s d).2.
Proof.
  intros Hd. unfold insert_grant.
  repeat case_bool_decide; simpl; try done. destruct Hd. constructor; simpl; try done.
  - apply NoDup_app. split; [done|split; [|apply NoDup_singleton]].
    intros y Hy ->%list_elem_of_singleton. done.
  - apply Forall_app. split; [done|]. by repeat constructor.
Qed.

Lemma delete_grant_ok u s d : db_ok d -> db_ok (delete_grant u s d).2.
Proof.
  intros []. constructor; simpl; try done; [by apply NoDup_filter|].
  apply Forall_forall. intros g [_ Hg]%list_elem_of_filter. rewrite Forall_forall in ok_grants_fk0. auto.
Qed.

Lemma increment_attempts_ok th secs now id d : db_ok d -> db_ok (increment_attempts th secs now id d).2.
Proof.
  intros Hd. unfold increment_attempts, int4. destruct (filter _ _) as [|u us] eqn:Hf; [done|].
  case_match eqn:Hi; [done|]. cbv zeta. simpl. apply update_user_ok; [done..|].
  intros v Hv Hid. simpl.
  assert (v ∈ filter (fun u => u_id u = id) (users d)) as Hin by (by apply list_elem_of_filter).
  assert (u ∈ filter (fun u => u_id u = id) (users d)) as Hin' by (rewrite Hf; left).
  apply list_elem_of_filter in Hin' as [Hid' Hu].
  assert (v = u) as -> by (eapply (NoDup_map_inj u_id); [apply Hd|done|done|congruence]).
  destruct Hd. rewrite Forall_forall in ok_attempts0. specialize (ok_attempts0 _ Hu). lia.
Qed.

Lemma insert_session_ok id u s n now d : db_ok d -> db_ok (insert_session id u s n now d).2.
Proof.
  intros Hd. unfold insert_session. destruct (inet_in n) as [i|]; [|done].
  repeat case_bool_decide; simpl; try done. destruct Hd.
  constructor; simpl; try done; [by apply NoDup_map_snoc|..].
  - apply Forall_app. split; [done|]. by repeat constructor.
  - apply Forall_app. split; [done|]. constructor; [|done]. simpl. left.
Qed.

(** Rewriting the status of some rows keeps everything else of the table. *)
Lemma with_status_ok st (p : session_row -> bool) d :
  db_ok d -> ((exists a, a ∈ active_sessions d /\ p a = true) -> st ∈ session_statuses) ->
  db_ok (set_sessions d (map (fun a => if p a then with_status st a else a) (active_sessions d))).
Proof.
  intros [] Hst. constructor; simpl; try done.
  - rewrite map_map. erewrite map_ext; [done|]. intros a. by destruct (p a).
  - apply Forall_map. eapply Forall_impl; [exact ok_sessions_fk0|]. intros a. unfold compose. by destruct (p a).
  - apply Forall_map, Forall_forall. intros a Ha. rewrite Forall_forall in ok_statuses0.
    unfold compose. destruct (p a) eqn:Hp; [|auto]. simpl. eauto.
Qed.

Lemma update_status_ok st id d : db_ok d -> db_ok (update_status st id d).2.
Proof.
  intros Hd. unfold update_status. destruct (_ && _) eqn:Hc; [done|]. simpl.
  apply (with_status_ok st (fun a => bool_decide (a_session_id a = id))); [done|].
  intros (a & Ha & Hid). case_bool_decide; [|done]. subst.
  rewrite bool_decide_true in Hc; [|apply elem_of_map_key; eauto].
  by case_bool_decide.
Qed.

Lemma terminate_orphans_ok n d : db_ok d -> db_ok (terminate_orphans n d).2.
Proof.
  intros Hd. unfold terminate_orphans. destruct (inet_in n) as [i|]; [|done].
  apply (with_status_ok §"terminated" (orphaned i)); [done|]. intros _. right. left.
Qed.

Lemma db_step_ok d d' : db_step d d' -> db_ok d -> db_ok d'.
Proof.
  intros [] Hd.
  - by apply insert_user_ok.
  - by apply insert_server_ok.
  - by apply ensure_unassigned_ok.
  - by apply insert_grant_ok.
  - by apply delete_grant_ok.
  - apply update_user_ok; [done..|]. intros u Hu _. destruct Hd as [].
    rewrite Forall_forall in ok_attempts0. exact (ok_attempts0 u Hu).
  - by apply update_user_ok.
  - by apply increment_attempts_ok.
  - by apply insert_session_ok.
  - by apply update_status_ok.
  - by apply terminate_orphans_ok.
  - by apply set_outcomes_ok.
Qed.

Lemma db_reach_ok d d' : db_reach d d' -> db_ok d -> db_ok d'.
Proof. induction 1; eauto using db_step_ok. Qed.

(** Behind the connection the same holds, whatever the connection does. *)
Lemma run_reach {A} (stmt : database -> res A * database) d :
  (forall d0, db_step d0 (stmt d0).2) -> db_reach d (run stmt d).2.
Proof.
  intros Hs. unfold run. destruct (outcomes d) as [|[| | |] os]; simpl;
    try (by apply rtc_once, step_outcomes); [by apply rtc_once, Hs|..];
    (eapply rtc_l; [apply step_outcomes|by apply rtc_once, Hs]).
Qed.

Lemma query_reach {A} (sel : database -> res (list A)) d : db_reach d (query sel d).2.
Proof.
  unfold query. destruct (outcomes d) as [|[| | |] os]; simpl; [done|..];
    apply rtc_once, step_outcomes.
Qed.

Lemma run_read_reach {A} (sel : database -> res A) d :
  db_reach d (run (fun d0 => (sel d0, d0)) d).2.
Proof.
  unfold run. destruct (outcomes d) as [|[| | |] os]; simpl; [done|..];
    apply rtc_once, step_outcomes.
Qed.

(** ** Rows in order *)

#[export] Instance key_le_total {A} (key : A -> str) : Total (key_le key).
Proof. intros a b. apply collate_total. Qed.

#[export] Instance key_le_trans {A} (key : A -> str) : Transitive (key_le key).
Proof. intros a b c. apply collate_trans. Qed.

Lemma order_by_perm {A} (key : A -> str) l : order_by key l ≡ₚ l.
Proof. apply merge_sort_Permutation. Qed.

Lemma order_by_sorted {A} (key : A -> str) l : StronglySorted (key_le key) (order_by key l).
Proof. apply StronglySorted_merge_sort; apply _. Qed.

Lemma elem_of_order_by {A} (key : A -> str) l x : x ∈ order_by key l <-> x ∈ l.
Proof. by rewrite order_by_perm. Qed.
End pg.

#[export] Hint Resolve db_reach_ok run_reach query_reach run_read_reach : zttp.

(** The connection drops its recorded outcomes one by one and touches nothing else. *)
Lemma run_done {A} (stmt : database -> res A * database) d : outcomes d = [] -> run stmt d = stmt d.
Proof. unfold run. by intros ->. Qed.

Lemma query_done {A} (sel : database -> res (list A)) d rs :
  outcomes d = [] -> sel d = inr rs -> query sel d = (inr (rs, None), d).
Proof. unfold query. by intros -> ->. Qed.

Lemma sql_any_true x l : sql_any x (Some l) = Some true <-> Some x ∈ l.
Proof. unfold sql_any. split_ifs; naive_solver. Qed.

Lemma sql_and_true b : sql_and (Some true) b = Some true <-> b = Some true.
Proof. by destruct b as [[]|]. Qed.

Lemma sql_and_false b : sql_and (Some false) b = Some false.
Proof. done. Qed.

Lemma scan_ok `{Postgres} a cmds : scan_string_array a = inr cmds -> is_Some (mapM id (default [] a)).
Proof.
  unfold scan_string_array. destruct a as [l|]; [|done]. change (default [] (Some l)) with l.
  by destruct (mapM id l).
Qed.
