(* ===== verification/Commands.v ===== *)
(** * Command filtering: [internal/rbac/commands.go]

    The base binary name of a command line, the multiplexers that are always
    refused, the whitelist of a role, and the two messages shown on a refusal.
    The theorems say what a command line must look like to be let through, for
    every spelling of it: leading spaces, a directory, letter case, arguments. *)

From S2P Require Import Prelude GoStr.
From stdpp Require Import options.
Open Scope Z_scope.

(** The multiplexers of the source, in its order. *)
Definition BlockedMultiplexers : list str :=
  [§"tmux"; §"screen"; §"nohup"; §"disown"; §"setsid"; §"byobu"; §"dtach"].

(** Strip the path prefix and the arguments of a command line. *)
Definition extractBinaryName (cmdLine : str) : str :=
  match Fields (TrimSpace cmdLine) with
  | [] => []
  | binary :: _ =>
      let idx := LastIndexByte binary "/"%char in
      if 0 <=? idx then drop (Z.to_nat (idx + 1)) binary else binary
  end.

Section commands.
Context {UT : UnicodeTables}.

(** [for _, x := range names { if strings.EqualFold(base, x) {...} }]. *)
Definition folds_to_one_of (base : str) (names : list str) : bool :=
  existsb (EqualFold base) names.

Definition IsCommandAllowed (cmdLine : str) (allowedCmds : list str) : bool :=
  let base := extractBinaryName cmdLine in
  if decide (base = []) then true
  else if folds_to_one_of base BlockedMultiplexers then false
  else if decide (length allowedCmds = 0%nat) then true
  else folds_to_one_of base allowedCmds.
End commands.

Definition MultiplexerViolationMessage (cmd : str) : str :=
  CRLF ++ ESC ++ §"[31m[ZTTP Policy]" ++ ESC ++ §"[0m Command '" ++ extractBinaryName cmd
  ++ §"' is prohibited. Long-running tasks must use CI/CD pipelines." ++ CRLF.

Definition WhitelistViolationMessage (cmd : str) : str :=
  CRLF ++ ESC ++ §"[31m[ZTTP Policy]" ++ ESC ++ §"[0m Command '" ++ extractBinaryName cmd
  ++ §"' is not permitted by your access policy." ++ CRLF.

(** ** The shape of a typed command line *)

Definition space_byte (b : byte) : Prop := bval b = 32 \/ 9 <= bval b <= 13.
Definition graphic (b : byte) : Prop := 33 <= bval b <= 126.

(** Leading spaces, a directory that is empty or ends in a slash, a name without
    slashes, and arguments set off by a space. *)
Record typed_line (sp dir name args : str) : Prop := {
  tl_sp : Forall space_byte sp;
  tl_dir : dir = [] \/ last dir = Some "/"%char;
  tl_word : Forall graphic (dir ++ name);
  tl_slash : "/"%char ∉ name;
  tl_name : name <> [];
  tl_args : args = [] \/ exists b rest, args = b :: rest /\ space_byte b;
}.

(** ** Lemmas *)

Lemma graphic_ascii s : Forall graphic s -> Forall is_ascii s.
Proof. intros H. eapply Forall_impl; [done|]. unfold graphic, is_ascii. lia. Qed.

Lemma space_byte_ascii s : Forall space_byte s -> Forall is_ascii s.
Proof. intros H. eapply Forall_impl; [done|]. unfold space_byte, is_ascii. lia. Qed.

Lemma space_byte_is_space b : space_byte b -> is_space (bval b) = true.
Proof. unfold space_byte, is_space. lia. Qed.

Lemma graphic_not_space b : graphic b -> is_space (bval b) = false.
Proof. unfold graphic, is_space. lia. Qed.

Lemma fields_aux_word run cs cur :
  Forall (fun c => is_space c.1 = false) run ->
  fields_aux (run ++ cs) cur = fields_aux cs (cur ++ chunk_bytes run).
Proof.
  intros H. revert cur. induction H as [|[r bs] run Hr _ IH]; intros cur; simpl.
  - unfold chunk_bytes. simpl. by rewrite app_nil_r.
  - simpl in Hr. rewrite Hr, IH. unfold chunk_bytes. simpl. by rewrite <- app_assoc.
Qed.

Lemma Fields_typed sp word args :
  Forall space_byte sp -> Forall graphic word -> word <> [] ->
  (args = [] \/ exists b rest, args = b :: rest /\ space_byte b) ->
  head (Fields (sp ++ word ++ args)) = Some word.
Proof.
  intros Hsp Hw Hne Hargs. unfold Fields.
  rewrite runes_ascii_app, runes_ascii_app
    by first [by apply space_byte_ascii | by apply graphic_ascii].
  rewrite fields_aux_spaces_l
    by (apply Forall_map; eapply Forall_impl; [done|apply space_byte_is_space]).
  rewrite fields_aux_word
    by (apply Forall_map; eapply Forall_impl; [done|apply graphic_not_space]).
  rewrite chunk_bytes_ascii. simpl.
  destruct Hargs as [->|(b & rest & -> & Hb)]; simpl.
  - by rewrite decide_False.
  - rewrite runes_ascii_cons by (unfold is_ascii, space_byte in *; lia).
    simpl. rewrite space_byte_is_space by done. by rewrite decide_False.
Qed.

(** The name survives, whatever surrounds it. *)
Lemma extract_typed sp dir name args :
  typed_line sp dir name args -> extractBinaryName (sp ++ dir ++ name ++ args) = name.
Proof.
  intros [Hsp Hdir Hw Hslash Hname Hargs]. unfold extractBinaryName.
  rewrite Fields_TrimSpace, (app_assoc dir).
  pose proof (Fields_typed sp (dir ++ name) args Hsp Hw) as Hf.
  rewrite head_Some in Hf. destruct Hf as [l ->]; [by destruct dir, name|done|].
  destruct Hdir as [->|[d ->]%last_Some].
  - simpl. by rewrite LastIndexByte_none.
  - rewrite <- app_assoc. simpl. rewrite LastIndexByte_app by done.
    rewrite (proj2 (Z.leb_le _ _)) by apply zlen_nonneg.
    apply drop_after.
Qed.

(** The base name never holds a space or a slash. *)
Lemma extract_no_space_slash cmd b :
  b ∈ extractBinaryName cmd -> ~ space_byte b /\ b <> "/"%char.
Proof.
  unfold extractBinaryName. destruct (Fields (TrimSpace cmd)) as [|f l] eqn:Hf;
    [by intros ?%not_elem_of_nil|]. intros Hb.
  assert (Hin : f ∈ Fields (TrimSpace cmd)) by (rewrite Hf; set_solver).
  apply elem_of_Fields in Hin as [_ (pre & run & post & Hcs & -> & Hrun)].
  assert (Hsp : b ∈ chunk_bytes run -> ~ space_byte b).
  { intros Hbr Hs. unfold chunk_bytes in Hbr. apply list_elem_of_In, in_concat in Hbr as (bs & Hbs & Hb').
    apply in_map_iff in Hbs as ([r bs'] & <- & Hc). apply list_elem_of_In in Hc, Hb'. simpl in Hb'.
    assert (Hr : (r, bs') ∈ runes (TrimSpace cmd)) by (rewrite Hcs; set_solver).
    apply (runes_ascii_byte _ _ _ b) in Hr as [-> _]; [|done|unfold is_ascii, space_byte in *; lia].
    rewrite Forall_forall in Hrun. specialize (Hrun _ Hc). simpl in Hrun.
    by rewrite space_byte_is_space in Hrun. }
  destruct (LastIndexByte_spec (chunk_bytes run) "/"%char) as [[Hi Hn]|(p & t & Hpt & Hi & Hn)];
    rewrite Hi in Hb.
  - split; [by apply Hsp|]. intros ->. done.
  - rewrite (proj2 (Z.leb_le _ _)) in Hb by apply zlen_nonneg.
    rewrite Hpt, drop_after in Hb.
    split; [apply Hsp; rewrite Hpt; set_solver|]. intros ->. done.
Qed.

Section fold_lemmas.
Context {UT : UnicodeTables}.

Lemma folds_to_one_of_spec base names :
  folds_to_one_of base names = true <-> exists n, n ∈ names /\ EqualFold base n = true.
Proof.
  unfold folds_to_one_of. rewrite existsb_exists. by setoid_rewrite list_elem_of_In.
Qed.

Lemma all_fold_elem l k c :
  all_fold l k = true -> c ∈ k -> exists c', c' ∈ l /\ fold_eq c'.1 c.1 = true.
Proof.
  revert k. induction l as [|[x bs] l IH]; intros [|[y bs'] k] H Hc; simpl in *;
    try done; [by apply not_elem_of_nil in Hc|].
  apply andb_prop in H as [Hxy H]. apply elem_of_cons in Hc as [->|Hc].
  - exists (x, bs). set_solver.
  - destruct (IH k H Hc) as (c' & ? & ?). exists c'. set_solver.
Qed.

(** A non-letter ASCII byte only folds to itself. *)
Lemma EqualFold_byte s t b :
  EqualFold s t = true -> b ∈ t -> space_byte b \/ b = "/"%char -> b ∈ s.
Proof.
  intros H Hb Hcase.
  assert (Hnl : bval b < 48) by (destruct Hcase as [?| ->]; [unfold space_byte in *; lia|done]).
  assert (Hbt : b ∈ chunk_bytes (runes t)) by (by rewrite chunk_bytes_runes).
  unfold chunk_bytes in Hbt. apply list_elem_of_In, in_concat in Hbt as (bs & Hbs & Hb').
  apply in_map_iff in Hbs as ([r bs'] & <- & Hc). apply list_elem_of_In in Hc, Hb'. simpl in Hb'.
  apply (runes_ascii_byte _ _ _ b) in Hc as Hr; [|done|unfold is_ascii; lia]. destruct Hr as [-> ->].
  destruct (all_fold_elem _ _ _ H Hc) as ([r' bs] & Hin & Hfold). simpl in Hfold.
  assert (Hr' : r' = bval b).
  { assert (0 <= r').
    { destruct (Z_lt_dec r' 128) as [Hlt|]; [|lia].
      by destruct (runes_ascii_rune _ _ _ Hin Hlt). }
    pose proof (bval_range b). unfold fold_eq in Hfold.
    repeat (case_match; simplify_eq); lia. }
  subst r'. apply runes_ascii_rune in Hin as Hbs; [|lia]. destruct Hbs as [-> _].
  rewrite to_byte_bval in Hin. rewrite <- (chunk_bytes_runes s). unfold chunk_bytes.
  apply list_elem_of_In, in_concat. exists [b]. split; [|by left].
  apply in_map_iff. exists (bval b, [b]). split; [done|]. by apply list_elem_of_In.
Qed.
End fold_lemmas.

#[export] Hint Resolve space_byte_ascii graphic_ascii : zttp.

Section decision.
Context {UT : UnicodeTables}.

Lemma allowed_typed sp dir name args w :
  typed_line sp dir name args ->
  IsCommandAllowed (sp ++ dir ++ name ++ args) w
  = (negb (folds_to_one_of name BlockedMultiplexers)
     && (bool_decide (w = []) || folds_to_one_of name w)).
Proof.
  intros Ht. unfold IsCommandAllowed. cbv zeta. rewrite (extract_typed _ _ _ _ Ht).
  rewrite decide_False by apply Ht.
  destruct (folds_to_one_of name BlockedMultiplexers); [done|].
  by destruct w.
Qed.

(** An entry with a space or a slash in it is never the entry that lets a
    command through. *)
Lemma dead_entry cmd entry b :
  b ∈ entry -> space_byte b \/ b = "/"%char -> EqualFold (extractBinaryName cmd) entry = false.
Proof.
  intros Hb Hcase. destruct (EqualFold _ _) eqn:H; [|done].
  pose proof (EqualFold_byte _ _ b H Hb Hcase) as Hin.
  apply extract_no_space_slash in Hin. tauto.
Qed.
End decision.

(** ** Properties *)

(** What the filter takes for the command: leading spaces, a directory
    prefix and the arguments never change which binary name is checked, and the
    name that is checked never holds a space or a slash. *)
Theorem extractBinaryName_spec :
  (forall sp dir name args, typed_line sp dir name args ->
     extractBinaryName (sp ++ dir ++ name ++ args) = name)
  /\ (forall cmd b, b ∈ extractBinaryName cmd -> ~ space_byte b /\ b <> "/"%char).
Proof. split; [apply extract_typed|apply extract_no_space_slash]. Qed.

(** A multiplexer is refused however it is spelled on the line (spaces in
    front, any directory, any letter case, any arguments) and whatever the
    whitelist says. *)
Theorem multiplexer_always_denied {UT : UnicodeTables} sp dir name args w m :
  typed_line sp dir name args -> m ∈ BlockedMultiplexers -> EqualFold name m = true ->
  IsCommandAllowed (sp ++ dir ++ name ++ args) w = false.
Proof.
  intros Ht Hm Hfold. rewrite allowed_typed by done.
  assert (folds_to_one_of name BlockedMultiplexers = true) as ->; [|done].
  apply folds_to_one_of_spec. eauto.
Qed.

(** The decision on every line: an empty name passes; otherwise the name
    must fold to no multiplexer and, when the whitelist is not empty, to one of
    its entries. *)
Theorem IsCommandAllowed_spec {UT : UnicodeTables} cmd w :
  IsCommandAllowed cmd w = true <->
  extractBinaryName cmd = []
  \/ (forall m, m ∈ BlockedMultiplexers -> EqualFold (extractBinaryName cmd) m = false)
     /\ (w = [] \/ exists a, a ∈ w /\ EqualFold (extractBinaryName cmd) a = true).
Proof.
  unfold IsCommandAllowed. cbv zeta. case_decide as He; [tauto|].
  pose proof (folds_to_one_of_spec (extractBinaryName cmd) BlockedMultiplexers) as Hm.
  pose proof (folds_to_one_of_spec (extractBinaryName cmd) w) as Hw.
  destruct (folds_to_one_of _ BlockedMultiplexers).
  - destruct Hm as [(m & Hin & Hfold) _]; [done|]. split; [done|].
    intros [?|[Hall _]]; [done|]. by rewrite Hall in Hfold.
  - assert (Hall : forall m, m ∈ BlockedMultiplexers -> EqualFold (extractBinaryName cmd) m = false).
    { intros m Hin. destruct (EqualFold _ m) eqn:E; [|done]. destruct Hm as [_ Hm].
      discriminate Hm. eauto. }
    case_decide as Hl; [apply nil_length_inv in Hl|]; [tauto|].
    rewrite Hw. split; [tauto|]. intros [?|[_ [->|?]]]; [done..|done].
Qed.

(** A whitelist entry that holds a space or a slash is dead: next to another
    entry it changes no decision, and alone it refuses every command.  The entry
    [systemctl status] that the seed data gives the auditor role is one. *)
Theorem whitelist_entry_with_space_is_dead {UT : UnicodeTables} entry b :
  b ∈ entry -> space_byte b \/ b = "/"%char ->
  (forall cmd w, w <> [] -> IsCommandAllowed cmd (entry :: w) = IsCommandAllowed cmd w)
  /\ (forall cmd, extractBinaryName cmd <> [] -> IsCommandAllowed cmd [entry] = false).
Proof.
  intros Hb Hcase. unfold IsCommandAllowed, folds_to_one_of. cbv zeta.
  split; [intros cmd [|x w] Hw; [done|]|intros cmd Hne]; simpl;
    rewrite (dead_entry cmd entry b) by done; [done|].
  rewrite decide_False by done. by case_match.
Qed.

(** ** Witnesses *)

Lemma typed_line_example :
  typed_line §" " §"/usr/bin/" §"TMUX" §" new -s x".
Proof.
  constructor; [| by right | | | done | right; by exists " "%char, §"new -s x"; split; [|left]].
  - constructor; [by left|constructor].
  - unfold graphic. repeat constructor; by vm_compute.
  - by apply (bool_decide_unpack _).
Defined.

Lemma multiplexer_always_denied_witness :
  IsCommandAllowed (UT := ascii_tables) (§" " ++ §"/usr/bin/" ++ §"TMUX" ++ §" new -s x") [§"tmux"]
  = false.
Proof.
  apply (multiplexer_always_denied (UT := ascii_tables) _ _ _ _ _ §"tmux" typed_line_example).
  - left.
  - reflexivity.
Defined.

Lemma whitelist_entry_with_space_is_dead_witness :
  IsCommandAllowed (UT := ascii_tables) §"systemctl status sshd" [§"systemctl status"] = false
  /\ IsCommandAllowed (UT := ascii_tables) §"systemctl status sshd" [§"systemctl status"; §"ls"] = false.
Proof.
  destruct (whitelist_entry_with_space_is_dead (UT := ascii_tables) §"systemctl status" " "%char)
    as [H1 H2].
  - apply (bool_decide_unpack _). exact I.
  - left. left. reflexivity.
  - split; [apply H2; discriminate|]. rewrite H1; [reflexivity|discriminate].
Defined.
