(* ===== verification/CmdFilter.v ===== *)
(** * The stdin filter: [internal/proxy/cmdfilter.go]

    [commandFilterWriter] forwards every byte at once, keeps the line being typed
    in a buffer, and when the line ends either forwards the line end or sends
    Ctrl-C to the backend and a message to the client.  What lines the byte stream makes
    at the other end is decided by the terminal there, which is not part of the program:
    it is a class, with laws for the keys every terminal treats alike. *)

From S2P Require Import Prelude GoStr Commands Io.
From stdpp Require Import options.
Open Scope Z_scope.

Record commandFilterWriter := CFW {
  target : sink;
  clientW : sink;
  allowedCmds : list str;
  buf : str;
}.

Definition newCommandFilterWriter (t c : sink) (w : list str) : commandFilterWriter :=
  CFW t c w [].

(** [extractBase] of the filter, which repeats [extractBinaryName]. *)
Definition extractBase (cmdLine : str) : str :=
  match Fields (TrimSpace cmdLine) with
  | [] => []
  | binary :: _ =>
      let idx := LastIndexByte binary "/"%char in
      if 0 <=? idx then drop (Z.to_nat (idx + 1)) binary else binary
  end.

Definition set_target (f : commandFilterWriter) (t : sink) : commandFilterWriter :=
  CFW t (clientW f) (allowedCmds f) (buf f).
Definition set_buf (f : commandFilterWriter) (s : str) : commandFilterWriter :=
  CFW (target f) (clientW f) (allowedCmds f) s.

(** [f.target.Write([]byte{b})], handing on its error. *)
Definition forward (f : commandFilterWriter) (b : byte) : option error * commandFilterWriter :=
  let '(err, t) := sink_write (target f) [b] in (err, set_target f t).

Section filter.
Context {UT : UnicodeTables}.

Definition is_multiplexer (cleanLine : str) : bool :=
  folds_to_one_of (extractBase cleanLine) BlockedMultiplexers.

Definition violation_message (cleanLine : str) : str :=
  if is_multiplexer cleanLine then MultiplexerViolationMessage cleanLine
  else WhitelistViolationMessage cleanLine.

(** Whether the line in the buffer is intercepted. *)
Definition refused (w : list str) (rawLine : str) : bool :=
  let cleanLine := TrimSpace rawLine in
  negb (bool_decide (cleanLine = [])) && negb (IsCommandAllowed cleanLine w).

(** Interception: Ctrl-C to the backend, the message to the client; both write
    errors are dropped. *)
Definition intercept (f : commandFilterWriter) (cleanLine : str) : commandFilterWriter :=
  let '(_, t) := sink_write (target f) [to_byte 3] in
  let '(_, c) := sink_write (clientW f) (violation_message cleanLine) in
  CFW t c (allowedCmds f) (buf f).

(** One byte of the loop of [Write]. *)
Definition filter_byte (f : commandFilterWriter) (b : byte) : option error * commandFilterWriter :=
  if (bval b =? 127) || (bval b =? 8) then
    forward (set_buf f (chop (buf f))) b
  else if (bval b =? 10) || (bval b =? 13) then
    let rawLine := buf f in
    let f := set_buf f [] in
    if refused (allowedCmds f) rawLine then (None, intercept f (TrimSpace rawLine))
    else forward f b
  else forward (set_buf f (buf f ++ [b])) b.

Fixpoint filter_bytes (f : commandFilterWriter) (p : str) : option error * commandFilterWriter :=
  match p with
  | [] => (None, f)
  | b :: p' =>
      match filter_byte f b with
      | (Some err, f') => (Some err, f')
      | (None, f') => filter_bytes f' p'
      end
  end.

(** [(f *commandFilterWriter) Write]: the count and the error it returns. *)
Definition Write (f : commandFilterWriter) (p : str) : (Z * option error) * commandFilterWriter :=
  match filter_bytes f p with
  | (Some err, f') => ((0, Some err), f')
  | (None, f') => ((zlen p, None), f')
  end.
End filter.

(** ** The line the backend sees *)

(** The remote terminal: what it does with a key, the lines it has handed to whatever
    reads them, and the line being edited - [None] when its reader does not take plain
    lines (an editor in raw mode, a search, a quoted key), and then nothing is known of
    the keys that follow.  The laws are about keys that a line discipline in canonical
    mode and the usual line editors treat alike: printing ASCII is inserted, DEL erases
    the last character, CR and LF hand the line over, Ctrl-C drops it.  [self_inserts] are
    the bytes this terminal inserts; of tabs, escapes, Ctrl-H, Ctrl-U, Ctrl-V, Ctrl-W and
    the others there is no law. *)
Definition printing (b : byte) : Prop := 32 <= bval b <= 126.
Definition line_end (b : byte) : Prop := bval b = 10 \/ bval b = 13.

Class Terminal := {
  term : Type;
  fresh_term : term;
  press : term -> byte -> term;
  submitted : term -> list str;
  line : term -> option str;
  self_inserts : byte -> bool;
  fresh_term_empty : submitted fresh_term = [] /\ line fresh_term = Some [];
  printing_inserts : forall b, printing b -> self_inserts b = true;
  key_inserts : forall t l b, line t = Some l -> self_inserts b = true ->
    line (press t b) = Some (l ++ [b]) /\ submitted (press t b) = submitted t;
  key_erases : forall t l b, line t = Some l -> bval b = 127 ->
    line (press t b) = Some (chop l) /\ submitted (press t b) = submitted t;
  key_interrupts : forall t l b, line t = Some l -> bval b = 3 ->
    line (press t b) = Some [] /\ submitted (press t b) = submitted t;
  key_submits : forall t l b, line t = Some l -> line_end b ->
    submitted (press t b) = submitted t ++ [l] /\ (line (press t b) = Some [] \/ line (press t b) = None);
}.

(** The terminal reading bytes, up to where it leaves the editing of plain lines. *)
Definition tty_byte {TM : Terminal} (t : term) (b : byte) : term :=
  match line t with Some _ => press t b | None => t end.

Definition tty_read {TM : Terminal} (s : str) : term := fold_left tty_byte s fresh_term.

(** The line kept in the filter's buffer after some bytes without a line end. *)
Definition edit (s : str) (l : str) : str :=
  fold_left (fun acc b => if (bval b =? 127) || (bval b =? 8) then chop acc else acc ++ [b]) l s.

(** The keys of which the laws of a terminal and the filter's buffer say the same. *)
Definition simple_key (b : byte) : Prop := printing b \/ bval b = 127 \/ line_end b.

(** ** Lemmas *)

Lemma extractBase_eq s : extractBase s = extractBinaryName s.
Proof. done. Qed.

Lemma tty_read_snoc {TM : Terminal} s b : tty_read (s ++ [b]) = tty_byte (tty_read s) b.
Proof. unfold tty_read. by rewrite fold_left_app. Qed.

Lemma edit_cons s b l :
  edit s (b :: l) = edit (if (bval b =? 127) || (bval b =? 8) then chop s else s ++ [b]) l.
Proof. done. Qed.

Section lemmas.
Context {UT : UnicodeTables}.

Lemma filter_bytes_app f p q :
  filter_bytes f (p ++ q)
  = match filter_bytes f p with
    | (Some err, f') => (Some err, f')
    | (None, f') => filter_bytes f' q
    end.
Proof.
  revert f. induction p as [|b p IH]; intros f; [done|]. simpl.
  destruct (filter_byte f b) as [[err|] f']; [done|apply IH].
Qed.

Definition permitted (w : list str) (l : str) : Prop := refused w l = false.

Context {TM : Terminal}.

(** Every line the terminal has handed over is permitted, and the filter's buffer is the
    line it is editing, unless it takes no more writes or edits no plain line. *)
Definition follows (f : commandFilterWriter) : Prop :=
  budget (target f) = Some 0%nat \/ line (tty_read (written (target f))) = None
  \/ line (tty_read (written (target f))) = Some (buf f).

Record in_step (f : commandFilterWriter) : Prop := {
  in_step_lines : Forall (permitted (allowedCmds f)) (submitted (tty_read (written (target f))));
  in_step_buf : follows f;
}.

(** What a key does to the terminal's lines when the filter lets it through. *)
Definition goes_with (w : list str) (t : term) (b : byte) (buf' : str) : Prop :=
  Forall (permitted w) (submitted (press t b)) /\ (line (press t b) = None \/ line (press t b) = Some buf').

Lemma in_step_forward f b f0 err f' :
  in_step f -> target f0 = target f -> allowedCmds f0 = allowedCmds f ->
  (forall t, line t = Some (buf f) -> Forall (permitted (allowedCmds f)) (submitted t) -> goes_with (allowedCmds f) t b (buf f0)) ->
  forward f0 b = (err, f') -> in_step f' /\ allowedCmds f' = allowedCmds f.
Proof.
  intros [Hok Hbuf] Ht Ha Hb. unfold follows in Hbuf. unfold forward, sink_write, set_target. rewrite Ht.
  set (t := tty_read (written (target f))) in *.
  assert (budget (target f) <> Some 0%nat ->
    Forall (permitted (allowedCmds f)) (submitted (tty_byte t b)) /\ (line (tty_byte t b) = None \/ line (tty_byte t b) = Some (buf f0))) as Hgo.
  { intros Hn. destruct Hbuf as [?|[Hl|Hl]]; [done|..]; unfold tty_byte; rewrite Hl; [by auto|]. by apply Hb. }
  destruct (budget (target f)) as [[|n]|] eqn:Hbud; intros [= <- <-]; (split; [|done]);
    constructor; unfold follows; simpl; rewrite ?Ha, ?tty_read_snoc; fold t; try by auto.
  all: destruct Hgo; auto.
Qed.

Lemma in_step_intercept f l :
  in_step f -> in_step (intercept (set_buf f []) l) /\
  allowedCmds (intercept (set_buf f []) l) = allowedCmds f.
Proof.
  intros [Hok Hbuf]. unfold follows in Hbuf. unfold intercept. simpl.
  destruct (sink_write (clientW f) (violation_message l)) as [e c].
  destruct (sink_write (target f) [to_byte 3]) as [e' t] eqn:Ht. split; [|done].
  set (u := tty_read (written (target f))) in *.
  assert (budget (target f) <> Some 0%nat ->
    Forall (permitted (allowedCmds f)) (submitted (tty_byte u (to_byte 3))) /\ (line (tty_byte u (to_byte 3)) = None \/ line (tty_byte u (to_byte 3)) = Some [])) as Hgo.
  { intros Hn. destruct Hbuf as [?|[Hl|Hl]]; [done|..]; unfold tty_byte; rewrite Hl; [by auto|].
    destruct (key_interrupts u (buf f) (to_byte 3) Hl eq_refl) as [-> ->]. by auto. }
  unfold sink_write in Ht. destruct (budget (target f)) as [[|n]|] eqn:Hbud; simplify_eq;
    constructor; unfold follows; simpl; rewrite ?tty_read_snoc; fold u; try by auto.
  all: destruct Hgo; auto.
Qed.

Lemma filter_byte_in_step f b err f' :
  in_step f -> simple_key b -> filter_byte f b = (err, f') ->
  in_step f' /\ allowedCmds f' = allowedCmds f.
Proof.
  intros Hf Hk. unfold filter_byte, simple_key, printing, line_end in *.
  destruct ((bval b =? 127) || (bval b =? 8)) eqn:Hbs;
    [|destruct ((bval b =? 10) || (bval b =? 13)) eqn:Hnl;
      [cbn zeta; destruct (refused _ _) eqn:Hr|]].
  - apply in_step_forward; [done..|]. intros t Hl Hs. destruct (key_erases t (buf f) b Hl) as [El Es]; [lia|].
    unfold goes_with. rewrite El, Es. by auto.
  - intros [= <- <-]. by apply in_step_intercept.
  - apply in_step_forward; [done..|]. intros t Hl Hs. destruct (key_submits t (buf f) b Hl) as [Es El]; [unfold line_end; lia|].
    unfold goes_with. rewrite Es. split; [|simpl; tauto]. apply Forall_app. split; [done|]. by constructor.
  - apply in_step_forward; [done..|]. intros t Hl Hs.
    destruct (key_inserts t (buf f) b Hl) as [El Es]; [apply printing_inserts; unfold printing; lia|].
    unfold goes_with. rewrite El, Es. by auto.
Qed.

Lemma filter_bytes_in_step f p err f' :
  in_step f -> Forall simple_key p -> filter_bytes f p = (err, f') ->
  in_step f' /\ allowedCmds f' = allowedCmds f.
Proof.
  revert f. induction p as [|b p IH]; intros f Hf Hp; simpl; [by intros [= <- <-]|].
  inv Hp. destruct (filter_byte f b) as [e f1] eqn:Hb.
  destruct (filter_byte_in_step f b e f1) as [Hf1 Ha]; [done..|].
  destruct e as [e|]; [by intros [= <- <-]|]. intros H.
  destruct (IH f1) as [? Ha']; [done..|]. by rewrite Ha'.
Qed.
End lemmas.

Section unlimited.
Context {UT : UnicodeTables}.

(** With a backend that takes every write, a line without line ends goes through
    byte by byte and its edited content is what the buffer holds. *)
Lemma filter_bytes_line t c w s l :
  budget t = None -> Forall (fun b => ~ line_end b) l ->
  filter_bytes (CFW t c w s) l
  = (None, CFW (Sink (written t ++ l) None (sink_err t)) c w (edit s l)).
Proof.
  intros Ht Hl. revert t s Ht. induction Hl as [|b l Hb _ IH]; intros t s Ht; simpl.
  - rewrite app_nil_r, <- Ht. by destruct t.
  - unfold filter_byte, line_end in *. replace ((bval b =? 10) || (bval b =? 13)) with false by lia.
    destruct ((bval b =? 127) || (bval b =? 8)) eqn:Hbs; unfold forward, set_target, set_buf; simpl;
      rewrite sink_write_unlimited by done; rewrite IH by done; simpl;
      by rewrite <- app_assoc.
Qed.
End unlimited.

(** Bytes that the terminal inserts and the filter puts into its buffer. *)
Definition plain {TM : Terminal} (b : byte) : Prop :=
  self_inserts b = true /\ ~ line_end b /\ bval b <> 127 /\ bval b <> 8.

Lemma edit_app s a k : edit s (a ++ k) = edit (edit s a) k.
Proof. apply fold_left_app. Qed.

Section plain.
Context {TM : Terminal}.

Lemma plain_line_end b : plain b -> ~ line_end b.
Proof. by intros (_ & ? & _). Qed.

Lemma edit_plain s k : Forall plain k -> edit s k = s ++ k.
Proof.
  intros Hk. revert s. induction Hk as [|b k (_ & _ & Hb) _ IH]; intros s; simpl; [by rewrite app_nil_r|].
  replace ((bval b =? 127) || (bval b =? 8)) with false by lia.
  rewrite IH. by rewrite <- app_assoc.
Qed.

Lemma tty_plain k t l :
  Forall plain k -> line t = Some l ->
  line (fold_left tty_byte k t) = Some (l ++ k) /\ submitted (fold_left tty_byte k t) = submitted t.
Proof.
  intros Hk. revert t l. induction Hk as [|b k (Hb & _) _ IH]; intros t l Hl; simpl; [by rewrite app_nil_r|].
  destruct (key_inserts t l b Hl Hb) as [El Es]. destruct (IH (press t b) (l ++ [b]) El) as [El' Es'].
  unfold tty_byte at 2 4. rewrite Hl. rewrite El', Es', Es. by rewrite <- app_assoc.
Qed.
End plain.

(** ** Properties *)

(** C11.  A whole typed line, end included, against a backend that accepts writes:
    its bytes reach the backend at once; at the line end the edited line is looked
    at, a permitted one is submitted with the same line end, a refused one gets
    Ctrl-C instead and the client the message for it.  The buffer is empty again. *)
Theorem Write_line {UT : UnicodeTables} t c w l e :
  budget t = None -> budget c = None -> Forall (fun b => ~ line_end b) l -> line_end e ->
  Write (newCommandFilterWriter t c w) (l ++ [e])
  = ((zlen l + 1, None),
     if refused w (edit [] l)
     then CFW (Sink (written t ++ l ++ [to_byte 3]) None (sink_err t))
              (Sink (written c ++ violation_message (TrimSpace (edit [] l))) None (sink_err c)) w []
     else CFW (Sink (written t ++ l ++ [e]) None (sink_err t)) c w []).
Proof.
  intros Ht Hc Hl He. unfold Write. rewrite filter_bytes_app.
  unfold newCommandFilterWriter. rewrite filter_bytes_line by done. simpl.
  unfold filter_byte, line_end in *.
  replace ((bval e =? 127) || (bval e =? 8)) with false by lia.
  replace ((bval e =? 10) || (bval e =? 13)) with true by lia. simpl. rewrite zlen_app.
  destruct (refused w (edit [] l)); unfold intercept, forward, sink_write; simpl;
    rewrite ?Hc, <- app_assoc; done.
Qed.

(** Safety of one Write: for any chunk of simple keys, every line the backend's terminal
    hands over is a permitted one - also when the backend stops taking writes half-way. *)
Theorem filter_safe {UT : UnicodeTables} {TM : Terminal} c w p n res f' :
  Forall simple_key p ->
  Write (newCommandFilterWriter (Sink [] n (ErrText §"closed")) c w) p = (res, f') ->
  Forall (permitted w) (submitted (tty_read (written (target f')))).
Proof.
  intros Hp. unfold Write, newCommandFilterWriter.
  destruct (filter_bytes _ p) as [err f1] eqn:Hf.
  assert (in_step f1 /\ allowedCmds f1 = w) as [Hin Ha].
  { destruct fresh_term_empty as [Hs Hl]. apply (filter_bytes_in_step _ _ _ _) in Hf; [done| |done].
    constructor; [cbn; by rewrite Hs|right; right; exact Hl]. }
  intros Hres. assert (f1 = f') as <- by (by destruct err; simplify_eq).
  rewrite <- Ha. apply Hin.
Qed.

(** C24.  The Ctrl-C hole: the buffer is not cleared by a Ctrl-C the user types, the
    backend's line is.  Any command [l] whatever, typed after some text [x] and a
    Ctrl-C, is handed to the backend as a line of its own, as soon as the filter
    does not refuse the concatenation it looks at. *)
Theorem filter_ctrl_c_bypass {UT : UnicodeTables} {TM : Terminal} x l e :
  Forall plain x -> Forall plain l -> line_end e -> refused [] (x ++ to_byte 3 :: l) = false ->
  submitted (tty_read (written (target
    (Write (newCommandFilterWriter new_sink new_sink []) ((x ++ to_byte 3 :: l) ++ [e])).2))) = [l].
Proof.
  intros Hx Hl He Hr. destruct fresh_term_empty as [Hs0 Hl0].
  assert (Hne : Forall (fun b => ~ line_end b) (x ++ to_byte 3 :: l)).
  { apply Forall_app; split; [|constructor; [by intros [|]|]]; by eapply Forall_impl, plain_line_end. }
  assert (Hedit : edit [] (x ++ to_byte 3 :: l) = x ++ to_byte 3 :: l).
  { rewrite edit_app, (edit_plain [] x) by done. change (to_byte 3 :: l) with ([to_byte 3] ++ l).
    rewrite edit_app. simpl. by rewrite edit_plain, <- app_assoc. }
  rewrite Write_line by done. rewrite Hedit, Hr. cbn [snd target written new_sink app].
  unfold tty_read. rewrite !fold_left_app. cbn [fold_left].
  destruct (tty_plain x fresh_term [] Hx Hl0) as [El1 Es1]. set (t1 := fold_left tty_byte x fresh_term) in *.
  destruct (key_interrupts t1 _ (to_byte 3) El1 eq_refl) as [El2 Es2].
  unfold tty_byte at 3. rewrite El1. destruct (tty_plain l (press t1 (to_byte 3)) [] Hl El2) as [El3 Es3].
  set (t3 := fold_left tty_byte l (press t1 (to_byte 3))) in *. unfold tty_byte. rewrite El3.
  destruct (key_submits t3 _ e El3 He) as [-> _]. by rewrite Es3, Es2, Es1, Hs0.
Qed.

(** ** Witnesses *)

(** A terminal in canonical mode with the settings Linux starts with: besides the keys of
    the laws, Ctrl-U drops the line and Ctrl-W its last word; what the other control
    characters do is left open. *)
Record line_tty := LineTty { tty_submitted : list str; tty_line : option str }.

Definition drop_word (l : str) : str :=
  let fix skip (p : byte -> bool) (l : str) := match l with b :: l' => if p b then skip p l' else l | [] => [] end in
  reverse (skip (fun b => negb (bval b =? 32)) (skip (fun b => bval b =? 32) (reverse l))).

Definition linux_key (t : line_tty) (b : byte) : line_tty :=
  match tty_line t with
  | None => t
  | Some l =>
      if (bval b =? 10) || (bval b =? 13) then LineTty (tty_submitted t ++ [l]) (Some [])
      else if bval b =? 127 then LineTty (tty_submitted t) (Some (chop l))
      else if (bval b =? 3) || (bval b =? 21) then LineTty (tty_submitted t) (Some [])
      else if bval b =? 23 then LineTty (tty_submitted t) (Some (drop_word l))
      else if bval b <? 32 then LineTty (tty_submitted t) None
      else LineTty (tty_submitted t) (Some (l ++ [b]))
  end.

(** Whether a byte is a simple key, by computation. *)
Definition is_simple_key (b : byte) : bool := ((32 <=? bval b) && (bval b <=? 127)) || (bval b =? 10) || (bval b =? 13).

Lemma is_simple_key_all s : forallb is_simple_key s = true -> Forall simple_key s.
Proof.
  intros H. apply Forall_forall. intros b Hb. rewrite forallb_forall in H. apply list_elem_of_In, H in Hb.
  unfold is_simple_key, simple_key, printing, line_end in *. lia.
Qed.

Ltac simple_keys := apply is_simple_key_all; vm_compute; reflexivity.

Definition linux_tty : Terminal.
Proof.
  refine {| term := line_tty; fresh_term := LineTty [] (Some []); press := linux_key; submitted := tty_submitted; line := tty_line;
            self_inserts b := (32 <=? bval b) && negb (bval b =? 127) |}.
  - done.
  - unfold printing. intros b Hb. lia.
  - intros t l b Hl Hb. unfold linux_key. rewrite Hl. pose proof (bval_range b).
    replace ((bval b =? 10) || (bval b =? 13)) with false by lia. replace (bval b =? 127) with false by lia.
    replace ((bval b =? 3) || (bval b =? 21)) with false by lia. replace (bval b =? 23) with false by lia.
    by replace (bval b <? 32) with false by lia.
  - intros t l b Hl Hb. unfold linux_key. by rewrite Hl, Hb.
  - intros t l b Hl Hb. unfold linux_key. by rewrite Hl, Hb.
  - intros t l b Hl Hb. unfold linux_key, line_end in *. rewrite Hl.
    replace ((bval b =? 10) || (bval b =? 13)) with true by lia. simpl. by auto.
Defined.

(** Other keys that edit the line are a way round the filter too: Ctrl-W takes back a
    word at the terminal and is one more character to the filter. *)
Example ctrl_w_bypass :
  let f := (Write (UT := ascii_tables) (newCommandFilterWriter new_sink new_sink []) (§"x" ++ [to_byte 23] ++ §"tmux" ++ [to_byte 13])).2 in
  submitted (Terminal := linux_tty) (tty_read (TM := linux_tty) (written (target f))) = [§"tmux"] /\ written (clientW f) = [].
Proof. vm_compute. split; reflexivity. Qed.

(** The input of the unit test [TestCommandFilterWriter_BlocksMultiplexer]: the
    backend receives the refused text and a Ctrl-C, not just the second line. *)
Lemma Write_line_witness :
  Write (UT := ascii_tables) (newCommandFilterWriter new_sink new_sink []) (§"tmux new -s test" ++ LF)
  = ((17, None),
     CFW (Sink (§"tmux new -s test" ++ [to_byte 3]) None (ErrText §"closed"))
         (Sink (MultiplexerViolationMessage §"tmux new -s test") None (ErrText §"closed")) [] []).
Proof.
  unfold LF. rewrite (Write_line (UT := ascii_tables)).
  - vm_compute. reflexivity.
  - reflexivity.
  - reflexivity.
  - unfold line_end. repeat constructor; vm_compute; intros [|]; discriminate.
  - left. reflexivity.
Defined.

Lemma filter_safe_witness :
  Forall (permitted (UT := ascii_tables) [§"ls"])
    (submitted (Terminal := linux_tty) (tty_read (TM := linux_tty) (written (target
      (Write (UT := ascii_tables) (newCommandFilterWriter (Sink [] (Some 12%nat) (ErrText §"closed")) new_sink [§"ls"])
         (§"rm -rf /" ++ LF ++ §"ls" ++ LF ++ §"cat" ++ LF)).2)))).
Proof.
  eapply (filter_safe (UT := ascii_tables) (TM := linux_tty)); [|apply surjective_pairing].
  simple_keys.
Defined.

Lemma filter_ctrl_c_bypass_witness :
  submitted (Terminal := linux_tty) (tty_read (TM := linux_tty) (written (target
    (Write (UT := ascii_tables) (newCommandFilterWriter new_sink new_sink [])
      ((§"x" ++ to_byte 3 :: §"tmux new") ++ LF)).2))) = [§"tmux new"].
Proof.
  apply (filter_ctrl_c_bypass (UT := ascii_tables) (TM := linux_tty)).
  - unfold plain, line_end. repeat constructor; vm_compute; intuition discriminate.
  - unfold plain, line_end. repeat constructor; vm_compute; intuition discriminate.
  - left. reflexivity.
  - vm_compute. reflexivity.
Defined.
