(* ===== verification/Rbac.v ===== *)
(** * The policy engine: [internal/rbac/rbac.go]

    [Authorize] as the join it sends to the database and the case analysis on its
    answer, against a specification of who may reach what: [may_access]. *)

From S2P Require Import Prelude GoStr Net Db.
From stdpp Require Import options.
Open Scope Z_scope.

Definition ErrPermissionDenied : error := ErrText §"permission denied".
Definition ErrUnknownHost : error := ErrText §"unknown host".

Record AuthorizedAccess := Access {
  ServerID : str;
  Hostname : str;
  PrivateIP : option str;
  Environment : str;
  SSHUser : str;
  VaultPath : str;
  AllowedCmds : option (list str);
}.

(** One row of the query. *)
Record auth_row := AuthRow {
  r_server : server_row;
  r_allowed_commands : option (list (option str));
  r_policy_found : bool;
  r_is_authorized : bool;
}.

(** [EXISTS (SELECT 1 FROM user_server_grants ...)]. *)
Definition has_grant (d : database) (userID serverID : str) : bool :=
  bool_decide (GrantRow userID serverID ∈ grants d).

(** [u.override_role_access = false AND s.environment = ANY(p.allowed_environments)]. *)
Definition by_role (u : user_row) (s : server_row) (p : option policy_row) : option bool :=
  sql_and (Some (negb (u_override_role_access u)))
          (sql_any (s_environment s) (p_allowed_environments <$> p)).

Section rbac.
Context {PG : Postgres} {V6 : IPv6Text}.

(** The joined rows, in the order of the FROM clause. *)
Definition authorize_rows (userID role targetHostname : str) (d : database) : list auth_row :=
  s ← servers d;
  u ← users d;
  p ← left_join (filter (fun p => p_role p = role) (policies d));
  if bool_decide (s_hostname s = targetHostname) && bool_decide (u_id u = userID) then
    [AuthRow s (p ≫= p_allowed_commands) (bool_decide (is_Some p))
       (default false (sql_or (Some (has_grant d userID (s_id s))) (by_role u s p)))]
  else [].

(** The first row, with its columns scanned. *)
Definition authorize_query (userID role targetHostname : str) (d : database)
  : res (auth_row * option (list str)) :=
  if negb (text_ok role && text_ok targetHostname) then inl (pg_error BadText) else
  match authorize_rows userID role targetHostname d with
  | [] => inl ErrNoRows
  | r :: _ => (fun cmds => (r, cmds)) <$> scan_string_array (r_allowed_commands r)
  end.

Definition Authorize (userID role targetHostname : str) (d : database)
  : res AuthorizedAccess * database :=
  let '(r, d) := run (fun d => (authorize_query userID role targetHostname d, d)) d in
  match r with
  | inl err =>
      if decide (err = ErrNoRows) then (inl ErrUnknownHost, d)
      else (inl (ErrWrap §"rbac query" err), d)
  | inr (row, allowedCmds) =>
      if negb (r_policy_found row) && negb (r_is_authorized row) then (inl ErrPermissionDenied, d)
      else if negb (r_is_authorized row) then (inl ErrPermissionDenied, d)
      else
        let s := r_server row in
        (inr (Access (s_id s) (s_hostname s) (ParseIP (inet_host (s_private_ip s)))
                (s_environment s) (s_ssh_user s) (s_vault_secret_path s) allowedCmds), d)
  end.
End rbac.

(** ** Specification *)

(** A user reaches a server by a direct grant or, unless the user's access is
    managed server by server, by the environments of the policy of the role. *)
Definition may_access (d : database) (u : user_row) (role : str) (s : server_row) : Prop :=
  GrantRow (u_id u) (s_id s) ∈ grants d
  \/ (u_override_role_access u = false
      /\ exists p, p ∈ policies d /\ p_role p = role /\ Some (s_environment s) ∈ p_allowed_environments p).

(** The policy of a role, as the query joins it. *)
Definition policy_of (d : database) (role : str) : option policy_row :=
  head (filter (fun p => p_role p = role) (policies d)).

(** The command list that comes with an authorization. *)
Definition commands_of (d : database) (role : str) : option (list (option str)) :=
  policy_of d role ≫= p_allowed_commands.

Definition access_of `{IPv6Text} (s : server_row) (cmds : option (list str)) : AuthorizedAccess :=
  Access (s_id s) (s_hostname s) (ParseIP (inet_host (s_private_ip s)))
    (s_environment s) (s_ssh_user s) (s_vault_secret_path s) cmds.

(** ** Lemmas *)

Lemma policy_of_None d role : policy_of d role = None <-> role ∉ map p_role (policies d).
Proof.
  unfold policy_of. split.
  - intros Hh (p & Hp & <-)%elem_of_map_key.
    assert (p ∈ filter (fun q => p_role q = p_role p) (policies d)) as Hin by (by apply list_elem_of_filter).
    destruct (filter _ _); [by apply not_elem_of_nil in Hin|done].
  - intros Hn. by rewrite filter_key_nil.
Qed.

Lemma policy_of_Some d role p : policy_of d role = Some p -> p ∈ policies d /\ p_role p = role.
Proof.
  unfold policy_of. destruct (filter _ _) as [|q l] eqn:Hf; [done|]. intros [= ->].
  assert (p ∈ filter (fun p => p_role p = role) (policies d)) as Hin by (rewrite Hf; left).
  by apply list_elem_of_filter in Hin as [? ?].
Qed.

Section rbac_lemmas.
Context {PG : Postgres} {V6 : IPv6Text}.

Lemma policy_unique d role p :
  db_ok d -> p ∈ policies d -> p_role p = role ->
  filter (fun p => p_role p = role) (policies d) = [p].
Proof. intros Hd. apply filter_key, Hd. Qed.

Lemma policy_of_In d p : db_ok d -> p ∈ policies d -> policy_of d (p_role p) = Some p.
Proof. intros Hd Hp. unfold policy_of. by rewrite (policy_unique d _ p). Qed.

(** The LEFT JOIN on the role yields one row: the policy, or NULLs. *)
Lemma left_join_policy d role :
  db_ok d -> left_join (filter (fun p => p_role p = role) (policies d)) = [policy_of d role].
Proof.
  intros Hd. destruct (policy_of d role) as [p|] eqn:Hp.
  - apply policy_of_Some in Hp as [Hin Hr]. by rewrite (policy_unique d role p).
  - apply policy_of_None in Hp. by rewrite filter_key_nil.
Qed.

(** The role half of the condition is true exactly when the policy names the
    environment and the override is off. *)
Lemma by_role_true d u role s :
  db_ok d ->
  by_role u s (policy_of d role) = Some true <->
  u_override_role_access u = false
  /\ exists p, p ∈ policies d /\ p_role p = role /\ Some (s_environment s) ∈ p_allowed_environments p.
Proof.
  intros Hd. unfold by_role. split.
  - intros H. destruct (u_override_role_access u); [done|].
    split; [done|]. apply (proj1 (sql_and_true _)) in H. destruct (policy_of d role) as [p|] eqn:Hp; [|done].
    apply policy_of_Some in Hp as [Hin Hr]. exists p. split; [done|split; [done|]].
    by apply sql_any_true.
  - intros (-> & p & Hin & <- & He). rewrite (policy_of_In d p) by done.
    by apply sql_and_true, sql_any_true.
Qed.

Lemma authorized_may_access d u role s :
  db_ok d ->
  default false (sql_or (Some (has_grant d (u_id u) (s_id s))) (by_role u s (policy_of d role))) = true
  <-> may_access d u role s.
Proof.
  intros Hd. unfold may_access. rewrite <- by_role_true by done. unfold has_grant.
  case_bool_decide as Hg; simpl; [naive_solver|].
  destruct (by_role u s (policy_of d role)) as [[]|]; naive_solver.
Qed.

Lemma bind_none {A B} (l : list A) (f : A -> list B) :
  (forall y, y ∈ l -> f y = []) -> l ≫= f = [].
Proof.
  intros Hf. induction l as [|y l IH]; [done|]. rewrite bind_cons, Hf by (by left).
  apply IH. intros z Hz. apply Hf. by right.
Qed.

(** A loop with a condition on a key visits the one matching record. *)
Lemma bind_key {A B} (key : A -> str) (l : list A) k x (f : A -> list B) :
  NoDup (map key l) -> x ∈ l -> key x = k -> (forall y, key y <> k -> f y = []) -> l ≫= f = f x.
Proof.
  intros Hn Hx Hk Hf. induction l as [|y l IH]; [by apply not_elem_of_nil in Hx|].
  simpl in Hn. apply NoDup_cons in Hn as [Hy Hn]. rewrite bind_cons.
  apply elem_of_cons in Hx as [<-|Hx].
  - rewrite bind_none; [apply app_nil_r|]. intros z Hz. apply Hf. intros Hkz.
    destruct Hy. apply elem_of_map_key. exists z. split; [done|]. congruence.
  - rewrite IH by done. rewrite Hf; [done|].
    intros Hky. destruct Hy. apply elem_of_map_key. exists x. split; [done|]. congruence.
Qed.

Lemma authorize_rows_hit d u s role :
  db_ok d -> u ∈ users d -> s ∈ servers d ->
  authorize_rows (u_id u) role (s_hostname s) d
  = [AuthRow s (commands_of d role) (bool_decide (is_Some (policy_of d role)))
       (default false (sql_or (Some (has_grant d (u_id u) (s_id s))) (by_role u s (policy_of d role))))].
Proof.
  intros Hd Hu Hs. unfold authorize_rows.
  rewrite (bind_key s_hostname (servers d) (s_hostname s) s); [|apply Hd|done|done|].
  - rewrite (bind_key u_id (users d) (u_id u) u); [|apply Hd|done|done|].
    + rewrite left_join_policy by done. rewrite !bool_decide_true by done. done.
    + intros v Hv. apply bind_none. intros p _.
      by rewrite (bool_decide_false (u_id v = u_id u)), andb_false_r.
  - intros t Ht. apply bind_none. intros v _. apply bind_none. intros p _.
    by rewrite (bool_decide_false (s_hostname t = s_hostname s)).
Qed.

Lemma authorize_rows_miss d userID role host :
  userID ∉ map u_id (users d) \/ host ∉ map s_hostname (servers d) ->
  authorize_rows userID role host d = [].
Proof.
  intros Hm. unfold authorize_rows. apply bind_none. intros s Hs. apply bind_none. intros u Hu.
  apply bind_none. intros p _. rewrite !elem_of_map_key in Hm.
  destruct (_ && _) eqn:Hc; [|done]. bools. naive_solver.
Qed.

(** The whole outcome for a user and a server of the inventory. *)
Lemma Authorize_hit d u s role cmds :
  db_ok d -> outcomes d = [] -> text_ok role = true -> u ∈ users d -> s ∈ servers d ->
  scan_string_array (commands_of d role) = inr cmds ->
  may_access d u role s ->
  Authorize (u_id u) role (s_hostname s) d = (inr (access_of s cmds), d).
Proof.
  intros Hd Ho Hr Hu Hs Hc Hm. unfold Authorize. rewrite run_done by done.
  unfold authorize_query. rewrite Hr.
  pose proof (ok_hostname_text d Hd) as Ht. rewrite Forall_forall in Ht. rewrite Ht by done. simpl.
  rewrite authorize_rows_hit by done.
  rewrite (proj2 (authorized_may_access d u role s Hd)) by done. simpl. rewrite Hc. simpl.
  by rewrite andb_false_r.
Qed.

Lemma Authorize_refused d u s role :
  db_ok d -> outcomes d = [] -> text_ok role = true -> u ∈ users d -> s ∈ servers d ->
  is_Some (mapM id (default [] (commands_of d role))) -> ~ may_access d u role s ->
  Authorize (u_id u) role (s_hostname s) d = (inl ErrPermissionDenied, d).
Proof.
  intros Hd Ho Hr Hu Hs [cmds Hc] Hm. unfold Authorize. rewrite run_done by done.
  unfold authorize_query. rewrite Hr.
  pose proof (ok_hostname_text d Hd) as Ht. rewrite Forall_forall in Ht. rewrite Ht by done. simpl.
  rewrite authorize_rows_hit by done. rewrite <- authorized_may_access in Hm by done.
  apply not_true_is_false in Hm. rewrite Hm. simpl.
  assert (exists c, scan_string_array (commands_of d role) = inr c) as [c Hscan].
  { unfold scan_string_array. destruct (commands_of d role); simpl in *; [rewrite Hc|]; eauto. }
  rewrite Hscan. simpl. by destruct (bool_decide _).
Qed.

Lemma Authorize_unknown d userID role host :
  outcomes d = [] -> text_ok role = true -> text_ok host = true ->
  userID ∉ map u_id (users d) \/ host ∉ map s_hostname (servers d) ->
  Authorize userID role host d = (inl ErrUnknownHost, d).
Proof.
  intros Ho Hr Hh Hm. unfold Authorize. rewrite run_done by done. unfold authorize_query.
  rewrite Hr, Hh. simpl. by rewrite authorize_rows_miss.
Qed.

Lemma Authorize_reach userID role host d : db_reach d (Authorize userID role host d).2.
Proof.
  unfold Authorize.
  pose proof (run_read_reach (authorize_query userID role host) d) as Hr.
  destruct (run _ d) as [r d']. simpl in Hr. repeat case_match; simplify_eq; done.
Qed.
(** What an authorization says, whatever the connection does. *)
Lemma Authorize_granted d userID role host acc d' :
  db_ok d -> Authorize userID role host d = (inr acc, d') ->
  exists u s cmds,
    u ∈ users d /\ u_id u = userID /\ s ∈ servers d /\ s_hostname s = host
    /\ may_access d u role s
    /\ scan_string_array (commands_of d role) = inr cmds /\ acc = access_of s cmds.
Proof.
  intros Hd. unfold Authorize.
  destruct (run _ d) as [r d1] eqn:Hrun.
  destruct r as [err|[row cmds]]; [case_decide; done|].
  assert (authorize_query userID role host d = inr (row, cmds)) as Hq.
  { revert Hrun. unfold run. destruct (outcomes d) as [|[| | |] os]; intros [=]; done. }
  clear Hrun. unfold authorize_query in Hq. destruct (negb (_ && _)); [done|].
  destruct (decide (userID ∈ map u_id (users d) /\ host ∈ map s_hostname (servers d)))
    as [[(u & Hu & <-)%elem_of_map_key (s & Hs & <-)%elem_of_map_key]|Hn].
  2:{ rewrite authorize_rows_miss in Hq by (apply not_and_l in Hn; tauto). done. }
  rewrite authorize_rows_hit in Hq by done.
  destruct (default false (sql_or (Some (has_grant d (u_id u) (s_id s))) (by_role u s (policy_of d role)))) eqn:Ha;
    destruct (scan_string_array _) as [|c] eqn:Hc; simpl in Hq; simplify_eq/=.
  - rewrite andb_false_r. intros [= <- <-]. apply authorized_may_access in Ha; [|done].
    by exists u, s, cmds.
  - by destruct (negb _ && _).
Qed.
End rbac_lemmas.

(** ** Properties *)

(** C4.  Safety of the policy engine.  Whatever the connection to the database does
    to the query, an authorization is handed out only for a server of the inventory
    under that host name and a user of that id whom a direct grant or, without the
    override, the role's environments let in; and it carries that server's address,
    account and Vault path and the role's own command list. *)
Theorem Authorize_sound `{PG : Postgres} `{V6 : IPv6Text} d userID role host acc d' :
  db_ok d -> Authorize userID role host d = (inr acc, d') ->
  exists u s cmds,
    u ∈ users d /\ u_id u = userID /\ s ∈ servers d /\ s_hostname s = host
    /\ may_access d u role s
    /\ scan_string_array (commands_of d role) = inr cmds /\ acc = access_of s cmds.
Proof. apply Authorize_granted. Qed.

(** C28.  The decision of [Authorize] for an existing user when the database answers:
    unknown host exactly when no server has that name, permission denied exactly
    when the server exists and is out of the user's reach, otherwise the access. *)
Theorem Authorize_spec `{PG : Postgres} `{V6 : IPv6Text} d u role host cmds :
  db_ok d -> outcomes d = [] -> u ∈ users d -> text_ok role = true -> text_ok host = true ->
  scan_string_array (commands_of d role) = inr cmds ->
  match Authorize (u_id u) role host d with
  | (inr acc, d') =>
      d' = d /\ exists s, s ∈ servers d /\ s_hostname s = host /\ may_access d u role s
                          /\ acc = access_of s cmds
  | (inl e, d') =>
      d' = d /\ ((e = ErrUnknownHost /\ host ∉ map s_hostname (servers d))
                 \/ (e = ErrPermissionDenied
                     /\ exists s, s ∈ servers d /\ s_hostname s = host /\ ~ may_access d u role s))
  end.
Proof.
  intros Hd Ho Hu Hr Hh Hc.
  destruct (decide (host ∈ map s_hostname (servers d))) as [(s & Hs & <-)%elem_of_map_key|Hn].
  - destruct (default false (sql_or (Some (has_grant d (u_id u) (s_id s)))
                (by_role u s (policy_of d role)))) eqn:Ha.
    + apply authorized_may_access in Ha; [|done]. rewrite (Authorize_hit d u s role cmds) by done. eauto 6.
    + assert (~ may_access d u role s) as Hm by (rewrite <- authorized_may_access by done; by rewrite Ha).
      rewrite (Authorize_refused d u s role); [eauto 8|done..| |done].
      by eapply scan_ok.
  - rewrite Authorize_unknown by (done || by right). eauto.
Qed.

(** ** Witnesses *)

(** A server whose collation is byte order and that reads dotted quads only. *)
Definition demo_postgres : Postgres.
Proof.
  refine {| collate := bytes_le; inet_in s := (fun a => Inet a 32) <$> parse_ipv4 s;
            inet_show_mask := itoa; uuid_gen n := §"id-" ++ itoa (Z.of_nat n);
            pg_message _ := §"pq: constraint"; pq_null_element := §"pq: null element" |}.
  - apply bytes_le_total.
  - apply bytes_le_trans.
Defined.

(** Part of [db/seed.sql]. *)
Definition demo_db : database :=
  DB [UserRow §"u-jdoe" §"jdoe" §"h1" §"sre-tier1" 0 None false;
      UserRow §"u-bob" §"bob" §"h2" §"backend-dev" 0 None false;
      UserRow §"u-auditor" §"auditor" §"h3" §"auditor" 0 None false;
      UserRow §"u-admin" §"admin" §"h4" §"security-admin" 0 None false]
     [ServerRow §"s-dev" §"dev-app-01" (Inet §"10.0.1.10" 32) §"secret/data/ssh/dev-app-01" §"root" §"dev";
      ServerRow §"s-prod" §"prod-db-01" (Inet §"10.0.3.11" 32) §"secret/data/ssh/prod-db-01" §"root" §"production"]
     [PolicyRow §"sre-tier1" [Some §"dev"; Some §"staging"; Some §"production"] None;
      PolicyRow §"security-admin" [Some §"dev"; Some §"staging"; Some §"production"] None;
      PolicyRow §"backend-dev" [Some §"dev"; Some §"staging"] None;
      PolicyRow §"auditor" [Some §"dev"] (Some [Some §"ls"; Some §"cat"])]
     [GrantRow §"u-bob" §"s-prod"] [] [] 0.

Lemma demo_db_ok : db_ok demo_db.
Proof.
  constructor; simpl; try (apply (bool_decide_unpack _); vm_compute; exact I).
Defined.

Lemma Authorize_sound_witness :
  exists u s cmds,
    u ∈ users demo_db /\ u_id u = §"u-bob" /\ s ∈ servers demo_db /\ s_hostname s = §"prod-db-01"
    /\ may_access demo_db u §"backend-dev" s
    /\ scan_string_array (PG := demo_postgres) (commands_of demo_db §"backend-dev") = inr cmds
    /\ Access §"s-prod" §"prod-db-01" (Some §"10.0.3.11") §"production" §"root"
         §"secret/data/ssh/prod-db-01" None = access_of (H := no_ipv6) s cmds.
Proof.
  apply (Authorize_sound (PG := demo_postgres) (V6 := no_ipv6) demo_db _ _ _ _ demo_db).
  - exact demo_db_ok.
  - vm_compute. reflexivity.
Defined.

Lemma Authorize_spec_witness :
  (Authorize (PG := demo_postgres) (V6 := no_ipv6) §"u-auditor" §"auditor" §"prod-db-01" demo_db).1
  = inl ErrPermissionDenied.
Proof.
  pose proof (Authorize_spec (PG := demo_postgres) (V6 := no_ipv6) demo_db
    (UserRow §"u-auditor" §"auditor" §"h3" §"auditor" 0 None false) §"auditor" §"prod-db-01"
    (Some [§"ls"; §"cat"]) demo_db_ok eq_refl
    ltac:(do 2 right; left) eq_refl eq_refl eq_refl) as H.
  vm_compute in H |- *. destruct H as [_ [[_ H]|[H _]]]; [|reflexivity].
  exfalso. apply H. right. left.
Defined.
