(* ===== verification/Gateway.v ===== *)
(** * The gateway menu: [internal/proxy/gateway_tui.go]

    The query for the servers a user may open, the menu drawn from it and the loop
    that moves through it.  The central fact is that the menu and the policy engine
    agree: what is listed is what [Authorize] grants. *)

From S2P Require Import Prelude GoStr Net Io Db Rbac.
From stdpp Require Import options.
Open Scope Z_scope.

Record gatewayServerOption := GatewayOpt { opt_hostname : str; opt_environment : str }.

Definition admin_option : gatewayServerOption := GatewayOpt §"zttp-admin" §"system".

Section gateway.
Context {PG : Postgres}.

(** The rows of the query before ORDER BY. *)
Definition accessible_rows (userID : str) (d : database) : list gatewayServerOption :=
  s ← servers d;
  u ← users d;
  p ← left_join (filter (fun p => p_role p = u_role u) (policies d));
  g ← left_join (filter (fun g => g_server_id g = s_id s /\ g_user_id g = userID) (grants d));
  if bool_decide (u_id u = userID)
     && is_true (sql_or (Some (bool_decide (is_Some g))) (by_role u s p))
  then [GatewayOpt (s_hostname s) (s_environment s)] else [].

Definition queryAccessibleServers (userID role : str) (d : database)
  : res (list gatewayServerOption) * database :=
  let opts := if bool_decide (role = §"security-admin") then [admin_option] else [] in
  let '(r, d) := query (fun d => inr (order_by opt_hostname (accessible_rows userID d))) d in
  match r with
  | inl err => (inl err, d)
  | inr (rows, _) => (inr (opts ++ rows), d)
  end.
End gateway.

(** ** Drawing *)

Definition gateway_line (index : Z) (i : nat) (opt : gatewayServerOption) : str :=
  (if Z.of_nat i =? index then
     ColorGreen ++ §"> " ++ pad 15 (opt_hostname opt) ++ §" (" ++ opt_environment opt ++ §")" ++ ColorReset ++ CRLF
   else §"  " ++ pad 15 (opt_hostname opt) ++ §" (" ++ opt_environment opt ++ §")" ++ CRLF)
  ++ (if bool_decide (opt_hostname opt = §"zttp-admin")
      then §"  ────────────────────────────────────────" ++ CRLF else []).

Definition gateway_menu_text (opts : list gatewayServerOption) (index : Z) : str :=
  ColorCyan ++ §"=== ZTTP Server Gateway ===" ++ ColorReset ++ CRLF
  ++ §"Select a server to connect to (UP/DOWN, ENTER to select):" ++ CRLF ++ CRLF
  ++ (if bool_decide (opts = []) then §"  No servers available for your role." ++ CRLF else [])
  ++ concat (imap (gateway_line index) opts)
  ++ CRLF
  ++ (if index =? zlen opts then ColorRed ++ §"> [ Logout ]" ++ ColorReset ++ CRLF
      else §"  [ Logout ]" ++ CRLF).

Definition drawGatewayMenu (c : conn) (opts : list gatewayServerOption) (index : Z) : conn :=
  conn_write (clearScreen c) (gateway_menu_text opts index).

Definition drawGatewayError (c : conn) (err : error) : conn :=
  conn_write (clearScreen c)
    (ColorRed ++ §"Error loading servers: " ++ error_text err ++ ColorReset
     ++ CRLF ++ CRLF ++ §"Press any key to exit...").

(** ** The loop *)

(** What a key does to the menu. *)
Inductive gateway_act := GMove (index : Z) | GLeave (err : error) | GPick (hostname : str) | GPanic.

Definition gateway_key (opts : list gatewayServerOption) (index : Z) (k : key) : gateway_act :=
  match k with
  | KCtrlC | KEsc => GLeave (ErrText §"user aborted")
  | KUp => GMove (if 0 <? index then index - 1 else index)
  | KDown => GMove (if index <? zlen opts then index + 1 else index)
  | KEnter =>
      if index =? zlen opts then GLeave (ErrText §"user exited gateway")
      else match zget opts index with
           | Some opt => GPick (opt_hostname opt)
           | None => GPanic
           end
  | _ => GMove index
  end.

Fixpoint gateway_loop (fuel : nat) (opts : list gatewayServerOption) (index : Z) (c : conn)
  : run_result (res str * conn) :=
  match fuel with
  | O => OutOfFuel
  | S fuel =>
      let c := drawGatewayMenu c opts index in
      match conn_readKey c with
      | (inl err, c) => Finished (inl err, c)
      | (inr k, c) =>
          match gateway_key opts index k with
          | GMove i => gateway_loop fuel opts i c
          | GLeave err => Finished (inl err, clearScreen c)
          | GPick hostname => Finished (inr hostname, clearScreen c)
          | GPanic => Panicked
          end
      end
  end.

(** A fuel of one more than the pending input always suffices (see
    [gateway_loop_total]). *)
Definition handleGatewayMenu `{PG : Postgres} (c : conn) (userID role : str) (d : database)
  : run_result (res str * conn) * database :=
  let '(r, d) := queryAccessibleServers userID role d in
  match r with
  | inl err => (Finished (inl err, (conn_readKey (drawGatewayError c err)).2), d)
  | inr opts => (gateway_loop (S (length (inp c))) opts 0 c, d)
  end.

(** ** Lemmas *)

Lemma gateway_key_range opts index k i :
  0 <= index <= zlen opts -> gateway_key opts index k = GMove i -> 0 <= i <= zlen opts.
Proof. intros Hi. unfold gateway_key. destruct k; repeat case_match; intros; simplify_eq; lia. Qed.

Lemma gateway_key_no_panic opts index k :
  0 <= index <= zlen opts -> gateway_key opts index k <> GPanic.
Proof.
  intros Hi. destruct k; simpl; try done. case_match; [done|].
  destruct (zget_is_Some opts index) as [o ->]; [lia|done].
Qed.

Lemma gateway_key_pick opts index k h :
  gateway_key opts index k = GPick h -> k = KEnter /\ h ∈ map opt_hostname opts.
Proof.
  destruct k; simpl; try done. repeat case_match; intros; simplify_eq. split; [done|].
  match goal with H : zget _ _ = Some _ |- _ => apply zget_Some in H as [_ H] end.
  apply elem_of_map_key. eexists. split; [by eapply list_elem_of_lookup_2|done].
Qed.

(** The loop ends within one round per event still to come, without a panic, and a
    host name it returns is one of the menu's. *)
Lemma gateway_loop_total fuel opts index c :
  0 <= index <= zlen opts -> (length (inp c) < fuel)%nat ->
  exists r c', gateway_loop fuel opts index c = Finished (r, c')
    /\ (forall h, r = inr h -> h ∈ map opt_hostname opts).
Proof.
  revert index c. induction fuel as [|fuel IH]; intros index c Hi Hf; [lia|]. simpl.
  destruct (conn_readKey (drawGatewayMenu c opts index)) as [[err|k] c1] eqn:Hk;
    [do 2 eexists; split; [done|by intros]|].
  apply conn_readKey_shorter in Hk. unfold drawGatewayMenu in Hk. autorewrite with zttp in Hk.
  destruct (gateway_key opts index k) as [i|err|h|] eqn:Hg.
  - apply IH; [by eapply gateway_key_range|lia].
  - do 2 eexists. split; [done|by intros].
  - apply gateway_key_pick in Hg as [_ Hg]. do 2 eexists. split; [done|]. by intros ? [= <-].
  - by apply gateway_key_no_panic in Hg.
Qed.

Section gateway_lemmas.
Context {PG : Postgres}.

Lemma left_join_grant d userID serverID :
  db_ok d ->
  left_join (filter (fun g => g_server_id g = serverID /\ g_user_id g = userID) (grants d))
  = if has_grant d userID serverID then [Some (GrantRow userID serverID)] else [None].
Proof.
  intros Hd. unfold has_grant.
  assert (filter (fun g => g_server_id g = serverID /\ g_user_id g = userID) (grants d)
          = if bool_decide (GrantRow userID serverID ∈ grants d) then [GrantRow userID serverID] else []) as ->.
  2:{ by case_bool_decide. }
  pose proof (ok_grants d Hd) as Hn. induction (grants d) as [|[u s] gs IH]; [done|].
  apply NoDup_cons in Hn as [Hg Hn]. rewrite filter_cons, IH by done.
  destruct (decide (s = serverID /\ u = userID)) as [[-> ->]|Hne].
  - rewrite decide_True by done. rewrite (bool_decide_true (_ ∈ _ :: _)) by left.
    by rewrite bool_decide_false.
  - rewrite decide_False by done. repeat case_bool_decide; try done; exfalso; set_solver.
Qed.

(** The rows of the query, one user's joins resolved. *)
Lemma accessible_rows_eq d u :
  db_ok d -> u ∈ users d ->
  accessible_rows (u_id u) d
  = s ← servers d;
    if is_true (sql_or (Some (has_grant d (u_id u) (s_id s))) (by_role u s (policy_of d (u_role u))))
    then [GatewayOpt (s_hostname s) (s_environment s)] else [].
Proof.
  intros Hd Hu. unfold accessible_rows. apply list_bind_ext; [|done]. intros s.
  rewrite (bind_key u_id (users d) (u_id u) u); [|apply Hd|done|done|].
  - rewrite left_join_policy, bool_decide_true, left_join_grant by done. simpl.
    by destruct (has_grant d (u_id u) (s_id s)); simpl; repeat case_match.
  - intros v Hv. apply bind_none. intros p _. apply bind_none. intros g _.
    by rewrite bool_decide_false.
Qed.

Lemma is_true_may_access d u s :
  db_ok d ->
  is_true (sql_or (Some (has_grant d (u_id u) (s_id s))) (by_role u s (policy_of d (u_role u)))) = true
  <-> may_access d u (u_role u) s.
Proof.
  intros Hd. rewrite <- authorized_may_access by done. unfold is_true.
  by destruct (sql_or _ _) as [[]|].
Qed.

Lemma elem_of_accessible d u opt :
  db_ok d -> u ∈ users d ->
  opt ∈ accessible_rows (u_id u) d <->
  exists s, s ∈ servers d /\ may_access d u (u_role u) s /\ opt = GatewayOpt (s_hostname s) (s_environment s).
Proof.
  intros Hd Hu. rewrite accessible_rows_eq by done. rewrite list_elem_of_bind. split.
  - intros (s & Ho & Hs). exists s. destruct (is_true _) eqn:Ht; [|by apply not_elem_of_nil in Ho].
    apply list_elem_of_singleton in Ho. by rewrite <- is_true_may_access.
  - intros (s & Hs & Hm & ->). exists s. split; [|done].
    rewrite (proj2 (is_true_may_access d u s Hd)) by done. left.
Qed.

Lemma accessible_hostnames d u :
  db_ok d -> u ∈ users d ->
  map opt_hostname (accessible_rows (u_id u) d) `sublist_of` map s_hostname (servers d).
Proof.
  intros Hd Hu. rewrite accessible_rows_eq by done. clear Hu.
  induction (servers d) as [|s l IH]; [done|]. rewrite bind_cons. simpl. rewrite map_app.
  destruct (is_true _); simpl; by constructor.
Qed.

Lemma queryAccessibleServers_done d userID role :
  outcomes d = [] ->
  queryAccessibleServers userID role d
  = (inr ((if bool_decide (role = §"security-admin") then [admin_option] else [])
          ++ order_by opt_hostname (accessible_rows userID d)), d).
Proof. intros Ho. unfold queryAccessibleServers, query. by rewrite Ho. Qed.
Lemma elem_of_accessible_any d userID opt :
  db_ok d -> opt ∈ accessible_rows userID d ->
  exists u s, u ∈ users d /\ u_id u = userID /\ s ∈ servers d /\ may_access d u (u_role u) s
    /\ opt = GatewayOpt (s_hostname s) (s_environment s).
Proof.
  intros Hd Hin. destruct (decide (userID ∈ map u_id (users d))) as [(u & Hu & <-)%elem_of_map_key|Hn].
  - apply elem_of_accessible in Hin as (s & ? & ? & ->); [|done..]. by exists u, s.
  - exfalso. revert Hin. unfold accessible_rows. intros (s & Hs & _)%list_elem_of_bind.
    apply list_elem_of_bind in Hs as (u & Hu & Huin). apply list_elem_of_bind in Hu as (p & Hp & _).
    apply list_elem_of_bind in Hp as (g & Hg & _).
    rewrite bool_decide_false in Hg by (intros <-; apply Hn; apply elem_of_map_key; eauto).
    by apply not_elem_of_nil in Hg.
Qed.

(** The options are the admin console, for security administrators, then servers in the
    user's reach; the database is as good as before. *)
Lemma queryAccessibleServers_options userID role d r d' :
  db_ok d -> queryAccessibleServers userID role d = (r, d') ->
  db_reach d d' /\ match r with
    | inl _ => True
    | inr opts => forall h, h ∈ map opt_hostname opts ->
        (h = §"zttp-admin" /\ role = §"security-admin")
        \/ exists u s, u ∈ users d /\ u_id u = userID /\ s ∈ servers d /\ s_hostname s = h /\ may_access d u (u_role u) s
    end.
Proof.
  intros Hd Hq. split.
  { revert Hq. unfold queryAccessibleServers.
    pose proof (query_reach (fun d => inr (order_by opt_hostname (accessible_rows userID d))) d) as Hr.
    destruct (query _ _) as [[|[]] d1]; by intros [= _ <-]. }
  destruct r as [err|opts]; [done|].
  assert (exists n, opts = (if bool_decide (role = §"security-admin") then [admin_option] else [])
            ++ take n (order_by opt_hostname (accessible_rows userID d))) as [n ->].
  { assert (forall l : list gatewayServerOption, l = take (length l) l) as Hall by (intros; by rewrite take_ge).
    unfold queryAccessibleServers, query in Hq.
    destruct (outcomes d) as [|[| | |n m] os]; simpl in Hq; simplify_eq;
      eexists; by (f_equal; first [apply Hall|done]). }
  intros h. rewrite map_app, elem_of_app. intros [Hr|Hr].
  - left. case_bool_decide; [|by apply not_elem_of_nil in Hr].
    by apply list_elem_of_singleton in Hr.
  - right. apply elem_of_map_key in Hr as (o & Hin & <-).
    apply subseteq_take in Hin. apply elem_of_order_by, elem_of_accessible_any in Hin; [|done].
    destruct Hin as (u & s & ? & ? & ? & ? & ->). by exists u, s.
Qed.

(** The menu ends, and what it returns is one of its options. *)
Lemma handleGatewayMenu_returns c d userID role :
  db_ok d ->
  exists r c' d', handleGatewayMenu c userID role d = (Finished (r, c'), d') /\ db_reach d d'
    /\ forall h, r = inr h ->
         (h = §"zttp-admin" /\ role = §"security-admin")
         \/ exists u s, u ∈ users d /\ u_id u = userID /\ s ∈ servers d /\ s_hostname s = h /\ may_access d u (u_role u) s.
Proof.
  intros Hd. unfold handleGatewayMenu. destruct (queryAccessibleServers userID role d) as [r d'] eqn:Hq.
  apply queryAccessibleServers_options in Hq as [Hreach Hopts]; [|done]. destruct r as [err|opts].
  { eexists _, _, _. split; [done|split; [done|by intros]]. }
  destruct (gateway_loop_total (S (length (inp c))) opts 0 c) as (r & c' & Hl & Hr);
    [pose proof (zlen_nonneg opts); lia|lia|].
  rewrite Hl. eexists _, _, _. split; [done|split; [done|]]. auto.
Qed.
End gateway_lemmas.

(** ** Properties *)

(** C8.  The menu and the policy engine agree.  For a user of the database, with the
    role the database has for him, the menu lists a host exactly when [Authorize]
    would open it, plus the admin console for security administrators; the servers
    come in collation order and none comes twice. *)
Theorem gateway_menu_is_authorized `{PG : Postgres} `{V6 : IPv6Text} d u cmds :
  db_ok d -> outcomes d = [] -> u ∈ users d ->
  scan_string_array (commands_of d (u_role u)) = inr cmds ->
  exists rows,
    queryAccessibleServers (u_id u) (u_role u) d
    = (inr ((if bool_decide (u_role u = §"security-admin") then [admin_option] else []) ++ rows), d)
    /\ StronglySorted (key_le opt_hostname) rows /\ NoDup (map opt_hostname rows)
    /\ forall h, h ∈ map opt_hostname rows
                 <-> exists acc, Authorize (u_id u) (u_role u) h d = (inr acc, d).
Proof.
  intros Hd Ho Hu Hc. exists (order_by opt_hostname (accessible_rows (u_id u) d)).
  split; [by apply queryAccessibleServers_done|]. split; [apply order_by_sorted|]. split.
  - rewrite (Permutation_map opt_hostname (order_by_perm opt_hostname _)).
    eapply sublist_NoDup; [apply (ok_hostnames d Hd)|by apply accessible_hostnames].
  - intros h. rewrite elem_of_map_key. setoid_rewrite elem_of_order_by.
    setoid_rewrite elem_of_accessible; [|done..].
    pose proof (ok_role_text d Hd) as Ht. rewrite Forall_forall in Ht. split.
    + intros (o & (s & Hs & Hm & ->) & <-). exists (access_of s cmds).
      apply Authorize_hit; auto.
    + intros [acc Ha].
      destruct (decide (h ∈ map s_hostname (servers d))) as [(s & Hs & <-)%elem_of_map_key|Hn].
      * exists (GatewayOpt (s_hostname s) (s_environment s)). split; [|done]. exists s.
        split; [done|split; [|done]]. apply authorized_may_access; [done|].
        destruct (default false _) eqn:He; [done|].
        assert (~ may_access d u (u_role u) s) as Hm by (rewrite <- authorized_may_access by done; by rewrite He).
        rewrite (Authorize_refused d u s (u_role u)) in Ha; auto.
        -- done.
        -- by eapply scan_ok.
      * destruct (text_ok h) eqn:Hh.
        -- rewrite Authorize_unknown in Ha by (auto || by right). done.
        -- unfold Authorize in Ha. rewrite run_done in Ha by done.
           unfold authorize_query in Ha. rewrite Hh, andb_false_r in Ha. done.
Qed.

(** C29.  The menu always comes to an end: for any typing, any pauses and any failure
    of the database or of the connection, [handleGatewayMenu] returns, never indexes
    outside its list, and a host it returns is either the admin console, offered to
    security administrators only, or a server in the user's reach. *)
Theorem handleGatewayMenu_total `{PG : Postgres} c d u role :
  db_ok d -> u ∈ users d ->
  exists r c' d', handleGatewayMenu c (u_id u) role d = (Finished (r, c'), d')
    /\ forall h, r = inr h ->
         (h = §"zttp-admin" /\ role = §"security-admin")
         \/ exists s, s ∈ servers d /\ s_hostname s = h /\ may_access d u (u_role u) s.
Proof.
  intros Hd Hu. destruct (handleGatewayMenu_returns c d (u_id u) role Hd) as (r & c' & d' & Hm & _ & Hr).
  exists r, c', d'. split; [done|]. intros h [?|(v & s & Hv & Hid & ? & ? & Hm')]%Hr; [by left|right].
  rewrite (NoDup_map_inj u_id (users d) v u) in Hm' by (done || apply Hd). by exists s.
Qed.

(** ** Witnesses *)

Lemma gateway_menu_is_authorized_witness :
  exists rows,
    queryAccessibleServers (PG := demo_postgres) §"u-bob" §"backend-dev" demo_db = (inr rows, demo_db)
    /\ NoDup (map opt_hostname rows)
    /\ (§"prod-db-01" ∈ map opt_hostname rows
        <-> exists acc, Authorize (PG := demo_postgres) (V6 := no_ipv6) §"u-bob" §"backend-dev" §"prod-db-01" demo_db
                        = (inr acc, demo_db)).
Proof.
  destruct (gateway_menu_is_authorized (PG := demo_postgres) (V6 := no_ipv6) demo_db
    (UserRow §"u-bob" §"bob" §"h2" §"backend-dev" 0 None false) None demo_db_ok eq_refl
    ltac:(right; left) eq_refl) as (rows & Hq & _ & Hn & Hh).
  exists rows. split; [exact Hq|]. split; [exact Hn|]. exact (Hh _).
Defined.

(** A security administrator moves down once and picks the first server. *)
Lemma handleGatewayMenu_total_witness :
  exists r c' d',
    handleGatewayMenu (PG := demo_postgres) (client (ESC ++ §"[B" ++ CRLF)) §"u-admin" §"security-admin" demo_db
    = (Finished (r, c'), d') /\ r = inr §"dev-app-01".
Proof.
  destruct (handleGatewayMenu_total (PG := demo_postgres) (client (ESC ++ §"[B" ++ CRLF)) demo_db
    (UserRow §"u-admin" §"admin" §"h4" §"security-admin" 0 None false) §"security-admin" demo_db_ok
    ltac:(do 3 right; left)) as (r & c' & d' & Hr & _).
  exists r, c', d'. split; [exact Hr|]. vm_compute in Hr |- *. congruence.
Defined.
