(* ===== verification/Wire.v ===== *)
(** * The protocol between the CLI and the proxy

    [internal/cli/transport/transport.go] on the client's side,
    [readConnectRequest], [deny] and [ackReady] of [internal/proxy/accept.go] on the
    proxy's.  A connection of one side is what the other has written. *)

From S2P Require Import Prelude GoStr Json JsonText Io.
From stdpp Require Import options.
Open Scope Z_scope.

Record ConnectRequest := Request {
  Username : str;
  Password : str;
  Target : str;
  TermWidth : Z;
  TermHeight : Z;
}.

(** ** The client's side *)

Definition request_members (req : ConnectRequest) : list (str * jval) :=
  [(§"username", VStr (Username req)); (§"password", VStr (Password req));
   (§"target", VStr (Target req)); (§"term_width", VInt (TermWidth req));
   (§"term_height", VInt (TermHeight req))].

(** [json.Marshal(req)]. *)
Definition marshal_request (req : ConnectRequest) : str := json_object (request_members req).

(** Two writes; an error of the first ends it. *)
Definition SendConnectRequest (conn : sink) (req : ConnectRequest) : option error * sink :=
  let data := marshal_request req in
  match sink_write conn (be32 (zlen data)) with
  | (Some err, conn) => (Some err, conn)
  | (None, conn) => sink_write conn data
  end.

(** [WaitReady]: [None] is READY. *)
Definition WaitReady (c : conn) : option error * conn :=
  match conn_read_full false 1 c with
  | (inl err, c) => (Some (ErrWrap §"read proxy response" err), c)
  | (inr statusByte, c) =>
      if bool_decide (statusByte = [to_byte 0]) then (None, c) else
      match conn_read_full false 4 c with
      | (inl _, c) => (Some (ErrText §"proxy denied connection"), c)
      | (inr lenBuf, c) =>
          match conn_read_full false (from_be lenBuf) c with
          | (inl err, c) => (Some (ErrWrap §"read proxy error message" err), c)
          | (inr msg, c) => (Some (ErrText msg), c)
          end
      end
  end.

Definition window_change (width height : Z) : str :=
  [to_byte 2; to_byte (Z.shiftr width 8); to_byte width; to_byte (Z.shiftr height 8); to_byte height].

Definition SendWindowChange (conn : sink) (width height : Z) : option error * sink :=
  sink_write conn (window_change width height).

(** ** The proxy's side *)

(** The text of the error of [json.Unmarshal] on a given input. *)
Class JsonErrors := { json_error_text : str -> str }.

Section proxy.
Context {UT : UnicodeTables} {JE : JsonErrors}.

(** One member of the object; the first type error is kept and the rest of the
    object still read. *)
Definition set_member (r : ConnectRequest) (m : str * json) : option ConnectRequest :=
  let '(k, v) := m in
  if key_matches k §"username" then
    x ← set_string (Username r) v; Some (Request x (Password r) (Target r) (TermWidth r) (TermHeight r))
  else if key_matches k §"password" then
    x ← set_string (Password r) v; Some (Request (Username r) x (Target r) (TermWidth r) (TermHeight r))
  else if key_matches k §"target" then
    x ← set_string (Target r) v; Some (Request (Username r) (Password r) x (TermWidth r) (TermHeight r))
  else if key_matches k §"term_width" then
    x ← set_int (TermWidth r) v; Some (Request (Username r) (Password r) (Target r) x (TermHeight r))
  else if key_matches k §"term_height" then
    x ← set_int (TermHeight r) v; Some (Request (Username r) (Password r) (Target r) (TermWidth r) x)
  else Some r.

Definition set_members (ms : list (str * json)) (r : ConnectRequest) : option ConnectRequest :=
  fold_left (fun acc m => r ← acc; set_member r m) ms (Some r).

Definition zero_request : ConnectRequest := Request [] [] [] 0 0.

(** [json.Unmarshal(data, &req)]. *)
Definition unmarshal_request (data : str) : option ConnectRequest :=
  match json_parse data with
  | Some JNull => Some zero_request
  | Some (JObj ms) => set_members ms zero_request
  | _ => None
  end.

Definition readConnectRequest (c : conn) : res ConnectRequest * conn :=
  match conn_read_full true 4 c with
  | (inl err, c) => (inl err, c)
  | (inr lenBuf, c) =>
      let msgLen := from_be lenBuf in
      if 4096 <? msgLen then
        (inl (ErrText (§"request payload too large: " ++ itoa msgLen ++ §" bytes")), c)
      else
        match conn_read_full true msgLen c with
        | (inl err, c) => (inl err, c)
        | (inr data, c) =>
            match unmarshal_request data with
            | None => (inl (ErrText (json_error_text data)), c)
            | Some req => (inr req, c)
            end
        end
  end.
End proxy.

Definition deny (c : conn) (reason : str) (isInteractiveHandoff : bool) : conn :=
  if isInteractiveHandoff then
    let c := clearScreen c in
    let c := conn_write c (CRLF ++ ESC ++ §"[31mError:" ++ ESC ++ §"[0m " ++ reason
                           ++ CRLF ++ CRLF ++ §"Press any key to continue...") in
    (conn_readKey c).2
  else
    let c := conn_write c [to_byte 1] in
    let c := conn_write c (be32 (zlen reason)) in
    let c := conn_write c reason in
    conn_close c.

Definition ackReady (c : conn) (isInteractiveHandoff : bool) : conn :=
  if isInteractiveHandoff then clearScreen c else conn_write c [to_byte 0].

(** ** Lemmas *)

(** A request whose strings are text, the way the CLI builds them. *)
Definition int64 (z : Z) : Prop := -(2 ^ 63) <= z < 2 ^ 63.

Record request_ok (r : ConnectRequest) : Prop := {
  ok_username : valid_text (Username r);
  ok_password : valid_text (Password r);
  ok_target : valid_text (Target r);
  ok_width : int64 (TermWidth r);
  ok_height : int64 (TermHeight r);
}.

Lemma unmarshal_marshal `{UnicodeTables} r : request_ok r -> unmarshal_request (marshal_request r) = Some r.
Proof.
  intros []. unfold unmarshal_request, marshal_request. rewrite json_parse_object by done.
  unfold request_members. cbn [map]. unfold read_back. cbn [fst snd].
  rewrite !(to_valid_id (Username r)), !(to_valid_id (Password r)), !(to_valid_id (Target r)) by done.
  unfold set_members. cbn [fold_left mbind option_bind].
  unfold set_member. cbn [set_string set_int Username Password Target TermWidth TermHeight zero_request].
  rewrite !parse_int64_itoa by done. destruct r. reflexivity.
Qed.

(** Filling the fields keeps them well typed, whatever the members are. *)
Lemma set_string_text old v x : valid_text old -> json_text v -> set_string old v = Some x -> valid_text x.
Proof. intros Ho Hv. destruct v; try done; cbn; by intros [= <-]. Qed.

Lemma set_int_int64 old v x : int64 old -> set_int old v = Some x -> int64 x.
Proof.
  intros Ho. destruct v; try done; cbn; [by intros [= <-]|]. unfold parse_int64, int64.
  match goal with |- (let '(_, _) := ?e in _) = _ -> _ => destruct e as [neg ds] end.
  destruct (digit_text ds); [|done]. destruct (_ && _) eqn:E; [|done]. intros [= <-]. lia.
Qed.

Lemma set_member_ok `{UnicodeTables} r m r' : request_ok r -> json_text m.2 -> set_member r m = Some r' -> request_ok r'.
Proof.
  intros [H1 H2 H3 H4 H5] Hv. destruct m as [k v]. unfold set_member.
  repeat (case_match; [match goal with |- (?e ≫= _) = _ -> _ => destruct e as [x|] eqn:Hx; [|done] end;
    intros [= <-]; constructor; try done; first [eapply set_string_text in Hx | eapply set_int_int64 in Hx]; done|]).
  by intros [= <-].
Qed.

Lemma set_members_ok `{UnicodeTables} ms r r' :
  request_ok r -> json_text (JObj ms) -> set_members ms r = Some r' -> request_ok r'.
Proof.
  unfold set_members. revert r. induction ms as [|m ms IH]; intros r Hr Hms; cbn [fold_left]; [by intros [= <-]|].
  cbn [json_text foldr] in Hms. destruct Hms as (_ & Hm & Hms). destruct (set_member r m) as [r1|] eqn:H1; cbn [mbind option_bind]; rewrite H1.
  - apply IH; [by eapply set_member_ok|exact Hms].
  - intros Hf. exfalso. clear -Hf. induction ms as [|m ms IH]; [done|]. by apply IH.
Qed.

Lemma unmarshal_request_ok `{UnicodeTables} data r : unmarshal_request data = Some r -> request_ok r.
Proof.
  assert (request_ok zero_request) as H0 by (by constructor).
  unfold unmarshal_request. destruct (json_parse data) as [v|] eqn:Hp; [|done]. apply json_parse_text in Hp.
  destruct v; try done; [by intros [= <-]|]. by apply set_members_ok.
Qed.

Lemma be32_length z : zlen (be32 z) = 4.
Proof. unfold zlen. by rewrite length_be32. Qed.

Lemma SendConnectRequest_bytes conn r :
  budget conn = None ->
  SendConnectRequest conn r
  = (None, Sink (written conn ++ be32 (zlen (marshal_request r)) ++ marshal_request r) None (sink_err conn)).
Proof.
  intros Hb. unfold SendConnectRequest. rewrite sink_write_unlimited by done.
  rewrite sink_write_unlimited by done. simpl. by rewrite <- app_assoc.
Qed.

Lemma typed_app a b : typed (a ++ b) = typed a ++ typed b.
Proof. apply map_app. Qed.

(** What [deny] puts on the wire for a client that is still waiting. *)
Definition deny_bytes (reason : str) : str := [to_byte 1] ++ be32 (zlen reason) ++ reason.

Lemma deny_eq c reason :
  is_open c = true -> budget (outp c) = None ->
  deny c reason false
  = Conn (inp c) (Sink (written (outp c) ++ deny_bytes reason) None (sink_err (outp c))) false (read_err c) (timeout_err c).
Proof.
  intros Ho Hb. unfold deny. rewrite (conn_write_open c) by done.
  do 2 (rewrite conn_write_open by done; cbn [inp outp written sink_err read_err timeout_err]).
  unfold conn_close, deny_bytes. simpl. by rewrite <- !app_assoc.
Qed.

Lemma WaitReady_deny cl reason rest :
  is_open cl = true -> inp cl = typed (deny_bytes reason) ++ rest -> zlen reason < 2 ^ 32 ->
  WaitReady cl = (Some (ErrText reason), set_inp cl rest).
Proof.
  intros Ho Hi Hr. unfold deny_bytes in Hi. rewrite !typed_app, <- !app_assoc in Hi. unfold WaitReady.
  change 1 with (zlen [to_byte 1]). rewrite (conn_read_full_spec _ _ _ _ Ho Hi).
  rewrite bool_decide_false by done.
  rewrite <- (be32_length (zlen reason)), (conn_read_full_spec _ _ (typed reason ++ rest)) by done.
  rewrite from_be_be32, u32_small by (split; [apply zlen_nonneg|done]).
  by rewrite (conn_read_full_spec _ _ rest) by done.
Qed.

(** ** Properties *)

(** The request arrives.  What [SendConnectRequest] writes for any request whose
    strings are valid text and whose sizes are machine integers, [readConnectRequest]
    reads back as the same request, leaving whatever the client typed behind it -
    provided the JSON fits the proxy's limit of 4096 bytes. *)
Theorem connect_request_roundtrip `{UT : UnicodeTables} `{JE : JsonErrors} r c rest :
  request_ok r -> zlen (marshal_request r) <= 4096 -> is_open c = true ->
  inp c = typed (written (SendConnectRequest new_sink r).2) ++ rest ->
  readConnectRequest c = (inr r, set_inp c rest).
Proof.
  intros Hr Hl Ho Hi. rewrite SendConnectRequest_bytes in Hi by done.
  cbn [snd written new_sink] in Hi. rewrite app_nil_l, typed_app, <- app_assoc in Hi. unfold readConnectRequest.
  rewrite <- (be32_length (zlen (marshal_request r))), (conn_read_full_spec _ _ _ _ Ho Hi).
  rewrite from_be_be32, u32_small by (pose proof (zlen_nonneg (marshal_request r)); lia).
  replace (4096 <? zlen (marshal_request r)) with false by lia.
  rewrite (conn_read_full_spec _ _ rest) by done. by rewrite unmarshal_marshal.
Qed.

(** The limit: a request whose JSON is longer is refused by its announced length,
    before any of the JSON is read. *)
Theorem oversized_request_refused `{UT : UnicodeTables} `{JE : JsonErrors} r c rest :
  4096 < zlen (marshal_request r) < 2 ^ 32 -> is_open c = true ->
  inp c = typed (written (SendConnectRequest new_sink r).2) ++ rest ->
  readConnectRequest c
  = (inl (ErrText (§"request payload too large: " ++ itoa (zlen (marshal_request r)) ++ §" bytes")),
     set_inp c (typed (marshal_request r) ++ rest)).
Proof.
  intros Hl Ho Hi. rewrite SendConnectRequest_bytes in Hi by done.
  cbn [snd written new_sink] in Hi. rewrite app_nil_l, typed_app, <- app_assoc in Hi. unfold readConnectRequest.
  rewrite <- (be32_length (zlen (marshal_request r))), (conn_read_full_spec _ _ _ _ Ho Hi).
  rewrite from_be_be32, u32_small by lia. by replace (4096 <? zlen (marshal_request r)) with true by lia.
Qed.

(** C23.  Whatever a client sends - any bytes, any pauses, a request or not - the proxy
    takes at most 4100 bytes of it before it has a request or gives up. *)
Theorem readConnectRequest_bounded `{UT : UnicodeTables} `{JE : JsonErrors} c r c' :
  readConnectRequest c = (r, c') -> nbytes (inp c) - nbytes (inp c') <= 4100.
Proof.
  unfold readConnectRequest.
  destruct (conn_read_full true 4 c) as [[err|lenBuf] c1] eqn:H1;
    apply conn_read_full_consumes in H1; [intros; simplify_eq; lia|].
  destruct (4096 <? from_be lenBuf) eqn:Hm; [intros; simplify_eq; lia|].
  destruct (conn_read_full true (from_be lenBuf) c1) as [[err|data] c2] eqn:H2;
    apply conn_read_full_consumes in H2; [|destruct (unmarshal_request data)];
    intros; simplify_eq; lia.
Qed.

(** C21.  Requests are well typed.  Whatever bytes a client sends, a request the proxy
    accepts has valid UTF-8 in its name, password and target and 64-bit integers for the
    terminal's size: encoding it and decoding that gives the very same request. *)
Theorem accepted_request_typed `{UT : UnicodeTables} `{JE : JsonErrors} c req c'
    (H : readConnectRequest c = (inr req, c')) :
  request_ok req /\ unmarshal_request (marshal_request req) = Some req.
Proof.
  enough (request_ok req) by (split; [done|by apply unmarshal_marshal]). revert H. unfold readConnectRequest.
  destruct (conn_read_full true 4 c) as [[err|lenBuf] c1]; [done|]. destruct (4096 <? from_be lenBuf); [done|].
  destruct (conn_read_full true (from_be lenBuf) c1) as [[err|data] c2]; [done|].
  destruct (unmarshal_request data) as [r|] eqn:Hu; [|done]. intros [= <- _]. by eapply unmarshal_request_ok.
Qed.

(** A refusal arrives.  The client waiting in [WaitReady] gets the very reason
    the proxy gave to [deny], and the proxy's end of the connection is closed; after
    [ackReady] it gets READY. *)
Theorem deny_reaches_client c reason cl rest :
  is_open c = true -> budget (outp c) = None -> zlen reason < 2 ^ 32 -> is_open cl = true ->
  (exists bytes, written (outp (deny c reason false)) = written (outp c) ++ bytes
     /\ (inp cl = typed bytes ++ rest -> WaitReady cl = (Some (ErrText reason), set_inp cl rest)))
  /\ is_open (deny c reason false) = false
  /\ (exists bytes, written (outp (ackReady c false)) = written (outp c) ++ bytes
     /\ (inp cl = typed bytes ++ rest -> WaitReady cl = (None, set_inp cl rest))).
Proof.
  intros Ho Hb Hr Hcl. rewrite deny_eq by done. split; [|split; [done|]].
  - exists (deny_bytes reason). split; [done|]. intros Hi. by apply WaitReady_deny.
  - exists [to_byte 0]. unfold ackReady, conn_write. rewrite Ho, sink_write_unlimited by done.
    split; [done|]. intros Hi. unfold WaitReady. change 1 with (zlen [to_byte 0]).
    rewrite (conn_read_full_spec _ _ _ _ Hcl Hi). by rewrite bool_decide_true by done.
Qed.

(** ** Witnesses *)

Definition demo_request : ConnectRequest :=
  Request §"j.doe" (§"p" ++ DQ ++ §"<é>\" ++ LF) §"zttp-gateway" 80 24.

Definition demo_json_errors : JsonErrors := {| json_error_text _ := §"invalid JSON" |}.

Lemma connect_request_roundtrip_witness :
  readConnectRequest (UT := ascii_tables) (JE := demo_json_errors)
    (client (written (SendConnectRequest new_sink demo_request).2 ++ §"ls"))
  = (inr demo_request, client §"ls").
Proof.
  rewrite (connect_request_roundtrip (UT := ascii_tables) (JE := demo_json_errors) demo_request _ (typed §"ls")).
  - reflexivity.
  - constructor; first [reflexivity | split; [discriminate|reflexivity]].
  - vm_compute. discriminate.
  - reflexivity.
  - apply typed_app.
Defined.

Lemma oversized_request_refused_witness :
  (readConnectRequest (UT := ascii_tables) (JE := demo_json_errors)
    (client (written (SendConnectRequest new_sink (Request (Repeat §"a" 4096) [] [] 0 0)).2))).1
  = inl (ErrText §"request payload too large: 4168 bytes").
Proof.
  rewrite (oversized_request_refused (UT := ascii_tables) (JE := demo_json_errors)
             (Request (Repeat §"a" 4096) [] [] 0 0) _ []).
  - vm_compute. reflexivity.
  - vm_compute. split; reflexivity.
  - reflexivity.
  - rewrite app_nil_r. reflexivity.
Defined.

Lemma readConnectRequest_bounded_witness :
  let c := client (be32 (2 ^ 32 - 1) ++ Repeat §"x" 5000) in
  nbytes (inp c) - nbytes (inp (readConnectRequest (UT := ascii_tables) (JE := demo_json_errors) c).2) <= 4100.
Proof.
  intros c. apply (readConnectRequest_bounded (UT := ascii_tables) (JE := demo_json_errors) c
    (readConnectRequest (UT := ascii_tables) (JE := demo_json_errors) c).1).
  apply surjective_pairing.
Defined.

(** A name with a broken byte and a broken escape, the password given twice, a null. *)
Definition demo_sloppy : str :=
  §"{" ++ DQ ++ §"USERNAME" ++ DQ ++ §": " ++ DQ ++ §"a" ++ [to_byte 255] ++ BSL ++ §"ud800" ++ DQ
  ++ §", " ++ DQ ++ §"password" ++ DQ ++ §":" ++ DQ ++ §"x" ++ DQ ++ §"," ++ DQ ++ §"password" ++ DQ ++ §":null}".

Definition demo_repaired : ConnectRequest := Request (§"a" ++ encode_rune RuneError ++ encode_rune RuneError) §"x" [] 0 0.

Lemma accepted_request_typed_witness :
  readConnectRequest (UT := ascii_tables) (JE := demo_json_errors) (client (be32 (zlen demo_sloppy) ++ demo_sloppy))
  = (inr demo_repaired, client [])
  /\ unmarshal_request (UT := ascii_tables) (marshal_request demo_repaired) = Some demo_repaired.
Proof.
  split; [vm_compute; reflexivity|].
  apply (accepted_request_typed (UT := ascii_tables) (JE := demo_json_errors)
    (client (be32 (zlen demo_sloppy) ++ demo_sloppy)) demo_repaired (client [])).
  vm_compute. reflexivity.
Defined.

Lemma deny_reaches_client_witness :
  exists bytes, written (outp (deny (client []) §"authentication failed" false)) = bytes
    /\ WaitReady (client bytes) = (Some (ErrText §"authentication failed"), client []).
Proof.
  destruct (deny_reaches_client (client []) §"authentication failed"
              (client (deny_bytes §"authentication failed")) []) as [(bytes & Hw & Hb) _];
    [reflexivity..|].
  exists bytes. split; [exact Hw|]. simpl in Hw. subst bytes. apply Hb. symmetry. apply app_nil_r.
Defined.
