(* ===== verification/Cli.v ===== *)
(** * The client: [internal/cli/connect/*.go] and the rest of [transport.go]

    The login form, [RunConnect] from the credentials to the raw terminal, and the two
    copiers of [RunPipe] as a step function.  The terminal and the TLS dial are what
    they answer; what the proxy sends is the input of the dialled connection.  Then the
    actions of [cli/app.go] and of the connect command. *)

From S2P Require Import Prelude GoStr GoTime Json Io Tls Commands CmdFilter Wire.
From stdpp Require Import options.
Open Scope Z_scope.

(** ** The login form *)

Record loginForm := LoginForm { lf_username : str; lf_password : str; lf_focus : Z }.

Definition cli_clear : str := ESC ++ §"[2J" ++ ESC ++ §"[H".

Definition cli_drawField (label val : str) (hidden focused : bool) : str :=
  let displayVal := if hidden then Repeat §"*" (length val) else val in
  if focused then ColorGreen ++ §"> " ++ pad 8 label ++ §": " ++ displayVal ++ §"█" ++ ColorReset ++ CRLF
  else §"  " ++ pad 8 label ++ §": " ++ displayVal ++ CRLF.

Definition login_screen (form : loginForm) : str :=
  ColorCyan ++ §"=== ZTTP Secure Login ===" ++ ColorReset ++ CRLF ++ CRLF
  ++ cli_drawField §"Username" (lf_username form) false (lf_focus form =? 0)
  ++ cli_drawField §"Password" (lf_password form) true (lf_focus form =? 1)
  ++ CRLF
  ++ (if lf_focus form =? 2 then ColorGreen ++ §"> [ Login ]" ++ ColorReset ++ CRLF else §"  [ Login ]" ++ CRLF)
  ++ (if lf_focus form =? 3 then ColorRed ++ §"> [ Exit  ]" ++ ColorReset ++ CRLF else §"  [ Exit  ]" ++ CRLF).

(** What a key does: the form changes, the credentials are taken, or the user leaves. *)
Inductive login_act := LForm (f : loginForm) | LTake | LExit.

Definition login_text (k : key) (s : str) : str :=
  match k with
  | KBackspace => chop s
  | KChr b => if negb (bval b =? 32) && negb (bval b =? 9) then s ++ [b] else s
  | _ => s
  end.

Definition login_key (k : key) (f : loginForm) : login_act :=
  let 'LoginForm u p i := f in
  match k with
  | KCtrlC => LExit
  | KUp => LForm (LoginForm u p (if 0 <? i then i - 1 else i))
  | KDown => LForm (LoginForm u p (if i <? 3 then i + 1 else i))
  | KEnter =>
      if i =? 2 then if bool_decide (u = []) || bool_decide (p = []) then LForm f else LTake
      else if i =? 3 then LExit
      else LForm (LoginForm u p (i + 1))
  | _ =>
      if i =? 0 then LForm (LoginForm (login_text k u) p i)
      else if i =? 1 then LForm (LoginForm u (login_text k p) i) else LForm f
  end.

(** The answer, what is left of the input, and what has been shown. *)
Fixpoint login_loop (fuel : nat) (deadlines : bool) (f : loginForm) (stdin : list inev) (out : str)
  : run_result (res (str * str) * list inev * str) :=
  match fuel with
  | O => OutOfFuel
  | S fuel =>
      let out := out ++ cli_clear ++ login_screen f in
      match cli_readKey deadlines stdin with
      | (None, stdin) => Finished (inl ErrEOF, stdin, out)
      | (Some k, stdin) =>
          match login_key k f with
          | LForm f => login_loop fuel deadlines f stdin out
          | LTake => Finished (inr (lf_username f, lf_password f), stdin, out)
          | LExit => Finished (inr (§"exit", []), stdin, out ++ cli_clear)
          end
      end
  end.

(** [raw] is the error of entering raw mode.  A fuel of one more than the input always
    suffices (see [login_loop_total]). *)
Definition drawLoginTUI (raw : option error) (deadlines : bool) (stdin : list inev) (out : str)
  : run_result (res (str * str) * list inev * str) :=
  match raw with
  | Some err => Finished (inl (ErrText (§"failed to enter raw mode: " ++ error_text err)), stdin, out)
  | None => login_loop (S (length stdin)) deadlines (LoginForm [] [] 0) stdin out
  end.

(** ** Connecting *)

(** What the terminal, the clock and the network answer: entering raw mode, the first
    time and before the session; whether the input is a terminal, and then the password
    read from it with what is left; the size; the dial - the connection with what the
    proxy will send, given the settings of TLS - and the milliseconds it took. *)
Record surroundings := Surroundings {
  raw_login : option error;
  raw_session : option error;
  stdin_deadlines : bool;
  is_terminal : bool;
  read_password : list inev -> res str * list inev;
  term_size : res (Z * Z);
  dialled : tls_config -> res conn;
  elapsed_ms : Z;
}.

(** How [RunConnect] goes: an error, [os.Exit], or the copiers start. *)
Inductive cli_end := CliError (err : error) | CliExit (code : Z) | CliPiping.

Record cli_state := Cli { ended : cli_end; to_proxy : option conn; stdin_left : list inev; stdout : str }.

(** [fmt.Scanln] of one string: the next word of the line and what follows the rune it
    stops at.  The word is written rune by rune, so an invalid byte becomes U+FFFD; the
    errors ("unexpected newline", "expected newline", end of input) are dropped by the
    caller, which keeps the word. *)
Fixpoint skip_blanks (cs : list (Z * str)) : bool * list (Z * str) :=
  match cs with
  | [] => (false, [])
  | (r, _) :: cs' => if r =? 10 then (false, cs') else if is_space r then skip_blanks cs' else (true, cs)
  end.

Fixpoint scan_word (cs : list (Z * str)) : str * list (Z * str) :=
  match cs with
  | [] => ([], [])
  | (r, b) :: cs' =>
      if is_space r then ([], cs) else
      let '(w, rest) := scan_word cs' in
      ((if r =? RuneError then [to_byte 239; to_byte 191; to_byte 189] else b) ++ w, rest)
  end.

Fixpoint to_newline (cs : list (Z * str)) : list (Z * str) :=
  match cs with
  | [] => []
  | (r, _) :: cs' => if r =? 10 then cs' else if is_space r then to_newline cs' else cs'
  end.

Definition Scanln (s : str) : str * str :=
  match skip_blanks (runes s) with
  | (false, rest) => ([], chunk_bytes rest)
  | (true, cs) => let '(w, rest) := scan_word cs in (w, chunk_bytes (to_newline rest))
  end.

Definition stdin_bytes (i : list inev) : str :=
  concat (map (fun e => match e with InByte b => [b] | InGap => [] end) i).

(** [terminal.Prompt(prompt, true)]. *)
Definition Prompt (prompt : str) (s : surroundings) (stdin : list inev) : res str * list inev * str :=
  if negb (is_terminal s) then let '(input, rest) := Scanln (stdin_bytes stdin) in (inr input, typed rest, prompt)
  else let '(r, stdin) := read_password s stdin in (r, stdin, prompt ++ LF).

Definition ConnectTLS (proxyAddr : str) (s : surroundings) : res conn :=
  match dialled s client_config with
  | inl err => inl (ErrWrap (§"tls dial " ++ proxyAddr) err)
  | inr c => inr c
  end.

Definition green (s : str) : str := ColorGreen ++ s ++ ColorReset.
Definition rule : str := concat (replicate 41 §"─") ++ LF.

(** From the credentials on: steps 2 to 7. *)
Definition connect_with (proxyAddr hostname username password : str) (s : surroundings) (stdin : list inev) (out : str)
  : cli_state :=
  let '(width, height) := match term_size s with inr wh => wh | inl _ => (80, 24) end in
  let isInternalTUI := bool_decide (hostname = §"zttp-gateway") || bool_decide (hostname = §"zttp-admin") in
  let out := out ++ (if isInternalTUI then [] else green (§"Connecting to " ++ hostname ++ §" via ZTTP...") ++ LF) in
  match ConnectTLS proxyAddr s with
  | inl err => Cli (CliError (ErrWrap §"proxy connection failed" err)) None stdin out
  | inr conn =>
      let '(e, w) := SendConnectRequest (outp conn) (Request username password hostname width height) in
      let conn := Conn (inp conn) w (is_open conn) (read_err conn) (timeout_err conn) in
      match e with
      | Some err => Cli (CliError (ErrWrap §"send connect request" err)) (Some (conn_close conn)) stdin out
      | None =>
          match WaitReady conn with
          | (Some err, conn) => Cli (CliError err) (Some (conn_close conn)) stdin out
          | (None, conn) =>
              let out := out ++ (if isInternalTUI then []
                else green §"Connected" ++ §" (" ++ itoa (elapsed_ms s) ++ §"ms)" ++ LF ++ rule ++ §"Audit logging active" ++ LF ++ rule) in
              match raw_session s with
              | Some err => Cli (CliError (ErrWrap §"raw terminal" err)) (Some (conn_close conn)) stdin out
              | None => Cli CliPiping (Some conn) stdin out
              end
          end
      end
  end.

Definition RunConnect (proxyAddr hostname username : str) (s : surroundings) (stdin : list inev) : run_result cli_state :=
  if bool_decide (username = []) then
    match drawLoginTUI (raw_login s) (stdin_deadlines s) stdin [] with
    | Finished (inl err, stdin, out) => Finished (Cli (CliError (ErrWrap §"login failed" err)) None stdin out)
    | Finished (inr (username, password), stdin, out) =>
        if bool_decide (username = §"exit") || bool_decide (username = §"quit")
        then Finished (Cli (CliExit 0) None stdin out)
        else Finished (connect_with proxyAddr hostname username password s stdin out)
    | Panicked => Panicked
    | OutOfFuel => OutOfFuel
    end
  else
    let '(r, stdin, out) := Prompt §"Password: " s stdin in
    match r with
    | inl err => Finished (Cli (CliError (ErrWrap §"password prompt" err)) None stdin out)
    | inr password => Finished (connect_with proxyAddr hostname username password s stdin out)
    end.

(** ** The commands *)

(** [zttp connect <hostname>]: the arguments, and the flags [--proxy] and [--user] with
    their defaults. *)
Definition connect_action (args : list str) (proxyAddr username : str) (s : surroundings) (stdin : list inev) : run_result cli_state :=
  match args with
  | [] => Finished (Cli (CliError (ErrText §"hostname required — usage: zttp connect <hostname>")) None stdin [])
  | hostname :: _ => RunConnect proxyAddr hostname username s stdin
  end.

(** [zttp] without a command: one round of its loop per element, each with what
    surrounds it, the input left by then, and the error of [syscall.Exec]; without one
    the process is replaced.  [ShellOn]: the loop goes on where the list ends. *)
Inductive shell_end := ShellExit (code : Z) | ShellReplaced | ShellOn.

Definition shell_banner : str := §"=== ZTTP Interactive Shell ===" ++ LF.

Fixpoint shell_loop (proxyAddr : str) (rounds : list (surroundings * list inev * option error)) (out : str)
  : run_result (shell_end * str) :=
  match rounds with
  | [] => Finished (ShellOn, out)
  | (s, stdin, exec_error) :: rounds =>
      match RunConnect proxyAddr §"zttp-gateway" [] s stdin with
      | Finished st =>
          let out := out ++ shell_banner ++ stdout st in
          match ended st with
          | CliExit code => Finished (ShellExit code, out)
          | CliError _ | CliPiping =>
              let out := out ++ match ended st with CliError err => §"Connection closed: " ++ error_text err ++ LF | _ => [] end ++ LF in
              match exec_error with
              | None => Finished (ShellReplaced, out)
              | Some _ => shell_loop proxyAddr rounds out
              end
          end
      | Panicked => Panicked
      | OutOfFuel => OutOfFuel
      end
  end.

(** The action of [NewApp], for the value of ZTTP_PROXY_ADDR. *)
Definition app_action (env_addr defaultProxyAddr : str) (rounds : list (surroundings * list inev * option error))
  : run_result (shell_end * str) :=
  shell_loop (if bool_decide (env_addr = []) then defaultProxyAddr else env_addr) rounds shell_banner.

(** ** The copiers *)

(** What is on its way each way: the standard input not yet read, what went to the proxy,
    what came from it and is not yet read, and the standard output. *)
Record pipe := Pipe { p_in : str; p_proxy : sink; p_from : str; p_shown : str }.

(** A copier moves a chunk of up to [n] bytes or sees the end of what it reads; the
    context is cancelled; the window changes size. *)
Inductive pipe_act := Typing (n : nat) | Showing (n : nat) | StdinEnds | ProxyEnds | Cancelled | Resized (size : res (Z * Z)).

(** The watcher of [watchTerminalResize], woken once: the error of the write is dropped. *)
Definition forward_resize (size : res (Z * Z)) (conn : sink) : sink :=
  match size with
  | inr (w, h) => (SendWindowChange conn w h).2
  | inl _ => conn
  end.

(** The state after an action, and whether [RunPipe] has returned by it; [None]: not
    possible now. *)
Definition pipe_step (p : pipe) (a : pipe_act) : option (pipe * bool) :=
  match a with
  | Typing n =>
      if bool_decide (take n (p_in p) = []) then None else
      let '(e, w) := sink_write (p_proxy p) (take n (p_in p)) in
      Some (Pipe (drop n (p_in p)) w (p_from p) (p_shown p), bool_decide (is_Some e))
  | Showing n =>
      if bool_decide (take n (p_from p) = []) then None
      else Some (Pipe (p_in p) (p_proxy p) (drop n (p_from p)) (p_shown p ++ take n (p_from p)), false)
  | StdinEnds => if bool_decide (p_in p = []) then Some (p, true) else None
  | ProxyEnds => if bool_decide (p_from p = []) then Some (p, true) else None
  | Cancelled => Some (p, true)
  | Resized size => Some (Pipe (p_in p) (forward_resize size (p_proxy p)) (p_from p) (p_shown p), false)
  end.

(** [RunPipe]: the first copier that is done ends it. *)
Fixpoint RunPipe (p : pipe) (acts : list pipe_act) : option (pipe * bool) :=
  match acts with
  | [] => Some (p, false)
  | a :: acts =>
      match pipe_step p a with
      | None => None
      | Some (p, true) => if bool_decide (acts = []) then Some (p, true) else None
      | Some (p, false) => RunPipe p acts
      end
  end.

(** ** Lemmas *)

Definition login_char (b : byte) : bool :=
  negb (bool_decide (bval b ∈ [3; 8; 9; 10; 13; 27; 32; 127])).

Lemma cli_readKey_char dl b i : login_char b = true -> cli_readKey dl (InByte b :: i) = (Some (KChr b), i).
Proof.
  unfold login_char. rewrite negb_true_iff, bool_decide_eq_false. intros Hb. unfold cli_readKey. cbn [read_wait].
  assert (forall z, z ∈ [3; 8; 9; 10; 13; 27; 32; 127] -> (bval b =? z) = false) as Hn
    by (intros z Hz; apply Z.eqb_neq; intros E; apply Hb; by rewrite E).
  rewrite (Hn 27), (Hn 13), (Hn 10), (Hn 127), (Hn 8), (Hn 3) by set_solver. done.
Qed.

Lemma login_text_char b s : login_char b = true -> login_text (KChr b) s = s ++ [b].
Proof.
  unfold login_char. rewrite negb_true_iff, bool_decide_eq_false. intros Hb. cbn [login_text].
  assert ((bval b =? 32) = false) as -> by (apply Z.eqb_neq; intros E; apply Hb; rewrite E; set_solver).
  assert ((bval b =? 9) = false) as -> by (apply Z.eqb_neq; intros E; apply Hb; rewrite E; set_solver).
  done.
Qed.

(** The loop ends within a round per event, whatever is typed. *)
Lemma login_loop_total fuel dl f stdin out :
  (length stdin < fuel)%nat -> exists r, login_loop fuel dl f stdin out = Finished r.
Proof.
  revert f stdin out. induction fuel as [|fuel IH]; intros f stdin out Hf; [lia|]. cbn [login_loop].
  destruct (cli_readKey dl stdin) as [[k|] i] eqn:Hk; [|by eexists]. apply cli_readKey_shorter in Hk.
  destruct (login_key k f); [apply IH; lia|by eexists..].
Qed.

Lemma login_types_username dl str p fuel u rest out :
  Forall (fun b => login_char b = true) str ->
  exists out', login_loop (length str + fuel) dl (LoginForm u p 0) (typed str ++ rest) out
    = login_loop fuel dl (LoginForm (u ++ str) p 0) rest out'.
Proof.
  intros H. revert u out. induction H as [|b str Hb _ IH]; intros u out; [exists out; by rewrite app_nil_r|].
  cbn [length Nat.add login_loop typed map app]. rewrite cli_readKey_char by done.
  cbn [login_key Z.eqb]. rewrite login_text_char by done.
  destruct (IH (u ++ [b]) (out ++ cli_clear ++ login_screen (LoginForm u p 0))) as [out' E].
  exists out'. rewrite <- app_assoc in E. exact E.
Qed.

Lemma login_types_password dl str u fuel p rest out :
  Forall (fun b => login_char b = true) str ->
  exists out', login_loop (length str + fuel) dl (LoginForm u p 1) (typed str ++ rest) out
    = login_loop fuel dl (LoginForm u (p ++ str) 1) rest out'.
Proof.
  intros H. revert p out. induction H as [|b str Hb _ IH]; intros p out; [exists out; by rewrite app_nil_r|].
  cbn [length Nat.add login_loop typed map app]. rewrite cli_readKey_char by done.
  cbn [login_key Z.eqb]. rewrite login_text_char by done.
  destruct (IH (p ++ [b]) (out ++ cli_clear ++ login_screen (LoginForm u p 1))) as [out' E].
  exists out'. rewrite <- app_assoc in E. exact E.
Qed.

Lemma conn_read_full_outp d n c : outp (conn_read_full d n c).2 = outp c.
Proof.
  unfold conn_read_full. destruct (n <=? 0); [done|]. destruct (negb (is_open c)); [done|].
  by destruct (read_full d n (inp c)) as [[s e] i].
Qed.

Lemma WaitReady_outp c : outp (WaitReady c).2 = outp c.
Proof.
  unfold WaitReady. pose proof (conn_read_full_outp false 1 c) as H1.
  destruct (conn_read_full false 1 c) as [[e|b] c1]; [done|]. case_bool_decide; [done|]. cbn [snd] in H1.
  pose proof (conn_read_full_outp false 4 c1) as H2.
  destruct (conn_read_full false 4 c1) as [[e|l] c2]; [by rewrite <- H1|]. cbn [snd] in H2.
  pose proof (conn_read_full_outp false (from_be l) c2) as H3.
  destruct (conn_read_full false (from_be l) c2) as [[e|m] c3]; cbn [snd] in *; congruence.
Qed.

Lemma WaitReady_ready c more :
  is_open c = true -> inp c = typed [to_byte 0] ++ more -> WaitReady c = (None, set_inp c more).
Proof.
  intros Ho Hi. unfold WaitReady. change 1 with (zlen [to_byte 0]).
  rewrite (conn_read_full_spec _ _ _ _ Ho Hi). by rewrite bool_decide_true by done.
Qed.

(** The three ENTERs and the text between them. *)
Definition login_keys (un pw : str) : str := un ++ [to_byte 13] ++ pw ++ [to_byte 13; to_byte 13].

Lemma cli_readKey_enter dl i : cli_readKey dl (InByte (to_byte 13) :: i) = (Some KEnter, i).
Proof. reflexivity. Qed.

Lemma login_form_answers dl un pw rest out :
  un <> [] -> pw <> [] -> Forall (fun b => login_char b = true) un -> Forall (fun b => login_char b = true) pw ->
  exists out', drawLoginTUI None dl (typed (login_keys un pw) ++ rest) out = Finished (inr (un, pw), rest, out').
Proof.
  intros Hun Hpw Fun Fpw. unfold drawLoginTUI, login_keys.
  assert (S (length (typed (un ++ [to_byte 13] ++ pw ++ [to_byte 13; to_byte 13]) ++ rest))
          = (length un + S (length pw + (3 + length rest)))%nat) as ->.
  { unfold typed. rewrite length_app, length_map, !length_app. simpl. lia. }
  rewrite !typed_app, <- !app_assoc. cbn [typed map app].
  edestruct login_types_username as [o1 ->]; [done|]. rewrite app_nil_l. cbn [login_loop].
  rewrite cli_readKey_enter. cbn [login_key Z.eqb Z.add].
  edestruct login_types_password as [o2 ->]; [done|]. rewrite app_nil_l. cbn [Nat.add login_loop].
  rewrite cli_readKey_enter. cbn [login_key Z.eqb Z.add Pos.eqb Pos.add Pos.succ].
  rewrite cli_readKey_enter. cbn [login_key Z.eqb Z.add Pos.eqb Pos.add Pos.succ].
  rewrite !bool_decide_false by done. cbn [orb]. eexists. reflexivity.
Qed.

(** What was moved so far, for schedules without a resize. *)
Lemma RunPipe_moves p acts p' r :
  budget (p_proxy p) = None -> Forall (fun a => match a with Resized _ => False | _ => True end) acts ->
  RunPipe p acts = Some (p', r) ->
  exists sent seen, p_in p = sent ++ p_in p' /\ written (p_proxy p') = written (p_proxy p) ++ sent
    /\ p_from p = seen ++ p_from p' /\ p_shown p' = p_shown p ++ seen.
Proof.
  intros Hb Ha. revert p Hb. induction Ha as [|a acts Hna _ IH]; intros p Hb; cbn [RunPipe].
  { intros [= <- _]. exists [], []. by rewrite !app_nil_r. }
  assert (forall p1 b, pipe_step p a = Some (p1, b) -> budget (p_proxy p1) = None
    /\ exists sent seen, p_in p = sent ++ p_in p1 /\ written (p_proxy p1) = written (p_proxy p) ++ sent
       /\ p_from p = seen ++ p_from p1 /\ p_shown p1 = p_shown p ++ seen) as Hstep.
  { intros p1 b. unfold pipe_step. destruct a as [n|n| | | |]; try done.
    - case_bool_decide; [done|]. rewrite sink_write_unlimited by done. intros [= <- _]. split; [done|].
      exists (take n (p_in p)), []. cbn. by rewrite take_drop, app_nil_r.
    - case_bool_decide; [done|]. intros [= <- _]. split; [done|]. exists [], (take n (p_from p)). cbn.
      by rewrite take_drop, app_nil_r.
    - case_bool_decide; [|done]. intros [= <- _]. split; [done|]. exists [], []. by rewrite !app_nil_r.
    - case_bool_decide; [|done]. intros [= <- _]. split; [done|]. exists [], []. by rewrite !app_nil_r.
    - intros [= <- _]. split; [done|]. exists [], []. by rewrite !app_nil_r. }
  destruct (pipe_step p a) as [[p1 b]|]; [|done].
  destruct (Hstep p1 b eq_refl) as (Hb1 & s1 & v1 & H1 & H2 & H3 & H4). destruct b.
  - case_bool_decide; [|done]. intros [= <- _]. by exists s1, v1.
  - intros Hr. apply IH in Hr as (s2 & v2 & H1' & H2' & H3' & H4'); [|done]. exists (s1 ++ s2), (v1 ++ v2).
    rewrite H1, H1', H2', H2, H3, H3', H4', H4, <- !app_assoc. done.
Qed.

(** ** Properties *)

(** C22.  Logging in from the keyboard.  A user who types a name, ENTER, a password and
    two ENTERs into the form of the CLI gets a connection on which the proxy reads, within
    its limit of 4096 bytes, exactly that name, that password, the host asked for and the
    size of the terminal; the session starts when the proxy answers READY, and a refusal
    is shown with the proxy's reason. *)
Theorem login_reaches_proxy `{UT : UnicodeTables} `{JE : JsonErrors} proxyAddr host s conn un pw rest w h :
  let req := Request un pw host w h in
  raw_login s = None -> dialled s client_config = inr conn -> is_open conn = true -> outp conn = new_sink ->
  (w, h) = match term_size s with inr wh => wh | inl _ => (80, 24) end ->
  un <> [] -> pw <> [] -> un <> §"exit" -> un <> §"quit" ->
  Forall (fun b => login_char b = true) un -> Forall (fun b => login_char b = true) pw ->
  request_ok req -> zlen (marshal_request req) <= 4096 ->
  exists st c', RunConnect proxyAddr host [] s (typed (login_keys un pw) ++ rest) = Finished st
    /\ stdin_left st = rest /\ to_proxy st = Some c'
    /\ (forall p later, is_open p = true -> inp p = typed (written (outp c')) ++ later ->
          readConnectRequest p = (inr req, set_inp p later))
    /\ (forall more, inp conn = typed [to_byte 0] ++ more -> raw_session s = None -> ended st = CliPiping /\ inp c' = more)
    /\ (forall reason more, inp conn = typed (deny_bytes reason) ++ more -> zlen reason < 2 ^ 32 ->
          ended st = CliError (ErrText reason)).
Proof.
  intros req Hraw Hdial Hopen Hout Hsize Hun Hpw Hexit Hquit Fun Fpw Hok Hlen.
  unfold RunConnect. rewrite bool_decide_true, Hraw by done.
  destruct (login_form_answers (stdin_deadlines s) un pw rest [] Hun Hpw Fun Fpw) as [out ->].
  rewrite !bool_decide_false by done. cbn [orb]. unfold connect_with, ConnectTLS. rewrite <- Hsize, Hdial.
  fold req. rewrite Hout. pose proof (SendConnectRequest_bytes new_sink req eq_refl) as Hsend. rewrite Hsend.
  set (sent := Sink _ None _). set (c0 := Conn (inp conn) sent _ _ _).
  assert (forall p later, is_open p = true -> inp p = typed (written sent) ++ later ->
            readConnectRequest p = (inr req, set_inp p later)) as Hread.
  { intros p later Hp Hi. apply connect_request_roundtrip; try done. }
  pose proof (WaitReady_outp c0) as Ho.
  assert (forall more, inp conn = typed [to_byte 0] ++ more -> WaitReady c0 = (None, set_inp c0 more)) as Hready
    by (intros; by apply WaitReady_ready).
  assert (forall reason more, inp conn = typed (deny_bytes reason) ++ more -> zlen reason < 2 ^ 32 ->
            WaitReady c0 = (Some (ErrText reason), set_inp c0 more)) as Hdeny
    by (intros; by apply WaitReady_deny).
  destruct (WaitReady c0) as [[err|] c1]; cbn [snd] in Ho.
  - eexists _, (conn_close c1). split; [reflexivity|]. split; [done|]. split; [done|]. split; [by cbn; rewrite Ho|].
    split; [intros more Hm; apply Hready in Hm; discriminate|].
    intros reason more Hm Hz. by apply (Hdeny _ more Hm) in Hz as [= -> _].
  - destruct (raw_session s) as [err|].
    + eexists _, (conn_close c1). split; [reflexivity|]. split; [done|]. split; [done|]. split; [by cbn; rewrite Ho|].
      split; [done|]. intros reason more Hm Hz. apply (Hdeny _ more Hm) in Hz. discriminate.
    + eexists _, c1. split; [reflexivity|]. split; [done|]. split; [done|]. split; [by rewrite Ho|].
      split; [intros more Hm _; by apply Hready in Hm as [= ->]|].
      intros reason more Hm Hz. apply (Hdeny _ more Hm) in Hz. discriminate.
Qed.

(** The copiers.  At every moment, and however the chunks are cut and the two
    directions interleaved, what the proxy has been sent is what was typed so far, and
    what is shown is what the proxy has sent so far: nothing lost, repeated or out of
    order. *)
Theorem RunPipe_in_order (p p' : pipe) (acts : list pipe_act) (r : bool)
    (Hb : budget (p_proxy p) = None) (Ha : Forall (fun a => match a with Resized _ => False | _ => True end) acts)
    (Hr : RunPipe p acts = Some (p', r)) :
  p_in p = drop (length (written (p_proxy p))) (written (p_proxy p')) ++ p_in p'
  /\ written (p_proxy p') = written (p_proxy p) ++ take (length (p_in p) - length (p_in p')) (p_in p)
  /\ p_shown p' = p_shown p ++ take (length (p_from p) - length (p_from p')) (p_from p).
Proof.
  destruct (RunPipe_moves p acts p' r Hb Ha Hr) as (sent & seen & H1 & H2 & H3 & H4).
  rewrite H2, drop_app_length. split; [done|]. rewrite H4, H1, H3, !length_app.
  replace (length sent + length (p_in p') - length (p_in p'))%nat with (length sent) by lia.
  replace (length seen + length (p_from p') - length (p_from p'))%nat with (length seen) by lia.
  by rewrite !take_app_length.
Qed.

(** A password read from a pipe stops at its first space, and what follows the next
    character is left for the session. *)
Example passphrase_is_cut :
  Prompt §"Password: " (Surroundings None None false false (fun i => (inr [], i)) (inl ErrEOF) (fun _ => inl ErrEOF) 0)
    (typed (§"correct horse" ++ LF)) = (inr §"correct", typed (§"orse" ++ LF), §"Password: ").
Proof. vm_compute. reflexivity. Qed.

(** The end of the standard input ends the session, whatever is still to be shown. *)
Example stdin_end_loses_output :
  RunPipe (Pipe §"uptime" new_sink §"up 3 days" []) [Typing 6; StdinEnds]
  = Some (Pipe [] (Sink §"uptime" None (sink_err new_sink)) §"up 3 days" [], true).
Proof. vm_compute. reflexivity. Qed.

(** A resize is typed into the session: the five bytes of [SendWindowChange] go down the
    same stream as the keys.  Where the height ends in 13 the filter reads the last of them
    as the end of the line being typed, looks at that line and passes the line end on. *)
Example resize_ends_the_line :
  let f := (Write (UT := ascii_tables) (newCommandFilterWriter new_sink new_sink []) (§"rm -rf /srv" ++ window_change 80 13)).2 in
  written (target f) = §"rm -rf /srv" ++ [to_byte 2; to_byte 0; to_byte 80; to_byte 0; to_byte 13] /\ buf f = [].
Proof. vm_compute. split; reflexivity. Qed.

(** ** Witnesses *)

Definition demo_surroundings (answer : str) : surroundings :=
  Surroundings None None false true (fun i => (inr §"pw", i)) (inr (120, 40)) (fun _ => inr (client answer)) 35.

Lemma login_reaches_proxy_witness :
  exists st c', RunConnect §"127.0.0.1:2224" §"zttp-gateway" [] (demo_surroundings [to_byte 0])
      (typed (login_keys §"j.doe" §"s3cret!" ++ §"ls")) = Finished st
    /\ ended st = CliPiping /\ to_proxy st = Some c'
    /\ readConnectRequest (UT := ascii_tables) (JE := demo_json_errors) (client (written (outp c')))
       = (inr (Request §"j.doe" §"s3cret!" §"zttp-gateway" 120 40), client []).
Proof.
  destruct (login_reaches_proxy (UT := ascii_tables) (JE := demo_json_errors) §"127.0.0.1:2224" §"zttp-gateway"
    (demo_surroundings [to_byte 0]) (client [to_byte 0]) §"j.doe" §"s3cret!" (typed §"ls") 120 40)
    as (st & c' & E & _ & Hc & Hread & Hready & _).
  1-5: reflexivity.
  1-4: discriminate.
  1-2: repeat constructor.
  1: (constructor; first [reflexivity | split; [discriminate|reflexivity]]).
  1: (vm_compute; discriminate).
  exists st, c'. rewrite typed_app. split; [exact E|]. split; [apply (Hready []); reflexivity|]. split; [exact Hc|].
  apply (Hread (client (written (outp c'))) []); [reflexivity|]. symmetry. apply app_nil_r.
Defined.

Lemma RunPipe_in_order_witness :
  p_shown (Pipe [] (Sink §"ls" None (sink_err new_sink)) [] §"a b") = [] ++ take (3 - 0) §"a b".
Proof.
  apply (RunPipe_in_order (Pipe §"ls" new_sink §"a b" []) (Pipe [] (Sink §"ls" None (sink_err new_sink)) [] §"a b")
    [Typing 1; Showing 2; Typing 5; Showing 1; ProxyEnds] true).
  - reflexivity.
  - repeat constructor.
  - vm_compute. reflexivity.
Defined.
