(* ===== verification/Auth.v ===== *)
(** * Authentication: [internal/auth/auth.go] and [hash.go]

    One call of [Authenticate] against the users table, with the bcrypt comparisons
    it makes and the alert it starts recorded, and the lockout that results from
    sequences of calls.  bcrypt and the HTTP client are left open. *)

From S2P Require Import Prelude GoStr GoTime Json Config Db Rbac.
From stdpp Require Import options.
Open Scope Z_scope.

(** [bcrypt.CompareHashAndPassword(hash, password) == nil], and
    [bcrypt.GenerateFromPassword] with the randomness of the salt as an argument. *)
Class Bcrypt := {
  bcrypt_matches : str -> str -> bool;
  bcrypt_generate : Z -> str -> Z -> res str;
}.

Definition bcryptCost : Z := 12.

Definition ErrAuthentication : error := ErrText §"authentication failed".
Definition ErrAccountLocked : error := ErrText §"account temporarily locked".

Record User := MkUser { ID : str; UserName : str; Role : str }.

(** What a call does besides its database statements. *)
Inductive auth_event :=
  | Compared (hash : str)
  | Alert (username : str) (attempts : Z) (lockedUntil : Z).

(** The three clock readings of a call: the proxy's at the lockout check, the
    database's when it runs the UPDATE, and the proxy's again afterwards. *)
Record clocks := Clocks { at_check : Z; at_update : Z; at_return : Z }.

Fixpoint comparisons (evs : list auth_event) : nat :=
  match evs with
  | [] => 0
  | Compared _ :: evs => S (comparisons evs)
  | _ :: evs => comparisons evs
  end.

Definition dummyHash : str := §"$2a$12$LQv3c1yqBWVHxkd0LHAkCOYz6TtxMQJqhN8/LewdBPj0oEkXBDhum".

Section auth.
Context {PG : Postgres} {BC : Bcrypt}.

Definition HashPassword (salt : Z) (plaintext : str) : res str :=
  match bcrypt_generate salt plaintext bcryptCost with
  | inl err => inl (ErrWrap §"bcrypt hash" err)
  | inr hash => inr hash
  end.

Definition VerifyPassword (plaintext hash : str) : bool := bcrypt_matches hash plaintext.

(** [SELECT id, password_hash, role, locked_until FROM users WHERE username = $1]. *)
Definition user_query (username : str) (d : database) : res user_row :=
  if negb (text_ok username) then inl (pg_error BadText) else
  match filter (fun u => u_username u = username) (users d) with
  | [] => inl ErrNoRows
  | u :: _ => inr u
  end.

(** [lockedUntil.Valid && now.Before(lockedUntil.Time)]. *)
Definition locked_at (now : Z) (locked_until : option Z) : bool :=
  match locked_until with Some t => now <? t | None => false end.

Definition atomicIncrementAndMaybeLock (cfg : Config) (t : clocks) (userID : str) (d : database)
  : res (option Z) * database :=
  let '(r, d) := run (increment_attempts (MaxFailedAttempts cfg)
                        (whole_seconds (LockoutDuration cfg)) (at_update t) userID) d in
  match r with
  | inl err => (inl (ErrWrap §"atomic increment" err), d)
  | inr (newCount, lockedUntil) =>
      if locked_at (at_return t) lockedUntil then (inr lockedUntil, d) else (inr None, d)
  end.

(** The result, the tables afterwards and the events, in order. *)
Definition Authenticate (cfg : Config) (t : clocks) (username password : str) (d : database)
  : res User * database * list auth_event :=
  let '(r, d) := run (fun d => (user_query username d, d)) d in
  match r with
  | inl err =>
      if decide (err = ErrNoRows) then (inl ErrAuthentication, d, [Compared dummyHash])
      else (inl (ErrWrap §"auth db query" err), d, [])
  | inr u =>
      if locked_at (at_check t) (u_locked_until u) then (inl ErrAccountLocked, d, []) else
      if negb (VerifyPassword password (u_password_hash u)) then
        let '(inc, d) := atomicIncrementAndMaybeLock cfg t (u_id u) d in
        match inc with
        | inr (Some lockUntil) =>
            (inl ErrAuthentication, d,
             [Compared (u_password_hash u); Alert username (MaxFailedAttempts cfg) lockUntil])
        | _ => (inl ErrAuthentication, d, [Compared (u_password_hash u)])
        end
      else
        let '(_, d) := run (reset_attempts (u_id u)) d in
        (inr (MkUser (u_id u) username (u_role u)), d, [Compared (u_password_hash u)])
  end.
End auth.

(** ** The alert *)

(** A POST: address, content type and body. *)
Record http_post := Post { post_url : str; content_type : str; post_body : str }.

(** The members of a Go map come out in the order of their keys. *)
Definition alert_payload (username : str) (attempts lockedUntil now : Z) : str :=
  json_object
    [(§"attempts", VInt attempts); (§"event", VStr §"account_locked");
     (§"locked_until", VStr (format_rfc3339 lockedUntil)); (§"severity", VStr §"high");
     (§"timestamp", VStr (format_rfc3339 now)); (§"username", VStr username)].

(** [fireSOCAlert]: the request sent, if any; [valid_url] is whether
    [http.NewRequest] accepts the address. *)
Definition fireSOCAlert (cfg : Config) (valid_url : str -> bool) (now : Z)
  (username : str) (attempts lockedUntil : Z) : option http_post :=
  if bool_decide (SOCWebhookURL cfg = []) then None
  else if negb (valid_url (SOCWebhookURL cfg)) then None
  else Some (Post (SOCWebhookURL cfg) §"application/json" (alert_payload username attempts lockedUntil now)).

(** ** Lemmas *)

Section auth_lemmas.
Context {PG : Postgres} {BC : Bcrypt}.

Definition find_user (d : database) (username : str) : option user_row :=
  head (filter (fun u => u_username u = username) (users d)).

Lemma user_query_hit d u :
  db_ok d -> u ∈ users d -> text_ok (u_username u) = true -> user_query (u_username u) d = inr u.
Proof.
  intros Hd Hu Ht. unfold user_query. rewrite Ht. simpl.
  by rewrite (filter_key u_username (users d) u) by (done || apply Hd).
Qed.

Lemma user_query_miss d username :
  text_ok username = true -> username ∉ map u_username (users d) -> user_query username d = inl ErrNoRows.
Proof. intros Ht Hn. unfold user_query. rewrite Ht. simpl. by rewrite filter_key_nil. Qed.

(** Looking a user up again after his row was rewritten. *)
Lemma elem_of_update_user d id f u :
  u ∈ users d -> u_id u = id -> f u ∈ users (update_user id f d).
Proof.
  intros Hu Hid. simpl. apply list_elem_of_In, in_map_iff. exists u.
  split; [by rewrite bool_decide_true|by apply list_elem_of_In].
Qed.

Lemma outcomes_update_user d id f : outcomes (update_user id f d) = outcomes d.
Proof. done. Qed.

(** The database answers: a failed attempt counts, and a success resets. *)
Lemma increment_hit cfg t d u :
  db_ok d -> outcomes d = [] -> u ∈ users d ->
  int4 (MaxFailedAttempts cfg) = true -> u_failed_attempts u < 2147483647 ->
  atomicIncrementAndMaybeLock cfg t (u_id u) d
  = (let u' := count_failure (MaxFailedAttempts cfg) (whole_seconds (LockoutDuration cfg)) (at_update t) u in
     (inr (if locked_at (at_return t) (u_locked_until u') then u_locked_until u' else None),
      update_user (u_id u) (count_failure (MaxFailedAttempts cfg) (whole_seconds (LockoutDuration cfg)) (at_update t)) d)).
Proof.
  intros Hd Ho Hu Hi Hf. unfold atomicIncrementAndMaybeLock. rewrite run_done by done.
  unfold increment_attempts. rewrite (filter_key u_id (users d) u) by (done || apply Hd).
  pose proof (ok_attempts d Hd) as Ha. rewrite Forall_forall in Ha. specialize (Ha u Hu).
  rewrite Hi. assert (int4 (u_failed_attempts u + 1) = true) as -> by (unfold int4; lia).
  simpl. by destruct (locked_at _ _).
Qed.

Lemma Authenticate_wrong cfg t d u password :
  db_ok d -> outcomes d = [] -> u ∈ users d -> text_ok (u_username u) = true ->
  int4 (MaxFailedAttempts cfg) = true -> u_failed_attempts u < 2147483647 ->
  locked_at (at_check t) (u_locked_until u) = false ->
  VerifyPassword password (u_password_hash u) = false ->
  let u' := count_failure (MaxFailedAttempts cfg) (whole_seconds (LockoutDuration cfg)) (at_update t) u in
  Authenticate cfg t (u_username u) password d
  = (inl ErrAuthentication,
     update_user (u_id u) (count_failure (MaxFailedAttempts cfg) (whole_seconds (LockoutDuration cfg)) (at_update t)) d,
     Compared (u_password_hash u)
     :: match u_locked_until u' with
        | Some l => if at_return t <? l then [Alert (u_username u) (MaxFailedAttempts cfg) l] else []
        | None => []
        end).
Proof.
  intros Hd Ho Hu Ht Hi Hf Hl Hv. cbv zeta. unfold Authenticate. rewrite run_done by done.
  rewrite user_query_hit by done. rewrite Hl, Hv. simpl negb. cbv beta iota.
  rewrite increment_hit by done. cbv zeta.
  destruct (u_locked_until (count_failure _ _ _ u)) as [l|]; simpl; [|done].
  by destruct (at_return t <? l).
Qed.

Lemma Authenticate_right cfg t d u password :
  db_ok d -> outcomes d = [] -> u ∈ users d -> text_ok (u_username u) = true ->
  locked_at (at_check t) (u_locked_until u) = false ->
  VerifyPassword password (u_password_hash u) = true ->
  Authenticate cfg t (u_username u) password d
  = (inr (MkUser (u_id u) (u_username u) (u_role u)), (reset_attempts (u_id u) d).2,
     [Compared (u_password_hash u)]).
Proof.
  intros Hd Ho Hu Ht Hl Hv. unfold Authenticate. rewrite run_done by done.
  rewrite user_query_hit by done. rewrite Hl, Hv. simpl. by rewrite run_done.
Qed.

Lemma Authenticate_locked cfg t d u password :
  db_ok d -> outcomes d = [] -> u ∈ users d -> text_ok (u_username u) = true ->
  locked_at (at_check t) (u_locked_until u) = true ->
  Authenticate cfg t (u_username u) password d = (inl ErrAccountLocked, d, []).
Proof.
  intros Hd Ho Hu Ht Hl. unfold Authenticate. rewrite run_done by done.
  rewrite user_query_hit by done. by rewrite Hl.
Qed.

Lemma Authenticate_reach cfg t username password d :
  db_reach d (Authenticate cfg t username password d).1.2.
Proof.
  unfold Authenticate.
  pose proof (run_read_reach (user_query username) d) as H1.
  destruct (run _ d) as [[err|u] d1]; simpl in H1; [by case_decide|].
  case_match; [done|]. destruct (negb _).
  - unfold atomicIncrementAndMaybeLock.
    match goal with |- context [run ?s d1] => pose proof (run_reach s d1) as H2 end.
    specialize (H2 ltac:(intros; constructor)). destruct (run _ d1) as [[err|[n l]] d2]; simpl in *.
    + by etransitivity.
    + repeat case_match; simplify_eq; by etransitivity.
  - pose proof (run_reach (reset_attempts (u_id u)) d1 ltac:(intros; constructor)) as H2.
    destruct (run _ d1) as [r d2]; simpl in *. by etransitivity.
Qed.
End auth_lemmas.

(** ** Sequences of calls *)

Section attempts.
Context {PG : Postgres} {BC : Bcrypt}.

(** Calls for one user name one after another, each with its clocks and password:
    the tables at the end and the answers in order. *)
Fixpoint attempts (cfg : Config) (username : str) (l : list (clocks * str)) (d : database)
  : list (res User) * database :=
  match l with
  | [] => ([], d)
  | (t, password) :: l' =>
      let '(r, d1, _) := Authenticate cfg t username password d in
      let '(rs, d2) := attempts cfg username l' d1 in (r :: rs, d2)
  end.

Definition with_failures (n : Z) (l : option Z) (u : user_row) : user_row :=
  UserRow (u_id u) (u_username u) (u_password_hash u) (u_role u) n l (u_override_role_access u).

(** A lockout that is over, or a count still short of the threshold. *)
Definition open_account (cfg : Config) (u : user_row) (l : list (clocks * str)) : Prop :=
  match u_locked_until u with
  | None => u_failed_attempts u + zlen l < MaxFailedAttempts cfg
  | Some x => Forall (fun a => x <= at_check a.1) l
  end.

Lemma with_failures_id u : with_failures (u_failed_attempts u) (u_locked_until u) u = u.
Proof. by destruct u. Qed.

Lemma Authenticate_wrong_step cfg t d u password :
  db_ok d -> outcomes d = [] -> u ∈ users d -> text_ok (u_username u) = true ->
  int4 (MaxFailedAttempts cfg) = true -> u_failed_attempts u < 2147483647 ->
  locked_at (at_check t) (u_locked_until u) = false ->
  VerifyPassword password (u_password_hash u) = false ->
  exists d' ev,
    Authenticate cfg t (u_username u) password d = (inl ErrAuthentication, d', ev)
    /\ db_ok d' /\ outcomes d' = []
    /\ count_failure (MaxFailedAttempts cfg) (whole_seconds (LockoutDuration cfg)) (at_update t) u ∈ users d'.
Proof.
  intros Hd Ho Hu Ht Hi Hf Hl Hv. pose proof (Authenticate_reach cfg t (u_username u) password d) as Hr.
  rewrite Authenticate_wrong in * by done. do 2 eexists. split; [done|]. split; [by eapply db_reach_ok|].
  split; [done|]. by apply elem_of_update_user.
Qed.

(** While the account is open, wrong passwords only raise the count. *)
Lemma attempts_open cfg u l d :
  db_ok d -> outcomes d = [] -> u ∈ users d -> text_ok (u_username u) = true ->
  int4 (MaxFailedAttempts cfg) = true -> u_failed_attempts u + zlen l <= 2147483647 ->
  Forall (fun a => VerifyPassword a.2 (u_password_hash u) = false) l ->
  open_account cfg u l ->
  exists d', attempts cfg (u_username u) l d = (replicate (length l) (inl ErrAuthentication), d')
    /\ db_ok d' /\ outcomes d' = []
    /\ with_failures (u_failed_attempts u + zlen l) (u_locked_until u) u ∈ users d'.
Proof.
  revert u d. induction l as [|[t p] l IH]; intros u d Hd Ho Hu Ht Hi Hf Hp Ha.
  { exists d. rewrite zlen_nil, Z.add_0_r, with_failures_id. done. }
  rewrite zlen_cons in Hf. pose proof (zlen_nonneg l). inv Hp.
  destruct (Authenticate_wrong_step cfg t d u p) as (d1 & ev & He & Hd1 & Ho1 & Hu1); try done; [lia| |].
  { unfold open_account in Ha. destruct (u_locked_until u); [|done]. inv Ha. simpl in *. lia. }
  set (u1 := count_failure _ _ _ u) in Hu1.
  assert (u1 = with_failures (u_failed_attempts u + 1) (u_locked_until u) u) as E.
  { unfold u1, count_failure, with_failures, open_account in *. f_equal.
    destruct (u_locked_until u); [by rewrite bool_decide_false, andb_false_r|].
    rewrite zlen_cons in Ha. by replace (MaxFailedAttempts cfg <=? u_failed_attempts u + 1) with false by lia. }
  rewrite E in Hu1.
  destruct (IH (with_failures (u_failed_attempts u + 1) (u_locked_until u) u) d1) as (d2 & Hrun & ? & ? & Hu2);
    try done; simpl; [lia| |].
  { unfold open_account in *. simpl. destruct (u_locked_until u); [by inv Ha|]. rewrite zlen_cons in Ha. lia. }
  exists d2. split; [|split; [done|split; [done|]]].
  - simpl in *. rewrite He. by rewrite Hrun.
  - rewrite zlen_cons. replace (u_failed_attempts u + (1 + zlen l)) with (u_failed_attempts u + 1 + zlen l) by lia.
    done.
Qed.

Lemma attempts_app cfg username a b d :
  attempts cfg username (a ++ b) d
  = let '(r1, d1) := attempts cfg username a d in
    let '(r2, d2) := attempts cfg username b d1 in (r1 ++ r2, d2).
Proof.
  revert d. induction a as [|[t p] a IH]; intros d; simpl; [by destruct (attempts cfg username b d)|].
  destruct (Authenticate cfg t username p d) as [[r d1] ev]. rewrite IH.
  destruct (attempts cfg username a d1) as [r1 d2]. by destruct (attempts cfg username b d2).
Qed.
End attempts.

(** What a verified identity says, whatever the connection does. *)
Lemma Authenticate_verified `{PG : Postgres} `{BC : Bcrypt} cfg t username password d usr d' ev :
  Authenticate cfg t username password d = (inr usr, d', ev) ->
  exists u, u ∈ users d /\ u_username u = username
    /\ bcrypt_matches (u_password_hash u) password = true
    /\ (forall l, u_locked_until u = Some l -> l <= at_check t)
    /\ usr = MkUser (u_id u) username (u_role u) /\ ev = [Compared (u_password_hash u)].
Proof.
  unfold Authenticate. destruct (run _ d) as [[err|u] d1] eqn:Hr; [by case_decide|].
  assert (user_query username d = inr u) as Hq.
  { revert Hr. unfold run. destruct (outcomes d) as [|[| | |] os]; intros [=]; done. }
  destruct (locked_at (at_check t) (u_locked_until u)) eqn:Hl; [done|].
  destruct (VerifyPassword password (u_password_hash u)) eqn:Hv; simpl.
  2:{ destruct (atomicIncrementAndMaybeLock cfg t (u_id u) d1) as [[?|[?|]] ?]; done. }
  destruct (run _ d1) as [r2 d2]. intros [= <- _ <-]. exists u.
  unfold user_query in Hq. destruct (negb _); [done|].
  destruct (filter _ _) as [|v l] eqn:Hf; simplify_eq.
  assert (u ∈ filter (fun u => u_username u = username) (users d)) as [Hn Hu]%list_elem_of_filter
    by (rewrite Hf; left).
  split_and!; try done. intros x Hx. rewrite Hx in Hl. simpl in Hl. lia.
Qed.

(** ** Properties *)

(** C5.  Fail-closed: whatever the database connection does, a verified identity is
    returned only for a user of that name whose stored hash bcrypt accepts for the
    password and who is not locked out at the moment of the check; it is that user's
    identity, and the comparison was really made. *)
Theorem Authenticate_sound `{PG : Postgres} `{BC : Bcrypt} cfg t username password d usr d' ev :
  Authenticate cfg t username password d = (inr usr, d', ev) ->
  exists u, u ∈ users d /\ u_username u = username
    /\ bcrypt_matches (u_password_hash u) password = true
    /\ (forall l, u_locked_until u = Some l -> l <= at_check t)
    /\ usr = MkUser (u_id u) username (u_role u) /\ ev = [Compared (u_password_hash u)].
Proof. apply Authenticate_verified. Qed.

(** C32.  No user-name oracle: an unknown name and a wrong password get the same error
    after the same work - exactly one bcrypt comparison each - as long as the account
    is not locked. *)
Theorem unknown_user_like_wrong_password `{PG : Postgres} `{BC : Bcrypt} cfg t1 t2 d username u p1 p2 :
  db_ok d -> outcomes d = [] -> text_ok username = true -> username ∉ map u_username (users d) ->
  u ∈ users d -> text_ok (u_username u) = true -> int4 (MaxFailedAttempts cfg) = true ->
  u_failed_attempts u < 2147483647 -> locked_at (at_check t2) (u_locked_until u) = false ->
  bcrypt_matches (u_password_hash u) p2 = false ->
  exists d1 ev1 d2 ev2,
    Authenticate cfg t1 username p1 d = (inl ErrAuthentication, d1, ev1)
    /\ Authenticate cfg t2 (u_username u) p2 d = (inl ErrAuthentication, d2, ev2)
    /\ comparisons ev1 = 1%nat /\ comparisons ev2 = 1%nat.
Proof.
  intros Hd Ho Ht Hn Hu Htu Hi Hf Hl Hv. rewrite (Authenticate_wrong cfg t2 d u p2) by done.
  unfold Authenticate. rewrite run_done, user_query_miss by done. simpl.
  eexists _, _, _, _. split_and!; try done. simpl. by repeat case_match.
Qed.

(** C10.  The lockout.  Starting with no lock and [n] failures to go, the [n]-th wrong
    password in a row writes the lock; from then until it runs out every call is
    refused as locked, the right password included, without touching the row or
    running bcrypt. *)
Theorem lockout_after_threshold `{PG : Postgres} `{BC : Bcrypt} cfg d u l t p t' p' :
  db_ok d -> outcomes d = [] -> u ∈ users d -> text_ok (u_username u) = true ->
  int4 (MaxFailedAttempts cfg) = true -> u_locked_until u = None ->
  u_failed_attempts u + zlen l + 1 = MaxFailedAttempts cfg ->
  Forall (fun a => bcrypt_matches (u_password_hash u) a.2 = false) (l ++ [(t, p)]) ->
  let until := at_update t + whole_seconds (LockoutDuration cfg) * 1000000000 in
  exists d',
    attempts cfg (u_username u) (l ++ [(t, p)]) d
    = (replicate (length (l ++ [(t, p)])) (inl ErrAuthentication), d')
    /\ with_failures (MaxFailedAttempts cfg) (Some until) u ∈ users d'
    /\ (at_check t' < until ->
        Authenticate cfg t' (u_username u) p' d' = (inl ErrAccountLocked, d', [])).
Proof.
  intros Hd Ho Hu Ht Hi Hl Hn Hp until. apply Forall_app in Hp as [Hp Hp1]. inv Hp1.
  assert (MaxFailedAttempts cfg <= 2147483647) by (unfold int4 in Hi; lia).
  destruct (attempts_open cfg u l d) as (d1 & Ha & Hd1 & Ho1 & Hu1); try done; [lia| |].
  { unfold open_account. rewrite Hl. lia. }
  rewrite Hl in Hu1. set (u1 := with_failures _ None u) in Hu1.
  destruct (Authenticate_wrong_step cfg t d1 u1 p) as (d2 & ev & He & Hd2 & Ho2 & Hu2); try done;
    [simpl; lia|].
  assert (count_failure (MaxFailedAttempts cfg) (whole_seconds (LockoutDuration cfg)) (at_update t) u1
          = with_failures (MaxFailedAttempts cfg) (Some until) u) as E.
  { unfold u1, count_failure, with_failures, until. simpl. f_equal; [lia|].
    by replace (MaxFailedAttempts cfg <=? u_failed_attempts u + zlen l + 1) with true by lia. }
  rewrite E in Hu2. exists d2. split; [|split; [done|]].
  - rewrite attempts_app, Ha. simpl in *. rewrite He.
    rewrite length_app, Nat.add_comm. simpl. by rewrite <- replicate_cons_app.
  - intros Hc. eapply (Authenticate_locked cfg t' d2 (with_failures (MaxFailedAttempts cfg) (Some until) u));
      try done. simpl. lia.
Qed.

(** C25.  A lockout happens once.  After it has run out, [locked_until] is still set,
    so the UPDATE never sets it again: any number of further wrong passwords is
    answered as an ordinary failure, and the account stays open to the next guess. *)
Theorem no_second_lockout `{PG : Postgres} `{BC : Bcrypt} cfg d u l x t p :
  db_ok d -> outcomes d = [] -> u ∈ users d -> text_ok (u_username u) = true ->
  int4 (MaxFailedAttempts cfg) = true -> u_locked_until u = Some x ->
  u_failed_attempts u + zlen l <= 2147483647 ->
  Forall (fun a => bcrypt_matches (u_password_hash u) a.2 = false /\ x <= at_check a.1) l ->
  x <= at_check t -> bcrypt_matches (u_password_hash u) p = true ->
  exists d' d'',
    attempts cfg (u_username u) l d = (replicate (length l) (inl ErrAuthentication), d')
    /\ with_failures (u_failed_attempts u + zlen l) (Some x) u ∈ users d'
    /\ Authenticate cfg t (u_username u) p d'
       = (inr (MkUser (u_id u) (u_username u) (u_role u)), d'', [Compared (u_password_hash u)]).
Proof.
  intros Hd Ho Hu Ht Hi Hl Hn Hp Hc Hm.
  destruct (attempts_open cfg u l d) as (d1 & Ha & Hd1 & Ho1 & Hu1); try done.
  { eapply Forall_impl; [done|]. by intros a [? _]. }
  { unfold open_account. rewrite Hl. eapply Forall_impl; [done|]. by intros a [_ ?]. }
  rewrite Hl in Hu1. eexists d1, _. split; [done|split; [done|]].
  eapply (Authenticate_right cfg t d1 (with_failures _ (Some x) u)); try done. simpl. lia.
Qed.

(** A success wipes the slate: the right password on an account that is not
    locked returns the identity, sets the count to zero and clears the lock, and
    changes no other row and no other table. *)
Theorem success_resets `{PG : Postgres} `{BC : Bcrypt} cfg t d u p :
  db_ok d -> outcomes d = [] -> u ∈ users d -> text_ok (u_username u) = true ->
  locked_at (at_check t) (u_locked_until u) = false -> bcrypt_matches (u_password_hash u) p = true ->
  exists d',
    Authenticate cfg t (u_username u) p d
    = (inr (MkUser (u_id u) (u_username u) (u_role u)), d', [Compared (u_password_hash u)])
    /\ with_failures 0 None u ∈ users d'
    /\ (forall v, v ∈ users d -> v <> u -> v ∈ users d')
    /\ set_users d' [] = set_users d [].
Proof.
  intros Hd Ho Hu Ht Hl Hv. rewrite Authenticate_right by done. eexists. split; [done|].
  split; [|split; [|done]].
  - apply (elem_of_update_user d (u_id u)
      (fun u => UserRow (u_id u) (u_username u) (u_password_hash u) (u_role u) 0 None (u_override_role_access u)));
      done.
  - intros v Hin Hne. simpl. apply list_elem_of_In, in_map_iff. exists v.
    split; [|by apply list_elem_of_In]. rewrite bool_decide_false; [done|].
    intros Hid. destruct Hne. eapply (NoDup_map_inj u_id); [apply Hd|done..].
Qed.

(** ** Witnesses *)

(** A stand-in for bcrypt: the hash of a password is the password after an "h". *)
Definition demo_bcrypt : Bcrypt :=
  {| bcrypt_matches hash password := bool_decide (hash = §"h" ++ password);
     bcrypt_generate _ password _ := inr (§"h" ++ password) |}.

(** The defaults with a threshold of two. *)
Definition demo_config : Config :=
  MkConfig §"0.0.0.0:2222" §"0.0.0.0:8080" §"0.0.0.0:9090" §"127.0.0.1" [] [] §"postgres://" 50 10
    §"http://localhost:8200" [] [] [] false 2 (15 * Minute) 10 §"/var/log/zttp/audit" 95 (30 * Second) 3
    §"https://soc.example/hook".

Definition demo_clocks (t : Z) : clocks := Clocks t t t.
Definition demo_jdoe : user_row := UserRow §"u-jdoe" §"jdoe" §"h1" §"sre-tier1" 0 None false.
Definition demo_locked (x : Z) : database :=
  set_users demo_db (UserRow §"u-jdoe" §"jdoe" §"h1" §"sre-tier1" 2 (Some x) false :: tail (users demo_db)).

Lemma Authenticate_sound_witness :
  exists u, u ∈ users demo_db /\ u_username u = §"jdoe"
    /\ bcrypt_matches (Bcrypt := demo_bcrypt) (u_password_hash u) §"1" = true.
Proof.
  destruct (Authenticate_sound (PG := demo_postgres) (BC := demo_bcrypt) demo_config (demo_clocks 0)
    §"jdoe" §"1" demo_db (MkUser §"u-jdoe" §"jdoe" §"sre-tier1") (reset_attempts §"u-jdoe" demo_db).2
    [Compared §"h1"]) as (u & Hu & Hn & Hb & _); [vm_compute; reflexivity|].
  exists u. repeat split; assumption.
Defined.

Lemma unknown_user_like_wrong_password_witness :
  exists d1 ev1 d2 ev2,
    Authenticate (PG := demo_postgres) (BC := demo_bcrypt) demo_config (demo_clocks 0) §"mallory" §"x" demo_db
    = (inl ErrAuthentication, d1, ev1)
    /\ Authenticate (PG := demo_postgres) (BC := demo_bcrypt) demo_config (demo_clocks 5) §"jdoe" §"x" demo_db
       = (inl ErrAuthentication, d2, ev2)
    /\ comparisons ev1 = 1%nat /\ comparisons ev2 = 1%nat.
Proof.
  apply (unknown_user_like_wrong_password (PG := demo_postgres) (BC := demo_bcrypt)
           demo_config _ _ _ §"mallory" demo_jdoe); try reflexivity.
  - exact demo_db_ok.
  - apply (bool_decide_unpack _). vm_compute. exact I.
  - left.
Defined.

Lemma lockout_after_threshold_witness :
  exists d',
    attempts (PG := demo_postgres) (BC := demo_bcrypt) demo_config §"jdoe"
      [(demo_clocks 0, §"a"); (demo_clocks 7, §"b")] demo_db
    = ([inl ErrAuthentication; inl ErrAuthentication], d')
    /\ Authenticate (PG := demo_postgres) (BC := demo_bcrypt) demo_config (demo_clocks 60) §"jdoe" §"1" d'
       = (inl ErrAccountLocked, d', []).
Proof.
  destruct (lockout_after_threshold (PG := demo_postgres) (BC := demo_bcrypt) demo_config demo_db demo_jdoe
    [(demo_clocks 0, §"a")] (demo_clocks 7) §"b" (demo_clocks 60) §"1") as (d' & Ha & _ & Hl);
    try reflexivity.
  - exact demo_db_ok.
  - left.
  - repeat constructor.
  - exists d'. split; [exact Ha|]. apply Hl. reflexivity.
Defined.

Lemma no_second_lockout_witness :
  exists d' d'',
    attempts (PG := demo_postgres) (BC := demo_bcrypt) demo_config §"jdoe"
      (replicate 20 (demo_clocks 900, §"guess")) (demo_locked 900)
    = (replicate 20 (inl ErrAuthentication), d')
    /\ (Authenticate (PG := demo_postgres) (BC := demo_bcrypt) demo_config (demo_clocks 901) §"jdoe" §"1" d')
       = (inr (MkUser §"u-jdoe" §"jdoe" §"sre-tier1"), d'', [Compared §"h1"]).
Proof.
  destruct (no_second_lockout (PG := demo_postgres) (BC := demo_bcrypt) demo_config (demo_locked 900)
    (UserRow §"u-jdoe" §"jdoe" §"h1" §"sre-tier1" 2 (Some 900) false)
    (replicate 20 (demo_clocks 900, §"guess")) 900 (demo_clocks 901) §"1") as (d' & d'' & Ha & _ & Hs);
    try reflexivity.
  - constructor; simpl; try (apply (bool_decide_unpack _); vm_compute; exact I).
  - left.
  - discriminate.
  - apply Forall_replicate. split; [reflexivity|discriminate].
  - discriminate.
  - exists d', d''. split; [exact Ha|exact Hs].
Defined.

Lemma success_resets_witness :
  exists d',
    (Authenticate (PG := demo_postgres) (BC := demo_bcrypt) demo_config (demo_clocks 901) §"jdoe" §"1" demo_db).1.2 = d'
    /\ demo_jdoe ∈ users d'.
Proof.
  destruct (success_resets (PG := demo_postgres) (BC := demo_bcrypt) demo_config (demo_clocks 901) demo_db
    demo_jdoe §"1") as (d' & Ha & Hu & _); try reflexivity.
  - exact demo_db_ok.
  - left.
  - exists d'. split; [|exact Hu]. change §"jdoe" with (u_username demo_jdoe). rewrite Ha. reflexivity.
Defined.

(** The alert of a locked account. *)
Example alert_example :
  alert_payload §"jdoe" 5 (1709210096 * Second) 0
  = §"{" ++ DQ ++ §"attempts" ++ DQ ++ §":5," ++ DQ ++ §"event" ++ DQ ++ §":" ++ DQ ++ §"account_locked" ++ DQ
    ++ §"," ++ DQ ++ §"locked_until" ++ DQ ++ §":" ++ DQ ++ §"2024-02-29T12:34:56Z" ++ DQ
    ++ §"," ++ DQ ++ §"severity" ++ DQ ++ §":" ++ DQ ++ §"high" ++ DQ
    ++ §"," ++ DQ ++ §"timestamp" ++ DQ ++ §":" ++ DQ ++ §"1970-01-01T00:00:00Z" ++ DQ
    ++ §"," ++ DQ ++ §"username" ++ DQ ++ §":" ++ DQ ++ §"jdoe" ++ DQ ++ §"}".
Proof. vm_compute. reflexivity. Qed.
