(* ===== verification/AuthRace.v ===== *)
(** * Authentication under concurrency: [internal/auth/auth.go]

    [Authenticate] asks the database twice: for the user's row, and to count a failure or
    to reset the count.  Between the two the same is done for other connections.  A call
    is split there, [look] and [finish]; a list of such halves is any interleaving of any
    number of calls.  The source's comments promise that counting in one UPDATE leaves no
    race: no failure is lost, and how many guesses the lockout then lets through is
    bounded by the number of calls that are under way at once. *)

From S2P Require Import Prelude GoStr GoTime Json Config Db Rbac Auth.
From stdpp Require Import options.
Open Scope Z_scope.

(** ** Calls in halves *)

(** After the SELECT and what is decided on its answer: the password was wrong, it was
    right, or the call is over. *)
Inductive phase := Failing (u : user_row) | Verified (u : user_row) | Answered (r : res User).

Record call := Call { c_name : str; c_phase : phase; c_events : list auth_event }.

Record race := Race { calls : list call; tables : database }.

(** A new call up to the comparison, or the rest of the call with the given number. *)
Inductive race_act := Look (now : Z) (username password : str) | Finish (i : nat) (t : clocks).

Section race.
Context {PG : Postgres} {BC : Bcrypt}.
Variable cfg : Config.

Definition look (now : Z) (username password : str) (d : database) : phase * database * list auth_event :=
  let '(r, d) := run (fun d => (user_query username d, d)) d in
  match r with
  | inl err =>
      if decide (err = ErrNoRows) then (Answered (inl ErrAuthentication), d, [Compared dummyHash])
      else (Answered (inl (ErrWrap §"auth db query" err)), d, [])
  | inr u =>
      if locked_at now (u_locked_until u) then (Answered (inl ErrAccountLocked), d, []) else
      if negb (VerifyPassword password (u_password_hash u)) then (Failing u, d, [Compared (u_password_hash u)])
      else (Verified u, d, [Compared (u_password_hash u)])
  end.

Definition finish (t : clocks) (username : str) (ph : phase) (d : database) : res User * database * list auth_event :=
  match ph with
  | Failing u =>
      let '(inc, d) := atomicIncrementAndMaybeLock cfg t (u_id u) d in
      match inc with
      | inr (Some lockUntil) => (inl ErrAuthentication, d, [Alert username (MaxFailedAttempts cfg) lockUntil])
      | _ => (inl ErrAuthentication, d, [])
      end
  | Verified u =>
      let '(_, d) := run (reset_attempts (u_id u)) d in
      (inr (MkUser (u_id u) username (u_role u)), d, [])
  | Answered r => (r, d, [])
  end.

Definition race_step (s : race) (a : race_act) : option race :=
  match a with
  | Look now username password =>
      let '(ph, d, evs) := look now username password (tables s) in
      Some (Race (calls s ++ [Call username ph evs]) d)
  | Finish i t =>
      c ← calls s !! i;
      match c_phase c with
      | Answered _ => None
      | ph =>
          let '(r, d, evs) := finish t (c_name c) ph (tables s) in
          Some (Race (<[i := Call (c_name c) (Answered r) (c_events c ++ evs)]> (calls s)) d)
      end
  end.

Fixpoint race_run (s : race) (acts : list race_act) : option race :=
  match acts with
  | [] => Some s
  | a :: acts => s' ← race_step s a; race_run s' acts
  end.

(** ** What is counted *)

Definition count {A} (f : A -> bool) (l : list A) : Z := zlen (List.filter f l).

Definition answered (c : call) : bool := match c_phase c with Answered _ => true | _ => false end.

(** A call for this name whose password has been compared. *)
Definition guess (name : str) (c : call) : bool := bool_decide (c_name c = name) && negb (bool_decide (c_events c = [])).

Definition guesses (name : str) (s : race) : Z := count (guess name) (calls s).

(** Those of them that have been counted, and those that have not. *)
Definition failures (name : str) (s : race) : Z := count (fun c => guess name c && answered c) (calls s).
Definition in_flight (name : str) (s : race) : Z := count (fun c => guess name c && negb (answered c)) (calls s).

(** The most that are in flight at any moment of a run. *)
Fixpoint peak (name : str) (s : race) (acts : list race_act) : Z :=
  Z.max (in_flight name s)
    match acts with
    | [] => 0
    | a :: acts => match race_step s a with Some s' => peak name s' acts | None => 0 end
    end.
End race.

(** ** Lemmas *)

Section counting.
Context {A : Type}.
Implicit Types (f g : A -> bool) (l : list A).

Lemma count_app f l l' : count f (l ++ l') = count f l + count f l'.
Proof. unfold count. by rewrite List.filter_app, zlen_app. Qed.

Lemma count_one f x : count f [x] = if f x then 1 else 0.
Proof. unfold count. simpl. by destruct (f x). Qed.

Lemma count_insert f l i x y :
  l !! i = Some x -> count f (<[i := y]> l) = count f l - (if f x then 1 else 0) + (if f y then 1 else 0).
Proof.
  intros H. rewrite (insert_take_drop l i y) by (by eapply lookup_lt_Some).
  rewrite <- (take_drop_middle l i x H) at 3. change (?z :: ?k) with ([z] ++ k). rewrite !count_app, !count_one. lia.
Qed.

Lemma count_split f g l : count f l = count (fun x => f x && g x) l + count (fun x => f x && negb (g x)) l.
Proof.
  induction l as [|x l IH]; [done|]. change (x :: l) with ([x] ++ l). rewrite !count_app, !count_one, IH.
  destruct (f x), (g x); simpl; lia.
Qed.

Lemma count_nonneg f l : 0 <= count f l.
Proof. apply zlen_nonneg. Qed.
End counting.

Section lemmas.
Context {PG : Postgres} {BC : Bcrypt}.
Variable cfg : Config.

(** One call at a time, the two halves are the call. *)
Lemma Authenticate_halves t username password d :
  Authenticate cfg t username password d
  = let '(ph, d, evs) := look (at_check t) username password d in
    let '(r, d, evs') := finish cfg t username ph d in (r, d, evs ++ evs').
Proof.
  unfold Authenticate, look. destruct (run _ d) as [[err|u] d1]; [by case_decide|].
  destruct (locked_at _ _); [done|]. destruct (VerifyPassword _ _); cbn [negb finish].
  - by destruct (run _ d1).
  - by destruct (atomicIncrementAndMaybeLock _ _ _ d1) as [[?|[?|]] ?].
Qed.

(** *** One half *)

Lemma update_user_other d id f w : w ∈ users d -> u_id w <> id -> w ∈ users (update_user id f d).
Proof.
  intros Hw Hne. simpl. apply list_elem_of_In, in_map_iff. exists w.
  split; [by rewrite bool_decide_false|by apply list_elem_of_In].
Qed.

Lemma same_id_same_row d v w : db_ok d -> v ∈ users d -> w ∈ users d -> u_id v = u_id w -> v = w.
Proof. intros Hd. apply NoDup_map_inj, Hd. Qed.

Lemma user_query_row username d v : user_query username d = inr v -> v ∈ users d /\ u_username v = username.
Proof.
  unfold user_query. destruct (negb _); [done|]. destruct (filter _ _) as [|w l] eqn:Hf; [done|]. intros [= ->].
  assert (v ∈ filter (fun u => u_username u = username) (users d)) as [??]%list_elem_of_filter by (rewrite Hf; left).
  done.
Qed.

(** Statements on other rows leave a row alone. *)
Lemma increment_other t id d w :
  db_ok d -> outcomes d = [] -> w ∈ users d -> u_id w <> id ->
  let d' := (atomicIncrementAndMaybeLock cfg t id d).2 in db_ok d' /\ outcomes d' = [] /\ w ∈ users d'.
Proof.
  intros Hd Ho Hw Hne. cbv zeta. unfold atomicIncrementAndMaybeLock. rewrite run_done by done.
  pose proof (increment_attempts_ok (MaxFailedAttempts cfg) (whole_seconds (LockoutDuration cfg)) (at_update t) id d Hd) as Hd'.
  assert (outcomes (increment_attempts (MaxFailedAttempts cfg) (whole_seconds (LockoutDuration cfg)) (at_update t) id d).2 = []
    /\ w ∈ users (increment_attempts (MaxFailedAttempts cfg) (whole_seconds (LockoutDuration cfg)) (at_update t) id d).2) as [Ho' Hw'].
  { unfold increment_attempts. repeat (case_match; [done|]). split; [done|]. by apply update_user_other. }
  destruct (increment_attempts _ _ _ _ _) as [[err|[n l]] d']; [done|]. by destruct (locked_at _ _).
Qed.

Lemma increment_own t d w :
  db_ok d -> outcomes d = [] -> w ∈ users d -> int4 (MaxFailedAttempts cfg) = true -> u_failed_attempts w < 2147483647 ->
  let d' := (atomicIncrementAndMaybeLock cfg t (u_id w) d).2 in
  db_ok d' /\ outcomes d' = []
  /\ count_failure (MaxFailedAttempts cfg) (whole_seconds (LockoutDuration cfg)) (at_update t) w ∈ users d'.
Proof.
  intros Hd Ho Hw Hm Hn. cbv zeta. split.
  - unfold atomicIncrementAndMaybeLock. rewrite run_done by done.
    pose proof (increment_attempts_ok (MaxFailedAttempts cfg) (whole_seconds (LockoutDuration cfg)) (at_update t) (u_id w) d Hd) as Hd'.
    destruct (increment_attempts _ _ _ _ _) as [[err|[n l]] d']; [done|]. by destruct (locked_at _ _).
  - rewrite increment_hit by done. split; [done|]. by apply elem_of_update_user.
Qed.

(** A call that ends touches its own user's row only, and a failing one is refused. *)
Lemma finish_failing t username v d :
  exists evs, finish cfg t username (Failing v) d
              = (inl ErrAuthentication, (atomicIncrementAndMaybeLock cfg t (u_id v) d).2, evs).
Proof. cbn [finish]. destruct (atomicIncrementAndMaybeLock _ _ _ d) as [[?|[?|]] ?]; by eexists. Qed.

Lemma finish_verified t username v d :
  finish cfg t username (Verified v) d = (inr (MkUser (u_id v) username (u_role v)), (run (reset_attempts (u_id v)) d).2, []).
Proof. cbn [finish]. by destruct (run _ d). Qed.

Lemma reset_other id d w :
  db_ok d -> outcomes d = [] -> w ∈ users d -> u_id w <> id ->
  let d' := (run (reset_attempts id) d).2 in db_ok d' /\ outcomes d' = [] /\ w ∈ users d'.
Proof.
  intros Hd Ho Hw Hne. cbv zeta. rewrite run_done by done. split; [|split; [done|by apply update_user_other]].
  cbn [reset_attempts snd]. apply update_user_ok; [done..|]. cbn. lia.
Qed.
End lemmas.

(** *** Any number of halves *)

Section attack.
Context {PG : Postgres} {BC : Bcrypt}.
Variables (cfg : Config) (u : user_row).
(** What is known of the database's clock when a failure is counted. *)
Variable clock : Z -> Prop.

Definition lock_period : Z := whole_seconds (LockoutDuration cfg) * 1000000000.

(** Nobody knows the password of [u]. *)
Definition attack_act (a : race_act) : Prop :=
  match a with
  | Look _ username password => username = u_username u -> bcrypt_matches (u_password_hash u) password = false
  | Finish _ t => clock (at_update t)
  end.

Definition lock_ok (n : Z) (lock : option Z) : Prop :=
  match lock with
  | None => n < MaxFailedAttempts cfg
  | Some x => MaxFailedAttempts cfg <= n /\ exists y, clock y /\ x = y + lock_period
  end.

Definition call_ok (c : call) : Prop :=
  match c_phase c with
  | Failing v => c_events c <> [] /\ (c_name c = u_username u <-> u_id v = u_id u)
  | Verified v => c_events c <> [] /\ c_name c <> u_username u /\ u_id v <> u_id u
  | Answered r => c_name c = u_username u -> r = inl ErrAuthentication \/ r = inl ErrAccountLocked
  end.

Record race_ok (s : race) : Prop := {
  rc_db : db_ok (tables s);
  rc_answers : outcomes (tables s) = [];
  rc_row : exists lock, lock_ok (u_failed_attempts u + failures (u_username u) s) lock
             /\ with_failures (u_failed_attempts u + failures (u_username u) s) lock u ∈ users (tables s);
  rc_calls : Forall call_ok (calls s);
}.

(** What a call for the name [u] has looks up and decides. *)
Lemma look_own now password d n lock :
  db_ok d -> outcomes d = [] -> text_ok (u_username u) = true -> with_failures n lock u ∈ users d ->
  bcrypt_matches (u_password_hash u) password = false ->
  look now (u_username u) password d
  = if locked_at now lock then (Answered (inl ErrAccountLocked), d, [])
    else (Failing (with_failures n lock u), d, [Compared (u_password_hash u)]).
Proof.
  intros Hd Ho Ht Hu Hp. unfold look. rewrite run_done by done.
  rewrite (user_query_hit d (with_failures n lock u)) by done. cbn [with_failures u_locked_until u_password_hash].
  destruct (locked_at now lock); [done|]. unfold VerifyPassword. by rewrite Hp.
Qed.

Lemma look_other now username password d w :
  db_ok d -> outcomes d = [] -> w ∈ users d -> u_id w = u_id u -> u_username w = u_username u -> username <> u_username u ->
  exists ph evs, look now username password d = (ph, d, evs) /\ call_ok (Call username ph evs).
Proof.
  intros Hd Ho Hw Hid Hn Hne. unfold look. rewrite run_done by done.
  destruct (user_query username d) as [err|v] eqn:Hq.
  { case_decide; eexists _, _; (split; [done|]); by intros ?. }
  apply user_query_row in Hq as [Hv Hvn].
  assert (u_id v <> u_id u) as Hvu.
  { rewrite <- Hid. intros Hs. apply (same_id_same_row d v w) in Hs; [|done..]. congruence. }
  destruct (locked_at _ _); [eexists _, _; split; [done|]; by intros ?|].
  destruct (VerifyPassword _ _); eexists _, _; (split; [done|]); by repeat split.
Qed.

Lemma guess_unheard name username ph b : guess name (Call username ph []) && b = false.
Proof. unfold guess. cbn [c_events]. rewrite (bool_decide_true ([] = [])) by done. by rewrite andb_false_r. Qed.

Lemma failures_look s c : guess (u_username u) c && answered c = false ->
  forall d, failures (u_username u) (Race (calls s ++ [c]) d) = failures (u_username u) s.
Proof. intros Hc d. unfold failures. cbn [calls]. rewrite count_app, count_one, Hc. lia. Qed.

Lemma count_failure_lock now n lock :
  clock now -> lock_ok n lock ->
  exists lock', lock_ok (n + 1) lock'
    /\ count_failure (MaxFailedAttempts cfg) (whole_seconds (LockoutDuration cfg)) now (with_failures n lock u) = with_failures (n + 1) lock' u.
Proof.
  intros Hc Hl. unfold count_failure, with_failures. cbn [u_id u_username u_password_hash u_role u_failed_attempts u_locked_until u_override_role_access].
  eexists. split; [|reflexivity]. destruct lock as [x|]; cbn [lock_ok] in *.
  - rewrite bool_decide_false, andb_false_r by done. cbn. split; [lia|tauto].
  - rewrite bool_decide_true, andb_true_r by done. destruct (Z.leb_spec (MaxFailedAttempts cfg) (n + 1)); cbn; [|lia].
    split; [lia|]. by exists now.
Qed.

Lemma failures_finish s i c ph evs d :
  calls s !! i = Some c -> answered c = false -> c_events c <> [] ->
  failures (u_username u) (Race (<[i := Call (c_name c) (Answered ph) (c_events c ++ evs)]> (calls s)) d)
  = failures (u_username u) s + (if bool_decide (c_name c = u_username u) then 1 else 0).
Proof.
  intros Hi Ha He. unfold failures. cbn [calls]. rewrite (count_insert _ _ _ c) by done. unfold guess. rewrite Ha.
  cbn [c_name c_events answered c_phase]. rewrite (bool_decide_false (c_events c ++ evs = [])) by (by intros [? _]%app_eq_nil).
  rewrite !andb_false_r. cbn [negb]. rewrite !andb_true_r. case_bool_decide; lia.
Qed.

Lemma race_step_ok s a s' :
  text_ok (u_username u) = true -> int4 (MaxFailedAttempts cfg) = true ->
  race_ok s -> attack_act a -> u_failed_attempts u + failures (u_username u) s < 2147483647 ->
  race_step cfg s a = Some s' -> race_ok s'.
Proof.
  intros Ht Hm [Hd Ho (lock & Hlock & Hrow) Hc] Ha Hn. destruct a as [now username password|i t]; cbn [race_step].
  - destruct (decide (username = u_username u)) as [->|Hne].
    + rewrite (look_own now password (tables s) (u_failed_attempts u + failures (u_username u) s) lock); [|done..|by apply Ha].
      destruct (locked_at now lock); intros [= <-]; (constructor; cbn [tables calls]; [done|done| |]).
      * exists lock. by rewrite failures_look by apply guess_unheard.
      * apply Forall_app. split; [done|]. apply Forall_singleton. intros _. by right.
      * exists lock. by rewrite failures_look by (cbn [answered c_phase]; apply andb_false_r).
      * apply Forall_app. split; [done|]. apply Forall_singleton. by split.
    + destruct (look_other now username password (tables s) _ Hd Ho Hrow eq_refl eq_refl Hne) as (ph & evs & -> & Hcall).
      intros [= <-]. constructor; cbn [tables calls]; [done|done| |by apply Forall_app; split; [|apply Forall_singleton]].
      exists lock. rewrite failures_look; [done|]. unfold guess. cbn [c_name]. by rewrite bool_decide_false.
  - destruct (calls s !! i) as [c|] eqn:Hi; [|done]. cbn [mbind option_bind].
    pose proof (Forall_lookup_1 _ _ _ _ Hc Hi) as Hok. unfold call_ok in Hok.
    assert (forall r d evs, c_events c <> [] -> answered c = false -> db_ok d -> outcomes d = [] ->
      (c_name c = u_username u -> r = inl ErrAuthentication) ->
      (exists lock', lock_ok (u_failed_attempts u + failures (u_username u) s + (if bool_decide (c_name c = u_username u) then 1 else 0)) lock'
        /\ with_failures (u_failed_attempts u + failures (u_username u) s + (if bool_decide (c_name c = u_username u) then 1 else 0)) lock' u ∈ users d) ->
      race_ok (Race (<[i := Call (c_name c) (Answered r) (c_events c ++ evs)]> (calls s)) d)) as Hgo.
    { intros r d evs He Hans Hd' Ho' Hr Hl. constructor; cbn [tables calls]; [done|done| |].
      - by rewrite failures_finish, Z.add_assoc by done.
      - apply Forall_insert; [done|]. intros Hname. left. by apply Hr. }
    destruct (c_phase c) as [v|v|r] eqn:Hp; [| |done].
    + destruct (finish_failing cfg t (c_name c) v (tables s)) as (evs & ->). intros [= <-].
      destruct Hok as [He Hid]. destruct (decide (c_name c = u_username u)) as [Hname|Hname].
      * destruct (increment_own cfg t (tables s) _ Hd Ho Hrow Hm ltac:(done)) as (Hd' & Ho' & Hu').
        cbn [with_failures u_id] in *. apply Hid in Hname as Hidv. rewrite Hidv.
        destruct (count_failure_lock (at_update t) _ lock Ha Hlock) as (lock' & Hlock' & E). rewrite E in Hu'.
        apply Hgo; [done|by unfold answered; rewrite Hp|done..|]. rewrite bool_decide_true by done. by exists lock'.
      * destruct (increment_other cfg t (u_id v) (tables s) _ Hd Ho Hrow) as (Hd' & Ho' & Hu').
        { cbn. intros E. apply Hname, Hid. done. }
        apply Hgo; [done|by unfold answered; rewrite Hp|done..|]. rewrite bool_decide_false, Z.add_0_r by done. by exists lock.
    + rewrite finish_verified. intros [= <-]. destruct Hok as (He & Hname & Hid).
      destruct (reset_other (u_id v) (tables s) _ Hd Ho Hrow) as (Hd' & Ho' & Hu'); [by cbn; congruence|].
      apply Hgo; [done|by unfold answered; rewrite Hp|done..|]. rewrite bool_decide_false, Z.add_0_r by done. by exists lock.
Qed.

Lemma start_ok d :
  db_ok d -> outcomes d = [] -> u ∈ users d -> u_locked_until u = None -> u_failed_attempts u < MaxFailedAttempts cfg ->
  race_ok (Race [] d).
Proof.
  intros Hd Ho Hu Hl Hn. constructor; [done|done| |constructor]. exists None.
  change (failures _ _) with 0. rewrite Z.add_0_r, <- Hl, with_failures_id. split; [by rewrite Hl|done].
Qed.

Lemma calls_grow s a s' : race_step cfg s a = Some s' -> zlen (calls s') <= zlen (calls s) + 1.
Proof.
  destruct a as [now username password|i t]; cbn [race_step].
  - destruct (look _ _ _ _) as [[ph d] evs]. intros [= <-]. cbn [calls]. rewrite zlen_app. change (zlen [_]) with 1. lia.
  - destruct (calls s !! i) as [c|] eqn:Hi; [|done]. cbn [mbind option_bind].
    destruct (c_phase c); [| |done]; destruct (finish _ _ _ _ _) as [[r d] evs]; intros [= <-];
      unfold zlen; cbn [calls]; rewrite length_insert; lia.
Qed.

Lemma failures_le s : 0 <= failures (u_username u) s <= zlen (calls s).
Proof.
  unfold failures, count. split; [apply zlen_nonneg|]. unfold zlen.
  pose proof (List.filter_length_le (fun c => guess (u_username u) c && answered c) (calls s)). lia.
Qed.

Lemma race_run_ok acts s s' :
  text_ok (u_username u) = true -> int4 (MaxFailedAttempts cfg) = true ->
  race_ok s -> Forall attack_act acts -> u_failed_attempts u + zlen (calls s) + zlen acts < 2147483647 ->
  race_run cfg s acts = Some s' -> race_ok s'.
Proof.
  intros Ht Hm. revert s. induction acts as [|a acts IH]; intros s Hs Ha Hn; cbn [race_run]; [by intros [= <-]|].
  apply Forall_cons in Ha as [Ha Has]. rewrite zlen_cons in Hn. pose proof (zlen_nonneg acts).
  destruct (race_step cfg s a) as [s1|] eqn:H1; [|done]. cbn [mbind option_bind].
  apply calls_grow in H1 as Hg. pose proof (failures_le s). apply IH; [|done|lia].
  eapply race_step_ok; [done..|lia|exact H1].
Qed.

(** A guess is made while the lock is off. *)
Lemma guesses_step s a s' :
  text_ok (u_username u) = true -> race_ok s -> attack_act a -> race_step cfg s a = Some s' ->
  (forall now username password y, a = Look now username password -> clock y -> now < y + lock_period) ->
  guesses (u_username u) s' <= guesses (u_username u) s
  \/ u_failed_attempts u + failures (u_username u) s' < MaxFailedAttempts cfg.
Proof.
  intros Ht [Hd Ho (lock & Hlock & Hrow) Hc] Ha H1 Hw. destruct a as [now username password|i t]; cbn [race_step] in H1.
  - destruct (decide (username = u_username u)) as [->|Hne].
    + rewrite (look_own now password (tables s) (u_failed_attempts u + failures (u_username u) s) lock) in H1; [|done..|by apply Ha].
      destruct lock as [x|]; cbn [locked_at lock_ok] in *.
      * destruct Hlock as (_ & y & Hy & ->). specialize (Hw _ _ _ y eq_refl Hy).
        replace (now <? y + lock_period) with true in H1 by lia. injection H1 as <-. left.
        unfold guesses. cbn [calls]. rewrite count_app, count_one. unfold guess at 2. cbn [c_events].
        rewrite (bool_decide_true ([] = [])) by done. rewrite andb_false_r. lia.
      * injection H1 as <-. right. by rewrite failures_look by (cbn [answered c_phase]; apply andb_false_r).
    + left. destruct (look _ _ _ _) as [[ph d] evs]. injection H1 as <-. unfold guesses. cbn [calls].
      rewrite count_app, count_one. unfold guess at 2. cbn [c_name]. rewrite bool_decide_false by done. cbn. lia.
  - left. destruct (calls s !! i) as [c|] eqn:Hi; [|done]. cbn [mbind option_bind] in H1.
    pose proof (Forall_lookup_1 _ _ _ _ Hc Hi) as Hok. unfold call_ok in Hok.
    assert (c_events c <> [] -> forall r d evs, Some (Race (<[i := Call (c_name c) (Answered r) (c_events c ++ evs)]> (calls s)) d) = Some s' ->
      guesses (u_username u) s' <= guesses (u_username u) s) as Hgo.
    { intros He r d evs [= <-]. unfold guesses. cbn [calls]. rewrite (count_insert _ _ _ c) by done. unfold guess. cbn [c_name c_events].
      rewrite (bool_decide_false (c_events c ++ evs = [])) by (by intros [? _]%app_eq_nil). rewrite (bool_decide_false (c_events c = [])) by done. lia. }
    destruct (c_phase c); [| |done]; destruct (finish _ _ _ _ _) as [[r d] evs]; (eapply Hgo; [apply Hok|exact H1]).
Qed.

Lemma in_flight_split s : guesses (u_username u) s = failures (u_username u) s + in_flight (u_username u) s.
Proof. apply count_split. Qed.

Lemma guesses_run acts s s' most :
  text_ok (u_username u) = true -> int4 (MaxFailedAttempts cfg) = true ->
  race_ok s -> Forall attack_act acts -> u_failed_attempts u + zlen (calls s) + zlen acts < 2147483647 ->
  Forall (fun a => forall now username password y, a = Look now username password -> clock y -> now < y + lock_period) acts ->
  race_run cfg s acts = Some s' -> peak cfg (u_username u) s acts <= most ->
  guesses (u_username u) s <= MaxFailedAttempts cfg - u_failed_attempts u - 1 + most ->
  guesses (u_username u) s' <= MaxFailedAttempts cfg - u_failed_attempts u - 1 + most.
Proof.
  intros Ht Hm. revert s. induction acts as [|a acts IH]; intros s Hs Ha Hn Hw; cbn [race_run peak]; [by intros [= <-]|].
  apply Forall_cons in Ha as [Ha Has]. apply Forall_cons in Hw as [Hw Hws]. rewrite zlen_cons in Hn. pose proof (zlen_nonneg acts).
  destruct (race_step cfg s a) as [s1|] eqn:H1; [|done]. cbn [mbind option_bind]. intros Hr Hp Hg.
  apply calls_grow in H1 as Hgr. pose proof (failures_le s).
  assert (race_ok s1) as Hs1 by (eapply race_step_ok; [done..|lia|exact H1]).
  apply (IH s1); [done|done|lia|done|done|lia|].
  assert (in_flight (u_username u) s1 <= peak cfg (u_username u) s1 acts) by (destruct acts; cbn [peak]; lia).
  pose proof (in_flight_split s1). destruct (guesses_step s a s1) as [?|?]; [done..|lia|lia].
Qed.
End attack.

(** ** Properties *)

Section properties.
Context {PG : Postgres} {BC : Bcrypt}.
Variable cfg : Config.

(** C12.  No failure is lost.  However many calls run side by side, as long as nobody
    gives the right password of a user whose account is not locked: the count in his row
    is at every moment exactly the number of compared passwords whose calls have ended;
    the lock is off exactly while that is below the threshold and, once on, is the
    database's time at one of those endings plus the lockout; and every call for his name
    that has ended was refused. *)
Theorem no_failure_is_lost (acts : list race_act) (d : database) (u : user_row) (s : race)
    (Hd : db_ok d) (Ho : outcomes d = []) (Hu : u ∈ users d) (Ht : text_ok (u_username u) = true)
    (Hm : int4 (MaxFailedAttempts cfg) = true) (Hl : u_locked_until u = None)
    (Hn : u_failed_attempts u < MaxFailedAttempts cfg) (Hf : u_failed_attempts u + zlen acts < 2147483647)
    (Hw : forall now p, Look now (u_username u) p ∈ acts -> bcrypt_matches (u_password_hash u) p = false)
    (Hr : race_run cfg (Race [] d) acts = Some s) :
  (exists lock, with_failures (u_failed_attempts u + failures (u_username u) s) lock u ∈ users (tables s)
     /\ match lock with
        | None => u_failed_attempts u + failures (u_username u) s < MaxFailedAttempts cfg
        | Some x => MaxFailedAttempts cfg <= u_failed_attempts u + failures (u_username u) s
                    /\ exists i t, Finish i t ∈ acts /\ x = at_update t + whole_seconds (LockoutDuration cfg) * Second
        end)
  /\ forall c r, c ∈ calls s -> c_name c = u_username u -> c_phase c = Answered r ->
       r = inl ErrAuthentication \/ r = inl ErrAccountLocked.
Proof.
  set (clock y := exists i t, Finish i t ∈ acts /\ y = at_update t).
  assert (race_ok cfg u clock s) as [_ _ (lock & Hlock & Hrow) Hc].
  { eapply race_run_ok; [done|done|by apply start_ok| | |exact Hr].
    - apply Forall_forall. intros [now n p|i t] Ha; cbn [attack_act]; [intros ->; by eapply Hw|by exists i, t].
    - cbn [calls]. change (zlen []) with 0. lia. }
  split.
  - exists lock. split; [done|]. destruct lock as [x|]; [|done]. destruct Hlock as (? & y & (i & t & Hi & ->) & ->).
    split; [done|]. by exists i, t.
  - intros c r Hin Hname Hp. rewrite Forall_forall in Hc. specialize (Hc c Hin). unfold call_ok in Hc. rewrite Hp in Hc. auto.
Qed.

(** C13.  How many guesses the lockout lets through.  Within one lockout period of the
    first failure counted, however calls are interleaved, at most as many passwords are
    compared for a user as were left to the threshold, plus the calls in flight at once
    less one: the last of these look at the row before the lock is written. *)
Theorem guesses_are_bounded (acts : list race_act) (d : database) (u : user_row) (s : race) (first : Z)
    (Hd : db_ok d) (Ho : outcomes d = []) (Hu : u ∈ users d) (Ht : text_ok (u_username u) = true)
    (Hm : int4 (MaxFailedAttempts cfg) = true) (Hl : u_locked_until u = None)
    (Hn : u_failed_attempts u < MaxFailedAttempts cfg) (Hf : u_failed_attempts u + zlen acts < 2147483647)
    (Hw : forall now p, Look now (u_username u) p ∈ acts -> bcrypt_matches (u_password_hash u) p = false)
    (Hfirst : forall i t, Finish i t ∈ acts -> first <= at_update t)
    (Hperiod : forall now n p, Look now n p ∈ acts -> now < first + whole_seconds (LockoutDuration cfg) * Second)
    (Hr : race_run cfg (Race [] d) acts = Some s) :
  guesses (u_username u) s
  <= MaxFailedAttempts cfg - u_failed_attempts u + peak cfg (u_username u) (Race [] d) acts - 1.
Proof.
  enough (guesses (u_username u) s <= MaxFailedAttempts cfg - u_failed_attempts u - 1 + peak cfg (u_username u) (Race [] d) acts) by lia.
  eapply (guesses_run cfg u (fun y => first <= y) acts (Race [] d)); [done|done|by apply start_ok|..|exact Hr|done|].
  - apply Forall_forall. intros [now n p|i t] Ha; cbn [attack_act]; [intros ->; by eapply Hw|by eapply Hfirst].
  - cbn [calls]. change (zlen []) with 0. lia.
  - apply Forall_forall. intros a Ha now n p y -> Hy. apply Hperiod in Ha. unfold lock_period. change Second with 1000000000 in Ha. lia.
  - pose proof (count_nonneg (fun c => guess (u_username u) c && negb (answered c)) (calls (Race [] d))).
    assert (0 <= peak cfg (u_username u) (Race [] d) acts) by (destruct acts; cbn [peak]; unfold in_flight; lia).
    unfold guesses. cbn [calls]. change (count (guess (u_username u)) []) with 0. lia.
Qed.
End properties.

(** ** Witnesses *)

(** With a threshold of two: one failure, then five calls side by side, and one more
    after the lock has been written. *)
Definition demo_volley (last after : str) : list race_act :=
  [Look 0 §"jdoe" §"a"; Finish 0 (demo_clocks 1);
   Look 2 §"jdoe" §"b"; Look 2 §"jdoe" §"c"; Look 2 §"jdoe" §"d"; Look 2 §"jdoe" §"e"; Look 2 §"jdoe" last;
   Finish 1 (demo_clocks 3); Look 4 §"jdoe" after; Finish 2 (demo_clocks 5); Finish 3 (demo_clocks 6); Finish 4 (demo_clocks 7);
   Finish 5 (demo_clocks 8)].

Definition demo_race (last after : str) : race :=
  default (Race [] demo_db) (race_run (PG := demo_postgres) (BC := demo_bcrypt) demo_config (Race [] demo_db) (demo_volley last after)).

Lemma demo_race_run last after :
  match race_run (PG := demo_postgres) (BC := demo_bcrypt) demo_config (Race [] demo_db) (demo_volley last after) with Some _ => true | None => false end = true ->
  race_run (PG := demo_postgres) (BC := demo_bcrypt) demo_config (Race [] demo_db) (demo_volley last after) = Some (demo_race last after).
Proof. unfold demo_race. by destruct (race_run _ _ _). Qed.

Ltac volley_act H :=
  apply list_elem_of_In in H; unfold demo_volley in H; cbn [In] in H;
  repeat (destruct H as [H|H]; [first [discriminate H | injection H; intros; subst; vm_compute; reflexivity | injection H; intros; subst; vm_compute; discriminate]|]);
  destruct H.

Lemma no_failure_is_lost_witness :
  failures §"jdoe" (demo_race §"f" §"g") = 6
  /\ exists lock, with_failures 6 lock demo_jdoe ∈ users (tables (demo_race §"f" §"g")).
Proof.
  split; [vm_compute; reflexivity|].
  destruct (no_failure_is_lost (PG := demo_postgres) (BC := demo_bcrypt) demo_config (demo_volley §"f" §"g") demo_db demo_jdoe
    (demo_race §"f" §"g") demo_db_ok eq_refl ltac:(left) eq_refl eq_refl eq_refl eq_refl eq_refl
    ltac:(intros now p H; volley_act H) ltac:(apply demo_race_run; vm_compute; reflexivity)) as [(lock & Hrow & _) _].
  assert (failures (u_username demo_jdoe) (demo_race §"f" §"g") = 6) as E by (vm_compute; reflexivity).
  rewrite E in Hrow. exists lock. exact Hrow.
Defined.

(** The bound is met. *)
Lemma guesses_are_bounded_witness :
  guesses §"jdoe" (demo_race §"f" §"g") = 6
  /\ guesses §"jdoe" (demo_race §"f" §"g") <= 2 - 0 + 5 - 1.
Proof.
  split; [vm_compute; reflexivity|].
  assert (peak (PG := demo_postgres) (BC := demo_bcrypt) demo_config §"jdoe" (Race [] demo_db) (demo_volley §"f" §"g") = 5) as E
    by (vm_compute; reflexivity).
  rewrite <- E.
  apply (guesses_are_bounded (PG := demo_postgres) (BC := demo_bcrypt) demo_config (demo_volley §"f" §"g") demo_db demo_jdoe
    (demo_race §"f" §"g") 1).
  - exact demo_db_ok.
  - reflexivity.
  - left.
  - reflexivity.
  - reflexivity.
  - reflexivity.
  - reflexivity.
  - reflexivity.
  - intros now p Ha. volley_act Ha.
  - intros i t Ha. volley_act Ha.
  - intros now n p Ha. volley_act Ha.
  - apply demo_race_run. vm_compute. reflexivity.
Defined.

(** A right guess that was in flight when the account was locked succeeds after it, and
    takes the lock off again; one that comes after the lock is refused. *)
Example late_guess_unlocks :
  let s := demo_race §"1" §"1" in
  map c_phase (drop 5 (calls s))
  = [Answered (inr (MkUser §"u-jdoe" §"jdoe" §"sre-tier1")); Answered (inl ErrAccountLocked)]
  /\ u_locked_until <$> head (users (tables s)) = Some None.
Proof. vm_compute. split; reflexivity. Qed.

(** Every failure counted while the lock is on sends an alert of its own. *)
Example alerts_repeat :
  count (fun e => match e with Alert _ _ _ => true | Compared _ => false end)
    (concat (map c_events (calls (demo_race §"f" §"g")))) = 5.
Proof. vm_compute. reflexivity. Qed.
