(* ===== verification/RateLimit.v ===== *)
(** * Rate limiting: [internal/ratelimit/ratelimit.go] and [internal/proxy/ratelimit.go]

    The per-address limiter with its maps and its cleanup, and the reader and writer
    that throttle a stream.  The token bucket of golang.org/x/time/rate is an
    interface with the laws the code relies on; a concrete bucket implements it. *)

From S2P Require Import Prelude GoStr GoTime Net Io.
From stdpp Require Import options.
Open Scope Z_scope.

(** ** The token bucket, as an interface *)

(** A rate of [tokens] per [seconds]. *)
Record limit := Limit { tokens : Z; seconds : Z }.

Class TokenBucket := {
  bucket : Type;
  new_bucket : limit -> Z -> bucket;
  (** [Allow] at a given time. *)
  allow : bucket -> Z -> bool * bucket;
  (** [WaitN(context.Background(), n)] called at a given time: its error. *)
  wait_n : bucket -> Z -> Z -> option error * bucket;
}.

(** What the documentation of the package promises: a bucket that has been left alone
    long enough to refill answers like a new one, and a wait for no more than the
    burst succeeds. *)
Class TokenBucketLaws (TB : TokenBucket) := {
  used_before : limit -> Z -> bucket -> Z -> Prop;
  new_used : forall r b t, used_before r b (new_bucket r b) t;
  allow_used : forall r b l t t', used_before r b l t -> t <= t' -> used_before r b (allow l t').2 t';
  refilled : forall r b l t t', used_before r b l t -> 0 < tokens r -> 0 < seconds r ->
    b * seconds r * Second <= (t' - t) * tokens r -> allow l t' = allow (new_bucket r b) t';
  from_new : limit -> Z -> bucket -> Prop;
  from_new_new : forall r b, from_new r b (new_bucket r b);
  from_new_wait : forall r b l t n, from_new r b l -> from_new r b (wait_n l t n).2;
  wait_within_burst : forall r b l t n, from_new r b l -> n <= b -> (wait_n l t n).1 = None;
}.

(** ** The limiter per source address *)

Definition ttl : Z := 10 * Minute.

Record IPRateLimiter `{TB : TokenBucket} := IPLimiter {
  limiters : gmap str bucket;
  expiry : gmap str Z;
  rps : limit;
  burst : Z;
}.
Arguments IPRateLimiter {TB}.

Section ip.
Context `{TB : TokenBucket}.

Definition New (requestsPerMinute : Z) : IPRateLimiter :=
  IPLimiter _ ∅ ∅ (Limit requestsPerMinute 60) requestsPerMinute.

(** The key an address is counted under. *)
Definition limiter_key (remoteAddr : str) : str :=
  match SplitHostPort remoteAddr with
  | Some (ip, _) => ip
  | None => remoteAddr
  end.

(** [Allow]: [now] is read for the expiry, [now'] by the bucket after the lock is
    released. *)
Definition Allow (l : IPRateLimiter) (now now' : Z) (remoteAddr : str) : bool * IPRateLimiter :=
  let ip := limiter_key remoteAddr in
  let limiter := default (new_bucket (rps l) (burst l)) (limiters l !! ip) in
  let expiry := <[ip := now + ttl]> (expiry l) in
  let '(ok, limiter) := allow limiter now' in
  (ok, IPLimiter _ (<[ip := limiter]> (limiters l)) expiry (rps l) (burst l)).

(** One round of [Cleanup]. *)
Definition stale (l : IPRateLimiter) (now : Z) (ip : str) : bool :=
  match expiry l !! ip with Some exp => exp <? now | None => false end.

Definition Cleanup (l : IPRateLimiter) (now : Z) : IPRateLimiter :=
  IPLimiter _ (filter (fun kv => stale l now kv.1 = false) (limiters l))
    (filter (fun kv => stale l now kv.1 = false) (expiry l)) (rps l) (burst l).
End ip.

(** A history of calls: the address with both clock readings, or a cleanup round. *)
Inductive ip_event := EvAllow (now now' : Z) (addr : str) | EvCleanup (now : Z).

(** The answers of a history, each with the key it was counted under. *)
Fixpoint ip_run `{TB : TokenBucket} (l : IPRateLimiter) (evs : list ip_event) : list (str * bool) :=
  match evs with
  | [] => []
  | EvAllow now now' addr :: evs =>
      let '(ok, l) := Allow l now now' addr in (limiter_key addr, ok) :: ip_run l evs
  | EvCleanup now :: evs => ip_run (Cleanup l now) evs
  end.

(** The specification: one bucket per key, asked only for that key. *)
Fixpoint bucket_run `{TB : TokenBucket} (key : str) (l : bucket) (evs : list ip_event) : list bool :=
  match evs with
  | [] => []
  | EvAllow _ now' addr :: evs =>
      if decide (limiter_key addr = key)
      then let '(ok, l) := allow l now' in ok :: bucket_run key l evs
      else bucket_run key l evs
  | EvCleanup _ :: evs => bucket_run key l evs
  end.

(** Time does not run backwards from one event to the next, and the two readings of
    one call are less than a minute apart. *)
Fixpoint in_order (t : Z) (evs : list ip_event) : Prop :=
  match evs with
  | [] => True
  | EvAllow now now' _ :: evs => t <= now' /\ now <= now' <= now + Minute /\ in_order now' evs
  | EvCleanup now :: evs => t <= now /\ in_order now evs
  end.

(** ** The throttled stream *)

Definition streamBufSize : Z := 32 * 1024.
Definition streamRateLimit : Z := 15 * 1024 * 1024.
Definition streamBurst : Z := 32 * 1024.

Section stream.
Context `{TB : TokenBucket}.

(** [rateLimitedReader.Read]: the underlying read has returned the bytes [p] and the
    error [err]. *)
Definition rl_read (l : bucket) (now : Z) (p : str) (err : option error) : (str * option error) * bucket :=
  if 0 <? zlen p then
    match wait_n l now (zlen p) with
    | (Some waitErr, l) => ((p, Some waitErr), l)
    | (None, l) => ((p, err), l)
    end
  else ((p, err), l).

(** [rateLimitedWriter.Write]: the count, the error, and the sink afterwards. *)
Definition rl_write (l : bucket) (now : Z) (w : sink) (p : str) : (Z * option error) * (bucket * sink) :=
  match wait_n l now (zlen p) with
  | (Some err, l) => ((0, Some err), (l, w))
  | (None, l) =>
      match sink_write w p with
      | (Some err, w) => ((0, Some err), (l, w))
      | (None, w) => ((zlen p, None), (l, w))
      end
  end.

(** Chunks written one after another until one fails. *)
Fixpoint rl_writes (l : bucket) (times : list Z) (w : sink) (ps : list str) : option error * (bucket * sink) :=
  match ps, times with
  | p :: ps, now :: times =>
      match rl_write l now w p with
      | ((_, Some err), (l, w)) => (Some err, (l, w))
      | ((_, None), (l, w)) => rl_writes l times w ps
      end
  | _, _ => (None, (l, w))
  end.
End stream.

(** ** Lemmas *)

Section lemmas.
Context `{TB : TokenBucket} {TL : TokenBucketLaws TB}.

(** The limiter that never forgets, and the one that does, at a given time: where
    they differ, the entry has been idle for longer than the time to live. *)
Definition same_or_idle (r : limit) (b t : Z) (kept real : option bucket) (exp : option Z) : Prop :=
  match real with
  | Some l => kept = Some l /\ exists t0 e, exp = Some e /\ used_before r b l t0 /\ t0 <= t
                                          /\ t0 + ttl <= e + Minute
  | None =>
      exp = None
      /\ match kept with
         | None => True
         | Some l => exists t0, used_before r b l t0 /\ t0 + ttl < t + Minute
         end
  end.

Record forgets (t : Z) (K S : IPRateLimiter) : Prop := {
  forgets_rps : rps K = rps S;
  forgets_burst : burst K = burst S;
  forgets_entries : forall ip,
    same_or_idle (rps S) (burst S) t (limiters K !! ip) (limiters S !! ip) (expiry S !! ip);
}.

Lemma used_before_allow r b l t now :
  used_before r b l t -> t <= now -> used_before r b (allow l now).2 now.
Proof. apply allow_used. Qed.

Lemma forgets_Allow t K S now now' addr :
  forgets t K S -> t <= now' -> now <= now' <= now + Minute -> 0 < tokens (rps S) -> 0 < seconds (rps S) ->
  burst S * seconds (rps S) * Second <= (ttl - Minute) * tokens (rps S) ->
  (Allow K now now' addr).1 = (Allow S now now' addr).1
  /\ forgets now' (Allow K now now' addr).2 (Allow S now now' addr).2.
Proof.
  intros [Hr Hb He] Ht Hnow Hpos Hsec Hfull. unfold Allow. set (ip := limiter_key addr).
  assert (allow (default (new_bucket (rps K) (burst K)) (limiters K !! ip)) now'
          = allow (default (new_bucket (rps S) (burst S)) (limiters S !! ip)) now') as E.
  { specialize (He ip). unfold same_or_idle in He. rewrite Hr, Hb. destruct (limiters S !! ip) as [l|].
    - by destruct He as [-> _].
    - destruct He as [_ He]. destruct (limiters K !! ip) as [l|]; [|done].
      destruct He as (t0 & Hu & Hlt). simpl. eapply refilled; [done..|]. nia. }
  rewrite E.
  destruct (allow (default (new_bucket (rps S) (burst S)) (limiters S !! ip)) now') as [ok l'] eqn:Hl.
  split; [done|]. constructor; simpl; [done..|].
  intros ip'. destruct (decide (ip' = ip)) as [->|Hne].
  - rewrite !lookup_insert_eq. simpl. split; [done|]. exists now', (now + ttl). split_and!; try done; [|lia].
    specialize (He ip). unfold same_or_idle in He.
    assert (l' = (allow (default (new_bucket (rps S) (burst S)) (limiters S !! ip)) now').2) as -> by (by rewrite Hl).
    destruct (limiters S !! ip) as [l|]; simpl.
    + destruct He as (_ & t0 & e & _ & Hu & Ht0 & _). eapply used_before_allow; [done|lia].
    + eapply used_before_allow; [apply (new_used _ _ now')|lia].
  - rewrite !lookup_insert_ne by done. specialize (He ip'). unfold same_or_idle in *.
    destruct (limiters S !! ip'); [|destruct (limiters K !! ip'); [|done]].
    + destruct He as (? & t0 & e & ? & ? & ? & ?). split; [done|]. exists t0, e. split_and!; try done. lia.
    + destruct He as (? & t0 & ? & ?). split; [done|]. exists t0. split; [done|lia].
Qed.

Lemma forgets_Cleanup t K S now :
  forgets t K S -> t <= now -> forgets now K (Cleanup S now).
Proof.
  intros [Hr Hb He] Ht. constructor; simpl; [done..|]. intros ip. specialize (He ip). unfold same_or_idle in *.
  destruct (stale S now ip) eqn:Hs.
  - assert (filter (fun kv : str * bucket => stale S now kv.1 = false) (limiters S) !! ip = None) as ->
      by (apply map_lookup_filter_None; right; intros ? _; simpl; by rewrite Hs).
    assert (filter (fun kv : str * Z => stale S now kv.1 = false) (expiry S) !! ip = None) as ->
      by (apply map_lookup_filter_None; right; intros ? _; simpl; by rewrite Hs).
    split; [done|]. unfold stale in Hs. destruct (limiters S !! ip) as [l|].
    + destruct He as (-> & t0 & e & Hexp & Hu & Ht0 & He). exists t0. split; [done|].
      rewrite Hexp in Hs. lia.
    + destruct He as [Hexp _]. by rewrite Hexp in Hs.
  - assert (filter (fun kv : str * bucket => stale S now kv.1 = false) (limiters S) !! ip = limiters S !! ip) as ->.
    { destruct (limiters S !! ip) eqn:Hl; [by apply map_lookup_filter_Some|].
      apply map_lookup_filter_None. by left. }
    assert (filter (fun kv : str * Z => stale S now kv.1 = false) (expiry S) !! ip = expiry S !! ip) as ->.
    { destruct (expiry S !! ip) eqn:Hl; [by apply map_lookup_filter_Some|].
      apply map_lookup_filter_None. by left. }
    destruct (limiters S !! ip); [|destruct (limiters K !! ip); [|done]].
    + destruct He as (? & t0 & e & ? & ? & ? & ?). split; [done|]. exists t0, e. split_and!; try done. lia.
    + destruct He as (? & t0 & ? & ?). split; [done|]. exists t0. split; [done|lia].
Qed.

(** The limiter that never forgets keeps one bucket per key. *)
Lemma kept_run key K S t evs :
  forgets t K S -> in_order t evs -> 0 < tokens (rps S) -> 0 < seconds (rps S) ->
  burst S * seconds (rps S) * Second <= (ttl - Minute) * tokens (rps S) ->
  map snd (filter (fun a => a.1 = key) (ip_run S evs))
  = bucket_run key (default (new_bucket (rps S) (burst S)) (limiters K !! key)) evs.
Proof.
  revert t K S. induction evs as [|[now now' addr|now] evs IH]; intros t K S Hf Ho Hp Hs Hb; [done|..].
  - destruct Ho as (Ht & Hn & Ho). destruct (forgets_Allow t K S now now' addr) as [He Hf']; try done.
    assert (rps (Allow S now now' addr).2 = rps S /\ burst (Allow S now now' addr).2 = burst S) as [Er Eb]
      by (unfold Allow; by destruct (allow _ _)).
    pose proof (IH now' (Allow K now now' addr).2 (Allow S now now' addr).2 Hf' Ho) as IH'.
    rewrite Er, Eb in IH'. specialize (IH' Hp Hs Hb).
    cbn [ip_run bucket_run]. destruct (Allow S now now' addr) as [ok S'] eqn:HS. simpl in *.
    rewrite filter_cons. unfold Allow in He, IH'.
    rewrite (forgets_rps t K S Hf), (forgets_burst t K S Hf) in *.
    destruct (decide (limiter_key addr = key)) as [Hk|Hk]; simpl.
    + rewrite decide_True by done. rewrite Hk in *. destruct (allow _ now') as [ok' l'] eqn:Hl.
      simpl in *. rewrite lookup_insert_eq in IH'. simpl in IH'. rewrite IH'. by subst.
    + rewrite decide_False by done. destruct (allow _ now') as [ok' l'] eqn:Hl. simpl in *.
      by rewrite lookup_insert_ne in IH' by done.
  - destruct Ho as (Ht & Ho). apply (IH now K (Cleanup S now)); try done.
    by apply (forgets_Cleanup t).
Qed.

Lemma rl_writes_spec r b l times w ps :
  from_new r b l -> Forall (fun p => zlen p <= b) ps -> length times = length ps ->
  budget w = None ->
  exists l', rl_writes l times w ps = (None, (l', Sink (written w ++ concat ps) None (sink_err w))).
Proof.
  revert l times w. induction ps as [|p ps IH]; intros l times w Hl Hp Ht Hw; destruct times as [|now times]; try done.
  - exists l. simpl. rewrite app_nil_r, <- Hw. by destruct w.
  - inv Hp. simpl. unfold rl_write. pose proof (from_new_wait r b l now (zlen p) Hl) as Hl'.
    pose proof (wait_within_burst r b l now (zlen p) Hl ltac:(done)) as He.
    destruct (wait_n l now (zlen p)) as [[err|] l1]; [done|]. rewrite sink_write_unlimited by done.
    destruct (IH l1 times (Sink (written w ++ p) None (sink_err w))) as [l2 Hr]; [done|done|by inv Ht|done|].
    exists l2. rewrite Hr. simpl. by rewrite <- app_assoc.
Qed.
End lemmas.

(** ** Properties *)

(** C19.  The limiter is one token bucket per source address.  However calls from
    different addresses and rounds of [Cleanup] are interleaved, the answers given to
    one address are those of a single bucket of its own that is never discarded:
    nobody's traffic uses up another's quota, and forgetting an idle entry cannot be
    noticed, because the time to live is longer than a full refill takes. *)
Theorem one_bucket_per_address `{TL : TokenBucketLaws} requestsPerMinute evs key :
  0 < requestsPerMinute -> in_order 0 evs ->
  map snd (filter (fun a => a.1 = key) (ip_run (New requestsPerMinute) evs))
  = bucket_run key (new_bucket (Limit requestsPerMinute 60) requestsPerMinute) evs.
Proof.
  intros Hp Ho. etransitivity; [apply (kept_run key (New requestsPerMinute) (New requestsPerMinute) 0 evs)|].
  - constructor; [done..|]. intros ip. unfold same_or_idle. simpl. by rewrite !lookup_empty.
  - done.
  - done.
  - done.
  - simpl. unfold ttl, Minute, Second. lia.
  - simpl. by rewrite lookup_empty.
Qed.

(** Throttling loses nothing.  Chunks as the bridge cuts them, of at most the
    stream buffer, never exceed the burst: the limiter fails none of them and the
    sink receives exactly their bytes in order. *)
Theorem throttled_stream_exact `{TL : TokenBucketLaws} times w ps :
  Forall (fun p => zlen p <= streamBufSize) ps -> length times = length ps -> budget w = None ->
  exists l, rl_writes (new_bucket (Limit streamRateLimit 1) streamBurst) times w ps
            = (None, (l, Sink (written w ++ concat ps) None (sink_err w))).
Proof.
  intros Hp Ht Hw. apply (rl_writes_spec (Limit streamRateLimit 1) streamBurst); try done.
  apply from_new_new.
Qed.

(** ** A bucket *)

(** The level in units of one token divided by [seconds * Second]. *)
Record exact_bucket := Exact { eb_rate : limit; eb_burst : Z; eb_level : Z; eb_last : option Z }.

Definition eb_unit (r : limit) : Z := seconds r * Second.
Definition eb_full (l : exact_bucket) : Z := eb_burst l * eb_unit (eb_rate l).

Definition eb_advance (l : exact_bucket) (t : Z) : Z :=
  match eb_last l with
  | None => eb_full l
  | Some last => Z.min (eb_full l) (eb_level l + (t - last) * tokens (eb_rate l))
  end.

Definition eb_allow (l : exact_bucket) (t : Z) : bool * exact_bucket :=
  let level := eb_advance l t in
  if eb_unit (eb_rate l) <=? level
  then (true, Exact (eb_rate l) (eb_burst l) (level - eb_unit (eb_rate l)) (Some t))
  else (false, l).

Definition eb_wait (l : exact_bucket) (t n : Z) : option error * exact_bucket :=
  if eb_burst l <? n then (Some (ErrText §"rate: Wait(n) exceeds limiter's burst"), l)
  else (None, Exact (eb_rate l) (eb_burst l) (eb_advance l t - n * eb_unit (eb_rate l)) (Some t)).

Definition exact : TokenBucket :=
  {| bucket := exact_bucket; new_bucket r b := Exact r b 0 None; allow := eb_allow; wait_n := eb_wait |}.

Definition eb_used (r : limit) (b : Z) (l : exact_bucket) (t : Z) : Prop :=
  eb_rate l = r /\ eb_burst l = b
  /\ (l = Exact r b 0 None
      \/ exists last, eb_last l = Some last /\ last <= t
           /\ (0 < seconds r -> 0 <= eb_level l /\ 1 <= b)).

Definition exact_laws : TokenBucketLaws exact.
Proof.
  refine {| used_before r b (l : @bucket exact) t := eb_used r b l t;
            from_new r b (l : @bucket exact) := eb_burst l = b |}; simpl.
  - intros r b t. split_and!; [done..|]. by left.
  - intros r b l t t' (Hr & Hb & Hl) Ht. unfold eb_allow. destruct (_ <=? _) eqn:Hle; simpl.
    + split_and!; [done..|]. right. exists t'. split_and!; [done..|]. intros Hs.
      apply Z.leb_le in Hle. unfold eb_unit in *. rewrite Hr in Hle |- *. cbn [eb_level]. split; [lia|].
      destruct Hl as [->|(last & _ & _ & H)]; [|by apply H]. unfold eb_advance, eb_full, eb_unit in Hle. simpl in *.
      unfold Second in *. nia.
    + split_and!; [done..|]. destruct Hl as [?|(last & ? & ? & ?)]; [by left|right]. exists last. split_and!; try done. lia.
  - intros r b l t t' (Hr & Hb & Hl) Htok Hsec Hfull. destruct Hl as [->|(last & Hlast & Hle & Hinv)]; [done|].
    destruct (Hinv Hsec) as [H0 H1]. unfold eb_allow, eb_advance. rewrite Hlast. simpl.
    unfold eb_full. simpl. rewrite Hr, Hb. unfold eb_unit in *.
    rewrite Z.min_l by (unfold Second in *; nia). by destruct (_ <=? _) eqn:Hle'; [|unfold Second in *; nia].
  - done.
  - intros r b l t n H. unfold eb_wait. by destruct (_ <? _).
  - intros r b l t n H Hn. unfold eb_wait. by replace (eb_burst l <? n) with false by lia.
Defined.

(** ** Witnesses *)

(** Two calls a minute; the second address and a cleanup come in between. *)
Lemma one_bucket_per_address_witness :
  let h := [EvAllow 0 0 §"192.0.2.1:4000"; EvAllow 1 1 §"192.0.2.1:4001"; EvAllow 2 2 §"192.0.2.1:4002";
            EvAllow 3 3 §"192.0.2.9:7000"; EvCleanup (11 * Minute); EvAllow (12 * Minute) (12 * Minute) §"192.0.2.1:4003"] in
  map snd (filter (fun a => a.1 = §"192.0.2.1") (ip_run (TB := exact) (New 2) h)) = [true; true; false; true].
Proof.
  intros h. rewrite (one_bucket_per_address (TL := exact_laws) 2 h §"192.0.2.1").
  - vm_compute. reflexivity.
  - reflexivity.
  - vm_compute. intuition congruence.
Defined.

Lemma throttled_stream_exact_witness :
  exists l, rl_writes (TB := exact) (new_bucket (Limit streamRateLimit 1) streamBurst) [0; 5] new_sink [§"ab"; §"c"]
            = (None, (l, Sink §"abc" None (ErrText §"closed"))).
Proof.
  apply (throttled_stream_exact (TL := exact_laws) [0; 5] new_sink [§"ab"; §"c"]).
  - repeat constructor; vm_compute; discriminate.
  - reflexivity.
  - reflexivity.
Defined.
