(* ===== verification/Vault.v ===== *)
(** * Vault: [internal/vault/vault.go], [keyfetch.go] and [fingerprint.go]

    The client with its token, the private key fetched into memory and wiped again,
    and the host-key check.  Memory is an explicit list of cells, because the claim of
    [Zero] is about bytes that other references may still reach.  The Vault server and
    the SSH library are interfaces. *)

From S2P Require Import Prelude GoStr Sha256 Config.
From stdpp Require Import options.
Open Scope Z_scope.

(** ** The services *)

(** A field of a secret: a string, or a JSON value of another type. *)
Inductive vval := VString (s : str) | VOther.

Abbreviation vdata := (list (str * vval)) (only parsing).

Fixpoint vfield (k : str) (d : vdata) : option vval :=
  match d with
  | [] => None
  | (k', v) :: d' => if decide (k' = k) then Some v else vfield k d'
  end.

(** [Get] and [Put] of the KV v2 engine mounted at "secret", and the AppRole login,
    each with the token it is called with; [None] is a nil secret or nil data. *)
Class VaultServer := {
  vstate : Type;
  kv_get : vstate -> str -> str -> res (option vdata);
  kv_put : vstate -> str -> str -> vdata -> option error * vstate;
  approle_login : vstate -> str -> str -> res (option str);
}.

(** What is written is what is read, under any token that may write it. *)
Class VaultServerLaws (VS : VaultServer) := {
  kv_get_put : forall v token key d v', kv_put v token key d = (None, v') -> kv_get v' token key = inr (Some d);
}.

(** [ssh.ParsePrivateKey], the public half of a signer, and the wire form of a public
    key. *)
Class SSH := {
  signer_t : Type;
  pubkey : Type;
  parse_private_key : str -> res signer_t;
  public_key : signer_t -> pubkey;
  marshal_key : pubkey -> str;
}.

(** ** Memory *)

(** Cells hold byte strings; a slice or a string refers to one by its index. *)
Abbreviation memory := (list str) (only parsing).

Definition alloc (m : memory) (s : str) : nat * memory := (length m, m ++ [s]).

(** ** Client *)

Record Client := MkClient { cfg : Config; token : str }.

Definition stripKVPrefix (path : str) : str :=
  let prefix := §"secret/data/" in
  if bool_decide (zlen prefix < zlen path) && bool_decide (take (length prefix) path = prefix)
  then drop (length prefix) path else path.

Section vault.
Context {VS : VaultServer} {SH : SSH}.

(** [loginAppRole]: on an error the old token stays. *)
Definition loginAppRole (c : Client) (v : vstate) : option error * Client :=
  match approle_login v (VaultRoleID (cfg c)) (VaultSecretID (cfg c)) with
  | inl err => (Some (ErrWrap §"approle login request" err), c)
  | inr None => (Some (ErrText §"approle login returned empty auth response"), c)
  | inr (Some t) => (None, MkClient (cfg c) t)
  end.

(** One tick of [renewLoop]. *)
Definition renew (c : Client) (v : vstate) : Client := (loginAppRole c v).2.

(** [New], with [init_err] the error of [vaultapi.NewClient], if any. *)
Definition New (cfg : Config) (init_err : option error) (v : vstate) : res Client :=
  match init_err with
  | Some err => inl (ErrWrap §"vault client init" err)
  | None =>
      let c := MkClient cfg [] in
      if VaultDevMode cfg || negb (bool_decide (VaultToken cfg = [])) then
        inr (MkClient cfg (VaultToken cfg))
      else if bool_decide (VaultRoleID cfg = []) || bool_decide (VaultSecretID cfg = []) then
        inl (ErrText §"VAULT_ROLE_ID and VAULT_SECRET_ID are required when VAULT_DEV_MODE is false")
      else
        match loginAppRole c v with
        | (Some err, _) => inl (ErrWrap §"vault approle login" err)
        | (None, c) => inr c
        end
  end.

(** ** The private key *)

Record EphemeralSigner := Ephemeral { signer : option signer_t; rawBytes : option nat }.

(** [zeroBytes] and the loop of [Zero]: every byte of the cell becomes 0. *)
Definition zeroBytes (b : nat) (m : memory) : memory :=
  alter (fun s => replicate (length s) (to_byte 0)) b m.

(** [(e *EphemeralSigner) Zero]; a nil receiver is [None]. *)
Definition Zero (e : option EphemeralSigner) (m : memory) : option EphemeralSigner * memory :=
  match e with
  | None => (None, m)
  | Some e =>
      match rawBytes e with
      | None => (Some e, m)
      | Some b => (Some (Ephemeral None None), zeroBytes b m)
      end
  end.

(** [FetchPrivateKey]: the field is a string of the response, copied into a slice. *)
Definition FetchPrivateKey (c : Client) (v : vstate) (vaultPath : str) (m : memory)
  : res EphemeralSigner * memory :=
  let keyName := stripKVPrefix vaultPath in
  match kv_get v (token c) keyName with
  | inl err => (inl (ErrWrap (§"vault kv get [" ++ vaultPath ++ §"]") err), m)
  | inr None => (inl (ErrText (§"vault secret empty at path [" ++ vaultPath ++ §"]")), m)
  | inr (Some data) =>
      match vfield §"private_key" data with
      | None => (inl (ErrText (§"vault secret at [" ++ vaultPath ++ §"] missing 'private_key' field")), m)
      | Some VOther => (inl (ErrText (§"vault 'private_key' at [" ++ vaultPath ++ §"] is not a string")), m)
      | Some (VString rawKeyStr) =>
          let '(_, m) := alloc m rawKeyStr in
          let '(raw, m) := alloc m rawKeyStr in
          match parse_private_key rawKeyStr with
          | inl err =>
              (inl (ErrWrap (§"parse private key from vault [" ++ vaultPath ++ §"]") err), zeroBytes raw m)
          | inr s => (inr (Ephemeral (Some s) (Some raw)), m)
          end
      end
  end.

Definition PutSecret (c : Client) (v : vstate) (vaultPath privateKey fingerprint : str) : option error * vstate :=
  let keyName := stripKVPrefix vaultPath in
  match kv_put v (token c) keyName
          [(§"private_key", VString privateKey); (§"fingerprint", VString fingerprint)] with
  | (Some err, v) => (Some (ErrWrap (§"vault kv put [" ++ vaultPath ++ §"]") err), v)
  | (None, v) => (None, v)
  end.

(** ** The host key *)

Definition FetchHostFingerprint (c : Client) (v : vstate) (vaultPath : str) : res str :=
  let keyName := stripKVPrefix vaultPath in
  match kv_get v (token c) keyName with
  | inl err => inl (ErrWrap (§"vault kv get fingerprint [" ++ vaultPath ++ §"]") err)
  | inr None => inl (ErrText (§"vault secret empty at [" ++ vaultPath ++ §"]"))
  | inr (Some data) =>
      match vfield §"fingerprint" data with
      | Some (VString (b :: s)) => inr (b :: s)
      | _ => inl (ErrText (§"no 'fingerprint' field at vault path [" ++ vaultPath ++ §"] — connection refused"))
      end
  end.

Definition computeFingerprint (key : pubkey) : str :=
  §"SHA256:" ++ b64_std (sha256 (marshal_key key)).

(** [ssh.FingerprintSHA256], which the admin console stores: the same digest in
    unpadded base64. *)
Definition FingerprintSHA256 (key : pubkey) : str :=
  §"SHA256:" ++ b64_raw (sha256 (marshal_key key)).

(** The callback [StrictHostKeyCallback] returns: [None] accepts the key. *)
Definition StrictHostKeyCallback (expectedFingerprint : str) (skipVerify : bool)
  (hostname : str) (key : pubkey) : option error :=
  if skipVerify then None
  else
    let actual := computeFingerprint key in
    if bool_decide (actual = expectedFingerprint) then None
    else Some (ErrText (§"MITM DETECTED: host key fingerprint mismatch for " ++ hostname
                        ++ §" — expected " ++ expectedFingerprint ++ §", got " ++ actual
                        ++ §" — connection aborted")).
End vault.

(** ** Lemmas *)

Lemma zeroBytes_lookup b m s :
  m !! b = Some s -> zeroBytes b m !! b = Some (replicate (length s) (to_byte 0)).
Proof. intros H. unfold zeroBytes. by rewrite list_lookup_alter_eq, H. Qed.

Lemma zeroBytes_other b b' m : b <> b' -> zeroBytes b m !! b' = m !! b'.
Proof. apply list_lookup_alter_ne. Qed.

Lemma stripKVPrefix_prefix name : name <> [] -> stripKVPrefix (§"secret/data/" ++ name) = name.
Proof.
  intros Hn. unfold stripKVPrefix. rewrite take_app_length, drop_app_length.
  rewrite !bool_decide_true; [done..|]. rewrite zlen_app. destruct name; [done|]. rewrite zlen_cons.
  pose proof (zlen_nonneg name). lia.
Qed.

Section vault_lemmas.
Context {VS : VaultServer} {SH : SSH}.

Lemma length_computeFingerprint key : length (computeFingerprint key) = 51%nat.
Proof.
  unfold computeFingerprint. rewrite b64_std_32 by apply length_sha256.
  rewrite !length_app, length_b64_raw_32 by apply length_sha256. done.
Qed.

Lemma length_FingerprintSHA256 key : length (FingerprintSHA256 key) = 50%nat.
Proof. unfold FingerprintSHA256. rewrite length_app, length_b64_raw_32 by apply length_sha256. done. Qed.
End vault_lemmas.

(** What the admin console stores has the length of unpadded base64, what is compared
    that of padded: no key passes. *)
Lemma unpadded_never_matches `{SSH} k hostname key :
  StrictHostKeyCallback (FingerprintSHA256 k) false hostname key <> None.
Proof.
  unfold StrictHostKeyCallback. case_bool_decide as Hk; [|done]. intros _.
  pose proof (length_computeFingerprint key) as H1. rewrite Hk, length_FingerprintSHA256 in H1. done.
Qed.

(** ** Properties *)

(** C20.  The life of a private key.  Whatever Vault answers, [FetchPrivateKey] writes
    no cell that existed before; on success the signer's slice holds the key Vault
    has, and [Zero] leaves that slice all zero bytes of the same length and drops both
    references, a second [Zero] being harmless; when the key does not parse, the slice
    is already zero when the error is returned. *)
Theorem key_is_wiped `{VS : VaultServer} `{SH : SSH} c v path m r m' :
  FetchPrivateKey c v path m = (r, m') ->
  take (length m) m' = m
  /\ match r with
     | inr e =>
         exists raw data key, rawBytes e = Some raw /\ kv_get v (token c) (stripKVPrefix path) = inr (Some data)
           /\ vfield §"private_key" data = Some (VString key) /\ m' !! raw = Some key
           /\ (let '(e1, m1) := Zero (Some e) m' in
               e1 = Some (Ephemeral None None) /\ m1 !! raw = Some (replicate (length key) (to_byte 0))
               /\ Zero e1 m1 = (e1, m1))
     | inl _ =>
         m' = m \/ exists key, m' = m ++ [key; replicate (length key) (to_byte 0)]
     end.
Proof.
  unfold FetchPrivateKey. destruct (kv_get _ _ _) as [err|[data|]] eqn:Hg;
    [intros [= <- <-]; by rewrite take_ge; auto| |intros [= <- <-]; by rewrite take_ge; auto].
  destruct (vfield _ data) as [[key|]|] eqn:Hf;
    [|intros [= <- <-]; by rewrite take_ge; auto..].
  cbn [alloc]. rewrite <- app_assoc. simpl app.
  assert (length (m ++ [key]) = S (length m)) as Hlen by (rewrite length_app; simpl; lia).
  destruct (parse_private_key key) as [err|s]; intros [= <- <-].
  - assert (zeroBytes (length (m ++ [key])) (m ++ [key; key]) = m ++ [key; replicate (length key) (to_byte 0)]) as ->.
    { unfold zeroBytes. rewrite Hlen. replace (S (length m)) with (length m + 1)%nat by lia. by rewrite alter_app_r. }
    split; [apply take_app_length|]. eauto.
  - split; [apply take_app_length|]. exists (length (m ++ [key])), data, key.
    assert ((m ++ [key; key]) !! length (m ++ [key]) = Some key) as Hl.
    { rewrite Hlen, lookup_app_r by lia. by replace (S (length m) - length m)%nat with 1%nat by lia. }
    split_and!; try done. simpl. split; [done|]. split; [by apply zeroBytes_lookup|done].
Qed.

(** What [Zero] does not reach: the string of Vault's answer the slice was copied
    from still holds the whole key after the signer has been wiped. *)
Theorem key_string_survives_Zero `{VS : VaultServer} `{SH : SSH} c v path m e m' data key :
  kv_get v (token c) (stripKVPrefix path) = inr (Some data) ->
  vfield §"private_key" data = Some (VString key) ->
  FetchPrivateKey c v path m = (inr e, m') ->
  (Zero (Some e) m').2 !! length m = Some key.
Proof.
  intros Hg Hf. unfold FetchPrivateKey. rewrite Hg, Hf. cbn [alloc]. rewrite <- app_assoc. simpl app.
  destruct (parse_private_key key); [done|]. intros [= <- <-]. simpl.
  rewrite zeroBytes_other by (rewrite length_app; simpl; lia).
  rewrite lookup_app_r by lia. by rewrite Nat.sub_diag.
Qed.

(** Provisioning round trip: a key and a non-empty fingerprint stored with
    [PutSecret] under the path of a server are what [FetchPrivateKey] parses and
    [FetchHostFingerprint] returns for that path. *)
Theorem PutSecret_fetch `{VL : VaultServerLaws} `{SH : SSH} c v v' path key fp s m :
  PutSecret c v path key fp = (None, v') -> fp <> [] -> parse_private_key key = inr s ->
  FetchHostFingerprint c v' path = inr fp
  /\ exists raw, FetchPrivateKey c v' path m = (inr (Ephemeral (Some s) (Some raw)), m ++ [key; key])
                 /\ (m ++ [key; key]) !! raw = Some key.
Proof.
  unfold PutSecret. destruct (kv_put _ _ _ _) as [[err|] v1] eqn:Hp; [done|]. intros [= <-] Hfp Hs.
  apply kv_get_put in Hp. split.
  - unfold FetchHostFingerprint. rewrite Hp. simpl. by destruct fp.
  - unfold FetchPrivateKey. rewrite Hp. simpl vfield. cbn [alloc].
    rewrite Hs, <- app_assoc. eexists. split; [done|]. simpl.
    rewrite length_app, lookup_app_r by (simpl; lia). simpl.
    by replace (length m + 1 - length m)%nat with 1%nat by lia.
Qed.

(** C31.  The strict check accepts a host key exactly when its fingerprint, in padded
    base64, is the expected one.  It therefore rejects every key, the right one
    included, when the expected fingerprint is what the admin console stores - the
    unpadded form of ssh.FingerprintSHA256. *)
Theorem strict_host_key_check `{SH : SSH} fp hostname key :
  (StrictHostKeyCallback fp false hostname key = None <-> computeFingerprint key = fp)
  /\ forall k, StrictHostKeyCallback (FingerprintSHA256 k) false hostname key <> None.
Proof.
  assert (forall f, StrictHostKeyCallback f false hostname key = None <-> computeFingerprint key = f) as H.
  { intros f. unfold StrictHostKeyCallback. by case_bool_decide. }
  split; [apply H|]. intros k. apply unpadded_never_matches.
Qed.

(** Fail closed: without a string fingerprint that is not empty in Vault no
    fingerprint is returned, and with one it is that string. *)
Theorem FetchHostFingerprint_spec `{VS : VaultServer} c v path fp :
  FetchHostFingerprint c v path = inr fp
  <-> fp <> [] /\ exists data, kv_get v (token c) (stripKVPrefix path) = inr (Some data)
                             /\ vfield §"fingerprint" data = Some (VString fp).
Proof.
  unfold FetchHostFingerprint. split.
  - destruct (kv_get _ _ _) as [|[data|]] eqn:Hg; [done| |done].
    destruct (vfield _ data) as [[[|b s]|]|] eqn:Hf; try done. intros [= <-]. eauto.
  - intros (Hne & data & -> & ->). by destruct fp.
Qed.

(** Which token is used.  [New] yields a client with the static token whenever
    dev mode is on or a token is configured, with the AppRole token otherwise, and
    no client when the AppRole credentials are missing or refused; a failed renewal
    leaves the token as it was. *)
Theorem New_token `{VS : VaultServer} cfg0 v c :
  New cfg0 None v = inr c <->
  cfg c = cfg0 /\
  if VaultDevMode cfg0 || negb (bool_decide (VaultToken cfg0 = [])) then token c = VaultToken cfg0
  else VaultRoleID cfg0 <> [] /\ VaultSecretID cfg0 <> []
       /\ approle_login v (VaultRoleID cfg0) (VaultSecretID cfg0) = inr (Some (token c)).
Proof.
  unfold New. destruct (_ || negb _).
  - split; [by intros [= <-]|]. intros [<- Ht]. destruct c. simpl in *. by rewrite <- Ht.
  - unfold loginAppRole. simpl.
    destruct (bool_decide (VaultRoleID cfg0 = [])) eqn:H1; simpl.
    { split; [done|]. intros (_ & Hn & _). by apply bool_decide_eq_true in H1. }
    destruct (bool_decide (VaultSecretID cfg0 = [])) eqn:H2.
    { split; [done|]. intros (_ & _ & Hn & _). by apply bool_decide_eq_true in H2. }
    apply bool_decide_eq_false in H1, H2.
    destruct (approle_login _ _ _) as [err|[t|]]; (split; [intros H; simplify_eq; eauto|]).
    + by intros (_ & _ & _ & ?).
    + intros (<- & _ & _ & [= ->]). by destruct c.
    + by intros (_ & _ & _ & ?).
Qed.

(** ** Witnesses *)

(** One secret in Vault, readable and writable with any token. *)
Definition demo_vault : VaultServer :=
  {| vstate := list (str * list (str * vval));
     kv_get v _ k := inr (snd <$> head (filter (fun e => e.1 = k) v));
     kv_put v _ k d := (None, (k, d) :: v);
     approle_login _ role secret := if bool_decide (secret = §"s3cret") then inr (Some (§"token-of-" ++ role)) else inr None |}.

Definition demo_vault_laws : VaultServerLaws demo_vault.
Proof.
  constructor. intros v token key d v' [= <-]. simpl. rewrite filter_cons_True by done. done.
Defined.

(** Keys are their own text; what does not start with "-----" does not parse. *)
Definition demo_ssh : SSH :=
  {| signer_t := str; pubkey := str;
     parse_private_key k := if HasPrefix k §"-----" then inr k else inl (ErrText §"ssh: no key found");
     public_key k := k; marshal_key k := k |}.

Definition demo_client : Client := MkClient (MkConfig [] [] [] [] [] [] [] 0 0 [] [] [] [] true 5 0 0 [] 0 0 0 []) §"dev-root-token".

Definition demo_secrets : vstate (VaultServer := demo_vault) :=
  [(§"ssh/prod-db-01", [(§"private_key", VString §"-----KEY"); (§"fingerprint", VString §"SHA256:abc")])].

Lemma key_is_wiped_witness :
  exists e m, FetchPrivateKey (VS := demo_vault) (SH := demo_ssh) demo_client demo_secrets §"secret/data/ssh/prod-db-01" [] = (inr e, m)
    /\ (let '(e1, m1) := Zero (SH := demo_ssh) (Some e) m in
        e1 = Some (Ephemeral (SH := demo_ssh) None None) /\ exists raw, m1 !! raw = Some (replicate 8 (to_byte 0))).
Proof.
  eexists _, _. split; [reflexivity|].
  destruct (key_is_wiped (VS := demo_vault) (SH := demo_ssh) demo_client demo_secrets §"secret/data/ssh/prod-db-01" [] _ _ eq_refl)
    as (_ & raw & data & key & Hr & Hg & Hf & Hk & Hz).
  vm_compute in Hr, Hg. injection Hr as <-. injection Hg as <-. vm_compute in Hf. injection Hf as <-.
  destruct (Zero _ _) as [e1 m1]. destruct Hz as (He & Hm & _). split; [exact He|]. eexists. exact Hm.
Defined.

Lemma key_string_survives_Zero_witness :
  (Zero (SH := demo_ssh) (Some (Ephemeral (SH := demo_ssh) (Some §"-----KEY") (Some 1%nat))) [§"-----KEY"; §"-----KEY"]).2 !! 0%nat
  = Some §"-----KEY".
Proof.
  exact (key_string_survives_Zero (VS := demo_vault) (SH := demo_ssh) demo_client demo_secrets
    §"secret/data/ssh/prod-db-01" [] (Ephemeral (SH := demo_ssh) (Some §"-----KEY") (Some 1%nat)) [§"-----KEY"; §"-----KEY"]
    [(§"private_key", VString §"-----KEY"); (§"fingerprint", VString §"SHA256:abc")] §"-----KEY" eq_refl eq_refl eq_refl).
Defined.

Lemma PutSecret_fetch_witness :
  FetchHostFingerprint (VS := demo_vault) demo_client
    (PutSecret (VS := demo_vault) demo_client [] §"secret/data/ssh/h" §"-----K" §"SHA256:x").2 §"secret/data/ssh/h"
  = inr §"SHA256:x".
Proof.
  apply (PutSecret_fetch (VL := demo_vault_laws) (SH := demo_ssh) demo_client [] _ §"secret/data/ssh/h" §"-----K"
    §"SHA256:x" §"-----K" []); [reflexivity|discriminate|reflexivity].
Defined.
