(* ===== verification/Session.v ===== *)
(** * The session registry: [internal/session/store.go] and [cleanup.go]

    Every method of [Store] as the statement it sends and what it makes of the
    answer. *)

From S2P Require Import Prelude GoStr Net Db Rbac.
From stdpp Require Import options.
Open Scope Z_scope.

Definition StatusActive : str := §"active".
Definition StatusTerminated : str := §"terminated".
Definition StatusTerminatedTimeout : str := §"terminated-timeout".
Definition StatusTerminatedKill : str := §"terminated-kill".

(** [Username] and [Hostname] stay empty where the query does not join them. *)
Record SessionRecord := MkSession {
  SessionID : str;
  UserID : str;
  SessServerID : str;
  SessProxyNodeIP : option str;
  StartTime : Z;
  Status : str;
  SessUsername : str;
  SessHostname : str;
}.

Record ServerSummary := MkSummary { SumID : str; SumHostname : str; SumEnvironment : str }.

#[export] Instance ServerSummary_eq_dec : EqDecision ServerSummary.
Proof. solve_decision. Defined.

Section store.
Context {PG : Postgres} {V6 : IPv6Text}.

Definition Register (sessionID userID serverID : str) (proxyNodeIP : option str) (db_now : Z) (d : database)
  : option error * database :=
  match run (insert_session sessionID userID serverID (IP_String proxyNodeIP) db_now) d with
  | (inl err, d) => (Some (ErrWrap §"register session" err), d)
  | (inr _, d) => (None, d)
  end.

Definition Terminate (sessionID status : str) (d : database) : option error * database :=
  match run (update_status status sessionID) d with
  | (inl err, d) => (Some (ErrWrap (§"terminate session [" ++ sessionID ++ §"]") err), d)
  | (inr _, d) => (None, d)
  end.

Definition CleanupOrphanedSessions (proxyNodeIP : str) (d : database) : option error * database :=
  match run (terminate_orphans proxyNodeIP) d with
  | (inl err, d) => (Some err, d)
  | (inr _, d) => (None, d)
  end.

(** A row as the scans fill it: the address comes as [proxy_node_ip::text]. *)
Definition scan_session (a : session_row) (username hostname : str) : SessionRecord :=
  MkSession (a_session_id a) (a_user_id a) (a_server_id a)
    (ParseIP (inet_text (a_proxy_node_ip a))) (a_start_time a) (a_status a) username hostname.

(** What a listing returns: the rows handed out, and [rows.Err()] at the end. *)
Definition listing {A} (r : res (list A * option error)) : list A * option error :=
  match r with inl err => ([], Some err) | inr x => x end.

Definition active_on (i : inet) (a : session_row) : bool :=
  bool_decide (a_status a = §"active") && bool_decide (a_proxy_node_ip a = i).

Definition GetActiveByProxyNode (proxyIP : str) (d : database) : (list SessionRecord * option error) * database :=
  let '(r, d) := query (fun d =>
    match inet_in proxyIP with
    | None => inl (pg_error (BadInet proxyIP))
    | Some i =>
        inr (map (fun a => scan_session a [] []) (filter (fun a => active_on i a = true) (active_sessions d)))
    end) d in
  (listing r, d).

(** Newest first. *)
Definition newer (a b : SessionRecord) : Prop := StartTime b <= StartTime a.

#[export] Instance newer_dec : RelDecision newer.
Proof. intros a b. unfold newer. apply _. Defined.

(** [active_sessions a JOIN users u ... JOIN servers s ...] under a condition. *)
Definition joined_sessions (keep : session_row -> bool) (d : database) : list SessionRecord :=
  a ← active_sessions d;
  u ← users d;
  s ← servers d;
  if bool_decide (u_id u = a_user_id a) && bool_decide (s_id s = a_server_id a) && keep a
  then [scan_session a (u_username u) (s_hostname s)] else [].

Definition ListAllActive (d : database) : (list SessionRecord * option error) * database :=
  let '(r, d) := query (fun d =>
    inr (merge_sort newer (joined_sessions (fun a => bool_decide (a_status a = §"active")) d))) d in
  (listing r, d).

Definition ListServersWithSessions (d : database) : (list ServerSummary * option error) * database :=
  let '(r, d) := query (fun d =>
    inr (order_by SumHostname (remove_dups
      (s ← servers d;
       a ← active_sessions d;
       if bool_decide (a_server_id a = s_id s)
       then [MkSummary (s_id s) (s_hostname s) (s_environment s)] else [])))) d in
  (listing r, d).

Definition ListSessionsByServer (serverID : str) (d : database) : (list SessionRecord * option error) * database :=
  let '(r, d) := query (fun d =>
    inr (take 50 (merge_sort newer (joined_sessions (fun a => bool_decide (a_server_id a = serverID)) d)))) d in
  (listing r, d).
End store.

(** ** Lemmas *)

Section session_lemmas.
Context {PG : Postgres} {V6 : IPv6Text}.

(** [x::text] shows the mask, so what is parsed is never an address. *)
Lemma inet_text_not_ip i : ParseIP (inet_text i) = None.
Proof. apply ParseIP_slash. unfold inet_text. set_solver. Qed.

Lemma Terminate_ok id st d :
  outcomes d = [] -> st ∈ session_statuses ->
  Terminate id st d
  = (None, set_sessions d (map (fun a => if bool_decide (a_session_id a = id) then with_status st a else a) (active_sessions d))).
Proof.
  intros Ho Hst. unfold Terminate. rewrite run_done by done. unfold update_status.
  by rewrite (bool_decide_true (st ∈ session_statuses)), andb_false_r.
Qed.

(** The status of a session, if it is in the table. *)
Definition status_of (id : str) (d : database) : option str :=
  a_status <$> head (filter (fun a => a_session_id a = id) (active_sessions d)).

Lemma filter_with_status id st l :
  filter (fun a => a_session_id a = id) (map (fun a => if bool_decide (a_session_id a = id) then with_status st a else a) l)
  = map (with_status st) (filter (fun a => a_session_id a = id) l).
Proof.
  induction l as [|a l IH]; [done|]. simpl. rewrite !filter_cons. case_bool_decide as Ha; simpl.
  - rewrite !decide_True by done. simpl. by rewrite IH.
  - by rewrite !decide_False by done.
Qed.

Lemma status_of_terminated id st d :
  status_of id d <> None ->
  status_of id (set_sessions d (map (fun a => if bool_decide (a_session_id a = id) then with_status st a else a) (active_sessions d)))
  = Some st.
Proof.
  unfold status_of. simpl. rewrite filter_with_status. by destruct (filter _ _).
Qed.

Lemma Register_reach sid uid srv ip now d : db_reach d (Register sid uid srv ip now d).2.
Proof.
  unfold Register. pose proof (run_reach (insert_session sid uid srv (IP_String ip) now) d ltac:(intros; constructor)) as H.
  destruct (run _ d) as [[|] d']; done.
Qed.

Lemma Terminate_reach id st d : db_reach d (Terminate id st d).2.
Proof.
  unfold Terminate. pose proof (run_reach (update_status st id) d ltac:(intros; constructor)) as H.
  destruct (run _ d) as [[|] d']; done.
Qed.

Lemma joined_session_elem keep d r :
  r ∈ joined_sessions keep d <->
  exists a u s, a ∈ active_sessions d /\ u ∈ users d /\ s ∈ servers d /\ u_id u = a_user_id a
    /\ s_id s = a_server_id a /\ keep a = true /\ r = scan_session a (u_username u) (s_hostname s).
Proof.
  unfold joined_sessions. split.
  - intros (a & (u & (s & H & Hs)%list_elem_of_bind & Hu)%list_elem_of_bind & Ha)%list_elem_of_bind.
    destruct (_ && _) eqn:Hc; [|by apply not_elem_of_nil in H]. apply list_elem_of_singleton in H as ->.
    bools. exists a, u, s. done.
  - intros (a & u & s & Ha & Hu & Hs & H1 & H2 & H3 & ->).
    apply list_elem_of_bind. exists a. split; [|done]. apply list_elem_of_bind. exists u. split; [|done].
    apply list_elem_of_bind. exists s. split; [|done]. rewrite !bool_decide_true, H3 by done. left.
Qed.
End session_lemmas.

(** ** Properties *)

(** The sessions of a node.  [GetActiveByProxyNode] returns the active rows of
    that address, all of them and no others, in table order; but the address of every
    record is nil, because the column is read as text with its mask. *)
Theorem GetActiveByProxyNode_spec `{PG : Postgres} `{V6 : IPv6Text} proxyIP i d :
  outcomes d = [] -> inet_in proxyIP = Some i ->
  exists rs, GetActiveByProxyNode proxyIP d = ((rs, None), d)
    /\ map SessionID rs = map a_session_id (filter (fun a => active_on i a = true) (active_sessions d))
    /\ Forall (fun r => Status r = StatusActive /\ SessProxyNodeIP r = None) rs.
Proof.
  intros Ho Hi. unfold GetActiveByProxyNode, query. rewrite Ho, Hi. simpl. eexists. split; [done|].
  split; [by rewrite map_map|]. apply Forall_map, Forall_forall.
  intros a [Ha _]%list_elem_of_filter. unfold active_on in Ha. bools. split; [done|apply inet_text_not_ip].
Qed.

(** C34.  Recovery after a crash.  On start-up no session of this node stays active;
    every other row, and every other table, is as it was. *)
Theorem cleanup_ends_orphans `{PG : Postgres} proxyNodeIP i d :
  outcomes d = [] -> inet_in proxyNodeIP = Some i ->
  exists d', CleanupOrphanedSessions proxyNodeIP d = (None, d')
    /\ length (active_sessions d') = length (active_sessions d)
    /\ set_sessions d' [] = set_sessions d []
    /\ forall n a, active_sessions d !! n = Some a ->
         exists a', active_sessions d' !! n = Some a' /\ active_on i a' = false
           /\ (active_on i a = false -> a' = a)
           /\ (active_on i a = true -> a' = with_status StatusTerminated a).
Proof.
  intros Ho Hi. unfold CleanupOrphanedSessions. rewrite run_done by done. unfold terminate_orphans.
  rewrite Hi. eexists. split; [done|]. simpl. split; [apply length_map|]. split; [done|].
  intros n a Ha. exists (if orphaned i a then with_status §"terminated" a else a).
  assert (orphaned i a = active_on i a) as E by (unfold orphaned, active_on; apply andb_comm).
  split; [rewrite list_lookup_fmap, Ha; done|]. rewrite E.
  destruct (active_on i a) eqn:Hon; [|done]. split; [|done].
  done.
Qed.

(** The audit viewer's list of a server: at most fifty records, newest first, all
    of sessions of that server with their user; and a session left out is no newer
    than any that is shown. *)
Theorem ListSessionsByServer_spec `{PG : Postgres} `{V6 : IPv6Text} serverID d :
  outcomes d = [] ->
  let all := joined_sessions (fun a => bool_decide (a_server_id a = serverID)) d in
  exists shown rest, ListSessionsByServer serverID d = ((shown, None), d)
    /\ shown ++ rest ≡ₚ all
    /\ (length shown <= 50)%nat /\ (rest <> [] -> length shown = 50%nat)
    /\ StronglySorted newer shown
    /\ Forall (fun r => Forall (newer r) rest) shown
    /\ Forall (fun r => exists a u s, a ∈ active_sessions d /\ u ∈ users d /\ s ∈ servers d
                 /\ u_id u = a_user_id a /\ s_id s = serverID /\ a_server_id a = serverID
                 /\ r = scan_session a (u_username u) (s_hostname s)) shown.
Proof.
  intros Ho all. unfold ListSessionsByServer, query. rewrite Ho. simpl.
  assert (Total newer) by (intros a b; unfold newer; lia).
  assert (Transitive newer) by (intros a b c; unfold newer; lia).
  pose proof (merge_sort_Permutation newer all) as Hp.
  pose proof (StronglySorted_merge_sort newer all) as Hs. fold all.
  rewrite <- (take_drop 50 (merge_sort newer all)) in Hp, Hs.
  exists (take 50 (merge_sort newer all)), (drop 50 (merge_sort newer all)).
  apply StronglySorted_app in Hs as (Hall & Hsort & _).
  split_and!; try done.
  - rewrite length_take. lia.
  - intros Hne. rewrite length_take. destruct (decide (50 <= length (merge_sort newer all))%nat) as [|Hlt]; [lia|].
    destruct Hne. apply drop_ge. lia.
  - apply Forall_forall. intros r Hr. apply Forall_forall. intros r' Hr'. by apply Hall.
  - apply Forall_forall. intros r Hr. apply subseteq_take in Hr. rewrite merge_sort_Permutation in Hr.
    apply joined_session_elem in Hr as (a & u & s & ? & ? & ? & ? & Hsa & Hk & ->). bools.
    exists a, u, s. split_and!; try done. congruence.
Qed.

(** ** Witnesses *)

Definition demo_session (id : str) (start : Z) (st : str) : session_row :=
  SessionRow id §"u-jdoe" §"s-prod" (Inet §"192.0.2.10" 32) start st.

Definition demo_sessions_db : database :=
  set_sessions demo_db [demo_session §"a" 10 §"active"; demo_session §"b" 30 §"terminated-kill"; demo_session §"c" 20 §"active"].

Lemma GetActiveByProxyNode_spec_witness :
  exists rs, GetActiveByProxyNode (PG := demo_postgres) (V6 := no_ipv6) §"192.0.2.10" demo_sessions_db = ((rs, None), demo_sessions_db)
    /\ map SessionID rs = [§"a"; §"c"] /\ Forall (fun r => Status r = StatusActive /\ SessProxyNodeIP r = None) rs.
Proof.
  exact (GetActiveByProxyNode_spec (PG := demo_postgres) (V6 := no_ipv6) §"192.0.2.10" (Inet §"192.0.2.10" 32)
           demo_sessions_db eq_refl eq_refl).
Defined.

Lemma cleanup_ends_orphans_witness :
  exists d', CleanupOrphanedSessions (PG := demo_postgres) §"192.0.2.10" demo_sessions_db = (None, d')
    /\ length (active_sessions d') = 3%nat.
Proof.
  destruct (cleanup_ends_orphans (PG := demo_postgres) §"192.0.2.10" (Inet §"192.0.2.10" 32) demo_sessions_db
              eq_refl eq_refl) as (d' & Hc & Hl & _).
  exists d'. split; [exact Hc|exact Hl].
Defined.

Lemma ListSessionsByServer_spec_witness :
  exists shown, ListSessionsByServer (PG := demo_postgres) (V6 := no_ipv6) §"s-prod" demo_sessions_db = ((shown, None), demo_sessions_db)
    /\ StronglySorted newer shown.
Proof.
  destruct (ListSessionsByServer_spec (PG := demo_postgres) (V6 := no_ipv6) §"s-prod" demo_sessions_db eq_refl)
    as (shown & rest & Hl & _ & _ & _ & Hs & _).
  exists shown. split; [exact Hl|exact Hs].
Defined.
