(* ===== verification/Killswitch.v ===== *)
(** * The kill switch: [internal/killswitch/*.go] and [cmd/proxy/handlers.go]

    The registry of live sessions, the RPC server on each node, the client that dials
    the node, and the HTTP handler in front.  A handle is a number; cancelling it and
    closing its connections are actions the caller carries out (see Bridge.v).  gRPC
    and UUID parsing are interfaces. *)

From S2P Require Import Prelude GoStr GoTime Json Net Db Rbac Session.
From stdpp Require Import options.
Open Scope Z_scope.

(** ** The registry *)

(** What [Terminate] does to the bridge a handle belongs to, in order. *)
Inductive kill_action := Cancel (handle : nat) | CloseConns (handle : nat).

Record ConnectionManager := Manager { sessions : gmap str nat }.

Definition NewConnectionManager : ConnectionManager := Manager ∅.

Definition RegisterHandle (sessionID : str) (handle : nat) (cm : ConnectionManager) : ConnectionManager :=
  Manager (<[sessionID := handle]> (sessions cm)).

Definition Deregister (sessionID : str) (cm : ConnectionManager) : ConnectionManager :=
  Manager (delete sessionID (sessions cm)).

(** [(cm *ConnectionManager) Terminate], with the two clock readings the elapsed
    milliseconds come from. *)
Definition TerminateHandle (sessionID : str) (start stop : Z) (cm : ConnectionManager)
  : res Z * list kill_action * ConnectionManager :=
  match sessions cm !! sessionID with
  | None => (inl (ErrText (§"session " ++ sessionID ++ §" not found on this node")), [], cm)
  | Some handle =>
      (inr (Z.quot (stop - start) Millisecond), [Cancel handle; CloseConns handle], Deregister sessionID cm)
  end.

(** ** The RPC *)

Record TerminateResponse := TermResp { Success : bool; ElapsedMs : Z; ErrorMessage : str }.

(** [uuid.Parse] to canonical text. *)
Class UuidText := {
  uuid_parse : str -> option str;
  uuid_parse_canonical : forall s u, uuid_parse s = Some u -> uuid_parse u = Some u;
}.

Section server.
Context {PG : Postgres} {V6 : IPv6Text} {UU : UuidText}.

Definition TerminateSession (sessionId : str) (start stop : Z) (cm : ConnectionManager) (d : database)
  : TerminateResponse * list kill_action * ConnectionManager * database :=
  match uuid_parse sessionId with
  | None => (TermResp false 0 §"invalid session_id", [], cm, d)
  | Some sid =>
      match TerminateHandle sid start stop cm with
      | (inl err, acts, cm) => (TermResp false 0 (error_text err), acts, cm, d)
      | (inr elapsed, acts, cm) =>
          let '(_, d) := Terminate sid StatusTerminatedKill d in
          (TermResp true elapsed [], acts, cm, d)
      end
  end.

Record SessionInfo := Info {
  i_session : str; i_user : str; i_server : str; i_node : str; i_start : Z }.

(** [ListActiveSessions], with the value of PROXY_NODE_IP in the environment. *)
Definition ListActiveSessions (node_env : str) (d : database) : res (list SessionInfo) * database :=
  let myIP := if bool_decide (node_env = []) then §"127.0.0.1" else node_env in
  match GetActiveByProxyNode myIP d with
  | ((_, Some err), d) => (inl err, d)
  | ((rs, None), d) =>
      (inr (map (fun r => Info (SessionID r) (UserID r) (SessServerID r)
                            (IP_String (SessProxyNodeIP r)) (unix (StartTime r))) rs), d)
  end.
End server.

(** ** The client and the HTTP handler *)

(** Dialling a node and calling the RPC on it: the TLS credentials of a file, the
    dial, and the call. *)
Class Grpc := {
  load_creds : str -> option error;
  grpc_dial : str -> option error;
  grpc_terminate : str -> str -> str -> res TerminateResponse;
}.

Record http_response := Http { code : Z; body : str }.

(** [http.Error] adds a line end. *)
Definition http_error (msg : str) (code : Z) : http_response := Http code (msg ++ LF).

Section client.
Context {PG : Postgres} {V6 : IPv6Text} {UU : UuidText} {GR : Grpc}.

Definition node_address (proxyNodeIP : str) : str := proxyNodeIP ++ §":9090".

Definition ks_TerminateSession (caFile proxyNodeIP sessionID reason : str) : option error :=
  let addr := node_address proxyNodeIP in
  if bool_decide (caFile = []) then Some (ErrText §"caFile is required for KillSwitchClient") else
  match load_creds caFile with
  | Some err => Some (ErrWrap §"grpc client tls" err)
  | None =>
      match grpc_dial addr with
      | Some err => Some (ErrWrap (§"grpc dial " ++ addr) err)
      | None =>
          match grpc_terminate addr sessionID reason with
          | inl err => Some (ErrWrap §"grpc call" err)
          | inr resp =>
              if Success resp then None
              else Some (ErrText (§"termination failed: " ++ ErrorMessage resp))
          end
      end
  end.

(** [SELECT proxy_node_ip::text FROM active_sessions WHERE session_id = $1 AND status =
    'active']; a session id that is no UUID is a database error. *)
Definition node_query (sessionID : str) (d : database) : res str :=
  match uuid_parse sessionID with
  | None => inl (pg_error BadText)
  | Some sid =>
      match filter (fun a => a_session_id a = sid /\ a_status a = §"active") (active_sessions d) with
      | [] => inl ErrNoRows
      | a :: _ => inr (inet_text (a_proxy_node_ip a))
      end
  end.

Definition killSwitchHandler (caFile sessionID : str) (d : database) : http_response * database :=
  if bool_decide (sessionID = []) then (http_error §"missing session ID" 400, d) else
  let '(r, d) := run (fun d => (node_query sessionID d, d)) d in
  match r with
  | inl err =>
      if decide (err = ErrNoRows) then (http_error §"Session not found or already terminated" 404, d)
      else (http_error §"Database error" 500, d)
  | inr proxyNodeIP =>
      match ks_TerminateSession caFile proxyNodeIP sessionID §"admin-kill" with
      | Some err => (http_error (§"Kill switch failed: " ++ error_text err) 500, d)
      | None =>
          (Http 200 (json_object [(§"session_id", VStr sessionID); (§"status", VStr §"terminated")] ++ LF), d)
      end
  end.
End client.

(** ** Lemmas *)

Lemma TerminateSession_missing `{PG : Postgres} `{UU : UuidText} sid start stop cm d :
  uuid_parse sid = Some sid -> sessions cm !! sid = None ->
  TerminateSession sid start stop cm d
  = (TermResp false 0 (§"session " ++ sid ++ §" not found on this node"), [], cm, d).
Proof. intros Hu Hs. unfold TerminateSession, TerminateHandle. by rewrite Hu, Hs. Qed.

(** ** Properties *)

(** One kill.  The RPC on the node that holds the session cancels the bridge
    first and closes its connections second, forgets the session and marks it killed;
    a second RPC for it, or one for a session the node never had, reports failure and
    touches nothing. *)
Theorem TerminateSession_spec `{PG : Postgres} `{UU : UuidText} sid handle start stop cm d :
  uuid_parse sid = Some sid -> outcomes d = [] ->
  match sessions cm !! sid with
  | None =>
      TerminateSession sid start stop cm d
      = (TermResp false 0 (§"session " ++ sid ++ §" not found on this node"), [], cm, d)
  | Some h =>
      h = handle ->
      exists cm' d',
        TerminateSession sid start stop cm d
        = (TermResp true (Z.quot (stop - start) Millisecond) [], [Cancel handle; CloseConns handle], cm', d')
        /\ sessions cm' !! sid = None /\ (forall s, s <> sid -> sessions cm' !! s = sessions cm !! s)
        /\ (status_of sid d <> None -> status_of sid d' = Some StatusTerminatedKill)
        /\ TerminateSession sid start stop cm' d'
           = (TermResp false 0 (§"session " ++ sid ++ §" not found on this node"), [], cm', d')
  end.
Proof.
  intros Hu Ho. destruct (sessions cm !! sid) as [h|] eqn:Hs; [intros ->|by apply TerminateSession_missing].
  unfold TerminateSession at 1, TerminateHandle. rewrite Hu, Hs.
  rewrite Terminate_ok by (done || (do 3 right; left)). cbv beta iota.
  eexists (Deregister sid cm), _. split; [done|]. simpl. split; [apply lookup_delete_eq|].
  split; [intros s Hne; by rewrite lookup_delete_ne|]. split; [apply status_of_terminated|].
  apply TerminateSession_missing; [done|]. simpl. apply lookup_delete_eq.
Qed.

(** Where a kill goes.  For an active session the HTTP handler dials the address
    column as text, mask included: the address always has a "/" in its host part and
    is never the node's address.  If dialling a host with a slash fails, as it does
    for a name no resolver knows, the handler answers 500 for every active session. *)
Theorem kill_dials_no_node `{PG : Postgres} `{UU : UuidText} `{GR : Grpc} caFile a d :
  db_ok d -> outcomes d = [] -> a ∈ active_sessions d -> a_status a = StatusActive ->
  a_session_id a <> [] -> uuid_parse (a_session_id a) = Some (a_session_id a) -> caFile <> [] ->
  (forall addr sid reason, "/"%char ∈ addr -> exists e, grpc_terminate addr sid reason = inl e) ->
  let addr := node_address (inet_text (a_proxy_node_ip a)) in
  addr <> node_address (inet_addr (a_proxy_node_ip a))
  /\ "/"%char ∈ addr
  /\ code (killSwitchHandler caFile (a_session_id a) d).1 = 500.
Proof.
  intros Hd Ho Ha Hst Hne Hu Hca Hg addr.
  assert ("/"%char ∈ addr) as Hslash by (unfold addr, node_address, inet_text; set_solver).
  split; [|split; [done|]].
  - unfold addr, node_address, inet_text. rewrite <- !app_assoc. intros H.
    apply app_inv_head in H. apply (f_equal head) in H. done.
  - unfold killSwitchHandler. rewrite bool_decide_false by done. rewrite run_done by done.
    assert (node_query (a_session_id a) d = inr (inet_text (a_proxy_node_ip a))) as ->.
    { unfold node_query. rewrite Hu.
      destruct (filter _ _) as [|b l] eqn:Hf.
      - assert (a ∈ filter (fun x => a_session_id x = a_session_id a /\ a_status x = §"active") (active_sessions d))
          as Hin by (by apply list_elem_of_filter). rewrite Hf in Hin. by apply not_elem_of_nil in Hin.
      - assert (b ∈ filter (fun x => a_session_id x = a_session_id a /\ a_status x = §"active") (active_sessions d))
          as [[Hid _] Hb]%list_elem_of_filter by (rewrite Hf; left).
        by rewrite (NoDup_map_inj a_session_id (active_sessions d) b a (ok_session_ids d Hd)). }
    unfold ks_TerminateSession. rewrite bool_decide_false by done.
    destruct (load_creds caFile); [done|]. destruct (grpc_dial _); [done|].
    destruct (Hg addr (a_session_id a) §"admin-kill" Hslash) as [e He]. fold addr. by rewrite He.
Qed.

(** ** Witnesses *)

(** Any text without a slash parses; the RPC works except where a host has a slash. *)
Definition demo_uuid : UuidText.
Proof. by refine {| uuid_parse s := Some s |}; intros s u [= ->]. Defined.

Definition demo_grpc : Grpc :=
  {| load_creds _ := None; grpc_dial _ := None;
     grpc_terminate addr _ _ := if bool_decide ("/"%char ∈ addr) then inl (ErrText §"no such host") else inr (TermResp true 0 []) |}.

Lemma TerminateSession_spec_witness :
  exists cm' d',
    TerminateSession (PG := demo_postgres) (UU := demo_uuid) §"a" 0 (7 * Millisecond)
      (RegisterHandle §"a" 4 NewConnectionManager) demo_sessions_db
    = (TermResp true 7 [], [Cancel 4; CloseConns 4], cm', d')
    /\ status_of §"a" d' = Some StatusTerminatedKill.
Proof.
  destruct (TerminateSession_spec (PG := demo_postgres) (UU := demo_uuid) §"a" 4 0 (7 * Millisecond)
    (RegisterHandle §"a" 4 NewConnectionManager) demo_sessions_db eq_refl eq_refl eq_refl)
    as (cm' & d' & Ht & _ & _ & Hs & _).
  exists cm', d'. split; [exact Ht|]. apply Hs. discriminate.
Defined.

Lemma kill_dials_no_node_witness :
  code (killSwitchHandler (PG := demo_postgres) (UU := demo_uuid) (GR := demo_grpc) §"server.pem" §"a" demo_sessions_db).1 = 500.
Proof.
  apply (kill_dials_no_node (PG := demo_postgres) (UU := demo_uuid) (GR := demo_grpc) §"server.pem"
           (demo_session §"a" 10 §"active") demo_sessions_db).
  - constructor; simpl; try (apply (bool_decide_unpack _); vm_compute; exact I).
  - reflexivity.
  - left.
  - reflexivity.
  - discriminate.
  - reflexivity.
  - discriminate.
  - intros addr sid reason H. simpl. rewrite bool_decide_true by exact H. eexists. reflexivity.
Defined.
