(* ===== verification/AuditLog.v ===== *)
(** * Audit recording: [internal/audit/*.go]

    The files of the audit directory, each under its name in that directory, with
    operations that can fail; the ttyrec writer with its attribution header, frames and
    checksum; the admin log; and the disk guard. *)

From S2P Require Import Prelude GoStr GoTime Sha256 Json.
From stdpp Require Import options.
Open Scope Z_scope.

(** ** The directory *)

(** [faults] says of the next file operations whether, and how, they fail. *)
Record logdir := LogDir { files : gmap str str; faults : list (option error) }.

Definition fs_op (d : logdir) : option error * logdir :=
  match faults d with
  | [] => (None, d)
  | f :: fs => (f, LogDir (files d) fs)
  end.

Definition put_file (name content : str) (d : logdir) : logdir :=
  LogDir (<[name := content]> (files d)) (faults d).

(** [O_CREATE|O_TRUNC], [O_CREATE|O_APPEND], and a write to the end of an open file;
    a write that fails writes nothing. *)
Definition fs_create (name : str) (d : logdir) : option error * logdir :=
  match fs_op d with
  | (Some err, d) => (Some err, d)
  | (None, d) => (None, put_file name [] d)
  end.

Definition fs_open_append (name : str) (d : logdir) : option error * logdir :=
  match fs_op d with
  | (Some err, d) => (Some err, d)
  | (None, d) => (None, put_file name (default [] (files d !! name)) d)
  end.

Definition fs_append (name s : str) (d : logdir) : option error * logdir :=
  match fs_op d with
  | (Some err, d) => (Some err, d)
  | (None, d) => (None, put_file name (default [] (files d !! name) ++ s) d)
  end.

(** ** The session recorder *)

Record Writer := MkWriter { w_name : str; w_open : bool }.

Definition ttyrec_name (sessionID : str) : str := sessionID ++ §".ttyrec".

(** The header of a frame: three little-endian 32-bit words. *)
Definition frame_header (now len : Z) : str :=
  le32 (unix now) ++ le32 (nanosecond now / 1000) ++ le32 len.

(** [writeFrame]: two writes, both errors dropped; a closed file takes neither. *)
Definition writeFrame (w : Writer) (now : Z) (data : str) (d : logdir) : logdir :=
  if w_open w then
    let '(_, d) := fs_append (w_name w) (frame_header now (zlen data)) d in
    let '(_, d) := fs_append (w_name w) data d in d
  else d.

(** The attribution block; a Go map is marshalled in the order of its keys. *)
Definition attribution (sessionID userID : str) (now : Z) : str :=
  json_object
    [(§"created_at", VStr (format_rfc3339nano now)); (§"format", VStr §"ttyrec+zttp-v1");
     (§"zttp_session_id", VStr sessionID); (§"zttp_user_id", VStr userID)].

(** [now] is read for the block, [now'] for its frame. *)
Definition NewWriter (sessionID userID : str) (now now' : Z) (d : logdir) : res Writer * logdir :=
  let filename := ttyrec_name sessionID in
  match fs_create filename d with
  | (Some err, d) => (inl (ErrWrap §"create audit file" err), d)
  | (None, d) =>
      let w := MkWriter filename true in
      (inr w, writeFrame w now' (attribution sessionID userID now) d)
  end.

(** [Write] always claims to have written everything. *)
Definition audit_Write (w : Writer) (now : Z) (p : str) (d : logdir) : (Z * option error) * logdir :=
  ((zlen p, None), writeFrame w now p d).

Definition ErrFileClosed (name : str) : error := ErrText (§"sync " ++ name ++ §": file already closed").

Definition Finalize (w : Writer) (d : logdir) : option error * Writer * logdir :=
  let closed := MkWriter (w_name w) false in
  if negb (w_open w) then (Some (ErrWrap §"audit sync" (ErrFileClosed (w_name w))), closed, d) else
  match fs_op d with
  | (Some err, d) => (Some (ErrWrap §"audit sync" err), closed, d)
  | (None, d) =>
      match fs_op d with
      | (Some err, d) => (Some (ErrWrap §"open for hash" err), closed, d)
      | (None, d) =>
          match fs_op d with
          | (Some err, d) => (Some (ErrWrap §"hash compute" err), closed, d)
          | (None, d) =>
              let checksum := hex_encode (sha256 (default [] (files d !! w_name w))) in
              match fs_op d with
              | (Some err, d) => (Some err, closed, d)
              | (None, d) => (None, closed, put_file (w_name w ++ §".sha256") (checksum ++ LF) d)
              end
          end
      end
  end.

(** ** Reading a recording *)

(** The frames of a file, up to the first incomplete one: [sec], [usec], data. *)
Fixpoint parse_frames (n : nat) (s : str) : list (Z * Z * str) :=
  match n with
  | O => []
  | S n =>
      if zlen s <? 12 then [] else
      let len := from_le (take 4 (drop 8 s)) in
      let rest := drop 12 s in
      if zlen rest <? len then [] else
      (from_le (take 4 s), from_le (take 4 (drop 4 s)), take (Z.to_nat len) rest)
      :: parse_frames n (drop (Z.to_nat len) rest)
  end.

(** Every frame has a header of twelve bytes, so the length of the file is fuel enough. *)
Definition frames (s : str) : list (Z * Z * str) := parse_frames (length s) s.

(** ** The admin log *)

Definition admin_log_name : str := §"admin-actions.log".

(** The file handle of an open log. *)
Definition NewAdminLogger (d : logdir) : res () * logdir :=
  match fs_open_append admin_log_name d with
  | (Some err, d) => (inl (ErrWrap §"open admin log" err), d)
  | (None, d) => (inr tt, d)
  end.

Definition log_line (now : Z) (event detail : str) : str :=
  pad 24 (format_rfc3339 now) ++ §"  " ++ pad 18 event ++ §"  " ++ detail ++ LF.

(** [Log]: one write, its error dropped; the sync that follows has no effect here. *)
Definition Log (now : Z) (event detail : str) (d : logdir) : logdir :=
  (fs_append admin_log_name (log_line now event detail) d).2.

(** ** The disk guard *)

Definition u64 (z : Z) : Z := z mod 2 ^ 64.

(** What [statfs] reports. *)
Record statfs := Statfs { Blocks : Z; Bavail : Z; Bsize : Z }.

Definition usagePercent (r : res statfs) : res Z :=
  match r with
  | inl err => inl (ErrWrap §"statfs" err)
  | inr stat =>
      let total := u64 (Blocks stat * u64 (Bsize stat)) in
      let avail := u64 (Bavail stat * u64 (Bsize stat)) in
      let used := u64 (total - avail) in
      if total =? 0 then inr 0 else inr (u64 (used * 100) / total)
  end.

Record DiskGuard := MkGuard { maxUsagePct : Z; reject : bool }.

Definition NewDiskGuard (maxUsagePct : Z) : DiskGuard := MkGuard (u64 maxUsagePct) false.

Definition ShouldRejectNewConnections (g : DiskGuard) : bool := reject g.

(** One tick of [monitor]. *)
Definition monitor_tick (g : DiskGuard) (r : res statfs) : DiskGuard :=
  match usagePercent r with
  | inl _ => g
  | inr pct => MkGuard (maxUsagePct g) (maxUsagePct g <=? pct)
  end.

(** ** Lemmas *)

Lemma fs_append_ok name s d :
  faults d = [] -> fs_append name s d = (None, put_file name (default [] (files d !! name) ++ s) d).
Proof. unfold fs_append, fs_op. by intros ->. Qed.

Definition frame (now : Z) (data : str) : str := frame_header now (zlen data) ++ data.

Lemma length_frame_header now len : length (frame_header now len) = 12%nat.
Proof. unfold frame_header. by rewrite !length_app, !length_le32. Qed.

Lemma writeFrame_ok w now data d :
  w_open w = true -> faults d = [] ->
  writeFrame w now data d = put_file (w_name w) (default [] (files d !! w_name w) ++ frame now data) d.
Proof.
  intros Ho Hf. unfold writeFrame. rewrite Ho, fs_append_ok by done.
  rewrite fs_append_ok by done. unfold put_file. simpl.
  rewrite lookup_insert_eq. simpl. by rewrite insert_insert_eq, <- app_assoc.
Qed.

Lemma drop_app_skip (k n : nat) (a s : str) : length a = k -> drop (k + n) (a ++ s) = drop n s.
Proof. intros <-. by rewrite <- drop_drop, drop_app_length. Qed.

(** Reading past a frame that is whole. *)
Lemma parse_frames_cons n now data t :
  zlen data < 2 ^ 32 ->
  parse_frames (S n) (frame now data ++ t)
  = (u32 (unix now), u32 (nanosecond now / 1000), data) :: parse_frames n t.
Proof.
  intros Hd. unfold frame, frame_header. rewrite <- !app_assoc. cbn [parse_frames].
  set (a := le32 (unix now)). set (b := le32 (nanosecond now / 1000)). set (c := le32 (zlen data)).
  assert (length a = 4%nat) as Ha by apply length_le32.
  assert (length b = 4%nat) as Hb by apply length_le32.
  assert (length c = 4%nat) as Hc by apply length_le32.
  assert (zlen (a ++ b ++ c ++ data ++ t) = 12 + zlen data + zlen t) as Hlen
    by (unfold zlen in *; rewrite !length_app, Ha, Hb, Hc; lia).
  pose proof (zlen_nonneg data). pose proof (zlen_nonneg t).
  rewrite Hlen. replace (12 + zlen data + zlen t <? 12) with false by lia.
  assert (forall s, take 4 (a ++ s) = a) as -> by (intros; by apply take_app_length').
  assert (forall s, drop 4 (a ++ s) = s) as -> by (intros; by apply drop_app_length').
  assert (forall s, take 4 (b ++ s) = b) as -> by (intros; by apply take_app_length').
  assert (drop 8 (a ++ b ++ c ++ data ++ t) = c ++ data ++ t) as ->
    by (rewrite (drop_app_skip 4 4 a), (drop_app_skip 4 0 b) by done; done).
  assert (drop 12 (a ++ b ++ c ++ data ++ t) = data ++ t) as ->
    by (rewrite (drop_app_skip 4 8 a), (drop_app_skip 4 4 b), (drop_app_skip 4 0 c) by done; done).
  rewrite (take_app_length' c) by done. unfold a, b, c. rewrite !from_le_le32, (u32_small (zlen data)) by lia.
  rewrite zlen_app. replace (zlen data + zlen t <? zlen data) with false by lia.
  assert (Z.to_nat (zlen data) = length data) as -> by (unfold zlen; lia).
  by rewrite take_app_length, drop_app_length.
Qed.

(** More fuel than bytes reads no more frames. *)
Lemma parse_frames_enough n s : (length s <= n)%nat -> parse_frames n s = frames s.
Proof.
  unfold frames. revert n. induction s as [s IH] using (induction_ltof1 _ (@length byte)). unfold ltof in IH.
  intros n Hn. destruct s as [|b s]; [by destruct n|]. destruct n as [|n]; [simpl in Hn; lia|].
  cbn [length parse_frames]. destruct (_ <? 12) eqn:H12; [done|]. destruct (_ <? from_le _); [done|].
  f_equal. set (t := drop (Z.to_nat (from_le (take 4 (drop 8 (b :: s))))) (drop 12 (b :: s))).
  assert (length t < length (b :: s))%nat as Ht.
  { unfold t. rewrite !length_drop. simpl. lia. }
  rewrite (IH t Ht n) by (simpl in *; lia). symmetry. apply (IH t Ht). simpl in *; lia.
Qed.

Lemma frames_cons now data t :
  zlen data < 2 ^ 32 -> frames (frame now data ++ t) = (u32 (unix now), u32 (nanosecond now / 1000), data) :: frames t.
Proof.
  intros Hd. rewrite <- (parse_frames_enough (S (length (frame now data ++ t)))) by lia.
  rewrite parse_frames_cons by done. f_equal. apply parse_frames_enough. rewrite length_app. lia.
Qed.

(** A run of writes to one recording. *)
Fixpoint audit_writes (w : Writer) (ps : list (Z * str)) (d : logdir) : logdir :=
  match ps with
  | [] => d
  | (now, p) :: ps => audit_writes w ps (audit_Write w now p d).2
  end.

(** The content of a file that holds these frames. *)
Definition frames_text (ps : list (Z * str)) : str := concat (map (fun p => frame p.1 p.2) ps).

Lemma audit_writes_ok w ps d s :
  w_open w = true -> faults d = [] -> files d !! w_name w = Some s ->
  let d' := audit_writes w ps d in
  faults d' = [] /\ files d' !! w_name w = Some (s ++ frames_text ps).
Proof.
  revert d s. induction ps as [|[now p] ps IH]; intros d s Ho Hf Hs; simpl.
  - by rewrite app_nil_r.
  - change (frames_text ((now, p) :: ps)) with (frame now p ++ frames_text ps).
    rewrite (app_assoc s). apply IH; [done| |]; rewrite writeFrame_ok, Hs by done; [done|].
    apply lookup_insert_eq.
Qed.

Definition stamp (p : Z * str) : Z * Z * str := (u32 (unix p.1), u32 (nanosecond p.1 / 1000), p.2).

Lemma frames_frames_text ps :
  Forall (fun p => zlen p.2 < 2 ^ 32) ps -> frames (frames_text ps) = map stamp ps.
Proof.
  induction 1 as [|[now p] ps Hp _ IH]; [done|]. unfold frames_text. cbn [map concat].
  rewrite frames_cons by done. f_equal. apply IH.
Qed.

(** ** Properties *)

(** C18.  A recording reads back exactly.  On a directory without faults, the writer
    made for a session and a user, given any run of writes, leaves a file whose frames
    are the attribution block, stamped with the time of creation, and then each write's
    bytes in order, each stamped with the second and microsecond of its own write as
    32-bit words - whatever bytes were written, empty writes included.  Finalize then
    succeeds, leaves the recording as it is, and the sidecar holds the SHA-256 of the
    very file. *)
Theorem recording_roundtrip (sessionID userID : str) (now now' : Z) (ps : list (Z * str)) (d : logdir)
    (Hd : faults d = []) (Hps : Forall (fun p => zlen p.2 < 2 ^ 32) ps)
    (Ha : zlen (attribution sessionID userID now) < 2 ^ 32) :
  exists w d1 s,
    NewWriter sessionID userID now now' d = (inr w, d1) /\
    let d2 := audit_writes w ps d1 in
    files d2 !! ttyrec_name sessionID = Some s /\
    frames s = map stamp ((now', attribution sessionID userID now) :: ps) /\
    exists w' d3,
      Finalize w d2 = (None, w', d3) /\ w_open w' = false /\
      files d3 !! ttyrec_name sessionID = Some s /\
      files d3 !! (ttyrec_name sessionID ++ §".sha256") = Some (hex_encode (sha256 s) ++ LF).
Proof.
  unfold NewWriter, fs_create, fs_op. rewrite Hd. set (w := MkWriter _ _). set (d0 := put_file _ _ _).
  assert (files d0 !! w_name w = Some []) as H0 by apply lookup_insert_eq.
  destruct (audit_writes_ok w ((now', attribution sessionID userID now) :: ps) d0 [] eq_refl Hd H0)
    as [Hf2 Hs2]. cbn [audit_writes] in Hf2, Hs2. unfold audit_Write in Hf2.
  unfold audit_Write in Hs2. cbn [snd] in Hf2, Hs2.
  eexists w, _, _. split; [done|]. split; [exact Hs2|]. split.
  { apply frames_frames_text. by constructor. }
  unfold Finalize, fs_op. cbn [w_open w negb]. rewrite !Hf2.
  eexists _, _. split; [reflexivity|]. split; [done|]. change (w_name w) with (ttyrec_name sessionID) in *. rewrite Hs2. unfold put_file. cbn [files default].
  split; [|apply lookup_insert_eq]. rewrite lookup_insert_ne; [exact Hs2|].
  intros [=Hn]%(f_equal length). rewrite length_app in Hn. cbn in Hn. lia.
Qed.

(** Two writes within one second, one of them empty. *)
Definition demo_writes : list (Z * str) :=
  [(1700000000 * Second + 250 * Millisecond, §"ls"); (1700000000 * Second + 500 * Millisecond, [])].

Lemma recording_roundtrip_witness :
  exists w d1 s,
    NewWriter §"s1" §"u1" (1700000000 * Second) (1700000000 * Second) (LogDir ∅ []) = (inr w, d1) /\
    let d2 := audit_writes w demo_writes d1 in
    files d2 !! §"s1.ttyrec" = Some s /\
    map (fun f => f.2) (drop 1 (frames s)) = [§"ls"; []] /\
    map (fun f => f.1.2) (frames s) = [0; 250000; 500000].
Proof.
  destruct (recording_roundtrip §"s1" §"u1" (1700000000 * Second) (1700000000 * Second) demo_writes (LogDir ∅ []))
    as (w & d1 & s & Hw & Hs & Hfr & _);
    [reflexivity|repeat constructor|vm_compute; reflexivity|].
  exists w, d1, s. split; [exact Hw|]. split; [exact Hs|]. rewrite Hfr. split; reflexivity.
Defined.

(** The disk guard.  When the file system's figures are consistent and do not
    overflow 64 bits, the percentage is the share of the bytes in use rounded down, and
    a tick refuses new connections exactly when that share has reached the limit; an
    empty file system counts as unused; a failed look at the disk leaves the last
    verdict standing. *)
Theorem disk_guard_spec (g : DiskGuard) (st : statfs)
    (Hb : 0 <= Bavail st <= Blocks st) (Hs : 0 <= Bsize st < 2 ^ 64)
    (Hov : Blocks st * Bsize st * 100 < 2 ^ 64) :
  usagePercent (inr st)
    = inr (if Blocks st * Bsize st =? 0 then 0
           else (Blocks st - Bavail st) * 100 / Blocks st) /\
  (0 < Blocks st * Bsize st ->
   ShouldRejectNewConnections (monitor_tick g (inr st)) = true <->
   maxUsagePct g * Blocks st <= (Blocks st - Bavail st) * 100) /\
  forall err, monitor_tick g (inl err) = g.
Proof.
  assert (forall z, 0 <= z < 2 ^ 64 -> u64 z = z) as U by (intros; by apply Z.mod_small).
  assert (Bavail st * Bsize st <= Blocks st * Bsize st) by nia.
  assert (0 <= Bavail st * Bsize st) by nia.
  assert (usagePercent (inr st)
    = inr (if Blocks st * Bsize st =? 0 then 0 else (Blocks st - Bavail st) * 100 / Blocks st)) as E.
  { unfold usagePercent. rewrite (U (Bsize st)), (U (Blocks st * _)), (U (Bavail st * _)) by lia.
    rewrite (U (_ - _)) by lia. destruct (_ =? 0) eqn:E0; [done|]. bools.
    rewrite U by lia. f_equal. rewrite <- Z.mul_sub_distr_r.
    replace ((Blocks st - Bavail st) * Bsize st * 100) with ((Blocks st - Bavail st) * 100 * Bsize st) by lia.
    rewrite Z.div_mul_cancel_r; [done| |]; nia. }
  split; [exact E|]. split; [|done]. intros Hpos. unfold ShouldRejectNewConnections, monitor_tick.
  rewrite E. replace (Blocks st * Bsize st =? 0) with false by lia. simpl.
  assert (0 < Blocks st) by nia. rewrite Z.leb_le. split; intros H'.
  - pose proof (Z.mul_div_le ((Blocks st - Bavail st) * 100) (Blocks st)). nia.
  - apply Z.div_le_lower_bound; lia.
Qed.

Lemma disk_guard_spec_witness :
  ShouldRejectNewConnections (monitor_tick (NewDiskGuard 95) (inr (Statfs 1000 50 4096))) = true /\
  ShouldRejectNewConnections (monitor_tick (NewDiskGuard 95) (inr (Statfs 1000 51 4096))) = false.
Proof.
  split; [|reflexivity].
  apply (disk_guard_spec (NewDiskGuard 95) (Statfs 1000 50 4096)); [simpl; lia..|vm_compute; discriminate].
Defined.

(** A file system of this size makes [used * 100] wrap around: 190,000,000 GiB, all of
    it in use, is reported as almost empty. *)
Example usagePercent_wraps : usagePercent (inr (Statfs (190000000 * 2 ^ 18) 0 4096)) = inr 9.
Proof. vm_compute. reflexivity. Qed.
