(* ===== verification/AuditView.v ===== *)
(** * Looking at recordings: the log viewers of [internal/proxy/admin_tui.go]

    [streamTextLog] with its regular expression for escape sequences, [playTTYRec]
    with the pauses between frames and the key that stops it, and [streamAdminLog]. *)

From S2P Require Import Prelude GoStr GoTime Json Io AuditLog.
From stdpp Require Import options.
Open Scope Z_scope.

(** ** The escape sequences *)

Definition is_csi_param (b : byte) : bool := is_digit b || (bval b =? 59) || (bval b =? 63).

Definition is_ascii_letter (b : byte) : bool :=
  ((65 <=? bval b) && (bval b <=? 90)) || ((97 <=? bval b) && (bval b <=? 122)).

(** [[0-9;?]*[a-zA-Z]]: the classes are disjoint, so there is one way to match. *)
Fixpoint csi_rest (s : str) : option str :=
  match s with
  | [] => None
  | b :: s' => if is_csi_param b then csi_rest s' else if is_ascii_letter b then Some s' else None
  end.

(** [[^\x07]*\x07]. *)
Fixpoint bel_rest (s : str) : option str :=
  match s with
  | [] => None
  | b :: s' => if bval b =? 7 then Some s' else bel_rest s'
  end.

(** [ansiEscape] after its ESC: what follows the match.  The alternatives differ in
    the byte after the ESC. *)
Definition escape_rest (s : str) : option str :=
  match s with
  | b :: s' =>
      if bval b =? 91 then csi_rest s'
      else if (bval b =? 40) || (bval b =? 41) then
        match s' with
        | c :: s'' => if bool_decide (c ∈ §"AB012") then Some s'' else None
        | [] => None
        end
      else if (bval b =? 61) || (bval b =? 62) then Some s'
      else if bval b =? 93 then
        match s' with
        | c :: d :: s'' => if (bval c =? 48) && (bval d =? 59) then bel_rest s'' else None
        | _ => None
        end
      else None
  | [] => None
  end.

(** [ansiEscape.ReplaceAllString(s, "")]: matches do not overlap and are not looked
    for again in the result. *)
Fixpoint strip_escapes (n : nat) (s : str) : str :=
  match n, s with
  | S n, b :: s' =>
      if bval b =? 27 then
        match escape_rest s' with
        | Some rest => strip_escapes n rest
        | None => b :: strip_escapes n s'
        end
      else b :: strip_escapes n s'
  | _, _ => []
  end.

(** A match eats at least one byte, so the length is fuel enough. *)
Definition ansi_clean (s : str) : str := strip_escapes (length s) s.

(** ** The viewers *)

(** How a viewer ends: back to the menu, or never. *)
Inductive view_end := Back | Blocked.

Definition fs_open (name : str) (d : logdir) : option str * logdir :=
  match fs_op d with
  | (Some _, d) => (None, d)
  | (None, d) => (files d !! name, d)
  end.

Definition conn_waitForCtrlC (c : conn) : conn :=
  if is_open c then set_inp c (waitForCtrlC (inp c)) else c.

Definition dashes (n : nat) : str := concat (replicate n §"─").

Definition view_header (title username server : str) (startTime : Z) (hint : str) (n : nat) : str :=
  CRLF ++ dashes 4 ++ §" " ++ title ++ §" · " ++ username ++ §" · " ++ server
  ++ §" · " ++ format_minute startTime ++ §" UTC " ++ dashes 4 ++ CRLF ++ hint ++ CRLF
  ++ dashes n ++ CRLF.

Definition not_available : str := CRLF ++ §"[Recording not available for this session]" ++ CRLF.

Definition end_marker (what : str) : str :=
  CRLF ++ CRLF ++ §"[END OF " ++ what ++ §" — Press Ctrl+C to go back]" ++ CRLF.

Definition recording_text (s : str) : str := concat (map snd (frames s)).

Definition streamTextLog (sessionID username server : str) (startTime : Z) (d : logdir) (c : conn) : conn * logdir :=
  let c := conn_write c (view_header §"TEXT LOG" username server startTime §"Press Ctrl+C to go back" 56) in
  match fs_open (ttyrec_name sessionID) d with
  | (None, d) => (conn_waitForCtrlC (conn_write c not_available), d)
  | (Some s, d) =>
      let c := conn_write c (ansi_clean (recording_text s)) in
      (conn_waitForCtrlC (conn_write c (end_marker §"LOG")), d)
  end.

(** [io.Copy]: chunks of 32 KiB, until a write fails; after one failure all fail. *)
Fixpoint copy_chunks (n : nat) (s : str) (c : conn) : conn :=
  match n, s with
  | S n, _ :: _ => copy_chunks n (drop 32768 s) (conn_write c (take 32768 s))
  | _, _ => c
  end.

Definition io_Copy (s : str) (c : conn) : conn := copy_chunks (length s) s c.

Definition streamAdminLog (d : logdir) (c : conn) : conn * logdir :=
  let c := conn_write c (CRLF ++ dashes 4 ++ §" ADMIN ACTIONS LOG " ++ dashes 4 ++ CRLF
    ++ §"Press Ctrl+C to go back" ++ CRLF ++ dashes 26 ++ CRLF) in
  match fs_open admin_log_name d with
  | (None, d) => (conn_waitForCtrlC (conn_write c (CRLF ++ §"[No admin actions recorded yet]" ++ CRLF)), d)
  | (Some s, d) => (conn_waitForCtrlC (conn_write (io_Copy s c) (end_marker §"LOG")), d)
  end.

(** ** Playback *)

Definition maxDelay : Z := 2 * Second.

Definition i64 (z : Z) : Z := (z + 2 ^ 63) mod 2 ^ 64 - 2 ^ 63.

(** The pause before a frame, from the stamps of the frame before and its own. *)
Definition frame_delay (prev cur : Z * Z) : Z :=
  let deltaSec := i64 (cur.1 - prev.1) in
  let deltaUSec := i64 (cur.2 - prev.2) in
  let delay := i64 (i64 (deltaSec * Second) + i64 (deltaUSec * Microsecond)) in
  if maxDelay <? delay then maxDelay else delay.

(** What playback has written, each piece with the pause before it, and whether it
    was stopped; if not, how many more looks at the stop channel find it empty. *)
Inductive play_end := Stopped | AtEnd (looks : option nat).

Definition stop_now (looks : option nat) : bool := match looks with Some O => true | _ => false end.

(** The loop of [playTTYRec].  [looks] is how many looks at the stop channel find it
    empty before a Ctrl-C is in it, [None] if none ever comes; [prev] is the stamp of
    the frame before, if there is one. *)
Fixpoint play_loop (n : nat) (looks : option nat) (prev : option (Z * Z)) (s : str) : list (Z * str) * play_end :=
  if stop_now looks then ([], Stopped) else
  let looks := pred <$> looks in
  match n with
  | O => ([], AtEnd looks)
  | S n =>
      if zlen s <? 12 then ([], AtEnd looks) else
      let cur := (from_le (take 4 s), from_le (take 4 (drop 4 s))) in
      let len := from_le (take 4 (drop 8 s)) in
      let delay := match prev with Some prev => frame_delay prev cur | None => 0 end in
      if (0 <? delay) && stop_now looks then ([], Stopped) else
      let looks := if 0 <? delay then pred <$> looks else looks in
      let rest := drop 12 s in
      if zlen rest <? len then ([], AtEnd looks) else
      let '(out, e) := play_loop n looks (Some cur) (drop (Z.to_nat len) rest) in
      ((delay, take (Z.to_nat len) rest) :: out, e)
  end.

(** Every frame eats twelve bytes, so the length is fuel enough. *)
Definition play_frames (looks : option nat) (s : str) : list (Z * str) * play_end :=
  play_loop (S (length s)) looks None s.

(** The reader beside the loop takes a Ctrl-C from the connection, whatever comes
    before it; it stops at nothing else, so without one the viewer never ends. *)
Fixpoint has_ctrl_c (i : list inev) : bool :=
  match i with
  | [] => false
  | InByte b :: i' => (bval b =? 3) || has_ctrl_c i'
  | InGap :: i' => has_ctrl_c i'
  end.

(** [looks]: how many looks at the channel come before the Ctrl-C, if there is one. *)
Definition playTTYRec (sessionID username server : str) (startTime : Z) (looks : nat) (d : logdir) (c : conn)
  : view_end * conn * logdir :=
  let c := conn_write c (view_header §"RECORDING" username server startTime §"Press Ctrl+C to stop" 58) in
  match fs_open (ttyrec_name sessionID) d with
  | (None, d) => (Back, conn_waitForCtrlC (conn_write c not_available), d)
  | (Some s, d) =>
      let stops := is_open c && has_ctrl_c (inp c) in
      let '(out, e) := play_frames (if stops then Some looks else None) s in
      let c := fold_left (fun c p => conn_write c p.2) out c in
      match e with
      | Stopped => (Back, conn_waitForCtrlC c, d)
      | AtEnd _ =>
          let c := conn_write c (end_marker §"RECORDING") in
          if stops then (Back, conn_waitForCtrlC c, d) else (Blocked, conn_waitForCtrlC c, d)
      end
  end.

(** ** Lemmas *)

Lemma csi_rest_app params b t :
  Forall (fun c => is_csi_param c = true) params -> is_ascii_letter b = true ->
  csi_rest (params ++ b :: t) = Some t.
Proof.
  intros Hp Hb. induction Hp as [|c params Hc _ IH]; simpl; [|by rewrite Hc].
  rewrite Hb. destruct (is_csi_param b) eqn:Hc; [|done].
  unfold is_csi_param, is_digit, is_ascii_letter in *. bools; lia.
Qed.

Lemma bel_rest_app s t : Forall (fun c => bval c <> 7) s -> bel_rest (s ++ to_byte 7 :: t) = Some t.
Proof.
  induction 1 as [|c s Hc _ IH]; [done|]. cbn [app bel_rest].
  by replace (bval c =? 7) with false by lia.
Qed.

Lemma csi_rest_le s t : csi_rest s = Some t -> (length t <= length s)%nat.
Proof.
  induction s as [|b s IH]; simpl; [done|]. case_match; [intros ?%IH; lia|].
  case_match; [|done]. intros [= <-]. lia.
Qed.

Lemma bel_rest_le s t : bel_rest s = Some t -> (length t <= length s)%nat.
Proof. induction s as [|b s IH]; simpl; [done|]. case_match; [intros [= <-]; lia|intros ?%IH; lia]. Qed.

Lemma escape_rest_le s t : escape_rest s = Some t -> (length t <= length s)%nat.
Proof.
  destruct s as [|b s]; [done|]. cbn [escape_rest length].
  repeat case_match; try done; intros Hr; simplify_eq/=; try lia;
    first [apply csi_rest_le in Hr|apply bel_rest_le in Hr]; simpl; lia.
Qed.

Lemma strip_escapes_enough n s : (length s <= n)%nat -> strip_escapes n s = ansi_clean s.
Proof.
  unfold ansi_clean. revert n. induction s as [s IH] using (induction_ltof1 _ (@length byte)). unfold ltof in IH.
  intros n Hn. destruct s as [|b s]; [by destruct n|]. destruct n as [|n]; [simpl in Hn; lia|].
  simpl in Hn. cbn [length strip_escapes]. repeat case_match.
  - pose proof (escape_rest_le s _ ltac:(eassumption)) as Hle.
    rewrite IH by (simpl; lia). symmetry. apply IH; simpl; lia.
  - f_equal. apply IH; simpl; lia.
  - f_equal. apply IH; simpl; lia.
Qed.

Lemma ansi_clean_escape t u : escape_rest t = Some u -> ansi_clean (to_byte 27 :: t) = ansi_clean u.
Proof.
  intros H. unfold ansi_clean at 1. cbn [length strip_escapes].
  change (bval (to_byte 27) =? 27) with true. cbv iota. rewrite H.
  apply strip_escapes_enough. by apply escape_rest_le.
Qed.

Lemma ansi_clean_text s t :
  Forall (fun c => bval c <> 27) s -> ansi_clean (s ++ t) = s ++ ansi_clean t.
Proof.
  induction 1 as [|c s Hc _ IH]; [done|]. cbn [app]. unfold ansi_clean in *. cbn [length strip_escapes].
  replace (bval c =? 27) with false by lia. by f_equal.
Qed.

(** ** Properties *)

(** What a terminal writes: text, and the sequences of each form. *)
Inductive piece :=
  | Text (s : str)
  | Csi (params : str) (final : byte)
  | Charset (paren which : byte)
  | Keypad (b : byte)
  | Title (s : str).

Definition piece_ok (p : piece) : Prop :=
  match p with
  | Text s => Forall (fun c => bval c <> 27) s
  | Csi params final => Forall (fun c => is_csi_param c = true) params /\ is_ascii_letter final = true
  | Charset paren which => paren ∈ §"()" /\ which ∈ §"AB012"
  | Keypad b => b ∈ §"=>"
  | Title s => Forall (fun c => bval c <> 7) s
  end.

Definition render (p : piece) : str :=
  match p with
  | Text s => s
  | Csi params final => to_byte 27 :: §"[" ++ params ++ [final]
  | Charset paren which => [to_byte 27; paren; which]
  | Keypad b => [to_byte 27; b]
  | Title s => to_byte 27 :: §"]0;" ++ s ++ [to_byte 7]
  end.

Definition piece_text (p : piece) : str := match p with Text s => s | _ => [] end.

(** The text view shows the text and only the text: from any run of plain text
    and complete escape sequences of the five forms (cursor and colour, character set,
    keypad mode, window title), in any order, cleaning removes every sequence whole and
    keeps every byte of the text. *)
Theorem ansi_clean_spec (ps : list piece) (Hps : Forall piece_ok ps) :
  ansi_clean (concat (map render ps)) = concat (map piece_text ps).
Proof.
  induction Hps as [|p ps Hp _ IH]; [done|]. cbn [map concat].
  destruct p as [s|params final|paren which|b|s]; cbn [render piece_text piece_ok app] in *.
  - by rewrite ansi_clean_text, IH.
  - destruct Hp. rewrite <- IH. apply ansi_clean_escape. rewrite <- !app_assoc.
    by apply (csi_rest_app params final).
  - destruct Hp as [Hp Hw]. rewrite <- IH. apply ansi_clean_escape.
    cbn [escape_rest]. rewrite bool_decide_true by done.
    set_unfold in Hp. by destruct Hp as [->|[->|[]]].
  - rewrite <- IH. apply ansi_clean_escape. set_unfold in Hp. by destruct Hp as [->|[->|[]]].
  - rewrite <- IH. apply ansi_clean_escape. rewrite <- !app_assoc. by apply (bel_rest_app s).
Qed.

Lemma ansi_clean_spec_witness :
  ansi_clean (to_byte 27 :: §"[1;31mred" ++ to_byte 27 :: §"[0m $ " ++ to_byte 27 :: §"]0;t" ++ [to_byte 7])
  = §"red $ ".
Proof.
  apply (ansi_clean_spec [Csi §"1;31" "m"%char; Text §"red"; Csi §"0" "m"%char; Text §" $ "; Title §"t"]).
  repeat constructor; vm_compute; discriminate.
Defined.

(** One pass is not enough against text made for it: what is left of a sequence inside
    a sequence is a sequence again. *)
Example ansi_clean_nested :
  ansi_clean (to_byte 27 :: to_byte 27 :: §"[m[2J") = to_byte 27 :: §"[2J".
Proof. vm_compute. reflexivity. Qed.

Lemma i64_small z : - 2 ^ 63 <= z < 2 ^ 63 -> i64 z = z.
Proof. intros Hz. unfold i64. rewrite Z.mod_small by lia. lia. Qed.

Definition stamp_ns (t : Z * Z) : Z := t.1 * Second + t.2 * Microsecond.

Lemma frame_delay_exact prev cur :
  0 <= prev.1 < 2 ^ 32 -> 0 <= prev.2 < 2 ^ 32 -> 0 <= cur.1 < 2 ^ 32 -> 0 <= cur.2 < 2 ^ 32 ->
  frame_delay prev cur = Z.min maxDelay (stamp_ns cur - stamp_ns prev).
Proof.
  intros. unfold frame_delay, stamp_ns, Second, Microsecond.
  rewrite (i64_small (cur.1 - prev.1)), (i64_small (cur.2 - prev.2)) by lia.
  rewrite (i64_small ((_ - _) * 1000000000)), (i64_small ((_ - _) * 1000)) by lia.
  rewrite i64_small by lia. unfold maxDelay, Second. destruct (2 * 1000000000 <? _) eqn:E; bools; lia.
Qed.

(** The pauses and pieces of a recording whose frames are these. *)
Fixpoint timed (prev : option (Z * Z)) (fs : list (Z * Z * str)) : list (Z * str) :=
  match fs with
  | [] => []
  | (t, data) :: fs =>
      (match prev with Some prev => Z.min maxDelay (stamp_ns t - stamp_ns prev) | None => 0 end, data)
      :: timed (Some t) fs
  end.

Definition stamp_ok (t : Z * Z) : Prop := 0 <= t.1 < 2 ^ 32 /\ 0 <= t.2 < 2 ^ 32.

Lemma from_le_32 s : length s = 4%nat -> 0 <= from_le s < 2 ^ 32.
Proof. intros H. pose proof (from_le_range s). unfold zlen in *. rewrite H in *. simpl in *. lia. Qed.

Lemma play_loop_timed n prev s :
  (length s < n)%nat -> match prev with Some p => stamp_ok p | None => True end ->
  play_loop n None prev s = (timed prev (frames s), AtEnd None).
Proof.
  revert prev s. induction n as [|n IH]; intros prev s Hn Hp; [lia|].
  rewrite <- (parse_frames_enough (S n)) by lia. cbn [play_loop parse_frames stop_now fmap option_fmap option_map].
  destruct (zlen s <? 12) eqn:H12; [done|]. rewrite andb_false_r.
  set (cur := (from_le (take 4 s), _)). set (len := from_le (take 4 (drop 8 s))).
  assert (forall b : bool, (if b then None else None) = @None nat) as -> by (by intros []).
  destruct (zlen (drop 12 s) <? len); [done|].
  assert (stamp_ok cur) as Hcur.
  { unfold zlen in H12. split; apply from_le_32; rewrite length_take, ?length_drop; lia. }
  assert (length (drop (Z.to_nat len) (drop 12 s)) < n)%nat as Hlt
    by (unfold zlen in H12; rewrite !length_drop; lia).
  rewrite IH, <- (parse_frames_enough n) by (done || lia). cbn [timed].
  do 2 f_equal. f_equal. destruct prev as [prev|]; [|done].
  destruct Hp, Hcur. by apply frame_delay_exact.
Qed.

(** C33.  Playback keeps the recording's time.  If nobody stops it, it shows every whole
    frame of the file in order, each after the pause the stamps say - computed without
    overflow for any stamps a file can hold - cut at two seconds. *)
Theorem playback_faithful (s : str) : play_frames None s = (timed None (frames s), AtEnd None).
Proof. apply play_loop_timed; [lia|done]. Qed.

(** Playback ends by Ctrl-C only: the viewer returns to the menu exactly when the
    recording cannot be opened or the client sends a Ctrl-C; otherwise, a client that
    has hung up included, it never returns. *)
Theorem playback_blocks (sessionID username server : str) (startTime : Z) (looks : nat) (s : str)
    (d : logdir) (c : conn) (Hd : faults d = []) (Hs : files d !! ttyrec_name sessionID = Some s) (Ho : is_open c = true) :
  (playTTYRec sessionID username server startTime looks d c).1.1 = Blocked <-> has_ctrl_c (inp c) = false.
Proof.
  unfold playTTYRec, fs_open, fs_op. rewrite Hd, Hs. rewrite is_open_conn_write, Ho, inp_conn_write.
  destruct (has_ctrl_c (inp c)); cbn [andb].
  - destruct (play_frames (Some looks) s) as [out []]; split; discriminate.
  - rewrite playback_faithful. split; [done|]. intros _. reflexivity.
Qed.
