(* ===== verification/AdminOps.v ===== *)
(** * What the admin console does: the operations of [internal/proxy/admin_tui.go]

    The queries the console lists from, and the operations behind its forms: creating
    a user, setting a user's access to servers, adding a server with a new key or a
    pasted one, and installing a key over SSH.  Key generation and the SSH login with a
    password are interfaces. *)

From S2P Require Import Prelude GoStr Net Json Db Rbac Auth Vault Session Killswitch.
From stdpp Require Import options.
Open Scope Z_scope.

(** ** Interfaces *)

(** Generating an RSA key pair from a source of randomness: the PEM text of the private
    key, and the public key; and the line of an [authorized_keys] file. *)
Class KeyGen `{SSH} := {
  rsa_generate : Z -> res (str * pubkey);
  authorized_key : pubkey -> str;
}.

(** What is generated parses back, to a signer with that public key. *)
Class KeyGenLaws {SH : SSH} (KG : KeyGen) := {
  generated_parses : forall seed pem pub, rsa_generate seed = inr (pem, pub) ->
    exists s, parse_private_key pem = inr s /\ public_key s = pub;
}.

(** Logging in over SSH with a password, opening a session and running a command: the
    error of each. *)
Class PasswordSsh := {
  password_dial : str -> str -> str -> option error;
  password_session : str -> option error;
  password_run : str -> str -> option error;
}.

(** ** Lists *)

Record serverOption := Option_ {
  so_id : str; so_hostname : str; so_environment : str; so_selected : bool }.

Definition select (b : bool) (o : serverOption) : serverOption :=
  Option_ (so_id o) (so_hostname o) (so_environment o) b.

Section ops.
Context {PG : Postgres} {BC : Bcrypt} {VS : VaultServer} {SH : SSH} {KG : KeyGen} {PS : PasswordSsh} {UU : UuidText}.

(** The rows a query hands out; where the query fails there are none. *)
Definition rows_of {A} (r : res (list A * option error)) : list A :=
  match r with inl _ => [] | inr (rows, _) => rows end.

Definition queryRoles (d : database) : list str * database :=
  let '(_, d) := run ensure_unassigned d in
  let '(r, d) := query (fun d => inr (order_by (fun x => x) (map p_role (policies d)))) d in
  (§"unassigned" :: filter (fun r => r <> §"unassigned") (rows_of r), d).

Definition queryServers (d : database) : list serverOption * database :=
  let '(r, d) := query (fun d => inr (map (fun s => Option_ (s_id s) (s_hostname s) (s_environment s) false)
                                        (order_by s_hostname (servers d)))) d in
  (rows_of r, d).

(** The lines of the user list: id, name and role with bars between. *)
Definition user_lines (d : database) : list str * database :=
  let '(r, d) := query (fun d => inr (map (fun u => u_id u ++ §"|" ++ u_username u ++ §"|" ++ u_role u)
                                        (order_by u_username (users d)))) d in
  (rows_of r, d).

(** The servers with what the user can reach now: granted, or by role. *)
Definition access_rows (userID : str) (d : database) : list serverOption :=
  s ← servers d;
  g ← left_join (filter (fun g => g_server_id g = s_id s /\ g_user_id g = userID) (grants d));
  u ← users d;
  p ← left_join (filter (fun p => p_role p = u_role u) (policies d));
  if bool_decide (u_id u = userID)
  then [Option_ (s_id s) (s_hostname s) (s_environment s)
          (is_true (sql_or (Some (bool_decide (is_Some g))) (by_role u s p)))]
  else [].

(** A NULL does not scan into a bool: the option stays unselected. *)
Definition access_options (userID : str) (d : database) : list serverOption * database :=
  let '(r, d) := query (fun d => inr (order_by so_hostname (access_rows userID d))) d in
  (rows_of r, d).

(** ** Users *)

Definition createUser (salt : Z) (username password role : str) (d : database) : res str * database :=
  match bcrypt_generate salt password 12 with
  | inl err => (inl err, d)
  | inr hash => run (insert_user username hash role) d
  end.

(** The active sessions of a user on a server. *)
Definition sessions_on (userID serverID : str) (d : database) : list str :=
  map a_session_id (filter (fun a => a_user_id a = userID /\ a_server_id a = serverID /\ a_status a = §"active")
                      (active_sessions d)).

(** [s.ConnManager.Terminate] for each session; its errors are dropped. *)
Fixpoint kill_all (ids : list str) (cm : ConnectionManager) : list kill_action * ConnectionManager :=
  match ids with
  | [] => ([], cm)
  | id :: ids =>
      match uuid_parse id with
      | None => kill_all ids cm
      | Some sid =>
          let '(_, acts, cm) := TerminateHandle sid 0 0 cm in
          let '(acts', cm) := kill_all ids cm in (acts ++ acts', cm)
      end
  end.

(** One option of [assignServers]: the host name if a grant was taken away. *)
Definition assign_one (userID : str) (srv : serverOption) (cm : ConnectionManager) (d : database)
  : res (option str) * list kill_action * ConnectionManager * database :=
  if so_selected srv then
    match run (insert_grant userID (so_id srv)) d with
    | (inl err, d) => (inl err, [], cm, d)
    | (inr _, d) => (inr None, [], cm, d)
    end
  else
    match run (delete_grant userID (so_id srv)) d with
    | (inl err, d) => (inl err, [], cm, d)
    | (inr n, d) =>
        if 0 <? n then
          let '(r, d) := query (fun d => inr (sessions_on userID (so_id srv) d)) d in
          let '(acts, cm) := kill_all (rows_of r) cm in
          (inr (Some (so_hostname srv)), acts, cm, d)
        else (inr None, [], cm, d)
    end.

Fixpoint assign_loop (userID : str) (opts : list serverOption) (cm : ConnectionManager) (d : database)
  : res (list str) * list kill_action * ConnectionManager * database :=
  match opts with
  | [] => (inr [], [], cm, d)
  | srv :: opts =>
      match assign_one userID srv cm d with
      | (inl err, acts, cm, d) => (inl err, acts, cm, d)
      | (inr h, acts, cm, d) =>
          let '(r, acts', cm, d) := assign_loop userID opts cm d in
          ((fun hs => option_list h ++ hs) <$> r, acts ++ acts', cm, d)
      end
  end.

(** [assignServers]: the error of the UPDATE is dropped. *)
Definition assignServers (userID : str) (opts : list serverOption) (cm : ConnectionManager) (d : database)
  : res (list str) * list kill_action * ConnectionManager * database :=
  let '(_, d) := run (set_override userID) d in
  assign_loop userID opts cm d.

(** ** Servers *)

Definition vault_path (hostname : str) : str := §"secret/data/ssh/" ++ hostname.

(** [fmt.Errorf("what: %v", err)], which keeps the text only. *)
Definition errorf (what : str) (err : error) : error := ErrText (what ++ §": " ++ error_text err).

(** Vault first, then the table. *)
Definition store_server (c : Client) (hostname ip env sshUser pem fingerprint : str) (v : vstate) (d : database)
  : option error * vstate * database :=
  match PutSecret c v (vault_path hostname) pem fingerprint with
  | (Some err, v) => (Some (errorf §"vault provision failed" err), v, d)
  | (None, v) =>
      match run (insert_server hostname ip (vault_path hostname) env sshUser) d with
      | (inl err, d) => (Some (errorf §"db insert failed" err), v, d)
      | (inr _, d) => (None, v, d)
      end
  end.

(** The line for [authorized_keys]; the private key it also returns nobody uses. *)
Definition generateAndSaveServer (seed : Z) (c : Client) (hostname ip env sshUser : str) (v : vstate) (d : database)
  : res (str * str) * vstate * database :=
  match rsa_generate seed with
  | inl err => (inl err, v, d)
  | inr (pem, pub) =>
      match store_server c hostname ip env sshUser pem (FingerprintSHA256 pub) v d with
      | (Some err, v, d) => (inl err, v, d)
      | (None, v, d) => (inr (authorized_key pub, pem), v, d)
      end
  end.

Definition saveCustomServer (c : Client) (hostname ip env sshUser privPEM : str) (v : vstate) (d : database)
  : option error * vstate * database :=
  match parse_private_key privPEM with
  | inl err => (Some (errorf §"invalid private key provided" err), v, d)
  | inr s => store_server c hostname ip env sshUser privPEM (FingerprintSHA256 (public_key s)) v d
  end.

Definition install_command (pubKey : str) : str :=
  §"mkdir -p ~/.ssh && chmod 700 ~/.ssh && echo '" ++ TrimSpace pubKey
  ++ §"' >> ~/.ssh/authorized_keys && chmod 600 ~/.ssh/authorized_keys".

Definition autoProvisionKey (ip sshUser sshPass pubKey : str) : option error :=
  let targetAddr := ip ++ §":22" in
  match password_dial targetAddr sshUser sshPass with
  | Some err => Some (errorf §"ssh dial failed (incorrect credentials or offline)" err)
  | None =>
      match password_session targetAddr with
      | Some err => Some (errorf §"failed to open session" err)
      | None =>
          match password_run targetAddr (install_command pubKey) with
          | Some err => Some (errorf §"failed to inject key" err)
          | None => None
          end
      end
  end.
End ops.

(** ** Lemmas *)

Section ops_lemmas.
Context {PG : Postgres} {BC : Bcrypt} {VS : VaultServer} {SH : SSH} {KG : KeyGen} {PS : PasswordSsh} {UU : UuidText}.

Lemma queryRoles_reach d : db_reach d (queryRoles d).2.
Proof.
  unfold queryRoles. pose proof (run_reach ensure_unassigned d ltac:(intros; constructor)) as H1.
  destruct (run _ d) as [? d1].
  pose proof (query_reach (fun d => inr (order_by (fun x => x) (map p_role (policies d)))) d1) as H2.
  destruct (query _ d1) as [? d2]. by etrans.
Qed.

Lemma queryServers_reach d : db_reach d (queryServers d).2.
Proof.
  unfold queryServers. match goal with |- context [query ?q d] => pose proof (query_reach q d) as H end.
  by destruct (query _ d).
Qed.

Lemma user_lines_reach d : db_reach d (user_lines d).2.
Proof.
  unfold user_lines. match goal with |- context [query ?q d] => pose proof (query_reach q d) as H end.
  by destruct (query _ d).
Qed.

Lemma access_options_reach userID d : db_reach d (access_options userID d).2.
Proof.
  unfold access_options. match goal with |- context [query ?q d] => pose proof (query_reach q d) as H end.
  by destruct (query _ d).
Qed.

Lemma createUser_reach salt un pw role d : db_reach d (createUser salt un pw role d).2.
Proof.
  unfold createUser. destruct (bcrypt_generate _ _ _); [done|]. apply run_reach. intros. constructor.
Qed.

Lemma assign_one_reach userID srv cm d : db_reach d (assign_one userID srv cm d).2.
Proof.
  unfold assign_one. destruct (so_selected srv).
  - pose proof (run_reach (insert_grant userID (so_id srv)) d ltac:(intros; constructor)) as H.
    by destruct (run _ d) as [[|] d1].
  - pose proof (run_reach (delete_grant userID (so_id srv)) d ltac:(intros; constructor)) as H.
    destruct (run _ d) as [[err|n] d1]; [done|]. destruct (0 <? n); [|done].
    match goal with |- context [query ?q d1] => pose proof (query_reach q d1) as H2 end.
    destruct (query _ d1) as [r d2]. destruct (kill_all _ cm). by etrans.
Qed.

Lemma assign_loop_reach userID opts cm d : db_reach d (assign_loop userID opts cm d).2.
Proof.
  revert cm d. induction opts as [|srv opts IH]; intros cm d; [done|]. cbn [assign_loop].
  pose proof (assign_one_reach userID srv cm d) as H.
  destruct (assign_one userID srv cm d) as [[[[err|h] acts] cm1] d1]; [done|].
  specialize (IH cm1 d1). destruct (assign_loop userID opts cm1 d1) as [[[r acts'] cm2] d2]. by etrans.
Qed.

Lemma assignServers_reach userID opts cm d : db_reach d (assignServers userID opts cm d).2.
Proof.
  unfold assignServers. pose proof (run_reach (set_override userID) d ltac:(intros; constructor)) as H.
  destruct (run _ d) as [r d1]. etrans; [exact H|apply assign_loop_reach].
Qed.

Lemma store_server_reach c h ip env us pem fp v d : db_reach d (store_server c h ip env us pem fp v d).2.
Proof.
  unfold store_server. destruct (PutSecret _ _ _ _ _) as [[err|] v1]; [done|].
  pose proof (run_reach (insert_server h ip (vault_path h) env us) d ltac:(intros; constructor)) as H.
  by destruct (run _ d) as [[|] d1].
Qed.

Lemma generateAndSaveServer_reach seed c h ip env us v d : db_reach d (generateAndSaveServer seed c h ip env us v d).2.
Proof.
  unfold generateAndSaveServer. destruct (rsa_generate seed) as [|[pem pub]]; [done|].
  pose proof (store_server_reach c h ip env us pem (FingerprintSHA256 pub) v d) as H.
  by destruct (store_server _ _ _ _ _ _ _ _ _) as [[[|] v1] d1].
Qed.

Lemma saveCustomServer_reach c h ip env us pem v d : db_reach d (saveCustomServer c h ip env us pem v d).2.
Proof. unfold saveCustomServer. destruct (parse_private_key pem); [done|apply store_server_reach]. Qed.

Lemma kill_all_app a b cm :
  kill_all (a ++ b) cm
  = let '(acts, cm) := kill_all a cm in let '(acts', cm) := kill_all b cm in (acts ++ acts', cm).
Proof.
  revert cm. induction a as [|id a IH]; intros cm; simpl; [by destruct (kill_all b cm)|].
  destruct (uuid_parse id) as [sid|]; [|apply IH]. destruct (TerminateHandle _ _ _ _) as [[r x] cm1].
  rewrite IH. destruct (kill_all a cm1) as [y cm2]. destruct (kill_all b cm2) as [z cm3]. by rewrite app_assoc.
Qed.

Lemma map_ext_in_id {A} (f : A -> A) (l : list A) : (forall x, x ∈ l -> f x = x) -> map f l = l.
Proof.
  induction l as [|x l IH]; intros Hf; [done|]. simpl. rewrite Hf by left.
  rewrite IH; [done|]. intros y Hy. apply Hf. by right.
Qed.

Lemma update_user_same id f d :
  (forall u, u ∈ users d -> u_id u = id -> f u = u) -> update_user id f d = d.
Proof.
  intros Hf. unfold update_user. destruct d as [us ? ? ? ? ? ?]. unfold set_users. simpl in *. f_equal.
  apply map_ext_in_id. intros u Hu. case_bool_decide; auto.
Qed.

(** The databases that differ in the grants only. *)
Definition same_but_grants (d d' : database) : Prop := d' = set_grants d (grants d').

Lemma elem_of_insert_grant user server g d r d' :
  insert_grant user server d = (inr r, d') -> same_but_grants d d' /\
  (g ∈ grants d' <-> g = GrantRow user server \/ g ∈ grants d).
Proof.
  unfold insert_grant, same_but_grants. destruct d. simpl.
  case_bool_decide as Hin; [intros [= _ <-]; split; [done|]; split; [by right|intros [->|?]; done]|].
  repeat case_bool_decide; simpl; intros [= _ <-]. split; [done|]. simpl. set_solver.
Qed.

Lemma insert_grant_ok_iff user server d :
  user ∈ map u_id (users d) -> server ∈ map s_id (servers d) -> exists d', insert_grant user server d = (inr tt, d').
Proof.
  intros Hu Hs. unfold insert_grant. case_bool_decide; [by eexists|].
  rewrite !bool_decide_true by done. simpl. by eexists.
Qed.

(** A filter that every element passes. *)
Lemma filter_all {A} (P : A -> Prop) `{!forall x, Decision (P x)} (l : list A) :
  (forall x, x ∈ l -> P x) -> filter P l = l.
Proof.
  induction l as [|x l IH]; intros Hall; [done|]. rewrite filter_cons, decide_True by (apply Hall; left).
  rewrite IH; [done|]. intros y Hy. apply Hall. by right.
Qed.

Lemma list_filter_iff' {A} (P Q : A -> Prop) `{!forall x, Decision (P x)} `{!forall x, Decision (Q x)} (l : list A) :
  (forall x, x ∈ l -> P x <-> Q x) -> filter P l = filter Q l.
Proof.
  induction l as [|x l IH]; intros Hall; [done|]. rewrite !filter_cons.
  rewrite IH by (intros y Hy; apply Hall; by right).
  destruct (decide (P x)) as [Hp|Hp]; rewrite (Hall x ltac:(left)) in Hp; [by rewrite decide_True|by rewrite decide_False].
Qed.

(** What one option does to the grants, with a database that answers. *)
Lemma assign_one_spec userID srv cm d :
  db_ok d -> outcomes d = [] -> userID ∈ map u_id (users d) -> so_id srv ∈ map s_id (servers d) ->
  let was := bool_decide (GrantRow userID (so_id srv) ∈ grants d) in
  let lost := negb (so_selected srv) && was in
  exists d',
    assign_one userID srv cm d
    = (inr (if lost then Some (so_hostname srv) else None),
       (kill_all (if lost then sessions_on userID (so_id srv) d else []) cm).1,
       (kill_all (if lost then sessions_on userID (so_id srv) d else []) cm).2, d')
    /\ same_but_grants d d'
    /\ forall g, g ∈ grants d' <->
         (g = GrantRow userID (so_id srv) /\ so_selected srv = true) \/ (g <> GrantRow userID (so_id srv) /\ g ∈ grants d).
Proof.
  intros Hd Ho Hu Hs was lost. unfold assign_one. destruct (so_selected srv) eqn:Hsel; simpl in lost.
  - destruct (insert_grant_ok_iff userID (so_id srv) d Hu Hs) as [d' Hi].
    rewrite run_done, Hi by done. exists d'. unfold lost. split; [done|].
    destruct (elem_of_insert_grant _ _ (GrantRow userID (so_id srv)) d tt d' Hi) as [Hsame _]. split; [done|].
    intros g. destruct (elem_of_insert_grant _ _ g d tt d' Hi) as [_ ->].
    destruct (decide (g = GrantRow userID (so_id srv))); naive_solver.
  - rewrite run_done by done. unfold delete_grant. cbn zeta.
    set (keep := filter _ (grants d)). set (d' := set_grants d keep).
    assert ((0 <? zlen (grants d) - zlen keep) = was) as ->.
    { unfold was, keep, zlen. pose proof (ok_grants d Hd) as Hnd. case_bool_decide as Hin.
      - apply Z.ltb_lt. apply Z.lt_0_sub, inj_lt, (length_filter_lt _ _ (GrantRow userID (so_id srv))); [done|naive_solver].
      - rewrite filter_all; [apply Z.ltb_ge; lia|]. intros g Hg ->. done. }
    unfold lost, was. simpl. assert (same_but_grants d d') as Hsame by done.
    assert (forall g, g ∈ grants d' <-> (g = GrantRow userID (so_id srv) /\ false = true)
      \/ (g <> GrantRow userID (so_id srv) /\ g ∈ grants d)) as Hg.
    { intros g. unfold d', keep. simpl. rewrite list_elem_of_filter. naive_solver. }
    exists d'. case_bool_decide; [|done].
    rewrite (query_done _ d' (sessions_on userID (so_id srv) d)) by done. simpl. by destruct (kill_all _ cm).
Qed.
(** The row of a user whose access is managed server by server. *)
Definition with_override (u : user_row) : user_row :=
  UserRow (u_id u) (u_username u) (u_password_hash u) (u_role u) (u_failed_attempts u) (u_locked_until u) true.

(** The options that take a grant away. *)
Definition lost (userID : str) (opts : list serverOption) (d : database) : list serverOption :=
  filter (fun o => so_selected o = false /\ GrantRow userID (so_id o) ∈ grants d) opts.

(** The sessions that go with them. *)
Definition lost_sessions (userID : str) (opts : list serverOption) (d : database) : list str :=
  o ← lost userID opts d; sessions_on userID (so_id o) d.

Lemma assign_loop_spec userID opts cm d :
  db_ok d -> outcomes d = [] -> userID ∈ map u_id (users d) ->
  (forall o, o ∈ opts -> so_id o ∈ map s_id (servers d)) -> NoDup (map so_id opts) ->
  exists d',
    assign_loop userID opts cm d
    = (inr (map so_hostname (lost userID opts d)), (kill_all (lost_sessions userID opts d) cm).1,
       (kill_all (lost_sessions userID opts d) cm).2, d')
    /\ same_but_grants d d'
    /\ forall g, g ∈ grants d' <->
         (exists o, o ∈ opts /\ g = GrantRow userID (so_id o) /\ so_selected o = true)
         \/ (g ∈ grants d /\ forall o, o ∈ opts -> g <> GrantRow userID (so_id o)).
Proof.
  intros Hd Ho Hu. revert cm d Hd Ho Hu. induction opts as [|o opts IH]; intros cm d Hd Ho Hu Hs Hn.
  { exists d. split; [done|]. split; [by destruct d|]. set_solver. }
  apply NoDup_cons in Hn as [Hfresh Hn]. cbn [assign_loop].
  pose proof (assign_one_reach userID o cm d) as Hr.
  destruct (assign_one_spec userID o cm d Hd Ho Hu) as (d1 & E & Hsame & Hg1); [apply Hs; left|].
  rewrite E in Hr |- *. simpl in Hr. apply db_reach_ok in Hr; [|done].
  set (cm1 := (kill_all _ cm).2).
  destruct (IH cm1 d1) as (d2 & E2 & Hsame2 & Hg2); [done|by rewrite Hsame|by rewrite Hsame| |done|].
  { intros o' Ho'. rewrite Hsame. apply Hs. by right. }
  assert (forall o', o' ∈ opts -> GrantRow userID (so_id o') ∈ grants d1 <-> GrantRow userID (so_id o') ∈ grants d) as Hsub.
  { intros o' Ho'. rewrite Hg1. assert (GrantRow userID (so_id o') <> GrantRow userID (so_id o)); [|naive_solver].
    intros [= Hid]. apply Hfresh. rewrite <- Hid. apply elem_of_map_key. eauto. }
  assert (lost userID opts d1 = lost userID opts d) as El.
  { unfold lost. apply list_filter_iff'. intros o' Ho'. by rewrite Hsub. }
  assert (lost_sessions userID opts d1 = lost_sessions userID opts d) as Es.
  { unfold lost_sessions. rewrite El. by rewrite Hsame. }
  rewrite E2, El, Es. exists d2. split; [|split].
  - unfold lost_sessions, lost. rewrite filter_cons. unfold cm1.
    destruct (so_selected o) eqn:Hsel; cbn [negb andb].
    { rewrite decide_False by naive_solver. cbn [kill_all fst snd option_list app fmap]. done. }
    case_bool_decide; [rewrite decide_True by done|rewrite decide_False by naive_solver; done].
    rewrite bind_cons, kill_all_app. cbn [map].
    destruct (kill_all (sessions_on _ _ _) cm) as [a1 c1]. cbn [fst snd].
    by destruct (kill_all _ c1).
  - red. by rewrite Hsame2, Hsame.
  - intros g. rewrite Hg2, Hg1. set_unfold. naive_solver.
Qed.
(** A statement that answered ran, on the tables as they were. *)
Lemma run_inr {A} (stmt : database -> res A * database) d x d' :
  run stmt d = (inr x, d') -> exists os, stmt (set_outcomes d os) = (inr x, d').
Proof.
  unfold run. destruct (outcomes d) as [|[| | |] os] eqn:Ho; intros H; try discriminate; [|by exists os].
  exists []. rewrite <- H. destruct d. simpl in *. by subst.
Qed.

Lemma insert_server_row ho ip pa en us d d' :
  insert_server ho ip pa en us d = (inr tt, d') ->
  exists srv, servers d' = servers d ++ [srv] /\ varchar 255 pa = Some (s_vault_secret_path srv).
Proof.
  unfold insert_server. repeat case_match; try done; intros [= <-]. simpl. eauto.
Qed.

Lemma insert_server_taken ho ip pa en us d :
  (rune_count ho <= 100)%nat -> ho ∈ map s_hostname (servers d) ->
  exists err d', insert_server ho ip pa en us d = (inl err, d') /\ servers d' = servers d.
Proof.
  intros Hc Hin. unfold insert_server. destruct (negb _); [eauto|]. destruct (inet_in ip); [|eauto].
  unfold varchar at 1. rewrite (proj2 (Nat.leb_le _ _)) by done.
  destruct (varchar 255 pa), (varchar 50 en), (varchar 50 us); try eauto. simpl. case_bool_decide; [eauto|].
  rewrite bool_decide_true by done. eauto.
Qed.

Lemma store_server_done c h ip env us pem fp v d v' d' :
  store_server c h ip env us pem fp v d = (None, v', d') ->
  PutSecret c v (vault_path h) pem fp = (None, v')
  /\ exists srv, servers d' = servers d ++ [srv] /\ varchar 255 (vault_path h) = Some (s_vault_secret_path srv).
Proof.
  unfold store_server. destruct (PutSecret _ _ _ _ _) as [[err|] v1]; [done|].
  destruct (run _ d) as [[err|[]] d1] eqn:Hr; [done|]. intros [= <- <-]. split; [done|].
  apply run_inr in Hr as [os Hi]. apply insert_server_row in Hi. exact Hi.
Qed.
End ops_lemmas.
#[export] Hint Resolve queryRoles_reach queryServers_reach user_lines_reach access_options_reach createUser_reach
  assignServers_reach generateAndSaveServer_reach saveCustomServer_reach : zttp.

(** Creating a user.  Whatever the database and bcrypt answer, either an error is
    returned and the users are what they were, or the name was free, exactly one user
    is added and that user can log in with the password at once, in the role, with no
    server granted. *)
Lemma createUser_login `{PG : Postgres} `{BC : Bcrypt} cfg t salt un pw role hash d :
  db_ok d -> outcomes d = [] -> bcrypt_generate salt pw 12 = inr hash -> bcrypt_matches hash pw = true ->
  (rune_count un <= 50)%nat -> (rune_count hash <= 255)%nat -> (rune_count role <= 50)%nat ->
  match createUser salt un pw role d with
  | (inl e, d') => users d' = users d
  | (inr id, d') =>
      un ∉ map u_username (users d) /\ users d' = users d ++ [UserRow id un hash role 0 None false]
      /\ (forall serverID, GrantRow id serverID ∉ grants d')
      /\ Authenticate cfg t un pw d' = (inr (MkUser id un role), d', [Compared hash])
  end.
Proof.
  intros Hd Ho Hg Hm Hun Hha Hro. pose proof (createUser_reach salt un pw role d) as Hr.
  revert Hr. unfold createUser. rewrite Hg, run_done by done. unfold insert_user, varchar.
  destruct (text_ok un) eqn:Ht; [|done]. destruct (text_ok hash && text_ok role) eqn:Ht2; simpl; rewrite Ht2; [|done].
  rewrite !(proj2 (Nat.leb_le _ _)) by done. simpl. set (id := uuid_gen _).
  case_bool_decide as Hid; [done|]. case_bool_decide as Hn; [done|]. intros Hr.
  apply db_reach_ok in Hr; [|done]. simpl in Hr. set (u := UserRow id un hash role 0 None false) in *.
  split; [done|]. split; [done|]. split.
  { intros srv Hin. simpl in Hin. pose proof (ok_grants_fk d Hd) as Hfk. rewrite Forall_forall in Hfk.
    apply Hfk in Hin as [Hin _]. done. }
  set (d' := set_users _ _) in *.
  rewrite (Authenticate_right cfg t d' u pw); [|done|done|apply elem_of_app; right; left|done..].
  do 2 f_equal. apply update_user_same. intros v Hv Hvid.
  by rewrite (NoDup_map_inj u_id (users d') v u (ok_user_ids d' Hr) Hv ltac:(apply elem_of_app; right; left) Hvid).
Qed.

(** What can stop it: the name, a hash that is no text, an id that is not new. *)
Lemma createUser_refused `{PG : Postgres} `{BC : Bcrypt} salt un pw role hash d e d' :
  outcomes d = [] -> bcrypt_generate salt pw 12 = inr hash ->
  (rune_count un <= 50)%nat -> (rune_count hash <= 255)%nat -> (rune_count role <= 50)%nat ->
  text_ok un = true -> text_ok role = true ->
  createUser salt un pw role d = (inl e, d') ->
  un ∈ map u_username (users d) \/ text_ok hash = false \/ uuid_gen (next_uuid d) ∈ map u_id (users d).
Proof.
  intros Ho Hg Hun Hha Hro Hut Hrt. unfold createUser. rewrite Hg, run_done by done. unfold insert_user, varchar.
  rewrite Hut, Hrt. destruct (text_ok hash); [|by auto]. cbn [andb negb].
  rewrite !(proj2 (Nat.leb_le _ _)) by done. simpl. case_bool_decide; [by auto|]. case_bool_decide; [by auto|done].
Qed.

Lemma createUser_outcomes `{PG : Postgres} `{BC : Bcrypt} salt un pw role d :
  outcomes d = [] -> outcomes (createUser salt un pw role d).2 = [].
Proof.
  intros Ho. unfold createUser. destruct (bcrypt_generate _ _ _); [done|]. rewrite run_done by done.
  unfold insert_user. repeat case_match; done.
Qed.

(** ** Properties *)

(** C36.  Setting access.  With a database that answers, [assignServers] reports the
    hosts a grant was taken away for, and kills the user's active sessions on exactly
    those; afterwards the user reaches a server iff it was ticked, or was not offered
    and is granted - the role no longer counts; nobody else's access, and no session
    row, is touched.  So sessions the role alone had allowed go on. *)
Theorem assignServers_spec `{PG : Postgres} `{UU : UuidText} cm d u opts :
  db_ok d -> outcomes d = [] -> u ∈ users d ->
  (forall o, o ∈ opts -> so_id o ∈ map s_id (servers d)) -> NoDup (map so_id opts) ->
  let u' := with_override u in
  exists d',
    assignServers (u_id u) opts cm d
    = (inr (map so_hostname (lost (u_id u) opts d)), (kill_all (lost_sessions (u_id u) opts d) cm).1,
       (kill_all (lost_sessions (u_id u) opts d) cm).2, d')
    /\ u' ∈ users d'
    /\ (forall role s, may_access d' u' role s <->
          (exists o, o ∈ opts /\ so_id o = s_id s /\ so_selected o = true)
          \/ (s_id s ∉ map so_id opts /\ GrantRow (u_id u) (s_id s) ∈ grants d))
    /\ (forall v role s, v ∈ users d -> u_id v <> u_id u ->
          v ∈ users d' /\ (may_access d' v role s <-> may_access d v role s))
    /\ active_sessions d' = active_sessions d /\ servers d' = servers d /\ policies d' = policies d.
Proof.
  intros Hd Ho Hu Hs Hn u'. pose proof (run_reach (set_override (u_id u)) d ltac:(intros; constructor)) as Hr.
  apply db_reach_ok in Hr; [|done]. revert Hr. unfold assignServers. rewrite run_done by done. simpl.
  set (d1 := update_user _ _ d). intros Hd1.
  assert (map u_id (users d1) = map u_id (users d)) as Eid by (by apply map_update_user).
  destruct (assign_loop_spec (u_id u) opts cm d1) as (d' & E & Hsame & Hg);
    [done..|rewrite Eid; apply elem_of_map_key; eauto|done|done|].
  exists d'. split; [exact E|]. clear E.
  assert (forall v, v ∈ users d' <-> exists w, w ∈ users d /\ v = if bool_decide (u_id w = u_id u) then with_override w else w) as Husers.
  { intros v. rewrite Hsame. unfold d1. simpl. rewrite list_elem_of_fmap. naive_solver. }
  split; [apply Husers; exists u; by rewrite bool_decide_true|]. split; [|split].
  - intros role s. unfold may_access. rewrite Hg. split.
    + intros [[(o & Hin & [= Hid] & Hsel)|[Hin Hall]]|[[=] _]]; [left; exists o; auto|right]. split; [|exact Hin].
      intros (o & Ho' & Hid)%elem_of_map_key. apply (Hall o Ho'). rewrite Hid. reflexivity.
    + intros [(o & Hin & Hid & Hsel)|[Hout Hin]]; left; [left; exists o; rewrite <- Hid; auto|right]. split; [exact Hin|].
      intros o Ho' [= Hid]. apply Hout, elem_of_map_key. exists o. auto.
  - intros v role s Hv Hne. split; [apply Husers; exists v; by rewrite bool_decide_false|].
    assert (policies d' = policies d) as Hp by (by rewrite Hsame).
    unfold may_access. rewrite Hg, Hp. simpl. split; intros [H|H]; try (right; exact H); left.
    + destruct H as [(o & _ & [=] & _)|[H _]]; done.
    + right. split; [done|]. intros o _ [=]. done.
  - by rewrite Hsame.
Qed.

(** C40.  A server added in the console, with a new key or a pasted one, is in the table
    under its Vault path, and that path yields a working login key - but with the
    host-key check on, no host key passes it, since what is stored as the fingerprint
    is unpadded: the server cannot be reached. *)
Theorem added_server_unreachable `{PG : Postgres} `{VL : VaultServerLaws} `{KL : KeyGenLaws}
    c h ip env us pem v d v' d' m :
  (saveCustomServer c h ip env us pem v d = (None, v', d')
   \/ exists seed line, generateAndSaveServer seed c h ip env us v d = (inr (line, pem), v', d')) ->
  (rune_count (vault_path h) <= 255)%nat ->
  exists srv s raw fp, servers d' = servers d ++ [srv]
    /\ FetchPrivateKey c v' (s_vault_secret_path srv) m = (inr (Ephemeral (Some s) (Some raw)), m ++ [pem; pem])
    /\ FetchHostFingerprint c v' (s_vault_secret_path srv) = inr fp
    /\ forall hostname key, StrictHostKeyCallback fp false hostname key <> None.
Proof.
  intros H Hlen.
  assert (exists s k, parse_private_key pem = inr s
    /\ store_server c h ip env us pem (FingerprintSHA256 k) v d = (None, v', d')) as (s & k & Hp & Hst).
  { destruct H as [H|(seed & line & H)].
    - unfold saveCustomServer in H. destruct (parse_private_key pem) as [|s] eqn:Hp; [done|]. eauto.
    - unfold generateAndSaveServer in H. destruct (rsa_generate seed) as [|[pem' pub]] eqn:Hg; [done|].
      destruct (store_server _ _ _ _ _ _ _ _ _) as [[[err|] v1] d1] eqn:Hst; [done|]. simplify_eq.
      apply generated_parses in Hg as (s & Hs & _). eauto. }
  apply store_server_done in Hst as (Hput & srv & Hsrv & Hpath).
  unfold varchar in Hpath. rewrite (proj2 (Nat.leb_le _ _)) in Hpath by done. injection Hpath as Hpath.
  destruct (PutSecret_fetch c v v' _ pem _ s m Hput ltac:(done) Hp) as (Hfp & raw & Hkey & _).
  exists srv, s, raw, (FingerprintSHA256 k). rewrite <- Hpath. split_and!; [done..|]. intros. apply unpadded_never_matches.
Qed.

(** Adding a server under a name that is taken fails, and the table is as it was;
    but Vault is written first, so the key of the server that has the name is gone,
    replaced by the pasted one. *)
Theorem taken_name_replaces_key `{PG : Postgres} `{VL : VaultServerLaws} `{SH : SSH} c ip env us pem s v v' d srv m :
  outcomes d = [] -> srv ∈ servers d -> (rune_count (s_hostname srv) <= 100)%nat ->
  s_vault_secret_path srv = vault_path (s_hostname srv) -> parse_private_key pem = inr s ->
  PutSecret c v (vault_path (s_hostname srv)) pem (FingerprintSHA256 (public_key s)) = (None, v') ->
  exists err d' raw, saveCustomServer c (s_hostname srv) ip env us pem v d = (Some err, v', d')
    /\ servers d' = servers d
    /\ FetchPrivateKey c v' (s_vault_secret_path srv) m = (inr (Ephemeral (Some s) (Some raw)), m ++ [pem; pem]).
Proof.
  intros Ho Hs Hc Hpath Hp Hput.
  destruct (PutSecret_fetch c v v' _ pem _ s m Hput ltac:(done) Hp) as (_ & raw & Hkey & _).
  unfold saveCustomServer, store_server. rewrite Hp, Hput, run_done by done.
  destruct (insert_server_taken (s_hostname srv) ip (vault_path (s_hostname srv)) env us d) as (err & d' & E & Hsame);
    [done|apply elem_of_map_key; eauto|].
  rewrite E, Hpath. eauto 6.
Qed.

(** ** Witnesses *)

(** The seed is the key; what is generated parses in [demo_ssh]. *)
Definition demo_keygen : KeyGen (H := demo_ssh) :=
  @Build_KeyGen demo_ssh (fun seed => let k := §"-----K" ++ itoa seed in inr (k, k)) (fun k => §"ssh-rsa " ++ k).

Definition demo_keygen_laws : KeyGenLaws (SH := demo_ssh) demo_keygen.
Proof. constructor. intros seed pem pub [= <- <-]. eexists. split; reflexivity. Defined.

(** A password that is "pw" gets in. *)
Definition demo_password_ssh : PasswordSsh :=
  Build_PasswordSsh (fun _ _ p => if bool_decide (p = §"pw") then None else Some (ErrText §"ssh: handshake failed"))
    (fun _ => None) (fun _ _ => None).

(** A session jdoe's role allowed goes on; the one bob's grant allowed is killed. *)
Definition demo_access_db : database :=
  set_sessions demo_db [demo_session §"a" 10 §"active";
    SessionRow §"b" §"u-bob" §"s-prod" (Inet §"192.0.2.10" 32) 20 §"active"].

Lemma assignServers_spec_witness :
  let opts := [Option_ §"s-dev" §"dev-app-01" §"dev" true; Option_ §"s-prod" §"prod-db-01" §"production" false] in
  let cm := RegisterHandle §"a" 1 (RegisterHandle §"b" 2 NewConnectionManager) in
  (exists cm' d', assignServers (PG := demo_postgres) (UU := demo_uuid) §"u-bob" opts cm demo_access_db
    = (inr [§"prod-db-01"], [Cancel 2; CloseConns 2], cm', d'))
  /\ exists cm' d', assignServers (PG := demo_postgres) (UU := demo_uuid) §"u-jdoe" opts cm demo_access_db = (inr [], [], cm', d').
Proof.
  intros opts cm.
  assert (db_ok demo_access_db) as Hd.
  { constructor; simpl; try (apply (bool_decide_unpack _); vm_compute; exact I). }
  assert (forall o, o ∈ opts -> so_id o ∈ map s_id (servers demo_access_db)) as Ho.
  { intros o [->|[->|[]%not_elem_of_nil]%elem_of_cons]%elem_of_cons; [left|right; left]. }
  assert (NoDup (map so_id opts)) as Hn by (apply (bool_decide_unpack _); vm_compute; exact I).
  split.
  - destruct (assignServers_spec (PG := demo_postgres) (UU := demo_uuid) cm demo_access_db
      (UserRow §"u-bob" §"bob" §"h2" §"backend-dev" 0 None false) opts Hd eq_refl ltac:(right; left) Ho Hn)
      as (d' & E & _). eexists _, d'. exact E.
  - destruct (assignServers_spec (PG := demo_postgres) (UU := demo_uuid) cm demo_access_db
      (UserRow §"u-jdoe" §"jdoe" §"h1" §"sre-tier1" 0 None false) opts Hd eq_refl ltac:(left) Ho Hn)
      as (d' & E & _). eexists _, d'. exact E.
Defined.

Lemma added_server_unreachable_witness :
  exists fp, FetchHostFingerprint (VS := demo_vault) demo_client
      (saveCustomServer (PG := demo_postgres) (VS := demo_vault) (SH := demo_ssh) demo_client §"new-01" §"10.0.9.9" §"dev"
         §"root" §"-----X" [] demo_db).1.2 §"secret/data/ssh/new-01" = inr fp
    /\ forall hostname key, StrictHostKeyCallback (SH := demo_ssh) fp false hostname key <> None.
Proof.
  destruct (saveCustomServer _ _ _ _ _ _ _ _) as [[r v'] d'] eqn:E.
  assert (r = None) as -> by (vm_compute in E; congruence).
  destruct (added_server_unreachable (PG := demo_postgres) (VL := demo_vault_laws) (KL := demo_keygen_laws)
    demo_client §"new-01" §"10.0.9.9" §"dev" §"root" §"-----X" [] demo_db v' d' [] (or_introl E) ltac:(vm_compute; lia))
    as (srv & s & raw & fp & Hs & _ & Hfp & Hall).
  exists fp. split; [|exact Hall]. 
  assert (s_vault_secret_path srv = §"secret/data/ssh/new-01") as <-; [|exact Hfp].
  vm_compute in E. injection E as _ <-. vm_compute in Hs. injection Hs as <-. reflexivity.
Defined.

Lemma taken_name_replaces_key_witness :
  exists err d' raw, saveCustomServer (PG := demo_postgres) (VS := demo_vault) (SH := demo_ssh) demo_client §"prod-db-01"
      §"10.0.9.9" §"dev" §"root" §"-----X" demo_secrets demo_db
    = (Some err, (PutSecret (VS := demo_vault) demo_client demo_secrets §"secret/data/ssh/prod-db-01" §"-----X"
                    (FingerprintSHA256 (SH := demo_ssh) §"-----X")).2, d')
    /\ servers d' = servers demo_db
    /\ raw = 1%nat.
Proof.
  destruct (taken_name_replaces_key (PG := demo_postgres) (VL := demo_vault_laws) (SH := demo_ssh) demo_client §"10.0.9.9"
    §"dev" §"root" §"-----X" §"-----X" demo_secrets _ demo_db
    (ServerRow §"s-prod" §"prod-db-01" (Inet §"10.0.3.11" 32) §"secret/data/ssh/prod-db-01" §"root" §"production") []
    eq_refl ltac:(right; left) ltac:(vm_compute; lia) eq_refl eq_refl eq_refl) as (err & d' & raw & E & Hs & _).
  exists err, d', 1%nat. split; [exact E|]. split; [exact Hs|reflexivity].
Defined.
