(* ===== verification/AdminDraw.v ===== *)
(** * What the admin console shows: the draw functions of [internal/proxy/admin_tui.go]

    Each screen as the bytes it writes.  Three of them ask the database for what they
    show; a query that fails half way shows the rows it had. *)

From S2P Require Import Prelude GoStr GoTime Net Io Db Session AdminOps.
From stdpp Require Import options.
Open Scope Z_scope.

(** ** Forms *)

Record addUserForm := UserForm { uf_username : str; uf_password : str; uf_confirm : str; uf_role : str; uf_focus : Z }.
Record addServerForm := ServerForm { sf_hostname : str; sf_ip : str; sf_environment : str; sf_sshUser : str; sf_focus : Z }.
Record addServerAutoForm := AutoForm { af_username : str; af_password : str; af_focus : Z }.

Definition empty_uForm : addUserForm := UserForm [] [] [] [] 0.
Definition empty_sForm : addServerForm := ServerForm [] [] [] [] 0.
Definition empty_autoForm : addServerAutoForm := AutoForm [] [] 0.

(** ** Lines *)

(** [fmt.Sprintf("%s=== title ===%s\r\n", ColorCyan, ColorReset)]. *)
Definition title_line (title : str) : str := ColorCyan ++ §"=== " ++ title ++ §" ===" ++ ColorReset ++ CRLF.

(** A choice, marked and coloured where the cursor is. *)
Definition choice (color : str) (here : bool) (label : str) : str :=
  if here then color ++ §"> " ++ label ++ ColorReset ++ CRLF else §"  " ++ label ++ CRLF.

Definition choices (index : Z) (labels : list str) : str :=
  concat (imap (fun i l => choice ColorGreen (Z.of_nat i =? index) l) labels).

Definition drawField (label val : str) (hidden focused : bool) : str :=
  let displayVal := if hidden then Repeat §"*" (length val) else val in
  if focused then ColorGreen ++ §"> " ++ pad 11 label ++ §": " ++ displayVal ++ §"█" ++ ColorReset ++ CRLF
  else §"  " ++ pad 11 label ++ §": " ++ displayVal ++ CRLF.

(** ** Menus and forms *)

Definition main_options : list str :=
  [§"Add User"; §"Add Server"; §"Manage Server Access"; §"View Users"; §"View Servers"; §"View Audit Logs"; §"[ Back ]"].

Definition drawMainMenu (c : conn) (adminUsername : str) (index : Z) : conn :=
  conn_write c (title_line §"ZTTP Admin Console" ++ §"Logged in as: " ++ adminUsername ++ CRLF ++ CRLF
                ++ choices index main_options).

Definition drawAddUserForm (c : conn) (form : addUserForm) : conn :=
  conn_write c (title_line §"Create New User" ++ CRLF
    ++ drawField §"Username" (uf_username form) false (uf_focus form =? 0)
    ++ drawField §"Password" (uf_password form) true (uf_focus form =? 1)
    ++ drawField §"Confirm " (uf_confirm form) true (uf_focus form =? 2)
    ++ CRLF ++ choice ColorGreen (uf_focus form =? 3) §"[ Confirm ]"
    ++ choice ColorRed (uf_focus form =? 4) §"[ Back ]"
    ++ (if negb (bool_decide (uf_password form = uf_confirm form)) && (0 <? zlen (uf_confirm form))
        then CRLF ++ ColorRed ++ §"* Passwords do not match" ++ ColorReset ++ CRLF else [])).

Definition drawAddServerForm (c : conn) (form : addServerForm) : conn :=
  conn_write c (title_line §"Add New Server" ++ §"Step 1: Server Details" ++ CRLF ++ CRLF
    ++ drawField §"Hostname   " (sf_hostname form) false (sf_focus form =? 0)
    ++ drawField §"Private IP " (sf_ip form) false (sf_focus form =? 1)
    ++ drawField §"Environment" (sf_environment form) false (sf_focus form =? 2)
    ++ drawField §"Target User" (sf_sshUser form) false (sf_focus form =? 3)
    ++ CRLF ++ choice ColorGreen (sf_focus form =? 4) §"[ Next ]"
    ++ choice ColorRed (sf_focus form =? 5) §"[ Back ]").

Definition method_options : list str :=
  [§"Auto-Install (Provide SSH Password)"; §"Paste Existing Private Key";
   §"Manual (I will copy the public key myself)"; §"Back"].

Definition drawAddServerMethod (c : conn) (index : Z) : conn :=
  conn_write c (title_line §"Add New Server" ++ §"Step 2: Key Provisioning Method" ++ CRLF ++ CRLF
                ++ choices index method_options).

Definition drawAddServerAuto (c : conn) (form : addServerAutoForm) : conn :=
  conn_write c (title_line §"Auto-Install SSH Key"
    ++ §"ZTTP will temporarily log in using this password to inject the new key." ++ CRLF
    ++ §"The password will NOT be saved." ++ CRLF ++ CRLF
    ++ drawField §"SSH Username" (af_username form) false (af_focus form =? 0)
    ++ drawField §"SSH Password" (af_password form) true (af_focus form =? 1)
    ++ CRLF ++ choice ColorGreen (af_focus form =? 2) §"[ Provision Server ]"
    ++ choice ColorRed (af_focus form =? 3) §"[ Back ]").

Definition drawAddServerPaste (c : conn) (buffer : str) : conn :=
  conn_write c (title_line §"Paste Private Key"
    ++ §"Paste your multi-line PEM encoded private key below." ++ CRLF
    ++ §"When finished, press " ++ ColorGreen ++ §"CTRL+S" ++ ColorReset ++ §" to save." ++ CRLF
    ++ §"--------------------------------------------------" ++ CRLF ++ buffer ++ §"█").

Definition drawRoleSelect (c : conn) (roles : list str) (index : Z) : conn :=
  conn_write c (title_line §"Select Role" ++ CRLF ++ choices index roles).

Definition access_line (index : Z) (i : nat) (opt : serverOption) : str :=
  (if Z.of_nat i =? index then ColorGreen ++ §"> " else §"  ")
  ++ (if so_selected opt then §"[x]" else §"[ ]") ++ §" " ++ pad 15 (so_hostname opt)
  ++ §" (" ++ so_environment opt ++ §")" ++ ColorReset ++ CRLF.

Definition drawAssignAccess (c : conn) (username : str) (opts : list serverOption) (index : Z) (isEditMode : bool) : conn :=
  conn_write c (title_line §"Manage Server Access"
    ++ §"Select servers for user '" ++ username ++ §"' (UP/DOWN, ENTER to toggle)" ++ CRLF ++ CRLF
    ++ concat (imap (access_line index) opts) ++ CRLF
    ++ choice ColorGreen (index =? zlen opts) §"[ Assign ]"
    ++ choice ColorRed (index =? zlen opts + 1) (if isEditMode then §"[ Back ]" else §"[ Skip for now ]")).

(** The password it is handed it does not show. *)
Definition drawSummary (c : conn) (username role msg : str) (servers : list serverOption) : conn :=
  conn_write c (ColorGreen ++ msg ++ ColorReset ++ CRLF ++ CRLF
    ++ (if negb (HasPrefix msg §"Error") && negb (bool_decide (username = []))
        then ColorCyan ++ §"User Details:" ++ ColorReset ++ CRLF
             ++ §"Username: " ++ username ++ CRLF ++ §"Role:     " ++ role ++ CRLF ++ CRLF
             ++ ColorCyan ++ §"Assigned Servers:" ++ ColorReset ++ CRLF
             ++ concat (map (fun srv => §"- " ++ so_hostname srv ++ §" (" ++ so_environment srv ++ §")" ++ CRLF)
                         (filter (fun srv => so_selected srv = true) servers))
             ++ (if bool_decide (filter (fun srv => so_selected srv = true) servers = [])
                 then §"No specific access granted yet." ++ CRLF else [])
             ++ CRLF
        else [])
    ++ §"Press ENTER to return to Main Menu...").

(** ** Tables *)

Section tables.
Context {PG : Postgres}.

(** [now i] is the clock as the row [i] is written. *)
Definition user_table_line (now : nat -> Z) (i : nat) (u : user_row) : str :=
  pad 15 (u_username u) ++ §" " ++ pad 15 (u_role u) ++ §" "
  ++ pad 10 (if match u_locked_until u with Some t => now i <? t | None => false end then §"true" else §"false") ++ CRLF.

Definition drawViewUsers (c : conn) (now : nat -> Z) (d : database) : conn * database :=
  let '(r, d) := query (fun d => inr (order_by u_username (users d))) d in
  (conn_write c (title_line §"Registered Users" ++ CRLF
     ++ pad 15 §"USERNAME" ++ §" " ++ pad 15 §"ROLE" ++ §" " ++ pad 10 §"LOCKED" ++ CRLF
     ++ §"--------------------------------------------------" ++ CRLF
     ++ match r with
        | inr (rows, _) => concat (imap (user_table_line now) rows)
        | inl err => ColorRed ++ §"Error querying users: " ++ error_text err ++ ColorReset ++ CRLF
        end
     ++ CRLF ++ §"[ Press ENTER to go back ]"), d).

(** An [inet] as the driver hands it out: the mask is left out for a single host. *)
Definition inet_out (i : inet) : str :=
  if inet_mask i =? (if bool_decide (":"%char ∈ inet_addr i) then 128 else 32) then inet_addr i else inet_text i.

Definition server_table_line (s : server_row) : str :=
  pad 20 (s_hostname s) ++ §" " ++ pad 15 (inet_out (s_private_ip s)) ++ §" " ++ pad 15 (s_environment s)
  ++ §" " ++ pad 15 (s_ssh_user s) ++ CRLF.

Definition drawViewServers (c : conn) (d : database) : conn * database :=
  let '(r, d) := query (fun d => inr (order_by s_hostname (servers d))) d in
  (conn_write (clearScreen c) (title_line §"Registered Servers" ++ CRLF
     ++ pad 20 §"HOSTNAME" ++ §" " ++ pad 15 §"IP" ++ §" " ++ pad 15 §"ENVIRONMENT" ++ §" " ++ pad 15 §"TARGET USER" ++ CRLF
     ++ §"----------------------------------------------------------------------" ++ CRLF
     ++ match r with
        | inr (rows, _) =>
            concat (map server_table_line rows)
            ++ (if bool_decide (rows = []) then §"No servers found." ++ CRLF else [])
        | inl err => ColorRed ++ §"Error querying servers: " ++ error_text err ++ ColorReset ++ CRLF
        end
     ++ CRLF ++ ColorGreen ++ §"[ Press ENTER to go back ]" ++ ColorReset ++ CRLF), d).

(** The lines hold id and name with a bar between; the second part is shown. *)
Definition drawSelectUserForAssign (c : conn) (index : Z) (d : database) : conn * database :=
  let '(r, d) := query (fun d => inr (map (fun u => u_id u ++ §"|" ++ u_username u) (order_by u_username (users d)))) d in
  let users := rows_of r in
  (conn_write (clearScreen c) (title_line §"Select User to Manage Access" ++ CRLF
     ++ (if bool_decide (users = []) then §"No users found." ++ CRLF else [])
     ++ choices index (map (fun u => nth 1 (Split u "|"%char) []) users)
     ++ CRLF ++ choice ColorRed (index =? zlen users) §"[ Back ]"), d).
End tables.

(** ** Audit logs *)

Definition drawAuditServers (c : conn) (servers : list ServerSummary) (index : Z) : conn :=
  conn_write c (title_line §"ZTTP · Audit Logs" ++ CRLF ++ §"  Select a log to inspect:" ++ CRLF ++ CRLF
    ++ choice ColorGreen (index =? 0) §"★ ADMIN ACTIONS LOG"
    ++ choices (index - 1) (map (fun srv => pad 20 (SumHostname srv) ++ §" (" ++ SumEnvironment srv ++ §")") servers)
    ++ CRLF ++ choice ColorGreen (index =? zlen servers + 1) §"[ Back ]").

Definition session_label (sess : SessionRecord) : str :=
  pad 12 (SessUsername sess) ++ §"  " ++ format_minute (StartTime sess) ++ §" UTC" ++ §"  [" ++ Status sess ++ §"]".

Definition drawAuditSessions (c : conn) (hostname : str) (sessions : list SessionRecord) (index : Z) : conn :=
  conn_write c (title_line (§"Audit Logs · " ++ hostname) ++ CRLF ++ §"  Recent sessions (last 50):" ++ CRLF ++ CRLF
    ++ (if bool_decide (sessions = []) then §"  (no sessions recorded yet)" ++ CRLF else [])
    ++ choices index (map session_label sessions)
    ++ CRLF ++ choice ColorGreen (index =? zlen sessions) §"[ Back ]").

Definition audit_choices : list str := [§"View Text Log"; §"Play Recording"; §"Back"].

Definition audit_choice_line (index : Z) (i : nat) (opt : str) : str :=
  if Z.of_nat i =? index then ColorGreen ++ §"  > [ " ++ pad 16 opt ++ §" ]" ++ ColorReset ++ CRLF
  else §"    [ " ++ pad 16 opt ++ §" ]" ++ CRLF.

Definition drawAuditChoice (c : conn) (username serverName : str) (startTime : Z) (index : Z) : conn :=
  conn_write c (title_line (§"Session · " ++ username ++ §" → " ++ serverName)
    ++ §"  Started: " ++ format_minute startTime ++ §" UTC" ++ CRLF ++ CRLF
    ++ concat (imap (audit_choice_line index) audit_choices)).
