(* ===== verification/World.v ===== *)
(** * The state the handlers of a proxy share: [Server] of [internal/proxy/accept.go]

    The fields of [Server] that handling a connection changes, and the services behind
    it: the database, Vault and its client with the token, the registry of sessions, the
    audit directory, memory. *)

From S2P Require Import Prelude Config Db RateLimit Vault Killswitch AuditLog.
From stdpp Require Import options.
Open Scope Z_scope.

Section world.
Context {TB : TokenBucket} {VS : VaultServer}.

(** [w_kills]: what the registry has been made to do to other sessions, in order. *)
Record world := World {
  limiter : IPRateLimiter;
  w_db : database;
  w_vault : Client;
  w_secrets : vstate;
  w_cm : ConnectionManager;
  w_dir : logdir;
  w_mem : list str;
  w_kills : list kill_action;
}.

Definition with_limiter (w : world) x : world := World x (w_db w) (w_vault w) (w_secrets w) (w_cm w) (w_dir w) (w_mem w) (w_kills w).
Definition with_db (w : world) x : world := World (limiter w) x (w_vault w) (w_secrets w) (w_cm w) (w_dir w) (w_mem w) (w_kills w).
Definition with_vault (w : world) x : world := World (limiter w) (w_db w) x (w_secrets w) (w_cm w) (w_dir w) (w_mem w) (w_kills w).
Definition with_secrets (w : world) x : world := World (limiter w) (w_db w) (w_vault w) x (w_cm w) (w_dir w) (w_mem w) (w_kills w).
Definition with_cm (w : world) x : world := World (limiter w) (w_db w) (w_vault w) (w_secrets w) x (w_dir w) (w_mem w) (w_kills w).
Definition with_dir (w : world) x : world := World (limiter w) (w_db w) (w_vault w) (w_secrets w) (w_cm w) x (w_mem w) (w_kills w).
Definition with_mem (w : world) x : world := World (limiter w) (w_db w) (w_vault w) (w_secrets w) (w_cm w) (w_dir w) x (w_kills w).
Definition add_kills (w : world) acts : world := World (limiter w) (w_db w) (w_vault w) (w_secrets w) (w_cm w) (w_dir w) (w_mem w) (w_kills w ++ acts).
End world.
