(* ===== verification/AdminConsole.v ===== *)
(** * The admin console: [handleAdminConsole] of [internal/proxy/admin_tui.go]

    The sixteen screens as a state machine: the variables of the function as a record,
    one definition per [case] of the key switch, the loop around them, and the admin log
    before and after. *)

From S2P Require Import Prelude GoStr GoTime Net Io Db Rbac Auth RateLimit Vault Session Killswitch AuditLog AuditView AdminOps AdminDraw World.
From stdpp Require Import options.
Open Scope Z_scope.

Inductive adminState :=
  | StateMainMenu | StateAddUser | StateRoleSelect | StateSelectUserForAssign | StateAssignAccess
  | StateViewUsers | StateViewServers | StateSummary | StateAddServer | StateAddServerMethod
  | StateAddServerAuto | StateAddServerPaste | StateViewAuditServers | StateViewAuditSessions
  | StateViewAuditChoice | StateViewAdminLog.

(** ** The variables *)

Record console := Console {
  state : adminState;
  menuIndex : Z;
  uForm : addUserForm;
  sForm : addServerForm;
  autoForm : addServerAutoForm;
  pasteBuffer : str;
  createdUserMsg : str;
  createdUserID : str;
  isEditMode : bool;
  roles : list str;
  serverOpts : list serverOption;
  auditServers : list ServerSummary;
  auditSessions : list SessionRecord;
  selectedAuditServer : ServerSummary;
  selectedAuditSession : SessionRecord;
}.

Definition zero_time : Z := -62135596800 * Second.
Definition nil_uuid : str := §"00000000-0000-0000-0000-000000000000".

Definition initial_console : console :=
  Console StateMainMenu 0 empty_uForm empty_sForm empty_autoForm [] [] [] false [] [] [] []
    (MkSummary nil_uuid [] []) (MkSession nil_uuid nil_uuid nil_uuid None zero_time [] [] []).

Definition set_index (s : console) x := Console (state s) x (uForm s) (sForm s) (autoForm s) (pasteBuffer s) (createdUserMsg s) (createdUserID s) (isEditMode s) (roles s) (serverOpts s) (auditServers s) (auditSessions s) (selectedAuditServer s) (selectedAuditSession s).
Definition go (s : console) x := Console x 0 (uForm s) (sForm s) (autoForm s) (pasteBuffer s) (createdUserMsg s) (createdUserID s) (isEditMode s) (roles s) (serverOpts s) (auditServers s) (auditSessions s) (selectedAuditServer s) (selectedAuditSession s).
Definition set_uForm (s : console) x := Console (state s) (menuIndex s) x (sForm s) (autoForm s) (pasteBuffer s) (createdUserMsg s) (createdUserID s) (isEditMode s) (roles s) (serverOpts s) (auditServers s) (auditSessions s) (selectedAuditServer s) (selectedAuditSession s).
Definition set_sForm (s : console) x := Console (state s) (menuIndex s) (uForm s) x (autoForm s) (pasteBuffer s) (createdUserMsg s) (createdUserID s) (isEditMode s) (roles s) (serverOpts s) (auditServers s) (auditSessions s) (selectedAuditServer s) (selectedAuditSession s).
Definition set_autoForm (s : console) x := Console (state s) (menuIndex s) (uForm s) (sForm s) x (pasteBuffer s) (createdUserMsg s) (createdUserID s) (isEditMode s) (roles s) (serverOpts s) (auditServers s) (auditSessions s) (selectedAuditServer s) (selectedAuditSession s).
Definition set_paste (s : console) x := Console (state s) (menuIndex s) (uForm s) (sForm s) (autoForm s) x (createdUserMsg s) (createdUserID s) (isEditMode s) (roles s) (serverOpts s) (auditServers s) (auditSessions s) (selectedAuditServer s) (selectedAuditSession s).
Definition set_msg (s : console) x := Console (state s) (menuIndex s) (uForm s) (sForm s) (autoForm s) (pasteBuffer s) x (createdUserID s) (isEditMode s) (roles s) (serverOpts s) (auditServers s) (auditSessions s) (selectedAuditServer s) (selectedAuditSession s).
Definition set_userID (s : console) x := Console (state s) (menuIndex s) (uForm s) (sForm s) (autoForm s) (pasteBuffer s) (createdUserMsg s) x (isEditMode s) (roles s) (serverOpts s) (auditServers s) (auditSessions s) (selectedAuditServer s) (selectedAuditSession s).
Definition set_edit (s : console) x := Console (state s) (menuIndex s) (uForm s) (sForm s) (autoForm s) (pasteBuffer s) (createdUserMsg s) (createdUserID s) x (roles s) (serverOpts s) (auditServers s) (auditSessions s) (selectedAuditServer s) (selectedAuditSession s).
Definition set_roles (s : console) x := Console (state s) (menuIndex s) (uForm s) (sForm s) (autoForm s) (pasteBuffer s) (createdUserMsg s) (createdUserID s) (isEditMode s) x (serverOpts s) (auditServers s) (auditSessions s) (selectedAuditServer s) (selectedAuditSession s).
Definition set_opts (s : console) x := Console (state s) (menuIndex s) (uForm s) (sForm s) (autoForm s) (pasteBuffer s) (createdUserMsg s) (createdUserID s) (isEditMode s) (roles s) x (auditServers s) (auditSessions s) (selectedAuditServer s) (selectedAuditSession s).
Definition set_auditServers (s : console) x := Console (state s) (menuIndex s) (uForm s) (sForm s) (autoForm s) (pasteBuffer s) (createdUserMsg s) (createdUserID s) (isEditMode s) (roles s) (serverOpts s) x (auditSessions s) (selectedAuditServer s) (selectedAuditSession s).
Definition set_auditSessions (s : console) srv x := Console (state s) (menuIndex s) (uForm s) (sForm s) (autoForm s) (pasteBuffer s) (createdUserMsg s) (createdUserID s) (isEditMode s) (roles s) (serverOpts s) (auditServers s) x srv (selectedAuditSession s).
Definition set_auditSession (s : console) x := Console (state s) (menuIndex s) (uForm s) (sForm s) (autoForm s) (pasteBuffer s) (createdUserMsg s) (createdUserID s) (isEditMode s) (roles s) (serverOpts s) (auditServers s) (auditSessions s) (selectedAuditServer s) x.

(** ** Keys in menus and forms *)

(** UP and DOWN between 0 and [max]. *)
Definition moved (k : key) (max i : Z) : Z :=
  match k with
  | KUp => if 0 <? i then i - 1 else i
  | KDown => if i <? max then i + 1 else i
  | _ => i
  end.

Definition move (k : key) (max : Z) (s : console) : console := set_index s (moved k max (menuIndex s)).

Definition form_char (b : byte) : bool := (33 <=? bval b) && (bval b <=? 126).
Definition paste_char (b : byte) : bool := (32 <=? bval b) && (bval b <=? 126) || (bval b =? 9).

(** What a key does to the text of the field that has the focus. *)
Definition typed_key (k : key) (s : str) : str :=
  match k with
  | KBackspace => chop s
  | KChr b => if form_char b then s ++ [b] else s
  | _ => s
  end.

Definition edit_user (k : key) (f : addUserForm) : addUserForm :=
  let 'UserForm u p c r i := f in
  if i =? 0 then UserForm (typed_key k u) p c r i
  else if i =? 1 then UserForm u (typed_key k p) c r i
  else if i =? 2 then UserForm u p (typed_key k c) r i else f.

Definition focus_user (f : addUserForm) (i : Z) : addUserForm :=
  UserForm (uf_username f) (uf_password f) (uf_confirm f) (uf_role f) i.

Definition with_role (f : addUserForm) (r : str) : addUserForm :=
  UserForm (uf_username f) (uf_password f) (uf_confirm f) r (uf_focus f).

Definition edit_server (k : key) (f : addServerForm) : addServerForm :=
  let 'ServerForm h p e u i := f in
  if i =? 0 then ServerForm (typed_key k h) p e u i
  else if i =? 1 then ServerForm h (typed_key k p) e u i
  else if i =? 2 then ServerForm h p (typed_key k e) u i
  else if i =? 3 then ServerForm h p e (typed_key k u) i else f.

Definition focus_server (f : addServerForm) (i : Z) : addServerForm :=
  ServerForm (sf_hostname f) (sf_ip f) (sf_environment f) (sf_sshUser f) i.

Definition edit_auto (k : key) (f : addServerAutoForm) : addServerAutoForm :=
  let 'AutoForm u p i := f in
  if i =? 0 then AutoForm (typed_key k u) p i
  else if i =? 1 then AutoForm u (typed_key k p) i else f.

Definition focus_auto (f : addServerAutoForm) (i : Z) : addServerAutoForm := AutoForm (af_username f) (af_password f) i.

(** ** What comes from outside *)

Section console.
Context {PG : Postgres} {V6 : IPv6Text} {BC : Bcrypt} {TB : TokenBucket} {VS : VaultServer} {SH : SSH}
  {KG : KeyGen} {PS : PasswordSsh} {UU : UuidText}.

(** In one round of the loop: what others do while the console waits for the key, the
    clock, the randomness of bcrypt and of key generation, and how many looks a playback
    takes before it sees a Ctrl-C. *)
Record outside := Outside {
  o_others : world -> world;
  o_now : nat -> Z;
  o_salt : Z;
  o_seed : Z;
  o_looks : nat;
}.

(** How handling a key ends: the loop goes on, the function returns, an index is out of
    range, or a viewer never comes back. *)
Inductive verdict := Continue (s : console) (c : conn) (w : world) | Leave (c : conn) (w : world) | Panic | Hang.

(** [adminLog.Log] where there is a log. *)
Definition log_action (logging : bool) (now : Z) (event detail : str) (w : world) : world :=
  if logging then with_dir w (Log now event detail (w_dir w)) else w.

Definition quoted (s : str) : str := §"'" ++ s ++ §"'".

(** ** The cases of the key switch *)

Definition on_main (k : key) (s : console) (c : conn) (w : world) : verdict :=
  match k with
  | KEnter =>
      match menuIndex s with
      | 0 => Continue (go (set_edit (set_uForm s empty_uForm) false) StateAddUser) c w
      | 1 => Continue (go (set_sForm s empty_sForm) StateAddServer) c w
      | 2 => Continue (go s StateSelectUserForAssign) c w
      | 3 => Continue (go s StateViewUsers) c w
      | 4 => Continue (go s StateViewServers) c w
      | 5 =>
          let '((rows, err), d) := ListServersWithSessions (w_db w) in
          let rows := match err with Some _ => [] | None => rows end in
          Continue (go (set_auditServers s rows) StateViewAuditServers) c (with_db w d)
      | 6 => Leave (clearScreen c) w
      | _ => Continue (set_index s 0) c w
      end
  | _ => Continue (move k 6 s) c w
  end.

Definition on_add_server (k : key) (s : console) : console :=
  let f := sForm s in
  match k with
  | KUp | KDown => set_sForm s (focus_server f (moved k 5 (sf_focus f)))
  | KEnter =>
      if sf_focus f =? 4 then
        if bool_decide (sf_hostname f = []) || bool_decide (sf_ip f = []) || bool_decide (sf_environment f = [])
           || bool_decide (sf_sshUser f = [])
        then s else go s StateAddServerMethod
      else if sf_focus f =? 5 then go s StateMainMenu
      else set_sForm s (focus_server f (sf_focus f + 1))
  | _ => set_sForm s (edit_server k f)
  end.

(** After a server has been added, or not. *)
Definition server_summary (s : console) (msg : str) : console :=
  go (set_opts (set_uForm (set_msg s msg) empty_uForm) []) StateSummary.

Definition on_method (o : outside) (k : key) (s : console) (w : world) : console * world :=
  let f := sForm s in
  match k with
  | KEnter =>
      match menuIndex s with
      | 0 => (set_autoForm (set_index (go s StateAddServerAuto) (menuIndex s)) empty_autoForm, w)
      | 1 => (set_paste (set_index (go s StateAddServerPaste) (menuIndex s)) [], w)
      | 2 =>
          let '(r, v, d) := generateAndSaveServer (o_seed o) (w_vault w) (sf_hostname f) (sf_ip f) (sf_environment f)
                              (sf_sshUser f) (w_secrets w) (w_db w) in
          let w := with_db (with_secrets w v) d in
          match r with
          | inl err => (server_summary s (§"Error creating server: " ++ error_text err), w)
          | inr (pubKey, _) =>
              (server_summary s (§"Server " ++ quoted (sf_hostname f) ++ §" created!" ++ CRLF ++ CRLF
                 ++ §"Please manually install this Public Key on the server:" ++ CRLF ++ pubKey), w)
          end
      | 3 => (go s StateMainMenu, w)
      | _ => (s, w)
      end
  | _ => (move k 3 s, w)
  end.

Definition on_auto (o : outside) (k : key) (s : console) (w : world) : console * world :=
  let a := autoForm s in
  let f := sForm s in
  match k with
  | KUp | KDown => (set_autoForm s (focus_auto a (moved k 3 (af_focus a))), w)
  | KEnter =>
      if af_focus a =? 2 then
        if bool_decide (af_username a = []) || bool_decide (af_password a = []) then (s, w) else
        let '(r, v, d) := generateAndSaveServer (o_seed o) (w_vault w) (sf_hostname f) (sf_ip f) (sf_environment f)
                            (sf_sshUser f) (w_secrets w) (w_db w) in
        let w := with_db (with_secrets w v) d in
        match r with
        | inl err => (server_summary s (§"Error creating server: " ++ error_text err), w)
        | inr (pubKey, _) =>
            match autoProvisionKey (sf_ip f) (af_username a) (af_password a) pubKey with
            | Some err =>
                (server_summary s (§"Server saved, but auto-provisioning failed: " ++ error_text err ++ CRLF ++ CRLF
                   ++ §"Please manually install this Public Key:" ++ CRLF ++ pubKey), w)
            | None => (server_summary s (§"Server " ++ quoted (sf_hostname f) ++ §" successfully Auto-Provisioned!"), w)
            end
        end
      else if af_focus a =? 3 then (go s StateMainMenu, w)
      else (set_autoForm s (focus_auto a (af_focus a + 1)), w)
  | _ => (set_autoForm s (edit_auto k a), w)
  end.

Definition on_paste (k : key) (s : console) (w : world) : console * world :=
  let f := sForm s in
  match k with
  | KCtrlS =>
      if zlen (pasteBuffer s) <? 50 then (s, w) else
      let '(r, v, d) := saveCustomServer (w_vault w) (sf_hostname f) (sf_ip f) (sf_environment f) (sf_sshUser f)
                          (pasteBuffer s) (w_secrets w) (w_db w) in
      let w := with_db (with_secrets w v) d in
      match r with
      | Some err => (server_summary s (§"Error creating server with custom key: " ++ error_text err), w)
      | None =>
          (server_summary s (§"Server " ++ quoted (sf_hostname f) ++ §" created securely using provided Private Key!"), w)
      end
  | KEnter => (set_paste s (pasteBuffer s ++ CRLF), w)
  | KBackspace => (set_paste s (chop (pasteBuffer s)), w)
  | KChr b => (if paste_char b then set_paste s (pasteBuffer s ++ [b]) else s, w)
  | _ => (s, w)
  end.

Definition on_add_user (k : key) (s : console) (w : world) : console * world :=
  let f := uForm s in
  match k with
  | KUp | KDown => (set_uForm s (focus_user f (moved k 4 (uf_focus f))), w)
  | KEnter =>
      if uf_focus f =? 3 then
        if bool_decide (uf_username f = []) || bool_decide (uf_password f = [])
           || negb (bool_decide (uf_password f = uf_confirm f))
        then (s, w) else
        let '(rs, d) := queryRoles (w_db w) in
        (go (set_roles s rs) StateRoleSelect, with_db w d)
      else if uf_focus f =? 4 then (go s StateMainMenu, w)
      else (set_uForm s (focus_user f (uf_focus f + 1)), w)
  | _ => (set_uForm s (edit_user k f), w)
  end.

Definition on_role (logging : bool) (o : outside) (k : key) (s : console) (c : conn) (w : world) : verdict :=
  match k with
  | KEnter =>
      match zget (roles s) (menuIndex s) with
      | None => Panic
      | Some role =>
          let f := with_role (uForm s) role in
          let s := set_uForm s f in
          let '(r, d) := createUser (o_salt o) (uf_username f) (uf_password f) (uf_role f) (w_db w) in
          let w := with_db w d in
          match r with
          | inl err => Continue (go (set_msg s (§"Error creating user: " ++ error_text err)) StateSummary) c w
          | inr id =>
              let w := log_action logging (o_now o 0) §"[USER_ADD]"
                (§"admin created user " ++ quoted (uf_username f) ++ §" (role: " ++ uf_role f ++ §")") w in
              let '(opts, d) := queryServers (w_db w) in
              Continue (go (set_opts (set_userID (set_msg s (§"User " ++ quoted (uf_username f) ++ §" created successfully!")) id) opts)
                          StateAssignAccess) c (with_db w d)
          end
      end
  | _ => Continue (move k (zlen (roles s) - 1) s) c w
  end.

(** [serverOpts[menuIndex].selected = !serverOpts[menuIndex].selected]. *)
Definition toggle (i : Z) (opts : list serverOption) : list serverOption :=
  alter (fun o => select (negb (so_selected o)) o) (Z.to_nat i) opts.

Definition access_updated (revoked : list str) : str :=
  §"Access successfully updated!"
  ++ (if bool_decide (revoked = []) then []
      else CRLF ++ CRLF ++ §"Revoked access to: " ++ Join revoked §", " ++ CRLF
           ++ §"Active sessions for these servers were instantly killed.").

Definition on_assign (logging : bool) (o : outside) (k : key) (s : console) (c : conn) (w : world) : verdict :=
  let n := zlen (serverOpts s) in
  match k with
  | KEnter =>
      if menuIndex s <? n then
        if menuIndex s <? 0 then Panic
        else Continue (set_opts s (toggle (menuIndex s) (serverOpts s))) c w
      else if menuIndex s =? n then
        let '(r, acts, cm, d) := assignServers (createdUserID s) (serverOpts s) (w_cm w) (w_db w) in
        let w := add_kills (with_db (with_cm w cm) d) acts in
        match r with
        | inl err => Continue (go (set_msg s (§"Error managing access: " ++ error_text err)) StateSummary) c w
        | inr revoked =>
            Continue (go (set_msg s (access_updated revoked)) StateSummary) c
              (log_action logging (o_now o 0) §"[ACCESS_ASSIGN]"
                 (§"admin updated server access for user " ++ quoted (uf_username (uForm s))) w)
        end
      else Continue (go (set_opts s (map (select false) (serverOpts s))) StateSummary) c w
  | _ => Continue (move k (n + 1) s) c w
  end.

(** The list is queried again for every key. *)
Definition on_select_user (k : key) (s : console) (c : conn) (w : world) : verdict :=
  let '(lines, d) := user_lines (w_db w) in
  let w := with_db w d in
  match k with
  | KEnter =>
      if menuIndex s =? zlen lines then Continue (go s StateMainMenu) c w
      else if menuIndex s <? zlen lines then
        match zget lines (menuIndex s) with
        | None => Panic
        | Some line =>
            match Split line "|"%char with
            | id :: name :: role :: _ =>
                let f := UserForm name (uf_password (uForm s)) (uf_confirm (uForm s)) role (uf_focus (uForm s)) in
                let '(opts, d) := access_options id (w_db w) in
                Continue (go (set_edit (set_opts (set_uForm (set_userID s id) f) opts) true) StateAssignAccess) c (with_db w d)
            | _ => Panic
            end
        end
      else Continue s c w
  | _ => Continue (move k (zlen lines) s) c w
  end.

Definition on_audit_servers (logging : bool) (o : outside) (k : key) (s : console) (c : conn) (w : world) : verdict :=
  let maxIdx := zlen (auditServers s) + 1 in
  match k with
  | KEnter =>
      if menuIndex s =? maxIdx then Continue (go s StateMainMenu) c w
      else if menuIndex s =? 0 then
        let w := log_action logging (o_now o 0) §"[LOG_VIEW_TXT]" §"admin viewed admin-actions.log" w in
        let '(c, dir) := streamAdminLog (w_dir w) c in
        Continue s c (with_dir w dir)
      else
        match zget (auditServers s) (menuIndex s - 1) with
        | None => Panic
        | Some srv =>
            let '((rows, err), d) := ListSessionsByServer (SumID srv) (w_db w) in
            let rows := match err with Some _ => [] | None => rows end in
            Continue (go (set_auditSessions s srv rows) StateViewAuditSessions) c (with_db w d)
        end
  | _ => Continue (move k maxIdx s) c w
  end.

Definition on_audit_sessions (k : key) (s : console) (c : conn) (w : world) : verdict :=
  let maxIdx := zlen (auditSessions s) in
  match k with
  | KEnter =>
      if menuIndex s =? maxIdx then Continue (go s StateViewAuditServers) c w
      else if menuIndex s <? maxIdx then
        match zget (auditSessions s) (menuIndex s) with
        | None => Panic
        | Some sess => Continue (go (set_auditSession s sess) StateViewAuditChoice) c w
        end
      else Continue s c w
  | _ => Continue (move k maxIdx s) c w
  end.

Definition viewed (what : str) (s : console) : str :=
  what ++ §" of session " ++ SessionID (selectedAuditSession s) ++ §" (" ++ SessUsername (selectedAuditSession s)
  ++ §" → " ++ SumHostname (selectedAuditServer s) ++ §")".

Definition on_audit_choice (logging : bool) (o : outside) (k : key) (s : console) (c : conn) (w : world) : verdict :=
  let sess := selectedAuditSession s in
  let host := SumHostname (selectedAuditServer s) in
  match k with
  | KEnter =>
      match menuIndex s with
      | 0 =>
          let w := log_action logging (o_now o 0) §"[LOG_VIEW_TXT]" (viewed §"admin viewed text log" s) w in
          let '(c, dir) := streamTextLog (SessionID sess) (SessUsername sess) host (StartTime sess) (w_dir w) c in
          Continue (go s StateViewAuditSessions) c (with_dir w dir)
      | 1 =>
          let w := log_action logging (o_now o 0) §"[LOG_VIEW_REC]" (viewed §"admin played recording" s) w in
          match playTTYRec (SessionID sess) (SessUsername sess) host (StartTime sess) (o_looks o) (w_dir w) c with
          | (Back, c, dir) => Continue (go s StateViewAuditSessions) c (with_dir w dir)
          | (Blocked, _, _) => Hang
          end
      | 2 => Continue (go s StateViewAuditSessions) c w
      | _ => Continue s c w
      end
  | _ => Continue (move k 2 s) c w
  end.

(** A screen that ENTER leaves. *)
Definition on_notice (k : key) (s : console) : console :=
  match k with KEnter => go s StateMainMenu | _ => s end.

(** ** One round, and the loop *)

Definition draw (adminUsername : str) (o : outside) (s : console) (c : conn) (w : world) : conn * world :=
  let pure c := (c, w) in
  let table (r : conn * database) := (r.1, with_db w r.2) in
  match state s with
  | StateMainMenu => pure (drawMainMenu c adminUsername (menuIndex s))
  | StateAddUser => pure (drawAddUserForm c (uForm s))
  | StateAddServer => pure (drawAddServerForm c (sForm s))
  | StateAddServerMethod => pure (drawAddServerMethod c (menuIndex s))
  | StateAddServerAuto => pure (drawAddServerAuto c (autoForm s))
  | StateAddServerPaste => pure (drawAddServerPaste c (pasteBuffer s))
  | StateRoleSelect => pure (drawRoleSelect c (roles s) (menuIndex s))
  | StateSelectUserForAssign => table (drawSelectUserForAssign c (menuIndex s) (w_db w))
  | StateAssignAccess => pure (drawAssignAccess c (uf_username (uForm s)) (serverOpts s) (menuIndex s) (isEditMode s))
  | StateSummary =>
      pure (drawSummary c (uf_username (uForm s)) (uf_role (uForm s)) (createdUserMsg s) (serverOpts s))
  | StateViewUsers => table (drawViewUsers c (o_now o) (w_db w))
  | StateViewServers => table (drawViewServers c (w_db w))
  | StateViewAuditServers | StateViewAdminLog => pure (drawAuditServers c (auditServers s) (menuIndex s))
  | StateViewAuditSessions => pure (drawAuditSessions c (SumHostname (selectedAuditServer s)) (auditSessions s) (menuIndex s))
  | StateViewAuditChoice =>
      pure (drawAuditChoice c (SessUsername (selectedAuditSession s)) (SumHostname (selectedAuditServer s))
              (StartTime (selectedAuditSession s)) (menuIndex s))
  end.

Variables (adminUsername : str) (logging : bool).

Definition handle (o : outside) (k : key) (s : console) (c : conn) (w : world) : verdict :=
  let stay s := Continue s c w in
  let with_world (r : console * world) := Continue r.1 c r.2 in
  match state s with
  | StateMainMenu => on_main k s c w
  | StateAddServer => stay (on_add_server k s)
  | StateAddServerMethod => with_world (on_method o k s w)
  | StateAddServerAuto => with_world (on_auto o k s w)
  | StateAddServerPaste => with_world (on_paste k s w)
  | StateAddUser => with_world (on_add_user k s w)
  | StateRoleSelect => on_role logging o k s c w
  | StateAssignAccess => on_assign logging o k s c w
  | StateSummary | StateViewUsers | StateViewServers => stay (on_notice k s)
  | StateSelectUserForAssign => on_select_user k s c w
  | StateViewAuditServers => on_audit_servers logging o k s c w
  | StateViewAuditSessions => on_audit_sessions k s c w
  | StateViewAuditChoice => on_audit_choice logging o k s c w
  | StateViewAdminLog => stay s
  end.

(** One round: clear, draw, read a key, handle it. *)
Definition round (o : outside) (s : console) (c : conn) (w : world) : verdict :=
  let '(c, w) := draw adminUsername o s (clearScreen c) w in
  match conn_readKey c with
  | (inl _, c) => Leave c (o_others o w)
  | (inr k, c) =>
      let w := o_others o w in
      if decide (k = KCtrlC) then Leave (clearScreen c) w else handle o k s c w
  end.

(** Finished with nothing: a viewer blocks for ever. *)
Fixpoint console_loop (fuel : nat) (rounds : nat -> outside) (s : console) (c : conn) (w : world)
  : run_result (option (conn * world)) :=
  match fuel with
  | O => OutOfFuel
  | S fuel =>
      match round (rounds O) s c w with
      | Continue s c w => console_loop fuel (fun n => rounds (S n)) s c w
      | Leave c w => Finished (Some (c, w))
      | Panic => Panicked
      | Hang => Finished None
      end
  end.
End console.

(** One stay: the clock when it begins and ends, and what comes from outside in each
    round. *)
Record visit `{TokenBucket} `{VaultServer} := Visit { login : Z; logout : Z; rounds : nat -> outside }.

(** The function: the log is opened, or not, for the whole stay.  A fuel of one more
    than the client's input always suffices (see [console_total]). *)
Definition handleAdminConsole `{PG : Postgres} `{V6 : IPv6Text} `{BC : Bcrypt} `{TB : TokenBucket} `{VS : VaultServer}
    `{SH : SSH} {KG : KeyGen} `{PS : PasswordSsh} `{UU : UuidText} (v : visit) (c : conn) (adminUsername : str) (w : world)
  : run_result (option (conn * world)) :=
  let '(r, dir) := NewAdminLogger (w_dir w) in
  let logging := match r with inr _ => true | inl _ => false end in
  let w := log_action logging (login v) §"[LOGIN]" (§"admin " ++ quoted adminUsername ++ §" opened admin console") (with_dir w dir) in
  match console_loop adminUsername logging (S (length (inp c))) (rounds v) initial_console c w with
  | Finished (Some (c, w)) =>
      Finished (Some (c, log_action logging (logout v) §"[LOGOUT]" (§"admin " ++ quoted adminUsername ++ §" exited admin console") w))
  | r => r
  end.

(** ** Lemmas *)

Section console_lemmas.
Context {PG : Postgres} {V6 : IPv6Text} {BC : Bcrypt} {TB : TokenBucket} {VS : VaultServer} {SH : SSH}
  {KG : KeyGen} {PS : PasswordSsh} {UU : UuidText}.

(** The cursor is where the key switch may use it. *)
Definition cursor_ok (s : console) : Prop :=
  0 <= menuIndex s
  /\ match state s with
     | StateRoleSelect => menuIndex s < zlen (roles s)
     | StateViewAuditServers => menuIndex s <= zlen (auditServers s) + 1
     | _ => True
     end.

(** Nothing goes wrong in a round: the cursor stays in range, input is only ever
    consumed, and the database is changed by its statements only. *)
Definition good (c : conn) (w : world) (v : verdict) : Prop :=
  match v with
  | Continue s' c' w' => cursor_ok s' /\ (length (inp c') <= length (inp c))%nat /\ db_reach (w_db w) (w_db w')
  | Leave c' w' => db_reach (w_db w) (w_db w')
  | Panic => False
  | Hang => True
  end.

Lemma good_stay s c w : cursor_ok s -> good c w (Continue s c w).
Proof. done. Qed.

Lemma good_change s c w w' : cursor_ok s -> db_reach (w_db w) (w_db w') -> good c w (Continue s c w').
Proof. done. Qed.

Lemma moved_range k max i : 0 <= i -> 0 <= moved k max i /\ (i <= max -> moved k max i <= max).
Proof. unfold moved. destruct k; repeat case_match; lia. Qed.

Lemma cursor_go s x :
  match x with StateRoleSelect => 0 < zlen (roles s) | _ => True end -> cursor_ok (go s x).
Proof. intros Hx. split; [done|]. destruct x; simpl in *; try done. pose proof (zlen_nonneg (auditServers s)). lia. Qed.

Lemma cursor_move k max s :
  cursor_ok s ->
  match state s with
  | StateRoleSelect => max = zlen (roles s) - 1
  | StateViewAuditServers => max = zlen (auditServers s) + 1
  | _ => True
  end -> cursor_ok (move k max s).
Proof.
  intros [H0 Hr] Hm. destruct (moved_range k max (menuIndex s) H0) as [H1 H2]. split; [done|].
  unfold move. simpl. destruct (state s); try done; lia.
Qed.

Lemma queryRoles_nonempty d : 0 < zlen (queryRoles d).1.
Proof.
  unfold queryRoles. destruct (run _ d) as [? d1]. destruct (query _ d1) as [r d2]. cbn [fst].
  rewrite zlen_cons. pose proof (zlen_nonneg (filter (fun x => x <> §"unassigned") (rows_of r))). lia.
Qed.

Lemma length_split_aux s sep cur : length (split_aux s sep cur) = S (length (filter (fun b => b = sep) s)).
Proof.
  revert cur. induction s as [|b s IH]; intros cur; [done|]. cbn [split_aux]. rewrite filter_cons.
  destruct (decide (b = sep)); cbn [length]; by rewrite IH.
Qed.

(** A line of the user list always has its three parts, whatever is in a name. *)
Lemma Split_bar a b c : exists x y z rest, Split (a ++ §"|" ++ b ++ §"|" ++ c) "|"%char = x :: y :: z :: rest.
Proof.
  pose proof (length_split_aux (a ++ §"|" ++ b ++ §"|" ++ c) "|"%char []) as H. unfold Split.
  rewrite !filter_app, !length_app in H.
  assert (length (filter (fun b => b = "|"%char) §"|") = 1%nat) as E by reflexivity. rewrite E in H.
  destruct (split_aux _ _ _) as [|x [|y [|z rest]]]; cbn [length] in H; [lia..|]. by exists x, y, z, rest.
Qed.

Lemma ListServersWithSessions_reach d : db_reach d (ListServersWithSessions d).2.
Proof.
  unfold ListServersWithSessions. match goal with |- context [query ?q d] => pose proof (query_reach q d) as H end.
  by destruct (query _ d).
Qed.

Lemma ListSessionsByServer_reach id d : db_reach d (ListSessionsByServer id d).2.
Proof.
  unfold ListSessionsByServer. match goal with |- context [query ?q d] => pose proof (query_reach q d) as H end.
  by destruct (query _ d).
Qed.

Lemma inp_conn_waitForCtrlC c : (length (inp (conn_waitForCtrlC c)) <= length (inp c))%nat.
Proof. unfold conn_waitForCtrlC. destruct (is_open c); [apply waitForCtrlC_le|done]. Qed.

Lemma inp_io_Copy s c : inp (io_Copy s c) = inp c.
Proof.
  unfold io_Copy. generalize (length s). intros n. revert s c. induction n as [|n IH]; intros s c; [done|].
  destruct s; [done|]. cbn [copy_chunks]. by rewrite IH, inp_conn_write.
Qed.

Lemma streamAdminLog_inp d c : (length (inp (streamAdminLog d c).1) <= length (inp c))%nat.
Proof.
  unfold streamAdminLog. destruct (fs_open _ _) as [[s|] d']; cbn [fst];
    (etrans; [apply inp_conn_waitForCtrlC|]); by rewrite inp_conn_write, ?inp_io_Copy, ?inp_conn_write.
Qed.

Lemma streamTextLog_inp sid un srv t d c : (length (inp (streamTextLog sid un srv t d c).1) <= length (inp c))%nat.
Proof.
  unfold streamTextLog. destruct (fs_open _ _) as [[s|] d']; cbn [fst];
    (etrans; [apply inp_conn_waitForCtrlC|]); by rewrite ?inp_conn_write.
Qed.

Lemma playTTYRec_inp sid un srv t looks d c :
  (length (inp (playTTYRec sid un srv t looks d c).1.2) <= length (inp c))%nat.
Proof.
  assert (forall out c, inp (fold_left (fun c (p : Z * str) => conn_write c p.2) out c) = inp c) as Hfold.
  { induction out as [|p out IH]; intros c0; [done|]. simpl. by rewrite IH, inp_conn_write. }
  unfold playTTYRec. destruct (fs_open _ _) as [[s|] d']; cbn [fst snd].
  2:{ etrans; [apply inp_conn_waitForCtrlC|]. by rewrite !inp_conn_write. }
  destruct (play_frames _ s) as [out []]; [|case_match]; cbn [fst snd];
    (etrans; [apply inp_conn_waitForCtrlC|]); by rewrite ?inp_conn_write, Hfold, inp_conn_write.
Qed.

Lemma w_db_log_action logging now e d (w : world) : w_db (log_action logging now e d w) = w_db w.
Proof. by destruct logging. Qed.

(** Cases that change nothing but the variables of the console. *)
Ltac stays := first [apply good_stay|apply good_change; [|reflexivity]].

Lemma on_main_good k s c w : state s = StateMainMenu -> cursor_ok s -> good c w (on_main k s c w).
Proof.
  intros Hs Hc. unfold on_main. destruct k; try (stays; apply cursor_move; [done|by rewrite Hs]).
  pose proof (ListServersWithSessions_reach (w_db w)) as Hr.
  repeat case_match; simplify_eq/=;
    first [done | split; [by apply cursor_go|by split] | split; [split; simpl; [done|by rewrite Hs]|by split]].
Qed.

Lemma on_add_server_ok k s : state s = StateAddServer -> cursor_ok s -> cursor_ok (on_add_server k s).
Proof. intros Hs [H0 _]. unfold on_add_server. destruct k; repeat case_match; try done; split; simpl; by rewrite ?Hs. Qed.

Lemma on_method_good o k s c w :
  state s = StateAddServerMethod -> cursor_ok s -> let r := on_method o k s w in good c w (Continue r.1 c r.2).
Proof.
  intros Hs Hc. unfold on_method. destruct k; try (stays; apply cursor_move; [done|by rewrite Hs]).
  pose proof (generateAndSaveServer_reach (o_seed o) (w_vault w) (sf_hostname (sForm s)) (sf_ip (sForm s)) (sf_environment (sForm s))
    (sf_sshUser (sForm s)) (w_secrets w) (w_db w)) as Hr.
  destruct (generateAndSaveServer _ _ _ _ _ _ _ _) as [[r v] d]. destruct Hc as [H0 _].
  repeat case_match; simplify_eq/=; (split; [|by split]); split; simpl; try done; rewrite ?Hs; (done || lia).
Qed.

Lemma on_auto_good o k s c w :
  state s = StateAddServerAuto -> cursor_ok s -> let r := on_auto o k s w in good c w (Continue r.1 c r.2).
Proof.
  intros Hs [H0 _]. unfold on_auto.
  pose proof (generateAndSaveServer_reach (o_seed o) (w_vault w) (sf_hostname (sForm s)) (sf_ip (sForm s)) (sf_environment (sForm s))
    (sf_sshUser (sForm s)) (w_secrets w) (w_db w)) as Hr.
  destruct (generateAndSaveServer _ _ _ _ _ _ _ _) as [[r v] d].
  destruct k; repeat case_match; simplify_eq/=; (split; [|by split]); split; simpl; try done; rewrite ?Hs; (done || lia).
Qed.

Lemma on_paste_good k s c w :
  state s = StateAddServerPaste -> cursor_ok s -> let r := on_paste k s w in good c w (Continue r.1 c r.2).
Proof.
  intros Hs [H0 _]. unfold on_paste.
  pose proof (saveCustomServer_reach (w_vault w) (sf_hostname (sForm s)) (sf_ip (sForm s)) (sf_environment (sForm s))
    (sf_sshUser (sForm s)) (pasteBuffer s) (w_secrets w) (w_db w)) as Hr.
  destruct (saveCustomServer _ _ _ _ _ _ _ _) as [[r v] d].
  destruct k; repeat case_match; simplify_eq/=; (split; [|by split]); split; simpl; try done; rewrite ?Hs; (done || lia).
Qed.

Lemma on_add_user_good k s c w :
  state s = StateAddUser -> cursor_ok s -> let r := on_add_user k s w in good c w (Continue r.1 c r.2).
Proof.
  intros Hs [H0 _]. unfold on_add_user.
  pose proof (queryRoles_reach (w_db w)) as Hr. pose proof (queryRoles_nonempty (w_db w)) as Hn.
  destruct (queryRoles _) as [rs d].
  destruct k; repeat case_match; simplify_eq/=; (split; [|by split]); split; simpl; try done; rewrite ?Hs; (done || lia).
Qed.

Lemma on_role_good logging o k s c w : state s = StateRoleSelect -> cursor_ok s -> good c w (on_role logging o k s c w).
Proof.
  intros Hs Hc. unfold on_role. destruct k; try (stays; apply cursor_move; [done|by rewrite Hs]).
  destruct Hc as [H0 Hr]. rewrite Hs in Hr. destruct (zget_is_Some (roles s) (menuIndex s)) as [role ->]; [lia|].
  match goal with |- context [createUser ?a ?b ?x ?y ?d] => pose proof (createUser_reach a b x y d) as H1 end.
  destruct (createUser _ _ _ _ _) as [[err|id] d1]; cbn [snd] in H1; [by split; [apply cursor_go|split]|].
  rewrite w_db_log_action. cbn [w_db with_db]. pose proof (queryServers_reach d1) as H2.
  destruct (queryServers d1) as [opts d2]. split; [by apply cursor_go|]. split; [done|]. cbn [w_db with_db]. by etrans.
Qed.

Lemma on_assign_good logging o k s c w : state s = StateAssignAccess -> cursor_ok s -> good c w (on_assign logging o k s c w).
Proof.
  intros Hs Hc. unfold on_assign. destruct k; try (stays; apply cursor_move; [done|by rewrite Hs]).
  destruct Hc as [H0 _].
  pose proof (assignServers_reach (createdUserID s) (serverOpts s) (w_cm w) (w_db w)) as H1.
  destruct (assignServers _ _ _ _) as [[[r acts] cm] d]; cbn [snd] in H1.
  destruct (menuIndex s <? zlen (serverOpts s)).
  { destruct (menuIndex s <? 0) eqn:Hneg; [lia|]. stays. split; [done|]. simpl. by rewrite Hs. }
  destruct (menuIndex s =? zlen (serverOpts s)); [|stays; by apply cursor_go].
  destruct r as [err|revoked]; (split; [by apply cursor_go|]); (split; [done|]); rewrite ?w_db_log_action; done.
Qed.

Lemma on_select_user_good k s c w : state s = StateSelectUserForAssign -> cursor_ok s -> good c w (on_select_user k s c w).
Proof.
  intros Hs Hc. unfold on_select_user. pose proof (user_lines_reach (w_db w)) as Hr.
  assert (forall line, line ∈ (user_lines (w_db w)).1 -> exists x y z rest, Split line "|"%char = x :: y :: z :: rest) as Hsplit.
  { unfold user_lines. destruct (query _ (w_db w)) as [r d] eqn:Hq. cbn [fst]. intros line Hin.
    assert (line ∈ map (fun u => u_id u ++ §"|" ++ u_username u ++ §"|" ++ u_role u) (order_by u_username (users (w_db w))) \/
            exists os, line ∈ map (fun u => u_id u ++ §"|" ++ u_username u ++ §"|" ++ u_role u) (order_by u_username (users (set_outcomes (w_db w) os)))) as H.
    { revert Hin Hq. unfold query, rows_of. destruct (outcomes (w_db w)) as [|[| | |] os]; intros Hin [= <- _];
        try (by apply not_elem_of_nil in Hin); [by left|by left|]. left. by apply subseteq_take in Hin. }
    destruct H as [H|[os H]]; apply elem_of_map_key in H as (u & _ & <-); apply Split_bar. }
  destruct (user_lines (w_db w)) as [lines d]. cbn [fst snd] in *.
  destruct k; try (apply good_change; [apply cursor_move; [done|by rewrite Hs]|done]).
  destruct (menuIndex s =? zlen lines); [by split; [apply cursor_go|split]|].
  destruct (menuIndex s <? zlen lines) eqn:Hlt; [|by apply good_change].
  destruct Hc as [H0 _]. destruct (zget lines (menuIndex s)) as [line|] eqn:Hz;
    [|destruct (zget_is_Some lines (menuIndex s)) as [? ?]; [lia|congruence]].
  apply zget_Some in Hz as [_ Hz]. apply list_elem_of_lookup_2, Hsplit in Hz as (id & name & role & rest & ->).
  cbn [w_db with_db]. pose proof (access_options_reach id d) as H2. destruct (access_options id d) as [opts d2].
  split; [by apply cursor_go|]. split; [done|]. cbn [w_db with_db]. by etrans.
Qed.

Lemma on_audit_servers_good logging o k s c w :
  state s = StateViewAuditServers -> cursor_ok s -> good c w (on_audit_servers logging o k s c w).
Proof.
  intros Hs Hc. unfold on_audit_servers. destruct k; try (stays; apply cursor_move; [done|by rewrite Hs]).
  destruct (menuIndex s =? zlen (auditServers s) + 1) eqn:Hm; [stays; by apply cursor_go|].
  destruct (menuIndex s =? 0) eqn:Hz.
  { pose proof (streamAdminLog_inp (w_dir (log_action logging (o_now o 0) §"[LOG_VIEW_TXT]" §"admin viewed admin-actions.log" w)) c) as Hi.
    destruct (streamAdminLog _ _) as [c1 dir]. split; [done|]. split; [done|]. cbn [w_db with_dir]. by rewrite w_db_log_action. }
  destruct Hc as [H0 Hr]. rewrite Hs in Hr.
  destruct (zget_is_Some (auditServers s) (menuIndex s - 1)) as [srv ->]; [lia|].
  pose proof (ListSessionsByServer_reach (SumID srv) (w_db w)) as H1.
  destruct (ListSessionsByServer _ _) as [[rows err] d]. by split; [apply cursor_go|split].
Qed.

Lemma on_audit_sessions_good k s c w :
  state s = StateViewAuditSessions -> cursor_ok s -> good c w (on_audit_sessions k s c w).
Proof.
  intros Hs Hc. unfold on_audit_sessions. destruct k; try (stays; apply cursor_move; [done|by rewrite Hs]).
  destruct (menuIndex s =? zlen (auditSessions s)); [stays; by apply cursor_go|].
  destruct (menuIndex s <? zlen (auditSessions s)) eqn:Hlt; [|by stays].
  destruct Hc as [H0 _]. destruct (zget_is_Some (auditSessions s) (menuIndex s)) as [sess ->]; [lia|].
  stays. by apply cursor_go.
Qed.

Lemma on_audit_choice_good logging o k s c w :
  state s = StateViewAuditChoice -> cursor_ok s -> good c w (on_audit_choice logging o k s c w).
Proof.
  intros Hs Hc. unfold on_audit_choice. destruct k; try (stays; apply cursor_move; [done|by rewrite Hs]).
  set (sess := selectedAuditSession s). set (host := SumHostname (selectedAuditServer s)).
  destruct (menuIndex s) as [|[p|[p|p|]|]|p]; try (by stays; (done || apply cursor_go)).
  - match goal with |- context [streamTextLog ?a ?b ?x ?t ?dd ?cc] => pose proof (streamTextLog_inp a b x t dd cc) as Hi end.
    destruct (streamTextLog _ _ _ _ _ _) as [c1 dir]. split; [by apply cursor_go|]. split; [done|].
    cbn [w_db with_dir]. by rewrite w_db_log_action.
  - match goal with |- context [playTTYRec ?a ?b ?x ?t ?l ?dd ?cc] => pose proof (playTTYRec_inp a b x t l dd cc) as Hi end.
    destruct (playTTYRec _ _ _ _ _ _ _) as [[[] c1] dir]; [|done]. split; [by apply cursor_go|]. split; [done|].
    cbn [w_db with_dir]. by rewrite w_db_log_action.
Qed.

Lemma on_notice_ok k s : cursor_ok s -> cursor_ok (on_notice k s).
Proof. intros H. destruct k; try done; by apply cursor_go. Qed.

Lemma handle_good logging o k s c w : cursor_ok s -> good c w (handle logging o k s c w).
Proof.
  intros H. unfold handle. destruct (state s) eqn:Hs;
    first [by apply on_main_good | by apply on_add_user_good | by apply on_role_good | by apply on_select_user_good
          | by apply on_assign_good | by apply good_stay, on_notice_ok | by apply good_stay, on_add_server_ok
          | by apply on_method_good | by apply on_auto_good | by apply on_paste_good
          | by apply on_audit_servers_good | by apply on_audit_sessions_good | by apply on_audit_choice_good | by apply good_stay].
Qed.

Lemma draw_spec name o s c w :
  let '(c', w') := draw name o s c w in inp c' = inp c /\ db_reach (w_db w) (w_db w').
Proof.
  pose proof (query_reach (fun d => inr (map (fun u => u_id u ++ §"|" ++ u_username u) (order_by u_username (users d)))) (w_db w)) as H1.
  pose proof (query_reach (fun d => inr (order_by u_username (users d))) (w_db w)) as H2.
  pose proof (query_reach (fun d => inr (order_by s_hostname (servers d))) (w_db w)) as H3.
  unfold draw, drawSelectUserForAssign, drawViewUsers, drawViewServers.
  destruct (query _ (w_db w)) as [r1 d1], (query _ (w_db w)) as [r2 d2], (query _ (w_db w)) as [r3 d3].
  destruct (state s); (split; [etrans; [apply inp_conn_write|]; first [done|apply inp_clearScreen]|done]).
Qed.

(** Others keep the database well formed. *)
Definition considerate (o : outside) : Prop := forall w, db_ok (w_db w) -> db_ok (w_db (o_others o w)).

Lemma round_good name logging o s c w :
  cursor_ok s -> considerate o -> db_ok (w_db w) ->
  match round name logging o s c w with
  | Continue s' c' w' => cursor_ok s' /\ (length (inp c') < length (inp c))%nat /\ db_ok (w_db w')
  | Leave c' w' => db_ok (w_db w')
  | Panic => False
  | Hang => True
  end.
Proof.
  intros Hs Ho Hd. unfold round. pose proof (draw_spec name o s (clearScreen c) w) as Hdraw.
  destruct (draw _ _ _ _ _) as [c1 w1]. destruct Hdraw as [Hi Hr]. rewrite inp_clearScreen in Hi.
  pose proof (Ho w1 (db_reach_ok _ _ Hr Hd)) as Hd2.
  destruct (conn_readKey c1) as [[err|k] c2] eqn:Hk; [done|]. apply conn_readKey_shorter in Hk. rewrite Hi in Hk.
  case_decide; [done|]. pose proof (handle_good logging o k s c2 (o_others o w1) Hs) as Hg.
  destruct (handle _ _ _ _ _ _) as [s' c' w'|c' w'| |]; [|by apply (db_reach_ok _ _ Hg)|done..].
  destruct Hg as (Hs' & Hc' & Hr'). split; [done|]. split; [lia|]. by apply (db_reach_ok _ _ Hr').
Qed.

Lemma console_loop_total name logging fuel rounds s c w :
  (length (inp c) < fuel)%nat -> cursor_ok s -> (forall n, considerate (rounds n)) -> db_ok (w_db w) ->
  exists r, console_loop name logging fuel rounds s c w = Finished r
    /\ match r with Some (_, w') => db_ok (w_db w') | None => True end.
Proof.
  revert rounds s c w. induction fuel as [|fuel IH]; intros rounds s c w Hf Hs Ho Hd; [lia|]. cbn [console_loop].
  pose proof (round_good name logging (rounds O) s c w Hs (Ho O) Hd) as Hr.
  destruct (round _ _ _ _ _ _) as [s' c' w'|c' w'| |]; [|by eexists|done|by eexists].
  destruct Hr as (Hs' & Hc' & Hd'). apply IH; [lia|done|intros n; apply Ho|done].
Qed.

Lemma cursor_initial : cursor_ok initial_console.
Proof. done. Qed.

(** Every stay at the console ends or blocks in a viewer; nothing panics. *)
Lemma handleAdminConsole_total v c name w :
  (forall n, considerate (rounds v n)) -> db_ok (w_db w) ->
  exists r, handleAdminConsole v c name w = Finished r
    /\ match r with Some (_, w') => db_ok (w_db w') | None => True end.
Proof.
  intros Ho Hd. unfold handleAdminConsole. destruct (NewAdminLogger (w_dir w)) as [r dir].
  set (logging := match r with inl _ => _ | inr _ => _ end).
  destruct (console_loop_total name logging (S (length (inp c))) (rounds v) initial_console c
    (log_action logging (login v) §"[LOGIN]" (§"admin " ++ quoted name ++ §" opened admin console") (with_dir w dir)))
    as (res & -> & Hres); [lia|done|done|by rewrite w_db_log_action|].
  destruct res as [[c' w']|]; eexists; (split; [reflexivity|]); cbn; [by rewrite w_db_log_action|done].
Qed.
End console_lemmas.
