(* ===== verification/AdminProps.v ===== *)
(** * What the admin console guarantees

    Properties of whole stays at the console of AdminConsole.v: that it ends, what it
    leaves in the admin log, and what a typed sequence of keys does. *)

From S2P Require Import Prelude GoStr GoTime Net Io Config Db Rbac Auth RateLimit Vault Session Killswitch AuditLog AuditView AdminOps AdminDraw World AdminConsole.
From stdpp Require Import options.
Open Scope Z_scope.

Section stays.
Context {PG : Postgres} {V6 : IPv6Text} {BC : Bcrypt} {TB : TokenBucket} {VS : VaultServer} {SH : SSH}
  {KG : KeyGen} {PS : PasswordSsh} {UU : UuidText}.
Variables (name : str) (logging : bool).

(** ** One key at a time *)

(** Screens that are drawn without the database. *)
Definition drawn_plain (s : console) : bool :=
  match state s with
  | StateSelectUserForAssign | StateViewUsers | StateViewServers => false
  | _ => true
  end.

Lemma draw_plain o s c w :
  drawn_plain s = true -> exists c', draw name o s c w = (c', w) /\ inp c' = inp c /\ is_open c' = is_open c.
Proof.
  unfold drawn_plain, draw. destruct (state s); try discriminate; intros _;
    (eexists; split; [reflexivity|]; split; [apply inp_conn_write|apply is_open_conn_write]).
Qed.

Lemma conn_readKey_next c k i :
  is_open c = true -> readKey (inp c) = (Some k, i) -> conn_readKey c = (inr k, set_inp c i).
Proof. unfold conn_readKey. by intros -> ->. Qed.

(** A key on such a screen. *)
Lemma round_reads o s c w k i :
  drawn_plain s = true -> is_open c = true -> readKey (inp c) = (Some k, i) -> k <> KCtrlC ->
  exists c', round name logging o s c w = handle logging o k s c' (o_others o w) /\ inp c' = i /\ is_open c' = true.
Proof.
  intros Hs Hc Hk Hne. unfold round.
  destruct (draw_plain o s (clearScreen c) w Hs) as (c1 & -> & Hi & Hop).
  unfold clearScreen in Hi, Hop. rewrite inp_conn_write in Hi. rewrite is_open_conn_write, Hc in Hop.
  rewrite (conn_readKey_next c1 k i) by (done || by rewrite Hi). rewrite decide_False by done.
  exists (set_inp c1 i). split; [done|]. by split.
Qed.

(** The same with nobody else around. *)
Lemma round_key o s c w k i :
  drawn_plain s = true -> is_open c = true -> readKey (inp c) = (Some k, i) -> k <> KCtrlC -> o_others o w = w ->
  exists c', round name logging o s c w = handle logging o k s c' w /\ inp c' = i /\ is_open c' = true.
Proof.
  intros Hs Hc Hk Hne Ho. destruct (round_reads o s c w k i Hs Hc Hk Hne) as (c1 & Hr & Hi). rewrite Ho in Hr. by exists c1.
Qed.

Lemma round_ctrl_c o s c w i :
  drawn_plain s = true -> is_open c = true -> readKey (inp c) = (Some KCtrlC, i) -> o_others o w = w ->
  exists c', round name logging o s c w = Leave c' w.
Proof.
  intros Hs Hc Hk Ho. unfold round. destruct (draw_plain o s (clearScreen c) w Hs) as (c1 & -> & Hi & Hop).
  unfold clearScreen in Hi, Hop. rewrite inp_conn_write in Hi. rewrite is_open_conn_write, Hc in Hop.
  rewrite (conn_readKey_next c1 KCtrlC i) by (done || by rewrite Hi). rewrite decide_True, Ho by done. eauto.
Qed.

Lemma is_open_clearScreen c : is_open (clearScreen c) = is_open c.
Proof. apply is_open_conn_write. Qed.

Lemma draw_is_open o s c w : is_open (draw name o s c w).1 = is_open c.
Proof.
  unfold draw, drawSelectUserForAssign, drawViewUsers, drawViewServers.
  destruct (query _ (w_db w)) as [r1 d1], (query _ (w_db w)) as [r2 d2], (query _ (w_db w)) as [r3 d3].
  destruct (state s); (etrans; [apply is_open_conn_write|]; first [done|apply is_open_clearScreen]).
Qed.

(** Ctrl-C on such a screen. *)
Lemma round_leaves o s c w i :
  drawn_plain s = true -> is_open c = true -> readKey (inp c) = (Some KCtrlC, i) ->
  exists c' w', round name logging o s c w = Leave c' w'.
Proof.
  intros Hs Hc Hk. unfold round. destruct (draw_plain o s (clearScreen c) w Hs) as (c1 & -> & Hi & Hop).
  rewrite inp_clearScreen in Hi. rewrite is_open_clearScreen, Hc in Hop.
  rewrite (conn_readKey_next c1 KCtrlC i) by (done || by rewrite Hi). rewrite decide_True by done. eauto.
Qed.

Lemma queryRoles_head d : exists rs, (queryRoles d).1 = §"unassigned" :: rs.
Proof. unfold queryRoles. destruct (run _ d) as [? d1]. destruct (query _ d1) as [r d2]. by eexists. Qed.

(** ** Typing into the form of a new user *)

Definition type_into (str : str) (f : addUserForm) : addUserForm := fold_left (fun f b => edit_user (KChr b) f) str f.

Lemma type_into_username str p q r u :
  Forall (fun b => form_char b = true) str -> type_into str (UserForm u p q r 0) = UserForm (u ++ str) p q r 0.
Proof.
  intros H. revert u. induction H as [|b str Hb _ IH]; intros u; [by rewrite app_nil_r|].
  unfold type_into. cbn [fold_left]. replace (edit_user (KChr b) (UserForm u p q r 0)) with (UserForm (u ++ [b]) p q r 0)
    by (simpl; by rewrite Hb).
  fold (type_into str (UserForm (u ++ [b]) p q r 0)). by rewrite IH, <- app_assoc.
Qed.

Lemma type_into_password str p q r u :
  Forall (fun b => form_char b = true) str -> type_into str (UserForm u p q r 1) = UserForm u (p ++ str) q r 1.
Proof.
  intros H. revert p. induction H as [|b str Hb _ IH]; intros p; [by rewrite app_nil_r|].
  unfold type_into. cbn [fold_left]. replace (edit_user (KChr b) (UserForm u p q r 1)) with (UserForm u (p ++ [b]) q r 1)
    by (simpl; by rewrite Hb).
  fold (type_into str (UserForm u (p ++ [b]) q r 1)). by rewrite IH, <- app_assoc.
Qed.

Lemma type_into_confirm str p q r u :
  Forall (fun b => form_char b = true) str -> type_into str (UserForm u p q r 2) = UserForm u p (q ++ str) r 2.
Proof.
  intros H. revert q. induction H as [|b str Hb _ IH]; intros q; [by rewrite app_nil_r|].
  unfold type_into. cbn [fold_left]. replace (edit_user (KChr b) (UserForm u p q r 2)) with (UserForm u p (q ++ [b]) r 2)
    by (simpl; by rewrite Hb).
  fold (type_into str (UserForm u p (q ++ [b]) r 2)). by rewrite IH, <- app_assoc.
Qed.

Lemma readKey_form b i : form_char b = true -> readKey (InByte b :: i) = (Some (KChr b), i).
Proof. unfold form_char. intros H. bools. apply readKey_graphic. lia. Qed.

Lemma loop_typed o str i fuel s c w :
  state s = StateAddUser -> Forall (fun b => form_char b = true) str -> is_open c = true ->
  inp c = typed str ++ i -> o_others o w = w ->
  exists c', console_loop name logging (length str + fuel) (fun _ => o) s c w
    = console_loop name logging fuel (fun _ => o) (set_uForm s (type_into str (uForm s))) c' w
    /\ is_open c' = true /\ inp c' = i.
Proof.
  intros Hs Hstr Hc Hi Ho. revert s c Hs Hc Hi. induction Hstr as [|b str Hb _ IH]; intros s c Hs Hc Hi.
  { exists c. split; [|done]. by destruct s. }
  destruct (round_key o s c w (KChr b) (typed str ++ i)) as (c1 & Hr & Hi1 & Hc1);
    [unfold drawn_plain; by rewrite Hs|done|rewrite Hi; by apply readKey_form|done|done|].
  cbn [length Nat.add console_loop]. rewrite Hr. unfold handle. rewrite Hs. unfold on_add_user. cbn [fst snd].
  destruct (IH (set_uForm s (edit_user (KChr b) (uForm s))) c1) as (c2 & -> & Hc2); [done..|]. exists c2. by split.
Qed.

Lemma loop_enter o i fuel s c w :
  drawn_plain s = true -> is_open c = true -> inp c = InByte (to_byte 13) :: i -> o_others o w = w ->
  exists c', console_loop name logging (S fuel) (fun _ => o) s c w
    = match handle logging o KEnter s c' w with
      | Continue s c w => console_loop name logging fuel (fun _ => o) s c w
      | Leave c w => Finished (Some (c, w))
      | Panic => Panicked
      | Hang => Finished None
      end /\ is_open c' = true /\ inp c' = i.
Proof.
  intros Hs Hc Hi Ho. destruct (round_key o s c w KEnter i) as (c1 & Hr & Hi1 & Hc1); [done|done|by rewrite Hi|done|done|].
  exists c1. cbn [console_loop]. by rewrite Hr.
Qed.

Lemma loop_ctrl_c o i fuel s c w :
  drawn_plain s = true -> is_open c = true -> inp c = InByte (to_byte 3) :: i -> o_others o w = w ->
  exists c', console_loop name logging (S fuel) (fun _ => o) s c w = Finished (Some (c', w)).
Proof.
  intros Hs Hc Hi Ho. destruct (round_ctrl_c o s c w i) as (c1 & Hr); [done|done|by rewrite Hi|done|].
  exists c1. cbn [console_loop]. by rewrite Hr.
Qed.

(** The keys that create a user without a role: through the form and the two menus. *)
Definition CR : str := [to_byte 13].
Definition new_user_keys (un pw : str) : str := CR ++ un ++ CR ++ pw ++ CR ++ pw ++ CR ++ CR ++ CR ++ [to_byte 3].

(** What that does to the world. *)
Definition user_added (o : outside) (un pw : str) (w : world) : world :=
  let '(r, d) := createUser (o_salt o) un pw §"unassigned" (queryRoles (w_db w)).2 in
  let w := with_db w d in
  match r with
  | inl _ => w
  | inr _ =>
      let w := log_action logging (o_now o 0) §"[USER_ADD]"
                 (§"admin created user " ++ quoted un ++ §" (role: unassigned)") w in
      with_db w (queryServers (w_db w)).2
  end.

Ltac console_cbn :=
  cbv [handle state initial_console on_main menuIndex go set_edit on_add_user uForm uf_focus focus_user uf_username
       uf_password uf_confirm uf_role Z.eqb Z.add Pos.eqb Pos.add Pos.succ set_uForm set_roles empty_uForm fst snd
       sForm autoForm pasteBuffer createdUserMsg createdUserID isEditMode roles serverOpts auditServers auditSessions
       selectedAuditServer selectedAuditSession].

(** A field typed in full, and ENTER to the next. *)
Ltac form_field o Hi Hc c' Hc' Hi' :=
  match type of Hi with
  | inp ?c = typed ?str ++ ?i =>
      match goal with
      | |- context [console_loop _ _ (length str + ?f) _ ?s c ?w] =>
          destruct (loop_typed o str i f s c w) as (c' & -> & Hc' & Hi'); [done|done|exact Hc|exact Hi|by auto|]
      end
  end; console_cbn.

Ltac form_enter o Hi Hc c' Hc' Hi' :=
  match type of Hi with
  | inp ?c = _ :: ?i =>
      match goal with
      | |- context [console_loop _ _ (S ?f) _ ?s c ?w] =>
          destruct (loop_enter o i f s c w) as (c' & -> & Hc' & Hi'); [done|exact Hc|exact Hi|by auto|]
      end
  end; console_cbn.

Lemma loop_adds_user o un pw c w :
  (forall w, o_others o w = w) -> is_open c = true -> inp c = typed (new_user_keys un pw) ->
  un <> [] -> pw <> [] -> Forall (fun b => form_char b = true) un -> Forall (fun b => form_char b = true) pw ->
  exists c', console_loop name logging (S (length (inp c))) (fun _ => o) initial_console c w
    = Finished (Some (c', user_added o un pw w)).
Proof.
  intros Ho Hc Hi Hun Hpw Fun Fpw.
  assert (S (length (inp c)) = S (length un + S (length pw + S (length pw + 5)))) as ->.
  { rewrite Hi. unfold typed, new_user_keys, CR. rewrite length_map, !length_app. simpl. lia. }
  unfold typed, new_user_keys in Hi. rewrite !map_app in Hi. fold (typed un) (typed pw) in Hi. cbn [CR map app] in Hi.
  form_enter o Hi Hc c1 Hc1 Hi1. clear c Hc Hi.
  form_field o Hi1 Hc1 c2 Hc2 Hi2. rewrite type_into_username by done. rewrite app_nil_l.
  form_enter o Hi2 Hc2 c3 Hc3 Hi3.
  form_field o Hi3 Hc3 c4 Hc4 Hi4. rewrite type_into_password by done. rewrite app_nil_l.
  form_enter o Hi4 Hc4 c5 Hc5 Hi5.
  form_field o Hi5 Hc5 c6 Hc6 Hi6. rewrite type_into_confirm by done. rewrite app_nil_l.
  form_enter o Hi6 Hc6 c7 Hc7 Hi7.
  form_enter o Hi7 Hc7 c8 Hc8 Hi8.
  rewrite (bool_decide_false (un = [])), (bool_decide_false (pw = [])), (bool_decide_true (pw = pw)) by done. cbn [orb negb].
  unfold user_added. pose proof (queryRoles_head (w_db w)) as [rs Hrs].
  destruct (queryRoles (w_db w)) as [roles d]. cbn [fst snd] in *. subst roles. console_cbn.
  form_enter o Hi8 Hc8 c9 Hc9 Hi9. cbv [on_role]. console_cbn.
  replace (zget (§"unassigned" :: rs) 0) with (Some (§"unassigned" : str)) by done. cbv [with_role]. console_cbn.
  cbn [w_db with_db]. destruct (createUser _ _ _ _ _) as [[err|id] d2].
  - match goal with |- context [console_loop _ _ (S ?f) _ ?s ?c ?w] =>
      destruct (loop_ctrl_c o [] f s c w) as (c' & ->); [done|exact Hc9|exact Hi9|by auto|] end.
    by exists c'.
  - destruct (queryServers _) as [opts d3].
    match goal with |- context [console_loop _ _ (S ?f) _ ?s ?c ?w] =>
      destruct (loop_ctrl_c o [] f s c w) as (c' & ->); [done|exact Hc9|exact Hi9|by auto|] end.
    by exists c'.
Qed.

(** ** Where it can block *)

(** A viewer that never ends: the recording opens, and no Ctrl-C follows. *)
Lemma playTTYRec_blocks sid un srv t looks d c :
  (playTTYRec sid un srv t looks d c).1.1 = Blocked
  <-> is_Some (fs_open (ttyrec_name sid) d).1 /\ (is_open c && has_ctrl_c (inp c)) = false.
Proof.
  unfold playTTYRec. destruct (fs_open _ _) as [[s|] d']; cbn [fst].
  2:{ split; [done|]. intros [[? ?] _]. done. }
  rewrite is_open_conn_write, inp_conn_write. destruct (is_open c && has_ctrl_c (inp c)).
  - destruct (play_frames _ s) as [out []]; split; try done; by intros [_ ?].
  - unfold play_frames. rewrite play_loop_timed by (lia || done). split; [|done]. intros _. by split.
Qed.

(** The recording of the session that is chosen on the screen, as it can be opened when
    the line about its playback has been written to the log. *)
Definition recording_opens (o : outside) (s : console) (w : world) : Prop :=
  is_Some (fs_open (ttyrec_name (SessionID (selectedAuditSession s)))
             (w_dir (log_action logging (o_now o 0) §"[LOG_VIEW_REC]" (viewed §"admin played recording" s) w))).1.

Lemma handle_hang o k s c w :
  handle logging o k s c w = Hang
  <-> state s = StateViewAuditChoice /\ menuIndex s = 1 /\ k = KEnter
      /\ recording_opens o s w /\ (is_open c && has_ctrl_c (inp c)) = false.
Proof.
  unfold recording_opens. split.
  - unfold handle. destruct (state s) eqn:Hs; try discriminate.
    + unfold on_main. destruct k; try discriminate. repeat case_match; discriminate.
    + unfold on_role. destruct k; try discriminate. repeat case_match; discriminate.
    + unfold on_select_user. destruct k; repeat case_match; discriminate.
    + unfold on_assign. destruct k; try discriminate. repeat case_match; discriminate.
    + unfold on_audit_servers. destruct k; try discriminate. repeat case_match; discriminate.
    + unfold on_audit_sessions. destruct k; try discriminate. repeat case_match; discriminate.
    + unfold on_audit_choice. destruct k; try discriminate.
      destruct (menuIndex s) as [|[p|[p|p|]|]|p]; try discriminate; [by destruct (streamTextLog _ _ _ _ _ _)|].
      match goal with |- context [playTTYRec ?a ?b ?x ?t ?l ?dd ?cc] => pose proof (playTTYRec_blocks a b x t l dd cc) as Hp end.
      destruct (playTTYRec _ _ _ _ _ _ _) as [[[] c1] dir]; [discriminate|]. intros _. destruct (proj1 Hp eq_refl) as [??]. by split_and!.
  - intros (Hs & Hm & -> & Ho & Hc). unfold handle, on_audit_choice. rewrite Hs, Hm.
    match goal with |- context [playTTYRec ?a ?b ?x ?t ?l ?dd ?cc] => pose proof (playTTYRec_blocks a b x t l dd cc) as [_ Hp] end.
    destruct (playTTYRec _ _ _ _ _ _ _) as [[[] c1] dir]; [|done]. by discriminate Hp.
Qed.

(** A round in which the console hangs: ENTER on the playback of a recording that is
    there, and no Ctrl-C in all that the client sends after it. *)
Definition starts_playback (o : outside) (s : console) (c : conn) (w : world) : Prop :=
  state s = StateViewAuditChoice /\ menuIndex s = 1 /\ is_open c = true
  /\ exists i, readKey (inp c) = (Some KEnter, i) /\ has_ctrl_c i = false /\ recording_opens o s (o_others o w).

Lemma round_hang o s c w : round name logging o s c w = Hang <-> starts_playback o s c w.
Proof.
  split.
  - intros Hr. destruct (is_open c) eqn:Hc.
    2:{ revert Hr. unfold round. destruct (draw _ _ _ _ _) as [c1 w1] eqn:Ed.
        assert (is_open c1 = false) as H1 by (pose proof (draw_is_open o s (clearScreen c) w) as H; rewrite Ed in H; cbn [fst] in H; by rewrite H, is_open_clearScreen).
        unfold conn_readKey. by rewrite H1. }
    assert (state s = StateViewAuditChoice /\ menuIndex s = 1) as [Hs Hm].
    { revert Hr. unfold round. destruct (draw _ _ _ _ _) as [c1 w1]. destruct (conn_readKey c1) as [[err|k] c2]; [done|].
      case_decide; [done|]. by intros (? & ? & _)%handle_hang. }
    split_and!; [done..|]. destruct (readKey (inp c)) as [[k|] i] eqn:Hk.
    + destruct (decide (k = KCtrlC)) as [->|Hne].
      { destruct (round_leaves o s c w i) as (c' & w' & E); [by unfold drawn_plain; rewrite Hs|done..|congruence]. }
      destruct (round_reads o s c w k i) as (c1 & E & Hi & Ho); [by unfold drawn_plain; rewrite Hs|done..|].
      rewrite E in Hr. apply handle_hang in Hr as (_ & _ & -> & Hrec & Hcc). rewrite Ho, Hi in Hcc. by exists i.
    + revert Hr. unfold round. destruct (draw_plain o s (clearScreen c) w) as (c1 & -> & Hi & Ho); [by unfold drawn_plain; rewrite Hs|].
      rewrite is_open_clearScreen, Hc in Ho. rewrite inp_clearScreen in Hi. unfold conn_readKey. by rewrite Ho, Hi, Hk.
  - intros (Hs & Hm & Hc & i & Hk & Hcc & Hrec).
    destruct (round_reads o s c w KEnter i) as (c1 & -> & Hi & Ho); [by unfold drawn_plain; rewrite Hs|done..|].
    apply handle_hang. rewrite Ho, Hi. by split_and!.
Qed.

(** The console, the connection and the world before round [n]. *)
Fixpoint before_round (n : nat) (rounds : nat -> outside) (s : console) (c : conn) (w : world) : option (console * conn * world) :=
  match n with
  | O => Some (s, c, w)
  | S n =>
      match round name logging (rounds O) s c w with
      | Continue s c w => before_round n (fun k => rounds (S k)) s c w
      | _ => None
      end
  end.

(** What the loop comes to, it comes to in a round it reaches. *)
Lemma console_loop_blocked fuel rounds s c w :
  console_loop name logging fuel rounds s c w = Finished None ->
  exists n s1 c1 w1, before_round n rounds s c w = Some (s1, c1, w1) /\ starts_playback (rounds n) s1 c1 w1.
Proof.
  revert rounds s c w. induction fuel as [|fuel IH]; intros rounds s c w; [done|]. cbn [console_loop].
  destruct (round _ _ _ _ _ _) as [s' c' w'|c' w'| |] eqn:Hr; [|done|done|].
  - intros (n & s1 & c1 & w1 & Hn & Hp)%IH. exists (S n), s1, c1, w1. cbn [before_round]. by rewrite Hr.
  - intros _. exists 0%nat, s, c, w. split; [done|]. by apply round_hang.
Qed.

Lemma console_loop_blocks n fuel rounds s c w s1 c1 w1 :
  console_loop name logging fuel rounds s c w <> OutOfFuel ->
  before_round n rounds s c w = Some (s1, c1, w1) -> starts_playback (rounds n) s1 c1 w1 ->
  console_loop name logging fuel rounds s c w = Finished None.
Proof.
  revert n rounds s c w. induction fuel as [|fuel IH]; intros n rounds s c w Hf Hn Hp; [done|]. cbn [console_loop] in *.
  destruct n as [|n]; cbn [before_round] in Hn.
  - injection Hn as <- <- <-. by apply round_hang in Hp as ->.
  - destruct (round _ _ _ _ _ _) as [s' c' w'|c' w'| |]; try done. by eapply IH.
Qed.
End stays.

(** ** The admin log *)

Definition admin_log `{TokenBucket} `{VaultServer} (w : world) : str := default [] (files (w_dir w) !! admin_log_name).

Definition user_add_line (now : Z) (u : user_row) : str :=
  log_line now §"[USER_ADD]" (§"admin created user " ++ quoted (u_username u) ++ §" (role: " ++ u_role u ++ §")").

Section log.
Context {PG : Postgres} {V6 : IPv6Text} {BC : Bcrypt} {TB : TokenBucket} {VS : VaultServer} {SH : SSH}
  {KG : KeyGen} {PS : PasswordSsh} {UU : UuidText}.

Lemma log_action_ok now e detail (w : world) :
  faults (w_dir w) = [] ->
  admin_log (log_action true now e detail w) = admin_log w ++ log_line now e detail
  /\ faults (w_dir (log_action true now e detail w)) = [].
Proof.
  intros Hf. unfold log_action, Log. rewrite fs_append_ok by done. unfold admin_log, with_dir. cbn.
  by rewrite lookup_insert_eq.
Qed.

Lemma queryRoles_quiet d :
  outcomes d = [] -> users (queryRoles d).2 = users d /\ outcomes (queryRoles d).2 = [] /\ next_uuid (queryRoles d).2 = next_uuid d.
Proof.
  intros Ho. unfold queryRoles. rewrite run_done by done. unfold ensure_unassigned.
  case_bool_decide; unfold query; simpl; by rewrite Ho.
Qed.

Lemma queryServers_quiet d : outcomes d = [] -> (queryServers d).2 = d.
Proof. intros Ho. unfold queryServers, query. by rewrite Ho. Qed.

Lemma form_char_text s : Forall (fun b => form_char b = true) s -> text_ok s = true.
Proof.
  intros Hs. unfold text_ok. rewrite runes_ascii.
  - apply forallb_forall. intros c Hc. apply list_elem_of_In, elem_of_map_key in Hc as (b & Hb & <-).
    rewrite Forall_forall in Hs. apply Hs in Hb. unfold form_char in Hb. unfold RuneError. simpl. bools. lia.
  - eapply Forall_impl; [exact Hs|]. intros b Hb. unfold form_char in Hb. unfold is_ascii. bools. lia.
Qed.
End log.

(** ** What one key leaves in the log *)

Definition name_role (u : user_row) : str * str := (u_username u, u_role u).

(** The connection to the database has no bad luck in store, and the users are the same
    people in the same roles. *)
Definition quiet (d d' : database) : Prop := outcomes d' = [] /\ map name_role (users d') = map name_role (users d).

(** Time, tag and text of a line. *)
Abbreviation entry := (Z * str * str)%type (only parsing).
Definition entry_line (e : entry) : str := log_line e.1.1 e.1.2 e.2.
Definition user_detail (nr : str * str) : str := §"admin created user " ++ quoted nr.1 ++ §" (role: " ++ nr.2 ++ §")".

(** A text about a user of the table, whose columns may have cut spaces off. *)
Definition told `{Postgres} (text : str) (nr : str * str) : Prop :=
  exists un role, text = user_detail (un, role) /\ varchar 50 un = Some nr.1 /\ varchar 50 role = Some nr.2.

(** The texts of the lines about new users. *)
Definition user_adds (es : list entry) : list str := map snd (filter (fun e => e.1.2 = §"[USER_ADD]") es).

(** From one world to a later one: the users added and the lines written. *)
Record accounted `{Postgres} `{TokenBucket} `{VaultServer} (created : list (str * str)) (es : list entry) (w w' : world) : Prop := {
  acc_outcomes : outcomes (w_db w') = [];
  acc_faults : faults (w_dir w') = [];
  acc_users : map name_role (users (w_db w')) = map name_role (users (w_db w)) ++ created;
  acc_log : admin_log w' = admin_log w ++ concat (map entry_line es);
  acc_told : Forall2 told (user_adds es) created;
}.

Section accounting.
Context {PG : Postgres} {V6 : IPv6Text} {BC : Bcrypt} {TB : TokenBucket} {VS : VaultServer} {SH : SSH}
  {KG : KeyGen} {PS : PasswordSsh} {UU : UuidText}.

Definition healthy (w : world) : Prop := outcomes (w_db w) = [] /\ faults (w_dir w) = [].

Lemma accounted_trans cr1 es1 cr2 es2 w1 w2 w3 :
  accounted cr1 es1 w1 w2 -> accounted cr2 es2 w2 w3 -> accounted (cr1 ++ cr2) (es1 ++ es2) w1 w3.
Proof.
  intros [] []. constructor; try done.
  - rewrite acc_users1, acc_users0. by rewrite app_assoc.
  - rewrite acc_log1, acc_log0. by rewrite map_app, concat_app, app_assoc.
  - unfold user_adds in *. rewrite filter_app, map_app. by apply Forall2_app.
Qed.

(** A change of the database that adds nobody, and one of anything else. *)
Lemma accounted_quiet w w' d :
  healthy w -> quiet (w_db w) d -> w_db w' = d -> w_dir w' = w_dir w -> accounted [] [] w w'.
Proof. intros [Ho Hf] [Ho' Hu] <- Hw. constructor; unfold admin_log; rewrite ?Hw, ?app_nil_r; done. Qed.

Lemma accounted_refl w : healthy w -> accounted [] [] w w.
Proof. intros H. eapply accounted_quiet; [done| |done..]. split; [apply H|done]. Qed.

Lemma accounted_log now e detail w :
  healthy w -> e <> §"[USER_ADD]" -> accounted [] [(now, e, detail)] w (log_action true now e detail w).
Proof.
  intros [Ho Hf] He. destruct (log_action_ok now e detail w Hf) as [Hl Hf'].
  constructor; [done|done|by rewrite app_nil_r| |].
  - rewrite Hl. cbn [map concat]. by rewrite app_nil_r.
  - unfold user_adds. rewrite filter_cons, decide_False by done. done.
Qed.

Lemma user_adds_one now detail : user_adds [(now, §"[USER_ADD]", detail)] = [detail].
Proof. unfold user_adds. rewrite filter_cons, decide_True by done. done. Qed.

(** *** The operations *)

Lemma quiet_refl d : outcomes d = [] -> quiet d d.
Proof. by split. Qed.

Lemma quiet_trans d1 d2 d3 : quiet d1 d2 -> quiet d2 d3 -> quiet d1 d3.
Proof. intros [_ H1] [Ho H2]. split; [done|congruence]. Qed.

Lemma query_quiet {A} (sel : database -> res (list A)) d : outcomes d = [] -> (query sel d).2 = d.
Proof. intros Ho. unfold query. by rewrite Ho. Qed.

Lemma insert_server_quiet ho ip pa en us d : outcomes d = [] -> quiet d (insert_server ho ip pa en us d).2.
Proof. intros Ho. unfold insert_server. by repeat case_match. Qed.

Lemma store_server_quiet c h ip env us pem fp v d : outcomes d = [] -> quiet d (store_server c h ip env us pem fp v d).2.
Proof.
  intros Ho. unfold store_server. destruct (PutSecret _ _ _ _ _) as [[err|] v1]; [by apply quiet_refl|].
  rewrite run_done by done. pose proof (insert_server_quiet h ip (vault_path h) env us d Ho) as H.
  by destruct (insert_server _ _ _ _ _ _) as [[|] d'].
Qed.

Lemma generateAndSaveServer_quiet seed c h ip env us v d :
  outcomes d = [] -> quiet d (generateAndSaveServer seed c h ip env us v d).2.
Proof.
  intros Ho. unfold generateAndSaveServer. destruct (rsa_generate seed) as [|[pem pub]]; [by apply quiet_refl|].
  pose proof (store_server_quiet c h ip env us pem (FingerprintSHA256 pub) v d Ho) as H.
  by destruct (store_server _ _ _ _ _ _ _ _ _) as [[[|] v1] d1].
Qed.

Lemma saveCustomServer_quiet c h ip env us pem v d : outcomes d = [] -> quiet d (saveCustomServer c h ip env us pem v d).2.
Proof.
  intros Ho. unfold saveCustomServer. destruct (parse_private_key pem); [by apply quiet_refl|by apply store_server_quiet].
Qed.

Lemma assign_one_quiet userID srv cm d : outcomes d = [] -> quiet d (assign_one userID srv cm d).2.
Proof.
  intros Ho. unfold assign_one. rewrite !run_done by done. unfold insert_grant, delete_grant. cbv zeta.
  destruct (so_selected srv); [by repeat case_bool_decide|]. set (d' := set_grants d _).
  case_match; [|done]. pose proof (query_quiet (fun d => inr (sessions_on userID (so_id srv) d)) d' Ho) as Hq.
  destruct (query _ d') as [r d2]. cbn [snd] in Hq. subst d2. by destruct (kill_all _ cm).
Qed.

Lemma assign_loop_quiet userID opts cm d : outcomes d = [] -> quiet d (assign_loop userID opts cm d).2.
Proof.
  revert cm d. induction opts as [|srv opts IH]; intros cm d Ho; [by apply quiet_refl|]. cbn [assign_loop].
  pose proof (assign_one_quiet userID srv cm d Ho) as H1.
  destruct (assign_one userID srv cm d) as [[[[err|h] acts] cm1] d1]; [done|].
  specialize (IH cm1 d1 (proj1 H1)). destruct (assign_loop userID opts cm1 d1) as [[[r acts'] cm2] d2].
  by eapply quiet_trans.
Qed.

Lemma assignServers_quiet userID opts cm d : outcomes d = [] -> quiet d (assignServers userID opts cm d).2.
Proof.
  intros Ho. unfold assignServers. rewrite run_done by done. unfold set_override.
  eapply quiet_trans; [|apply assign_loop_quiet; exact Ho]. split; [done|].
  by apply map_update_user.
Qed.
(** *** The cases of the key switch *)

Definition accounts (w : world) (v : verdict) : Prop :=
  match v with
  | Continue _ _ w' | Leave _ w' => exists created es, accounted created es w w'
  | Panic | Hang => True
  end.

Lemma accounts_same w s c : healthy w -> accounts w (Continue s c w).
Proof. intros H. exists [], []. by apply accounted_refl. Qed.

Lemma accounts_quiet w w' s c d :
  healthy w -> quiet (w_db w) d -> w_db w' = d -> w_dir w' = w_dir w -> accounts w (Continue s c w').
Proof. intros. exists [], []. by eapply accounted_quiet. Qed.

(** The viewers read the directory and leave it alone. *)
Lemma fs_open_dir name d : faults d = [] -> fs_open name d = (files d !! name, d).
Proof. intros Hf. unfold fs_open, fs_op. by rewrite Hf. Qed.

Lemma streamAdminLog_dir d c : faults d = [] -> (streamAdminLog d c).2 = d.
Proof. intros Hf. unfold streamAdminLog. rewrite fs_open_dir by done. by destruct (files d !! _). Qed.

Lemma streamTextLog_dir sid un srv t d c : faults d = [] -> (streamTextLog sid un srv t d c).2 = d.
Proof. intros Hf. unfold streamTextLog. rewrite fs_open_dir by done. by destruct (files d !! _). Qed.

Lemma playTTYRec_dir sid un srv t looks d c : faults d = [] -> (playTTYRec sid un srv t looks d c).2 = d.
Proof.
  intros Hf. unfold playTTYRec. rewrite fs_open_dir by done. destruct (files d !! _) as [s|]; [|done].
  destruct (play_frames _ s) as [out []]; [done|]. by case_match.
Qed.

Lemma with_dir_same w : with_dir w (w_dir w) = w.
Proof. by destruct w. Qed.

Lemma accounts_viewed now e detail w s c :
  healthy w -> e <> §"[USER_ADD]" ->
  accounts w (Continue s c (with_dir (log_action true now e detail w) (w_dir (log_action true now e detail w)))).
Proof. intros H He. rewrite with_dir_same. eexists [], _. by apply accounted_log. Qed.

Lemma on_main_accounts k s c w : healthy w -> accounts w (on_main k s c w).
Proof.
  intros H. unfold on_main. destruct k; try by apply accounts_same.
  assert ((ListServersWithSessions (w_db w)).2 = w_db w) as Hq.
  { unfold ListServersWithSessions. match goal with |- context [query ?q (w_db w)] => pose proof (query_quiet q (w_db w) (proj1 H)) as Hq; destruct (query q (w_db w)) end. done. }
  destruct (ListServersWithSessions (w_db w)) as [[rows err] d]. cbn [snd] in Hq. subst d.
  repeat case_match; try (by apply accounts_same); try (exists [], []; by apply accounted_refl);
    (eapply accounts_quiet; [done|apply quiet_refl, H|done|done]).
Qed.

Lemma on_method_accounts o k s c w : healthy w -> let r := on_method o k s w in accounts w (Continue r.1 c r.2).
Proof.
  intros H. unfold on_method. destruct k; try by apply accounts_same.
  pose proof (generateAndSaveServer_quiet (o_seed o) (w_vault w) (sf_hostname (sForm s)) (sf_ip (sForm s)) (sf_environment (sForm s))
    (sf_sshUser (sForm s)) (w_secrets w) (w_db w) (proj1 H)) as Hq.
  destruct (generateAndSaveServer _ _ _ _ _ _ _ _) as [[r v] d]. cbn [snd] in Hq.
  repeat case_match; cbn [fst snd]; first [by apply accounts_same|by eapply accounts_quiet].
Qed.

Lemma on_auto_accounts o k s c w : healthy w -> let r := on_auto o k s w in accounts w (Continue r.1 c r.2).
Proof.
  intros H. unfold on_auto.
  pose proof (generateAndSaveServer_quiet (o_seed o) (w_vault w) (sf_hostname (sForm s)) (sf_ip (sForm s)) (sf_environment (sForm s))
    (sf_sshUser (sForm s)) (w_secrets w) (w_db w) (proj1 H)) as Hq.
  destruct (generateAndSaveServer _ _ _ _ _ _ _ _) as [[r v] d]. cbn [snd] in Hq.
  destruct k; repeat case_match; cbn [fst snd]; first [by apply accounts_same|by eapply accounts_quiet].
Qed.

Lemma on_paste_accounts k s c w : healthy w -> let r := on_paste k s w in accounts w (Continue r.1 c r.2).
Proof.
  intros H. unfold on_paste.
  pose proof (saveCustomServer_quiet (w_vault w) (sf_hostname (sForm s)) (sf_ip (sForm s)) (sf_environment (sForm s))
    (sf_sshUser (sForm s)) (pasteBuffer s) (w_secrets w) (w_db w) (proj1 H)) as Hq.
  destruct (saveCustomServer _ _ _ _ _ _ _ _) as [[r v] d]. cbn [snd] in Hq.
  destruct k; repeat case_match; cbn [fst snd]; first [by apply accounts_same|by eapply accounts_quiet].
Qed.

Lemma on_add_user_accounts k s c w : healthy w -> let r := on_add_user k s w in accounts w (Continue r.1 c r.2).
Proof.
  intros H. unfold on_add_user. pose proof (queryRoles_quiet (w_db w) (proj1 H)) as (Hu & Ho & _).
  destruct (queryRoles _) as [rs d]. cbn [snd] in *.
  assert (quiet (w_db w) d) as Hq by (split; [done|by rewrite Hu]).
  destruct k; repeat case_match; cbn [fst snd]; first [by apply accounts_same|by eapply accounts_quiet].
Qed.

Lemma on_select_user_accounts k s c w : healthy w -> accounts w (on_select_user k s c w).
Proof.
  intros H. unfold on_select_user.
  assert ((user_lines (w_db w)).2 = w_db w) as Hq.
  { unfold user_lines. match goal with |- context [query ?q (w_db w)] => pose proof (query_quiet q (w_db w) (proj1 H)) as Hq; destruct (query q (w_db w)) end. done. }
  destruct (user_lines (w_db w)) as [lines d]. cbn [snd] in Hq. subst d.
  assert (forall id, (access_options id (w_db w)).2 = w_db w) as Hq2.
  { intros id. unfold access_options. match goal with |- context [query ?q (w_db w)] => pose proof (query_quiet q (w_db w) (proj1 H)) as Hq; destruct (query q (w_db w)) end. done. }
  assert (forall s' c' d, d = w_db w -> accounts w (Continue s' c' (with_db w d))) as Hsame.
  { intros s' c' d ->. eapply accounts_quiet; [done|apply quiet_refl, H|done|done]. }
  destruct k; try (by apply Hsame). repeat case_match; try done; try (by apply Hsame).
  cbn [w_db with_db] in *. match goal with E : access_options ?id _ = _ |- _ => specialize (Hq2 id); rewrite E in Hq2 end.
  by apply Hsame.
Qed.
Lemma createUser_adds salt un pw role d :
  outcomes d = [] ->
  match createUser salt un pw role d with
  | (inl _, d') => quiet d d'
  | (inr _, d') => outcomes d' = [] /\ exists un' role', varchar 50 un = Some un' /\ varchar 50 role = Some role'
      /\ map name_role (users d') = map name_role (users d) ++ [(un', role')]
  end.
Proof.
  intros Ho. unfold createUser. destruct (bcrypt_generate _ _ _) as [err|hash]; [by apply quiet_refl|].
  rewrite run_done by done. unfold insert_user. destruct (negb _); [by apply quiet_refl|].
  destruct (varchar 50 un) as [un'|] eqn:Hun; [|by apply quiet_refl].
  destruct (varchar 255 hash) as [ha|]; [|by apply quiet_refl].
  destruct (varchar 50 role) as [role'|] eqn:Hro; [|by apply quiet_refl]. cbv zeta.
  repeat case_bool_decide; try done. split; [done|]. exists un', role'. split_and!; try done.
  simpl. by rewrite map_app.
Qed.

Lemma on_assign_accounts o k s c w : healthy w -> accounts w (on_assign true o k s c w).
Proof.
  intros H. unfold on_assign. destruct k; try by apply accounts_same.
  destruct (menuIndex s <? zlen (serverOpts s)); [case_match; [done|by apply accounts_same]|].
  destruct (menuIndex s =? zlen (serverOpts s)); [|by apply accounts_same].
  pose proof (assignServers_quiet (createdUserID s) (serverOpts s) (w_cm w) (w_db w) (proj1 H)) as Hq.
  destruct (assignServers _ _ _ _) as [[[r acts] cm] d]. cbn [snd] in Hq.
  set (w1 := add_kills _ _).
  assert (accounted [] [] w w1) as H1 by (by eapply accounted_quiet).
  destruct r as [err|revoked]; [by exists [], []|].
  set (e := (o_now o 0, §"[ACCESS_ASSIGN]", §"admin updated server access for user " ++ quoted (uf_username (uForm s)))).
  exists [], [e]. apply (accounted_trans [] [] [] [e] w w1); [done|]. apply accounted_log; [|done].
  split; [apply Hq|apply H].
Qed.

Lemma on_audit_servers_accounts o k s c w : healthy w -> accounts w (on_audit_servers true o k s c w).
Proof.
  intros H. unfold on_audit_servers. destruct k; try by apply accounts_same.
  destruct (menuIndex s =? _); [by apply accounts_same|]. destruct (menuIndex s =? 0).
  - match goal with |- context [log_action true ?n ?e ?t w] =>
      pose proof (acc_faults _ _ _ _ (accounted_log n e t w H ltac:(done))) as Hf end.
    match goal with |- context [streamAdminLog ?dd ?cc] => pose proof (streamAdminLog_dir dd cc Hf) as Hd end.
    destruct (streamAdminLog _ _) as [c1 dir]. cbn [snd] in Hd. subst dir. by apply accounts_viewed.
  - destruct (zget _ _) as [srv|]; [|done].
    assert ((ListSessionsByServer (SumID srv) (w_db w)).2 = w_db w) as Hq.
    { unfold ListSessionsByServer. match goal with |- context [query ?q (w_db w)] => pose proof (query_quiet q (w_db w) (proj1 H)) as Hq; destruct (query q (w_db w)) end. done. }
    destruct (ListSessionsByServer _ _) as [[rows err] d]. cbn [snd] in Hq. subst d.
    eapply accounts_quiet; [done|apply quiet_refl, H|done|done].
Qed.

Lemma on_audit_choice_accounts o k s c w : healthy w -> accounts w (on_audit_choice true o k s c w).
Proof.
  intros H. unfold on_audit_choice. destruct k; try by apply accounts_same.
  destruct (menuIndex s) as [|[p|[p|p|]|]|p]; try (by apply accounts_same);
    match goal with |- context [log_action true ?n ?e ?t w] =>
      pose proof (acc_faults _ _ _ _ (accounted_log n e t w H ltac:(done))) as Hf end.
  - match goal with |- context [streamTextLog ?a ?b ?x ?t ?dd ?cc] => pose proof (streamTextLog_dir a b x t dd cc Hf) as Hd end.
    destruct (streamTextLog _ _ _ _ _ _) as [c1 dir]. cbn [snd] in Hd. subst dir. by apply accounts_viewed.
  - match goal with |- context [playTTYRec ?a ?b ?x ?t ?l ?dd ?cc] => pose proof (playTTYRec_dir a b x t l dd cc Hf) as Hd end.
    destruct (playTTYRec _ _ _ _ _ _ _) as [[[] c1] dir]; [|done]. cbn [snd] in Hd. subst dir. by apply accounts_viewed.
Qed.

Lemma on_audit_sessions_accounts k s c w : healthy w -> accounts w (on_audit_sessions k s c w).
Proof. intros H. unfold on_audit_sessions. destruct k; repeat case_match; first [done|by apply accounts_same]. Qed.
Lemma on_role_accounts o k s c w : healthy w -> accounts w (on_role true o k s c w).
Proof.
  intros H. unfold on_role. destruct k; try by apply accounts_same.
  destruct (zget _ _) as [role|]; [|done]. set (f := with_role _ _).
  pose proof (createUser_adds (o_salt o) (uf_username f) (uf_password f) (uf_role f) (w_db w) (proj1 H)) as Hc.
  destruct (createUser _ _ _ _ _) as [[err|id] d]; [by eapply accounts_quiet|].
  destruct Hc as (Ho & un & ro & Hun & Hro & Hu).
  set (text := §"admin created user " ++ _).
  destruct (log_action_ok (o_now o 0) §"[USER_ADD]" text (with_db w d) (proj2 H)) as [Hl Hf].
  rewrite w_db_log_action. cbn [w_db with_db].
  pose proof (queryServers_quiet d Ho) as Hq. destruct (queryServers d) as [opts d2]. cbn [snd] in Hq. subst d2.
  exists [(un, ro)], [(o_now o 0, §"[USER_ADD]", text)]. constructor; [done|done|done| |].
  - change (admin_log w) with (admin_log (with_db w d)). rewrite <- (app_nil_r (concat _)).
    unfold admin_log in *. cbn [w_dir with_db map concat] in *. by rewrite Hl, !app_nil_r.
  - rewrite user_adds_one. constructor; [|done]. by exists (uf_username f), (uf_role f).
Qed.

Lemma handle_accounts o k s c w : healthy w -> accounts w (handle true o k s c w).
Proof.
  intros H. unfold handle. destruct (state s);
    first [by apply on_main_accounts | by apply on_method_accounts | by apply on_auto_accounts | by apply on_paste_accounts
          | by apply on_add_user_accounts | by apply on_role_accounts | by apply on_assign_accounts
          | by apply on_select_user_accounts | by apply on_audit_servers_accounts | by apply on_audit_sessions_accounts
          | by apply on_audit_choice_accounts | by apply accounts_same].
Qed.

Lemma draw_quiet name o s c w : healthy w -> (draw name o s c w).2 = w.
Proof.
  intros [Ho _].
  assert (forall A (sel : database -> res (list A)), (query sel (w_db w)).2 = w_db w) as Hq by (intros; by apply query_quiet).
  assert (forall d, d = w_db w -> with_db w d = w) as Hw by (intros d ->; by destruct w).
  unfold draw, drawSelectUserForAssign, drawViewUsers, drawViewServers.
  destruct (state s); try done; cbn [fst snd];
    match goal with |- context [query ?q (w_db w)] => specialize (Hq _ q); destruct (query q (w_db w)) end; by apply Hw.
Qed.

Lemma round_accounts name o s c w :
  healthy w -> (forall w, o_others o w = w) -> accounts w (round name true o s c w).
Proof.
  intros H Ho. unfold round. pose proof (draw_quiet name o s (clearScreen c) w H) as Hw.
  destruct (draw _ _ _ _ _) as [c1 w1]. cbn [snd] in Hw. subst w1. rewrite Ho.
  destruct (conn_readKey c1) as [[err|k] c2]; [by apply accounts_same|].
  case_decide; [by apply accounts_same|by apply handle_accounts].
Qed.

Lemma loop_accounts name fuel rounds s c w c' w' :
  healthy w -> (forall n w, o_others (rounds n) w = w) ->
  console_loop name true fuel rounds s c w = Finished (Some (c', w')) ->
  exists created es, accounted created es w w'.
Proof.
  revert rounds s c w. induction fuel as [|fuel IH]; intros rounds s c w H Ho; [done|]. cbn [console_loop].
  pose proof (round_accounts name (rounds O) s c w H (Ho O)) as Hr.
  destruct (round _ _ _ _ _ _) as [s1 c1 w1|c1 w1| |]; [|by intros [= _ <-]|done|done].
  destruct Hr as (cr1 & es1 & H1). intros Hl.
  apply IH in Hl as (cr2 & es2 & H2); [|split; apply H1|by intros].
  exists (cr1 ++ cr2), (es1 ++ es2). by eapply accounted_trans.
Qed.
End accounting.

Section properties.
Context {PG : Postgres} {V6 : IPv6Text} {BC : Bcrypt} {TB : TokenBucket} {VS : VaultServer} {SH : SSH}
  {KG : KeyGen} {PS : PasswordSsh} {UU : UuidText}.

(** C39.  Adding a user, key by key.  An administrator who types a name, a password twice
    and ENTER through the form and the role menu, then Ctrl-C, gets out again; if the
    name is free the table has one more user, without a role, who can log in with that
    password at once; and the admin log has grown by exactly the login, a line for that
    user if there is one, and the logout. *)
Theorem console_adds_user (cfg : Config) (t : clocks) (v : visit) (o : outside)
    (c : conn) (name un pw hash : str) (w : world)
    (Hv : rounds v = fun _ => o) (Halone : forall w, o_others o w = w)
    (Hc : is_open c = true) (Hi : inp c = typed (new_user_keys un pw))
    (Hun : un <> []) (Hpw : pw <> []) (Hlen : (length un <= 50)%nat)
    (Fun : Forall (fun b => form_char b = true) un) (Fpw : Forall (fun b => form_char b = true) pw)
    (Hd : db_ok (w_db w)) (Ho : outcomes (w_db w) = []) (Hf : faults (w_dir w) = [])
    (Hg : bcrypt_generate (o_salt o) pw 12 = inr hash) (Hm : bcrypt_matches hash pw = true) (Hh : (rune_count hash <= 255)%nat) :
  exists c' w' created, handleAdminConsole v c name w = Finished (Some (c', w'))
    /\ users (w_db w') = users (w_db w) ++ created
    /\ admin_log w' = admin_log w ++ log_line (login v) §"[LOGIN]" (§"admin " ++ quoted name ++ §" opened admin console")
         ++ concat (map (user_add_line (o_now o 0)) created)
         ++ log_line (logout v) §"[LOGOUT]" (§"admin " ++ quoted name ++ §" exited admin console")
    /\ match created with
       | [] => un ∈ map u_username (users (w_db w)) \/ text_ok hash = false
               \/ uuid_gen (next_uuid (w_db w)) ∈ map u_id (users (w_db w))
       | u :: more =>
           more = [] /\ un ∉ map u_username (users (w_db w)) /\ exists id, u = UserRow id un hash §"unassigned" 0 None false
           /\ Authenticate cfg t un pw (w_db w') = (inr (MkUser id un §"unassigned"), w_db w', [Compared hash])
       end.
Proof.
  unfold handleAdminConsole. rewrite Hv. unfold NewAdminLogger, fs_open_append, fs_op. rewrite Hf. cbn [fst snd].
  set (w0 := with_dir w _).
  assert (admin_log w0 = admin_log w /\ faults (w_dir w0) = []) as [El Hf0]
    by (unfold admin_log, w0; cbn; by rewrite lookup_insert_eq, Hf).
  destruct (log_action_ok (login v) §"[LOGIN]" (§"admin " ++ quoted name ++ §" opened admin console") w0 Hf0) as [El1 Hf1].
  set (w1 := log_action true _ _ _ w0) in *.
  assert (w_db w1 = w_db w) as Edb by done.
  destruct (loop_adds_user name true o un pw c w1 Halone Hc Hi Hun Hpw Fun Fpw) as (c' & ->).
  destruct (queryRoles_quiet (w_db w) Ho) as (Hu1 & Ho1 & Hn1).
  pose proof (db_reach_ok _ _ (queryRoles_reach (w_db w)) Hd) as Hd1.
  unfold user_added. rewrite Edb. set (d1 := (queryRoles (w_db w)).2) in *.
  assert (rune_count un <= 50)%nat as Hrc by (pose proof (rune_count_le un); lia).
  pose proof (createUser_login cfg t (o_salt o) un pw §"unassigned" hash d1 Hd1 Ho1 Hg Hm Hrc Hh ltac:(vm_compute; lia)) as Hl.
  pose proof (createUser_outcomes (o_salt o) un pw §"unassigned" d1 Ho1) as Ho2.
  pose proof (createUser_refused (o_salt o) un pw §"unassigned" hash d1) as Hr.
  destruct (createUser _ _ _ _ _) as [[e|id] d2]; cbn [snd] in Ho2.
  - destruct (log_action_ok (logout v) §"[LOGOUT]" (§"admin " ++ quoted name ++ §" exited admin console") (with_db w1 d2) Hf1) as [El3 _].
    eexists c', _, []. split; [reflexivity|]. split; [by rewrite app_nil_r, <- Hu1|]. split.
    + rewrite El3. change (admin_log (with_db w1 d2)) with (admin_log w1). by rewrite El1, El, <- app_assoc.
    + rewrite <- Hu1, <- Hn1. apply (Hr e d2); auto; [vm_compute; lia|by apply form_char_text].
  - destruct Hl as (Hfree & Hus & _ & Hauth).
    set (u := UserRow id un hash §"unassigned" 0 None false) in *.
    destruct (log_action_ok (o_now o 0) §"[USER_ADD]" (§"admin created user " ++ quoted un ++ §" (role: unassigned)") (with_db w1 d2) Hf1) as [El2 Hf2].
    rewrite w_db_log_action. cbn [w_db with_db]. rewrite queryServers_quiet by done.
    set (w2 := log_action true (o_now o 0) _ _ (with_db w1 d2)) in *.
    destruct (log_action_ok (logout v) §"[LOGOUT]" (§"admin " ++ quoted name ++ §" exited admin console") (with_db w2 d2) Hf2) as [El3 _].
    eexists c', _, [u]. split; [reflexivity|]. rewrite !w_db_log_action. cbn [w_db with_db]. split; [by rewrite Hus, Hu1|]. split.
    + rewrite El3. change (admin_log (with_db w2 d2)) with (admin_log w2). rewrite El2.
      change (admin_log (with_db w1 d2)) with (admin_log w1). rewrite El1, El, <- !app_assoc. do 2 f_equal.
      cbn [map concat]. by rewrite app_nil_r.
    + split; [done|]. rewrite <- Hu1. split; [done|]. by exists id.
Qed.

(** C38.  Accountability.  Whatever keys an administrator presses during a stay, with a
    database and a directory that work: the admin log begins the stay with the login and
    ends it with the logout, and between them the lines about new users are about exactly
    the users the table has gained, in order. *)
Theorem new_users_are_logged (v : visit) (c c' : conn) (name : str) (w w' : world)
    (Halone : forall n w, o_others (rounds v n) w = w)
    (Ho : outcomes (w_db w) = []) (Hf : faults (w_dir w) = [])
    (Hr : handleAdminConsole v c name w = Finished (Some (c', w'))) :
  exists created es,
    map name_role (users (w_db w')) = map name_role (users (w_db w)) ++ created
    /\ admin_log w' = admin_log w
         ++ concat (map entry_line
              ((login v, §"[LOGIN]", §"admin " ++ quoted name ++ §" opened admin console") :: es
               ++ [(logout v, §"[LOGOUT]", §"admin " ++ quoted name ++ §" exited admin console")]))
    /\ Forall2 told (user_adds es) created.
Proof.
  revert Hr. unfold handleAdminConsole, NewAdminLogger, fs_open_append, fs_op. rewrite Hf. cbn [fst snd].
  set (w0 := with_dir w _).
  assert (admin_log w0 = admin_log w) as El by (unfold admin_log, w0; cbn; by rewrite lookup_insert_eq).
  assert (healthy w0) as H0 by (split; [exact Ho|exact Hf]).
  pose proof (accounted_log (login v) §"[LOGIN]" (§"admin " ++ quoted name ++ §" opened admin console") w0 H0 ltac:(done)) as H1.
  set (w1 := log_action true _ _ _ w0) in *.
  destruct (console_loop _ _ _ _ _ _ w1) as [[[c2 w2]|]| |] eqn:Hl; intros [= <- <-].
  apply loop_accounts in Hl as (created & es & H2); [|split; apply H1|done].
  pose proof (accounted_log (logout v) §"[LOGOUT]" (§"admin " ++ quoted name ++ §" exited admin console") w2 (conj (acc_outcomes _ _ _ _ H2) (acc_faults _ _ _ _ H2)) ltac:(done)) as H3.
  pose proof (accounted_trans _ _ _ _ _ _ _ H1 (accounted_trans _ _ _ _ _ _ _ H2 H3)) as H.
  destruct H as [_ _ Hus Hlog _]. exists created, es. rewrite !app_nil_r in Hus. cbn [app] in Hus.
  split; [exact Hus|]. split; [etrans; [exact Hlog|]; by rewrite El|]. apply H2.
Qed.

(** The world in which the loop of a stay begins, and whether its log is open. *)
Definition opened (v : visit) (name : str) (w : world) : bool * world :=
  let '(r, dir) := NewAdminLogger (w_dir w) in
  let logging := match r with inr _ => true | inl _ => false end in
  (logging, log_action logging (login v) §"[LOGIN]" (§"admin " ++ quoted name ++ §" opened admin console") (with_dir w dir)).

(** In round [n] of the stay the client starts a playback that it never stops. *)
Definition plays_for_ever (v : visit) (c : conn) (name : str) (w : world) (n : nat) : Prop :=
  exists s c1 w1,
    before_round name (opened v name w).1 n (rounds v) initial_console c (opened v name w).2 = Some (s, c1, w1)
    /\ starts_playback (opened v name w).1 (rounds v n) s c1 w1.

(** C37.  The console ends.  On any input - and whatever others do to a well-formed
    database, directory and Vault meanwhile - no index of the key switch is out of range
    and the loop stops within one round per event of the input; and it does not return
    exactly if in a round of this stay the client presses ENTER on the playback of a
    recording that opens and sends no Ctrl-C after that. *)
Theorem console_returns (v : visit) (c : conn) (name : str) (w : world)
    (Hv : forall n, considerate (rounds v n)) (Hd : db_ok (w_db w)) :
  exists r, handleAdminConsole v c name w = Finished r
    /\ match r with Some (_, w') => db_ok (w_db w') | None => True end
    /\ (r = None <-> exists n, plays_for_ever v c name w n).
Proof.
  destruct (handleAdminConsole_total v c name w Hv Hd) as (r & E & Hr). exists r. split; [exact E|]. split; [exact Hr|].
  clear Hr. revert E. unfold plays_for_ever, handleAdminConsole, opened.
  destruct (NewAdminLogger _) as [lr dir]. cbn [fst snd]. set (logging := match lr with inl _ => _ | inr _ => _ end).
  set (w0 := log_action _ _ _ _ _). intros E. split.
  - intros ->. destruct (console_loop _ _ _ _ _ _ _) as [[[c2 w2]|]| |] eqn:Hl; try discriminate.
    apply console_loop_blocked in Hl as (n & s1 & c1 & w1 & Hn & Hp). by exists n, s1, c1, w1.
  - intros (n & s1 & c1 & w1 & Hn & Hp). eapply (console_loop_blocks name logging n (S (length (inp c)))) in Hn; [|intros Ef; by rewrite Ef in E|done].
    rewrite Hn in E. by injection E.
Qed.
End properties.

(** ** Witnesses *)

Definition demo_pinned : vstate (VaultServer := demo_vault) :=
  [(§"ssh/prod-db-01", [(§"private_key", VString §"-----KEY");
                        (§"fingerprint", VString (computeFingerprint (SH := demo_ssh) §"K"))])].

Definition demo_world (d : database) : world (TB := exact) (VS := demo_vault) :=
  World (TB := exact) (VS := demo_vault) (RateLimit.New (TB := exact) 10) d demo_client demo_pinned NewConnectionManager (LogDir ∅ []) [] [].

(** A round in which nobody else does anything. *)
Definition demo_round : outside (TB := exact) (VS := demo_vault) := Outside (fun w => w) (fun _ => 0) 7 8 0.

Definition demo_visit : visit (H := exact) (H0 := demo_vault) := @Visit exact demo_vault 1 2 (fun _ => demo_round).

Definition demo_stay (keys : str) :=
  handleAdminConsole (PG := demo_postgres) (V6 := no_ipv6) (BC := demo_bcrypt) (TB := exact) (VS := demo_vault) (SH := demo_ssh)
    (KG := demo_keygen) (PS := demo_password_ssh) (UU := demo_uuid) demo_visit (client keys) §"admin" (demo_world demo_db).

Strategy expand [demo_stay].

Definition got_out (r : run_result (option (conn * world (TB := exact) (VS := demo_vault)))) : bool :=
  match r with Finished (Some _) => true | _ => false end.

Lemma got_out_returned r : got_out r = true -> exists c' w', r = Finished (Some (c', w')).
Proof. destruct r as [[[c' w']|]| |]; try discriminate. intros _. exists c', w'. reflexivity. Qed.

Definition people (r : run_result (option (conn * world (TB := exact) (VS := demo_vault)))) : list (str * str) :=
  match r with Finished (Some (_, w)) => map name_role (users (w_db w)) | _ => [] end.

Lemma demo_people : people (demo_stay (new_user_keys §"eve" §"pw")) = map name_role (users demo_db) ++ [(§"eve", §"unassigned")].
Proof. vm_compute. reflexivity. Qed.

Lemma demo_got_out : got_out (demo_stay (new_user_keys §"eve" §"pw")) = true.
Proof. vm_compute. reflexivity. Qed.

Lemma console_adds_user_witness :
  exists c' w' u, demo_stay (new_user_keys §"eve" §"pw") = Finished (Some (c', w'))
    /\ users (w_db w') = users demo_db ++ [u] /\ u_username u = §"eve".
Proof.
  destruct (console_adds_user (PG := demo_postgres) (V6 := no_ipv6) (BC := demo_bcrypt) (TB := exact) (VS := demo_vault)
    (SH := demo_ssh) (KG := demo_keygen) (PS := demo_password_ssh) (UU := demo_uuid) demo_config (demo_clocks 0)
    demo_visit demo_round (client (new_user_keys §"eve" §"pw")) §"admin" §"eve" §"pw" §"hpw" (demo_world demo_db))
    as (c' & w' & created & E & Hu & _ & Hc).
  1-4: reflexivity.
  1-2: discriminate.
  1: (vm_compute; lia).
  1-2: repeat constructor.
  1: exact demo_db_ok.
  1-4: reflexivity.
  1: (vm_compute; lia).
  - destruct created as [|u more].
    + exfalso. destruct Hc as [Hc|[Hc|Hc]]; [|discriminate Hc|];
        (apply (bool_decide_eq_true_2 _) in Hc; vm_compute in Hc; discriminate Hc).
    + destruct Hc as (-> & _ & id & -> & _). exists c', w', (UserRow id §"eve" §"hpw" §"unassigned" 0 None false).
      split; [exact E|]. split; [exact Hu|reflexivity].
Defined.

Lemma new_users_are_logged_witness :
  exists c' w' es, demo_stay (new_user_keys §"eve" §"pw") = Finished (Some (c', w'))
    /\ Forall2 (told (H := demo_postgres)) (user_adds es) [(§"eve", §"unassigned")].
Proof.
  pose proof demo_people as Hx. destruct (got_out_returned _ demo_got_out) as (c' & w' & E). rewrite E in Hx.
  destruct (new_users_are_logged (PG := demo_postgres) (V6 := no_ipv6) (BC := demo_bcrypt) (TB := exact) (VS := demo_vault)
    (SH := demo_ssh) (KG := demo_keygen) (PS := demo_password_ssh) (UU := demo_uuid)
    demo_visit (client (new_user_keys §"eve" §"pw")) c' §"admin" (demo_world demo_db) w'
    (fun _ _ => eq_refl) eq_refl eq_refl E) as (created & es & Hu & _ & Ht).
  exists c', w', es. split; [exact E|]. unfold people in Hx. rewrite Hu in Hx. apply app_inv_head in Hx.
  rewrite <- Hx. exact Ht.
Defined.

(** The production database has had a session, whose recording is there. *)
Definition watched : world (TB := exact) (VS := demo_vault) :=
  with_dir (demo_world (Session.Register (PG := demo_postgres) §"sess" §"u-jdoe" §"s-prod" (Some §"192.0.2.10") 6 demo_db).2)
    (LogDir {[ ttyrec_name §"sess" := frame 0 §"$ " ]} []).

(** Down to the audit logs, the server, its session, the recording, play. *)
Definition playback_keys : str :=
  let down := ESC ++ §"[B" in down ++ down ++ down ++ down ++ down ++ CR ++ down ++ CR ++ CR ++ down ++ CR.

Definition watch (keys : str) :=
  handleAdminConsole (PG := demo_postgres) (V6 := no_ipv6) (BC := demo_bcrypt) (TB := exact) (VS := demo_vault) (SH := demo_ssh)
    (KG := demo_keygen) (PS := demo_password_ssh) (UU := demo_uuid) demo_visit (client keys) §"admin" watched.

Strategy expand [watch].

Definition is_hung (r : run_result (option (conn * world (TB := exact) (VS := demo_vault)))) : bool :=
  match r with Finished None => true | _ => false end.

Lemma is_hung_eq r : is_hung r = true -> r = Finished None.
Proof. by destruct r as [[?|]| |]. Qed.

Lemma watched_ok : db_ok (w_db watched).
Proof. exact (db_reach_ok _ _ (Register_reach _ _ _ _ _ _) demo_db_ok). Qed.

(** Watched and not stopped, the playback holds the console; with Ctrl-C and a key it
    returns. *)
Lemma console_returns_witness :
  watch playback_keys = Finished None
  /\ (exists n, plays_for_ever (PG := demo_postgres) (V6 := no_ipv6) (BC := demo_bcrypt) (TB := exact) (VS := demo_vault) (SH := demo_ssh)
        (KG := demo_keygen) (PS := demo_password_ssh) (UU := demo_uuid) demo_visit (client playback_keys) §"admin" watched n)
  /\ got_out (watch (playback_keys ++ [to_byte 3] ++ [to_byte 3])) = true.
Proof.
  destruct (console_returns (PG := demo_postgres) (V6 := no_ipv6) (BC := demo_bcrypt) (TB := exact) (VS := demo_vault)
    (SH := demo_ssh) (KG := demo_keygen) (PS := demo_password_ssh) (UU := demo_uuid)
    demo_visit (client playback_keys) §"admin" watched) as (r & E & _ & Hr).
  - intros n w Hw. exact Hw.
  - exact watched_ok.
  - assert (watch playback_keys = Finished None) as Hn by (apply is_hung_eq; vm_compute; reflexivity).
    split; [exact Hn|]. split; [|vm_compute; reflexivity].
    apply Hr. unfold watch in Hn. rewrite E in Hn. injection Hn as ->. reflexivity.
Defined.

(** A server added in the console leaves no line in the admin log: five fields, "Next",
    "Manual", and out. *)
Example new_server_not_logged :
  match demo_stay (ESC ++ §"[B" ++ CR ++ §"new-01" ++ CR ++ §"10.0.9.9" ++ CR ++ §"dev" ++ CR ++ §"root" ++ CR ++ CR
                   ++ ESC ++ §"[B" ++ ESC ++ §"[B" ++ CR ++ [to_byte 3]) with
  | Finished (Some (_, w)) =>
      map s_hostname (servers (w_db w)) = map s_hostname (servers demo_db) ++ [§"new-01"]
      /\ admin_log w = log_line 1 §"[LOGIN]" §"admin 'admin' opened admin console"
                       ++ log_line 2 §"[LOGOUT]" §"admin 'admin' exited admin console"
  | _ => False
  end.
Proof. vm_compute. split; reflexivity. Qed.
