(* ===== verification/Bridge.v ===== *)
(** * The bridge of one session: [internal/proxy/bridge.go] and [keepalive.go]

    A session as five threads over shared state: the main thread of [Bridge], the two
    copying goroutines, the keepalive loop, and the kill switch of Killswitch.v taken
    apart into its steps.  One action is one thing a thread does, or one thing the
    client, the server behind the SSH connection, or the proxy process does to it;
    [step] says when an action can happen and what it changes.  A run is a list of
    actions, so every interleaving is one.

    No write to the client has a deadline: while it is [blocked] - it reads nothing, is
    still there, and the buffers on the way are full - no write to it returns.  The stdout
    goroutine then waits with its chunk.  The stdin goroutine can go on up to the end of a
    refused line, whose message is then [owed]; what it has read beyond that stays in
    [arrived], from where the next chunk takes it.  A write that fails may have got a part
    out ([Partial]), which is on the screen and not in the recording. *)

From S2P Require Import Prelude GoStr GoTime Json Io Db Commands CmdFilter Rbac Session Killswitch AuditLog RateLimit.
From stdpp Require Import options.
Open Scope Z_scope.

(** ** State *)

(** What the client's connection has been handed: a chunk of the server's output, with
    the time it was written to the recording; the part of a chunk that got out before its
    write failed; or a message of the filter. *)
Inductive shown := Output (now : Z) (p : str) | Partial (p : str) | Message (p : str).

(** The client's connection: bytes that have arrived and are not read, whether the
    peer is still there, whether the read deadline has been moved to now, whether writes
    wait because the peer reads nothing and what lies between is full, and the message
    that the filter waits to get out. *)
Record client_side := ClientSide {
  arrived : str;
  cl_open : bool;
  deadline : bool;
  screen : list shown;
  stalled : bool;
  owed : str;
}.

(** A write to the client neither succeeds nor fails: it has no deadline. *)
Definition blocked (c : client_side) : bool := stalled c && cl_open c.

(** The SSH side: the pipe to the remote shell's standard input, which may stop taking
    writes and then never takes one again; the filter's line buffer; output that has
    arrived and is not read, whether the remote shell has ended, whether the connection
    stands. *)
Record backend_side := BackendSide {
  pipe : sink;
  line_buf : str;
  out_buf : str;
  err_buf : str;
  exited : bool;
  ssh_open : bool;
}.

(** Where [Bridge] is: blocked on [errCh], in [wg.Wait], before the deferred
    Deregister, before the deferred status update, returned. *)
Inductive main_pc := Waiting | Joining | Deregistering | Marking | Returned.

(** [runKeepalive]: in its loop with this many pings missed, about to close the
    connection after marking the session, or returned. *)
Inductive ka_pc := KaLoop (missed : Z) | KaClosing | KaGone.

(** The RPC handler that kills the session: not begun, and after each of its steps. *)
Inductive kill_pc := NoKill | KillFound | KillCancelled | KillClosed | KillDeregistered | KillDone.

#[export] Instance main_pc_eq_dec : EqDecision main_pc.
Proof. solve_decision. Defined.

Record threads := Threads {
  main : main_pc;
  stdin_done : bool;
  stdout_done : bool;
  errs : nat;
  cancelled : bool;
  ka : ka_pc;
  killer : kill_pc;
  result : option error;
}.

(** The state the session shares with the rest of the proxy. *)
Record shared := Shared {
  cm : ConnectionManager;
  db : database;
  recorder : Writer;
  dir : logdir;
}.

Record bridge := Bridge { cl : client_side; be : backend_side; th : threads; sh : shared }.

Definition set_cl (s : bridge) (c : client_side) : bridge := Bridge c (be s) (th s) (sh s).
Definition set_be (s : bridge) (b : backend_side) : bridge := Bridge (cl s) b (th s) (sh s).
Definition set_th (s : bridge) (t : threads) : bridge := Bridge (cl s) (be s) t (sh s).
Definition set_sh (s : bridge) (x : shared) : bridge := Bridge (cl s) (be s) (th s) x.

Definition set_main (m : main_pc) (t : threads) : threads :=
  Threads m (stdin_done t) (stdout_done t) (errs t) (cancelled t) (ka t) (killer t) (result t).
Definition set_ka (k : ka_pc) (t : threads) : threads :=
  Threads (main t) (stdin_done t) (stdout_done t) (errs t) (cancelled t) k (killer t) (result t).
Definition set_killer (k : kill_pc) (t : threads) : threads :=
  Threads (main t) (stdin_done t) (stdout_done t) (errs t) (cancelled t) (ka t) k (result t).
Definition set_cancelled (t : threads) : threads :=
  Threads (main t) (stdin_done t) (stdout_done t) (errs t) true (ka t) (killer t) (result t).
Definition set_result (r : option error) (t : threads) : threads :=
  Threads (main t) (stdin_done t) (stdout_done t) (errs t) (cancelled t) (ka t) (killer t) r.

(** A goroutine ends: it puts its error into [errCh], which never blocks for two. *)
Definition end_stdin (t : threads) : threads :=
  Threads (main t) true (stdout_done t) (S (errs t)) (cancelled t) (ka t) (killer t) (result t).
Definition end_stdout (t : threads) : threads :=
  Threads (main t) (stdin_done t) true (S (errs t)) (cancelled t) (ka t) (killer t) (result t).

Definition close_ssh (b : backend_side) : backend_side :=
  BackendSide (pipe b) (line_buf b) (out_buf b) (err_buf b) (exited b) false.

Definition arm (on : bool) (c : client_side) : client_side :=
  ClientSide (arrived c) (cl_open c) on (screen c) (stalled c) (owed c).
Definition show (e : shown) (c : client_side) : client_side :=
  ClientSide (arrived c) (cl_open c) (deadline c) (screen c ++ [e]) (stalled c) (owed c).
Definition show_some (e : str -> shown) (p : str) (c : client_side) : client_side :=
  ClientSide (arrived c) (cl_open c) (deadline c) (screen c ++ if bool_decide (p = []) then [] else [e p]) (stalled c) (owed c).
Definition set_stalled (on : bool) (c : client_side) : client_side :=
  ClientSide (arrived c) (cl_open c) (deadline c) (screen c) on (owed c).
Definition owe (p : str) (c : client_side) : client_side :=
  ClientSide (arrived c) (cl_open c) (deadline c) (screen c) (stalled c) p.

Definition set_cm (m : ConnectionManager) (x : shared) : shared := Shared m (db x) (recorder x) (dir x).
Definition set_db (d : database) (x : shared) : shared := Shared (cm x) d (recorder x) (dir x).

(** No more output will come: the remote shell has ended or the connection is gone. *)
Definition output_over (b : backend_side) : bool := exited b || negb (ssh_open b).

(** ** Actions *)

Inductive action :=
  (** the client, the remote server and the proxy process *)
  | ClientSends (p : str) | ClientCloses | ClientStalls | ClientDrains
  | ShellPrints (p : str) | ShellPrintsErr (p : str) | ShellExits | LinkDrops
  | PipeBreaks (n : nat) | Shutdown
  (** the stdin goroutine: a chunk of some length, with how many writes of the filter's
      messages the client takes; so much of a message it has waited with; or the end of
      the loop *)
  | StdinChunk (len : nat) (client_takes : option nat) | StdinTells (sent : nat) | StdinEnds
  (** the stdout goroutine: a chunk of some length, at a time; a chunk of which the client
      gets only so much; the end of the output *)
  | StdoutChunk (len : nat) (now : Z) | StdoutFails (len sent : nat) | StdoutEnds
  (** the main thread *)
  | MainWakes | MainJoins | MainDeregisters | MainMarks
  (** the keepalive loop: a ping that succeeds or fails, and its steps after the last *)
  | KaPong | KaMiss | KaCloses | KaStops
  (** the kill switch *)
  | KillStarts | KillCancels | KillCloses | KillDeregisters | KillMarks.

Definition maxMiss : Z := 3.

Definition ErrRevoked : error := ErrText §"Access revoked by administrator".

Section bridge.
Context {PG : Postgres} {UT : UnicodeTables}.
(** The session's id, the policy's whitelist and the number of its kill handle. *)
Variables (sid : str) (allowed : list str).

(** The next chunk a reader is given: at most the buffer, at most what is there. *)
Definition chunk_ok (len : nat) (s : str) : bool :=
  (0 <? Z.of_nat len) && (Z.of_nat len <=? streamBufSize) && (Z.of_nat len <=? zlen s).

(** The filter for one Write: the client's sink holds the messages of this Write. *)
Definition filter_at (s : bridge) (client_takes : option nat) : commandFilterWriter :=
  CFW (pipe (be s)) (Sink [] client_takes ErrEOF) allowed (line_buf (be s)).

(** Whether these bytes go through the filter without a message. *)
Definition quiet (len : nat) (s : bridge) : bool :=
  bool_decide (written (clientW (Write (filter_at s None) (take len (arrived (cl s)))).2) = []).

(** The stdin goroutine: a chunk is read and written through the filter; a write error
    ends the loop.  A message the client does not take now is owed. *)
Definition stdin_chunk (len : nat) (ct : option nat) (s : bridge) : bridge :=
  let c := cl s in
  let b := be s in
  let '((_, err), f) := Write (filter_at s (if blocked c then None else ct)) (take len (arrived c)) in
  let c := ClientSide (drop len (arrived c)) (cl_open c) (deadline c) (screen c) (stalled c) (owed c) in
  let c := if blocked c then owe (written (clientW f)) c else show_some Message (written (clientW f)) c in
  let b := BackendSide (target f) (buf f) (out_buf b) (err_buf b) (exited b) (ssh_open b) in
  let t := match err with Some _ => end_stdin (th s) | None => th s end in
  Bridge c b t (sh s).

(** The merged output: standard error is read when standard output has ended. *)
Definition next_output (b : backend_side) : option (str * (str -> backend_side)) :=
  if negb (bool_decide (out_buf b = [])) then
    Some (out_buf b, fun rest => BackendSide (pipe b) (line_buf b) rest (err_buf b) (exited b) (ssh_open b))
  else if output_over b && negb (bool_decide (err_buf b = [])) then
    Some (err_buf b, fun rest => BackendSide (pipe b) (line_buf b) (out_buf b) rest (exited b) (ssh_open b))
  else None.

(** [store.Terminate] with its error dropped, as every caller here does. *)
Definition mark (status : str) (x : shared) : shared := set_db (Terminate sid status (db x)).2 x.

(** When an action can happen and what it does.  While the client takes nothing, no write
    to it returns: the stdout goroutine waits with its chunk, and the stdin goroutine with
    the message of a refused line, whose end is then the last byte it has got to. *)
Definition step (s : bridge) (a : action) : option bridge :=
  let c := cl s in let b := be s in let t := th s in let x := sh s in
  match a with
  | ClientSends p =>
      if cl_open c then Some (set_cl s (ClientSide (arrived c ++ p) true (deadline c) (screen c) (stalled c) (owed c))) else None
  | ClientCloses => Some (set_cl s (ClientSide (arrived c) false (deadline c) (screen c) (stalled c) (owed c)))
  | ClientStalls => Some (set_cl s (set_stalled true c))
  | ClientDrains => Some (set_cl s (set_stalled false c))
  | ShellPrints p =>
      if output_over b then None
      else Some (set_be s (BackendSide (pipe b) (line_buf b) (out_buf b ++ p) (err_buf b) (exited b) (ssh_open b)))
  | ShellPrintsErr p =>
      if output_over b then None
      else Some (set_be s (BackendSide (pipe b) (line_buf b) (out_buf b) (err_buf b ++ p) (exited b) (ssh_open b)))
  | ShellExits => Some (set_be s (BackendSide (pipe b) (line_buf b) (out_buf b) (err_buf b) true (ssh_open b)))
  | LinkDrops => Some (set_be s (close_ssh b))
  | PipeBreaks n =>
      match budget (pipe b) with
      | None => Some (set_be s (BackendSide (Sink (written (pipe b)) (Some n) (sink_err (pipe b))) (line_buf b)
                  (out_buf b) (err_buf b) (exited b) (ssh_open b)))
      | Some _ => None
      end
  | Shutdown => Some (set_th s (set_cancelled t))
  | StdinChunk len ct =>
      if negb (stdin_done t) && bool_decide (owed c = []) && chunk_ok len (arrived c) && (negb (blocked c) || quiet (pred len) s)
      then Some (stdin_chunk len ct s) else None
  | StdinTells sent =>
      if negb (stdin_done t) && negb (bool_decide (owed c = [])) && (sent <=? length (owed c))%nat
         && negb (if (sent =? length (owed c))%nat then stalled c else cl_open c)
      then Some (set_cl s (owe [] (show_some Message (take sent (owed c)) c))) else None
  | StdinEnds =>
      if negb (stdin_done t) && bool_decide (owed c = []) && (deadline c || (negb (cl_open c) && bool_decide (arrived c = [])))
      then Some (set_th s (end_stdin t)) else None
  | StdoutChunk len now =>
      match next_output b with
      | Some (pending, rest) =>
          if negb (stdout_done t) && chunk_ok len pending && negb (stalled c) then
            let p := take len pending in
            let '(_, d) := audit_Write (recorder x) now p (dir x) in
            Some (Bridge (show (Output now p) c) (rest (drop len pending)) t (Shared (cm x) (db x) (recorder x) d))
          else None
      | None => None
      end
  | StdoutFails len sent =>
      match next_output b with
      | Some (pending, rest) =>
          if negb (stdout_done t) && chunk_ok len pending && negb (cl_open c) && (sent <? len)%nat
          then Some (Bridge (show_some Partial (take sent pending) c) (rest (drop len pending)) (end_stdout t) x) else None
      | None => None
      end
  | StdoutEnds =>
      if negb (stdout_done t) && output_over b && bool_decide (out_buf b = []) && bool_decide (err_buf b = [])
      then Some (set_th s (end_stdout t)) else None
  | MainWakes =>
      match main t, errs t with
      | Waiting, S n =>
          Some (Bridge (arm true c) b
            (Threads Joining (stdin_done t) (stdout_done t) n (cancelled t) (ka t) (killer t) (result t)) x)
      | _, _ => None
      end
  | MainJoins =>
      if bool_decide (main t = Joining) && stdin_done t && stdout_done t then
        let '(_, w, d) := Finalize (recorder x) (dir x) in
        let r := if cancelled t then Some ErrRevoked else None in
        Some (Bridge (arm false c) b (set_result r (set_main Deregistering t)) (Shared (cm x) (db x) w d))
      else None
  | MainDeregisters =>
      if bool_decide (main t = Deregistering)
      then Some (Bridge c b (set_main Marking t) (set_cm (Deregister sid (cm x)) x)) else None
  | MainMarks =>
      if bool_decide (main t = Marking)
      then Some (Bridge c b (set_main Returned t) (mark StatusTerminated x)) else None
  | KaPong =>
      match ka t with
      | KaLoop _ => if ssh_open b then Some (set_th s (set_ka (KaLoop 0) t)) else None
      | _ => None
      end
  | KaMiss =>
      match ka t with
      | KaLoop missed =>
          if ssh_open b then None
          else if maxMiss <=? missed + 1
          then Some (Bridge c b (set_ka KaClosing t) (mark StatusTerminatedTimeout x))
          else Some (set_th s (set_ka (KaLoop (missed + 1)) t))
      | _ => None
      end
  | KaCloses =>
      match ka t with
      | KaClosing => Some (Bridge c (close_ssh b) (set_ka KaGone t) x)
      | _ => None
      end
  | KaStops =>
      match ka t with
      | KaLoop _ => if cancelled t then Some (set_th s (set_ka KaGone t)) else None
      | _ => None
      end
  | KillStarts =>
      match killer t, sessions (cm x) !! sid with
      | NoKill, Some _ => Some (set_th s (set_killer KillFound t))
      | _, _ => None
      end
  | KillCancels =>
      match killer t with
      | KillFound => Some (set_th s (set_cancelled (set_killer KillCancelled t)))
      | _ => None
      end
  | KillCloses =>
      match killer t with
      | KillCancelled => Some (Bridge c (close_ssh b) (set_killer KillClosed t) x)
      | _ => None
      end
  | KillDeregisters =>
      match killer t with
      | KillClosed => Some (Bridge c b (set_killer KillDeregistered t) (set_cm (Deregister sid (cm x)) x))
      | _ => None
      end
  | KillMarks =>
      match killer t with
      | KillDeregistered => Some (Bridge c b (set_killer KillDone t) (mark StatusTerminatedKill x))
      | _ => None
      end
  end.

(** A run of actions, each possible where it happens. *)
Fixpoint exec (s : bridge) (acts : list action) : option bridge :=
  match acts with
  | [] => Some s
  | a :: acts => match step s a with Some s' => exec s' acts | None => None end
  end.
End bridge.

(** ** Setting up *)

(** What the calls on the SSH session answer, one for each. *)
Record ssh_calls := SshCalls {
  NewSession : option error;
  RequestPty : str -> Z -> Z -> option error;
  StdinPipe : option error;
  StdoutPipe : option error;
  StderrPipe : option error;
  Shell : option error;
}.

(** A call that fails ends the function with its error under a text. *)
Definition must {A} (what : str) (r : option error) (k : res A) : res A :=
  match r with Some err => inl (ErrWrap what err) | None => k end.

(** The steps of [Bridge] before the goroutines start: on success the five threads at
    their beginnings, the row inserted and the handle registered. *)
Definition Bridge_setup {PG : Postgres} (ops : ssh_calls) (sid userID serverID : str) (proxyNodeIP : option str)
    (termWidth termHeight : Z) (handle : nat) (db_now : Z) (pending : str) (x : shared) : res bridge * shared :=
  let before_register :=
    must §"new ssh session" (NewSession ops) (
    must §"request pty" (RequestPty ops §"xterm-256color" termHeight termWidth) (
    must §"stdin pipe" (StdinPipe ops) (
    must §"stdout pipe" (StdoutPipe ops) (
    must §"stderr pipe" (StderrPipe ops) (
    must §"start shell" (Shell ops) (inr tt)))))) in
  match before_register with
  | inl err => (inl err, x)
  | inr _ =>
      let '(err, d) := Register sid userID serverID proxyNodeIP db_now (db x) in
      match err with
      | Some err => (inl (ErrWrap §"session register" err), set_db d x)
      | None =>
          let x := set_cm (RegisterHandle sid handle (cm x)) (set_db d x) in
          (inr (Bridge (ClientSide pending true false [] false []) (BackendSide (Sink [] None ErrEOF) [] [] [] false true)
             (Threads Waiting false false 0 false (KaLoop 0) NoKill None) x), x)
      end
  end.

(** ** Lemmas *)

(** Boolean conditions among the hypotheses, as propositions. *)
Ltac conditions :=
  repeat match goal with
  | H : negb _ = true |- _ => apply negb_true_iff in H
  | H : negb _ = false |- _ => apply negb_false_iff in H
  | H : _ && _ = true |- _ => apply andb_true_iff in H; destruct H
  | H : bool_decide _ = true |- _ => apply bool_decide_eq_true in H
  | H : bool_decide _ = false |- _ => apply bool_decide_eq_false in H
  | H : (_ <? _) = true |- _ => apply Z.ltb_lt in H
  | H : (_ <=? _) = true |- _ => apply Z.leb_le in H
  end.

(** Every case of a possible action. *)
Ltac step_cases H a :=
  unfold step in H; destruct a; cbn zeta in H;
  repeat match type of H with context [match ?x with _ => _ end] => destruct x eqn:? end;
  first [discriminate H|injection H as H; subst]; conditions.

Section runs.
Context {PG : Postgres} {UT : UnicodeTables}.
Variables (sid : str) (allowed : list str).

Abbreviation stepS := (step sid allowed).
Abbreviation execS := (exec sid allowed).

Definition done_count (t : threads) : nat := (if stdin_done t then 1 else 0) + (if stdout_done t then 1 else 0).

(** The bookkeeping of the threads. *)
Record threads_ok (t : threads) (deadline : bool) : Prop := {
  ok_errs : (errs t + (if decide (main t = Waiting) then 0 else 1) = done_count t)%nat;
  ok_deadline : deadline = bool_decide (main t = Joining);
  ok_joined : main t = Waiting \/ main t = Joining \/ (stdin_done t = true /\ stdout_done t = true);
}.

Definition bridge_ok (s : bridge) : Prop := threads_ok (th s) (deadline (cl s)).

Lemma threads_ok_stdin t d : threads_ok t d -> stdin_done t = false -> threads_ok (end_stdin t) d.
Proof.
  intros [He Hd Hj] Hs. constructor; simpl; [|done|naive_solver congruence].
  unfold done_count in *. simpl. rewrite Hs in He. lia.
Qed.

Lemma threads_ok_stdout t d : threads_ok t d -> stdout_done t = false -> threads_ok (end_stdout t) d.
Proof.
  intros [He Hd Hj] Hs. constructor; simpl; [|done|naive_solver congruence].
  unfold done_count in *. simpl. rewrite Hs in He. lia.
Qed.

Lemma stdin_chunk_fields len ct s :
  let s' := stdin_chunk allowed len ct s in
  out_buf (be s') = out_buf (be s) /\ err_buf (be s') = err_buf (be s) /\ exited (be s') = exited (be s)
  /\ ssh_open (be s') = ssh_open (be s) /\ arrived (cl s') = drop len (arrived (cl s))
  /\ deadline (cl s') = deadline (cl s) /\ sh s' = sh s
  /\ (th s' = th s \/ th s' = end_stdin (th s)).
Proof.
  unfold stdin_chunk, show_some. destruct (Write _ _) as [[n err] f]. simpl.
  repeat case_match; simpl; auto 10.
Qed.

(** What the other side of the connection is to a chunk of input. *)
Lemma stdin_chunk_client len ct s :
  let s' := stdin_chunk allowed len ct s in
  cl_open (cl s') = cl_open (cl s) /\ stalled (cl s') = stalled (cl s).
Proof.
  unfold stdin_chunk, show_some. destruct (Write _ _) as [[n err] f]. simpl.
  by repeat case_match.
Qed.

Lemma threads_ok_advance t d r m d' :
  threads_ok t d -> main t <> Waiting -> stdin_done t = true -> stdout_done t = true ->
  m <> Waiting -> m <> Joining -> d' = false ->
  threads_ok (set_result r (set_main m t)) d' /\ threads_ok (set_main m t) d'.
Proof.
  intros [He _ _] Hm Hi Ho Hw Hj ->. rewrite decide_False in He by done. unfold done_count in He. rewrite Hi, Ho in He.
  split; (constructor; simpl; [|by rewrite bool_decide_false|auto];
    rewrite decide_False by done; unfold done_count; simpl; by rewrite Hi, Ho).
Qed.

Lemma bridge_ok_step s a s' : bridge_ok s -> stepS s a = Some s' -> bridge_ok s'.
Proof.
  unfold bridge_ok. intros Hok H. pose proof Hok as [He Hd Hj]. step_cases H a; simpl in *; try done.
  all: try (by apply threads_ok_stdin); try (by apply threads_ok_stdout).
  all: try (constructor; simpl; unfold done_count in *; simpl in *; repeat case_decide; simplify_eq;
            solve [done | lia | naive_solver lia]).
  - destruct (stdin_chunk_fields len client_takes s) as (_ & _ & _ & _ & _ & -> & _ & [->| ->]);
      [done|by apply threads_ok_stdin].
  - eapply threads_ok_advance; [done|congruence|done..].
  - eapply threads_ok_advance; [done|congruence|done..].
  - eapply proj2, (threads_ok_advance _ _ None); [done|congruence|naive_solver congruence..|].
    rewrite Hd. by rewrite bool_decide_false by congruence.
  - eapply proj2, (threads_ok_advance _ _ None); [done|congruence|naive_solver congruence..|].
    rewrite Hd. by rewrite bool_decide_false by congruence.
Qed.

(** The actions the bridge's own code takes to end, the kill switch and the keepalive
    loop apart. *)
Definition own (a : action) : bool :=
  match a with
  | StdinChunk _ _ | StdinTells _ | StdinEnds | StdoutChunk _ _ | StdoutFails _ _ | StdoutEnds
  | MainWakes | MainJoins | MainDeregisters | MainMarks => true
  | _ => false
  end.

Definition main_rank (m : main_pc) : nat :=
  match m with Waiting => 4 | Joining => 3 | Deregistering => 2 | Marking => 1 | Returned => 0 end.

(** What is left to do: a byte from the client may have a message in its wake. *)
Definition work (s : bridge) : nat :=
  2 * length (arrived (cl s)) + (if bool_decide (owed (cl s) = []) then 0 else 1) + length (out_buf (be s)) + length (err_buf (be s))
  + (if stdin_done (th s) then 0 else 1) + (if stdout_done (th s) then 0 else 1) + main_rank (main (th s)).

Lemma chunk_ok_length len s : chunk_ok len s = true -> (0 < len <= length s)%nat.
Proof. unfold chunk_ok, zlen. intros. conditions. lia. Qed.

Lemma chunk_ok_one s : s <> [] -> chunk_ok 1 s = true.
Proof.
  destruct s as [|b s]; [done|]. intros _. apply andb_true_iff. split; [done|].
  apply Z.leb_le. rewrite zlen_cons. pose proof (zlen_nonneg s). lia.
Qed.

Lemma next_output_spec b pending rest :
  next_output b = Some (pending, rest) ->
  pending <> [] /\ (forall q, output_over (rest q) = output_over b) /\
  forall q, (length (out_buf (rest q)) + length (err_buf (rest q)) + length pending
    = length (out_buf b) + length (err_buf b) + length q)%nat.
Proof.
  unfold next_output. intros H. repeat case_match; simplify_eq/=; conditions;
    (split; [done|]; split; [done|]); intros q; simpl; lia.
Qed.

Lemma next_output_pipe b pending rest q :
  next_output b = Some (pending, rest) -> pipe (rest q) = pipe b /\ line_buf (rest q) = line_buf b.
Proof. unfold next_output. intros H. repeat case_match; by simplify_eq/=. Qed.

Lemma next_output_None b :
  next_output b = None -> out_buf b = [] /\ (output_over b = true -> err_buf b = []).
Proof.
  unfold next_output. intros H. repeat case_match; simplify_eq; conditions. split; [done|].
  intros Ho. rewrite Ho in *. simpl in *. by conditions.
Qed.

(** What the client sends in an action. *)
Definition sent_in (a : action) : str := match a with ClientSends p => p | _ => [] end.

(** How much the client has sent, and how much the bridge's own code has done, in a run. *)
Definition sent_bytes (acts : list action) : nat := length (concat (map sent_in acts)).
Definition own_done (acts : list action) : nat := length (List.filter own acts).

(** Once no more output can come, none will, each action of the bridge's own code leaves
    less to do, and only what the client sends adds to it. *)
Lemma work_step s a s' :
  output_over (be s) = true -> stepS s a = Some s' ->
  output_over (be s') = true /\ ((if own a then 1 else 0) + work s' <= work s + 2 * length (sent_in a))%nat.
Proof.
  intros Ho H. unfold work. step_cases H a; simpl in *.
  all: try match goal with E : next_output _ = Some (?l, _) |- context [drop ?n ?l] =>
    apply next_output_spec in E as (_ & Hov & Hlen); specialize (Hlen (drop n l)); rewrite length_drop in Hlen end.
  all: try match goal with E : chunk_ok _ _ = true |- _ => apply chunk_ok_length in E end.
  all: rewrite ?Hov; try congruence; try (split; [done || by apply orb_true_r|]).
  all: repeat match goal with E : main _ = _ |- _ => rewrite E; clear E
       | E : stdin_done _ = _ |- _ => rewrite E; clear E
       | E : stdout_done _ = _ |- _ => rewrite E; clear E end; simpl.
  all: rewrite ?length_app; try (repeat case_match; lia).
  - destruct (stdin_chunk_fields len client_takes s) as (Eo & Ee & Ex & Es & Ea & _ & _ & Et).
    unfold output_over in *. rewrite Eo, Ee, Ex, Es, Ea, length_drop.
    split; [done|]. destruct Et as [-> | ->]; simpl; repeat case_match; simplify_eq; lia.
  - rewrite (bool_decide_false (owed (cl s) = [])) by done. lia.
Qed.

(** Once no more output can come, the bridge's own code can always go on, unless it waits
    for a client that takes nothing. *)
Lemma own_progress s :
  bridge_ok s -> output_over (be s) = true -> blocked (cl s) = false -> main (th s) <> Returned ->
  exists a, own a = true /\ is_Some (stepS s a).
Proof.
  intros [He Hd Hj] Hov Hb Hm. destruct (stdout_done (th s)) eqn:Hout.
  - destruct (main (th s)) eqn:Em; [| | | |done].
    + exists MainWakes. split; [done|]. unfold step. rewrite Em. unfold done_count in He. rewrite Hout in He.
      destruct (errs (th s)); [|done]. rewrite decide_True in He by done. destruct (stdin_done (th s)); lia.
    + destruct (stdin_done (th s)) eqn:Hin.
      { exists MainJoins. split; [done|]. unfold step. rewrite Em, Hin, Hout, bool_decide_true by done. simpl.
        by destruct (Finalize _ _) as [[? ?] ?]. }
      destruct (decide (owed (cl s) = [])) as [Ho|Ho].
      * exists StdinEnds. split; [done|]. unfold step. by rewrite Hin, Hd, (bool_decide_true (owed _ = [])).
      * exists (StdinTells (if stalled (cl s) then 0 else length (owed (cl s)))). split; [done|].
        unfold step, blocked in *. rewrite Hin, bool_decide_false by done. destruct (stalled (cl s)) eqn:Es; simpl in *.
        -- destruct (owed (cl s)); [done|]. by rewrite Hb.
        -- by rewrite Nat.leb_refl, Nat.eqb_refl.
    + exists MainDeregisters. split; [done|]. unfold step. by rewrite Em, bool_decide_true.
    + exists MainMarks. split; [done|]. unfold step. by rewrite Em, bool_decide_true.
  - destruct (next_output (be s)) as [[pending rest]|] eqn:Hn.
    + apply next_output_spec in Hn as Hn'. destruct Hn' as (Hne & _). unfold blocked in Hb.
      destruct (stalled (cl s)) eqn:Es; simpl in Hb.
      * exists (StdoutFails 1 0). split; [done|]. unfold step. by rewrite Hn, Hout, chunk_ok_one, Hb.
      * exists (StdoutChunk 1 0). split; [done|]. unfold step. by rewrite Hn, Hout, chunk_ok_one, Es.
    + exists StdoutEnds. split; [done|]. apply next_output_None in Hn as [Ho Hr]. unfold step.
      rewrite Hout, Hov, Ho, Hr by done. done.
Qed.

(** While a client takes nothing, output that waits for it keeps its bridge from
    returning: nothing but the client itself changes that. *)
Definition held (s : bridge) : Prop :=
  blocked (cl s) = true /\ out_buf (be s) <> [] /\ stdout_done (th s) = false
  /\ (main (th s) = Waiting \/ main (th s) = Joining).

Definition lets_go (a : action) : bool := match a with ClientCloses | ClientDrains => true | _ => false end.

Lemma held_step s a s' : held s -> lets_go a = false -> stepS s a = Some s' -> held s'.
Proof.
  intros (Hb & Hne & Hd & Hm) Ha H. unfold held, blocked in *. apply andb_true_iff in Hb as [Hb1 Hb2].
  step_cases H a; try discriminate Ha; simpl in *; rewrite ?Hb1, ?Hb2; try congruence; try (by split_and!; auto).
  - split_and!; [done| |done..]. by intros [? _]%app_eq_nil.
  - destruct (stdin_chunk_client len client_takes s) as [-> ->]. rewrite Hb1, Hb2.
    destruct (stdin_chunk_fields len client_takes s) as (-> & _ & _ & _ & _ & _ & _ & [->| ->]); by split_and!.
  - naive_solver congruence.
  - naive_solver congruence.
Qed.

(** With simple keys only from the client, the filter is in step with the remote terminal
    after every action. *)
Definition typed_ok {TM : Terminal} (s : bridge) : Prop :=
  Forall simple_key (arrived (cl s)) /\ in_step (filter_at allowed s None).

Definition sends_ok (a : action) : Prop := Forall simple_key (sent_in a).

Section typed.
Context {TM : Terminal}.

Lemma in_step_same f f' :
  target f = target f' -> allowedCmds f = allowedCmds f' -> buf f = buf f' -> in_step f -> in_step f'.
Proof.
  intros Ht Ha Hb [H1 H2]. constructor; rewrite <- ?Ht, <- ?Ha; [done|].
  unfold follows in *. by rewrite <- Ht, <- Hb.
Qed.

Lemma typed_ok_chunk len ct s : typed_ok s -> typed_ok (stdin_chunk allowed len ct s).
Proof.
  intros [Hk Hf]. unfold stdin_chunk, Write. set (ct' := if blocked _ then _ else _).
  set (p := take len (arrived (cl s))). destruct (filter_bytes (filter_at allowed s ct') p) as [err f] eqn:E.
  assert (in_step f /\ allowedCmds f = allowed) as [Hin Hal].
  { eapply (filter_bytes_in_step (filter_at allowed s ct')); [by eapply in_step_same, Hf|by apply Forall_take|done]. }
  assert (Forall simple_key (drop len (arrived (cl s)))) by (by apply Forall_drop).
  destruct err; (split; [by simpl; case_match|]); by eapply in_step_same, Hin.
Qed.

Lemma typed_ok_step s a s' : typed_ok s -> sends_ok a -> stepS s a = Some s' -> typed_ok s'.
Proof.
  intros Hok Ha H. pose proof Hok as [Hk Hf]. unfold typed_ok. step_cases H a; simpl in *; try done.
  - split; [by apply Forall_app|done].
  - split; [done|]. destruct Hf as [H1 H2]. constructor; simpl in *; [done|].
    right. unfold follows in H2. simpl in H2. by destruct H2 as [H2|H2]; [rewrite H2 in *|].
  - by apply typed_ok_chunk.
  - edestruct next_output_pipe as [Hp Hl]; [done|]. split; [done|].
    eapply in_step_same, Hf; simpl; [by rewrite Hp|done|by rewrite Hl].
  - edestruct next_output_pipe as [Hp Hl]; [done|]. split; [done|].
    eapply in_step_same, Hf; simpl; [by rewrite Hp|done|by rewrite Hl].
Qed.
End typed.

(** The chunks of the server's output on the client's screen, with their times. *)
Definition outputs (l : list shown) : list (Z * str) :=
  omap (fun e => match e with Output now p => Some (now, p) | Partial _ | Message _ => None end) l.

(** The recording [name] holds the frame it began with and every output since. *)
Record recorded_ok (name : str) (first : Z * str) (s : bridge) : Prop := {
  rec_faults : faults (dir (sh s)) = [];
  rec_name : w_name (recorder (sh s)) = name;
  rec_open : stdout_done (th s) = false -> w_open (recorder (sh s)) = true;
  rec_file : files (dir (sh s)) !! name = Some (frames_text (first :: outputs (screen (cl s))));
  rec_chunks : Forall (fun p => zlen p.2 <= streamBufSize) (outputs (screen (cl s)));
}.

Lemma Finalize_keeps w d err w' d' name :
  faults d = [] -> w_name w = name -> Finalize w d = (err, w', d') ->
  faults d' = [] /\ w_name w' = name /\ files d' !! name = files d !! name.
Proof.
  intros Hd Hn. unfold Finalize, fs_op. rewrite !Hd. destruct (w_open w); cbn [negb]; intros [= <- <- <-]; [|done].
  split; [done|]. split; [done|]. apply lookup_insert_ne. rewrite Hn.
  intros E%(f_equal length). rewrite length_app in E. cbn in E. lia.
Qed.

Lemma outputs_app l l' : outputs (l ++ l') = outputs l ++ outputs l'.
Proof. apply omap_app. Qed.

(** What is not output does not count as output. *)
Lemma outputs_show_some e p c :
  (forall q, outputs [e q] = []) -> outputs (screen (show_some e p c)) = outputs (screen c).
Proof.
  intros He. unfold show_some. cbn [screen]. rewrite outputs_app. case_bool_decide; rewrite ?He; apply app_nil_r.
Qed.

Lemma stdin_chunk_outputs len ct s :
  outputs (screen (cl (stdin_chunk allowed len ct s))) = outputs (screen (cl s)).
Proof.
  unfold stdin_chunk. destruct (Write _ _) as [[n err] f]. cbn [cl]. case_match; [done|]. by rewrite outputs_show_some.
Qed.

Lemma frames_text_snoc ps p : frames_text (ps ++ [p]) = frames_text ps ++ frame p.1 p.2.
Proof. unfold frames_text. rewrite map_app, concat_app. cbn [map concat]. by rewrite app_nil_r. Qed.

Lemma recorded_ok_step name first s a s' :
  recorded_ok name first s -> stepS s a = Some s' -> recorded_ok name first s'.
Proof.
  intros [Hf Hn Ho Hfile Hc] H. step_cases H a; simpl in *; try (by constructor).
  - destruct (stdin_chunk_fields len client_takes s) as (_ & _ & _ & _ & _ & _ & Hs & Ht).
    constructor; rewrite ?Hs, ?stdin_chunk_outputs; try done. by destruct Ht as [->| ->].
  - constructor; cbn [set_cl owe cl sh th screen]; by rewrite ?outputs_show_some.
  - match goal with E : audit_Write _ _ _ _ = _ |- _ => unfold audit_Write in E; injection E as _ <- end.
    rewrite writeFrame_ok, Hfile by auto. constructor; cbn -[outputs frames_text]; [done|done|done| |].
    + rewrite lookup_insert_eq, outputs_app. f_equal. symmetry.
      exact (frames_text_snoc (first :: outputs (screen (cl s))) (now, take len l)).
    + rewrite outputs_app, Forall_app. split; [done|]. constructor; [|done]. simpl.
      match goal with E : chunk_ok _ _ = true |- _ => unfold chunk_ok in E; conditions end.
      unfold zlen in *. rewrite length_take. lia.
  - constructor; cbn [cl sh th]; by rewrite ?outputs_show_some.
  - destruct (Finalize_keeps _ _ _ _ _ (w_name (recorder (sh s))) Hf eq_refl Heqp) as (? & ? & E).
    constructor; cbn -[outputs frames_text]; rewrite ?E; done || congruence.
  - destruct (Finalize_keeps _ _ _ _ _ (w_name (recorder (sh s))) Hf eq_refl Heqp) as (? & ? & E).
    constructor; cbn -[outputs frames_text]; rewrite ?E; done || congruence.
Qed.

(** The session's row is there and, once the bridge has returned or a kill has run to
    its end, it is not active any more. *)
Definition ended (st : str) : Prop := st ∈ [StatusTerminated; StatusTerminatedTimeout; StatusTerminatedKill].

Record marked_ok (s : bridge) : Prop := {
  mark_up : outcomes (db (sh s)) = [];
  mark_row : status_of sid (db (sh s)) <> None;
  mark_ended : main (th s) = Returned \/ killer (th s) = KillDone ->
    exists st, status_of sid (db (sh s)) = Some st /\ ended st;
}.

Lemma mark_status st x :
  outcomes (db x) = [] -> status_of sid (db x) <> None -> ended st ->
  outcomes (db (mark sid st x)) = [] /\ status_of sid (db (mark sid st x)) = Some st.
Proof.
  intros Ho Hs Hst. unfold mark. rewrite Terminate_ok; [|done|by right].
  cbn [db set_db snd]. split; [done|by apply status_of_terminated].
Qed.

(** [set_cm] and the recording do not matter to what a mark does. *)
Lemma mark_over st st' x (m : ConnectionManager) (r : Writer) (l : logdir) :
  outcomes (db x) = [] -> status_of sid (db x) <> None -> ended st -> ended st' ->
  status_of sid (db (mark sid st' (Shared m (db (mark sid st x)) r l))) = Some st'.
Proof.
  intros Ho Hs H1 H2. destruct (mark_status st x Ho Hs H1) as [Ho1 Hs1].
  apply mark_status; [done|by cbn [db]; rewrite Hs1|done].
Qed.

Lemma marked_ok_mark s st (t : threads) (b : backend_side) (c : client_side) :
  marked_ok s -> ended st -> marked_ok (Bridge c b t (mark sid st (sh s))).
Proof.
  intros [Ho Hs _] Hst. destruct (mark_status st (sh s) Ho Hs Hst) as [Ho' Hs'].
  constructor; cbn [sh th]; [done|by rewrite Hs'|]. intros _. by exists st.
Qed.

Lemma marked_ok_step s a s' : marked_ok s -> stepS s a = Some s' -> marked_ok s'.
Proof.
  intros Hm H. pose proof Hm as [Ho Hs He]. step_cases H a; try (by constructor).
  all: try (apply marked_ok_mark; [done|unfold ended; set_solver]).
  all: try (constructor; [done|done|]; intros [?|?]; [done || by apply He; left|done || by apply He; right]).
  - destruct (stdin_chunk_fields len client_takes s) as (_ & _ & _ & _ & _ & _ & Esh & Et).
    constructor; rewrite ?Esh; [done|done|]. by destruct Et as [->| ->].
Qed.

(** ** The server's output *)

(** What the remote shell has printed in a run, on each of its streams. *)
Definition printed (acts : list action) : str :=
  concat (map (fun a => match a with ShellPrints p => p | _ => [] end) acts).
Definition printed_err (acts : list action) : str :=
  concat (map (fun a => match a with ShellPrintsErr p => p | _ => [] end) acts).

Definition shown_text (s : bridge) : str := concat (map snd (outputs (screen (cl s)))).

(** What has been printed is what has been shown and what is still to be shown; nothing
    of standard error is shown before standard output is over. *)
Definition delivered (po pe : str) (s : bridge) : Prop :=
  exists so se, shown_text s = so ++ se /\ po = so ++ out_buf (be s) /\ pe = se ++ err_buf (be s)
    /\ (se = [] \/ (out_buf (be s) = [] /\ output_over (be s) = true)).

Definition takes_output (a : action) : Prop := match a with StdoutFails _ _ => False | _ => True end.

Lemma shown_text_show now p c b t x :
  shown_text (Bridge (show (Output now p) c) b t x) = concat (map snd (outputs (screen c))) ++ p.
Proof.
  unfold shown_text. cbn [cl show screen]. rewrite outputs_app, map_app, concat_app. cbn. by rewrite app_nil_r.
Qed.

Lemma delivered_same po pe s s' :
  delivered po pe s -> shown_text s' = shown_text s -> out_buf (be s') = out_buf (be s) ->
  err_buf (be s') = err_buf (be s) -> (output_over (be s) = true -> output_over (be s') = true) ->
  delivered po pe s'.
Proof.
  intros (so & se & H1 & H2 & H3 & H4) Hs Ho He Hov. exists so, se. rewrite Hs, Ho, He.
  split_and!; [done..|]. destruct H4 as [|[]]; auto.
Qed.

Lemma delivered_chunk po pe s len now pending rest t x :
  delivered po pe s -> next_output (be s) = Some (pending, rest) ->
  delivered po pe (Bridge (show (Output now (take len pending)) (cl s)) (rest (drop len pending)) t x).
Proof.
  intros (so & se & H1 & H2 & H3 & H4) Hn. unfold delivered. rewrite shown_text_show.
  change (concat (map snd (outputs (screen (cl s))))) with (shown_text s). rewrite H1.
  unfold next_output in Hn. repeat case_match; simplify_eq; conditions; cbn [be out_buf err_buf].
  - destruct H4 as [->|[? _]]; [|done]. exists (so ++ take len (out_buf (be s))), [].
    split_and!; [by rewrite !app_nil_r|by rewrite <- app_assoc, take_drop|done|by left].
  - exists so, (se ++ take len (err_buf (be s))). rewrite <- (app_assoc se _ (drop _ _)), take_drop, app_assoc.
    split_and!; [done..|]. right. by split.
Qed.

Lemma delivered_step po pe s a s' :
  delivered po pe s -> takes_output a -> stepS s a = Some s' ->
  delivered (po ++ printed [a]) (pe ++ printed_err [a]) s'.
Proof.
  intros Hd Ha H. unfold printed, printed_err. step_cases H a; cbn [map concat]; rewrite ?app_nil_r.
  all: try done; try (by eapply delivered_chunk).
  all: try (eapply delivered_same; [exact Hd|done..|]; unfold output_over; simpl;
            rewrite ?orb_true_iff, ?orb_true_r; tauto || done || auto).
  - destruct Hd as (so & se & H1 & -> & -> & H4). exists so, se. rewrite <- app_assoc.
    split_and!; try done. destruct H4 as [|[_ Hov]]; [by left|congruence].
  - destruct Hd as (so & se & H1 & -> & -> & H4). exists so, se. by rewrite <- app_assoc.
  - destruct (stdin_chunk_fields len client_takes s) as (Eo & Ee & Ex & Es & _).
    eapply delivered_same; [exact Hd|by unfold shown_text; rewrite stdin_chunk_outputs|done..|].
    unfold output_over. by rewrite Ex, Es.
  - eapply delivered_same; [exact Hd| |done..]. unfold shown_text. cbn [set_cl owe cl screen].
    by rewrite outputs_show_some.
Qed.

Lemma delivered_run po pe s acts s' :
  delivered po pe s -> Forall takes_output acts -> execS s acts = Some s' ->
  delivered (po ++ printed acts) (pe ++ printed_err acts) s'.
Proof.
  intros Hd Ha. revert po pe s Hd. induction Ha as [|a acts Ha _ IH]; intros po pe s Hd; simpl.
  - intros [= <-]. by rewrite !app_nil_r.
  - destruct (stepS s a) as [s1|] eqn:H1; [|done]. intros H.
    eapply delivered_step in H1; [|done..]. apply (IH _ _ _ H1) in H.
    unfold printed, printed_err in *. simpl in *. by rewrite !app_nil_r, <- !app_assoc in H.
Qed.

(** ** Running the bridge's own code *)

Lemma returned_stuck s a : bridge_ok s -> main (th s) = Returned -> own a = true -> stepS s a = None.
Proof.
  intros [_ _ [Hj|[Hj|[Hi Ho]]]] Hm; [congruence..|]. unfold step. rewrite Hm, Hi, Ho.
  destruct a; try done; intros _; simpl; by destruct (next_output _) as [[? ?]|].
Qed.

(** The error of the bridge is settled when the goroutines are joined: revoked if the
    context was cancelled before ([c]), and nothing if it is not cancelled yet. *)
Definition settled (c : bool) (s : bridge) : Prop :=
  (c = true -> cancelled (th s) = true)
  /\ (main (th s) = Waiting \/ main (th s) = Joining
      \/ ((c = true -> result (th s) = Some ErrRevoked) /\ (cancelled (th s) = false -> result (th s) = None))).

Lemma settled_step c s a s' : settled c s -> stepS s a = Some s' -> settled c s'.
Proof.
  intros [Hc Hr] H. unfold settled. step_cases H a; simpl; auto.
  all: try (split; [done|]; naive_solver congruence).
  - destruct (stdin_chunk_fields len client_takes s) as (_ & _ & _ & _ & _ & _ & _ & [->| ->]); simpl; auto.
  - rewrite Heqb0. split; [done|]. right. right. split; [|done]. by intros E%Hc.
Qed.

(** ** The start of a session *)

Lemma Bridge_setup_inv ops userID serverID ip w h handle db_now pending x s x' :
  Bridge_setup ops sid userID serverID ip w h handle db_now pending x = (inr s, x') ->
  exists d, Register sid userID serverID ip db_now (db x) = (None, d) /\
  s = Bridge (ClientSide pending true false [] false []) (BackendSide (Sink [] None ErrEOF) [] [] [] false true)
        (Threads Waiting false false 0 false (KaLoop 0) NoKill None)
        (set_cm (RegisterHandle sid handle (cm x)) (set_db d x)).
Proof.
  unfold Bridge_setup. intros H. destruct (must _ _ _); [done|].
  destruct (Register _ _ _ _ _ _) as [[err|] d]; simplify_eq. by exists d.
Qed.

Lemma Register_active userID serverID ip db_now d d' :
  outcomes d = [] -> Register sid userID serverID ip db_now d = (None, d') ->
  outcomes d' = [] /\ status_of sid d' = Some StatusActive.
Proof.
  intros Ho. unfold Register. rewrite run_done by done. unfold insert_session.
  destruct (inet_in _) as [i|]; [|done]. repeat case_bool_decide; try done. intros [= <-].
  split; [done|]. unfold status_of. simpl. rewrite filter_app, filter_key_nil by done.
  rewrite filter_cons, decide_True by done. done.
Qed.
End runs.

(** ** Properties *)

(** Computing a run of actions from a known state. *)
Ltac run_steps :=
  repeat progress (
    cbn -[mark StatusTerminated StatusTerminatedKill StatusTerminatedTimeout status_of bool_decide lookup];
    rewrite ?lookup_insert_eq, ?bool_decide_true by done;
    try match goal with |- context [Finalize ?a ?b] => destruct (Finalize a b) as [[? ?] ?] end).

Section properties.
Context {PG : Postgres} {UT : UnicodeTables}.
Variables (sid userID serverID : str) (ip : option str) (w h : Z) (handle : nat) (db_now : Z) (pending : str).
Variables (ops : ssh_calls) (x x' : shared) (s0 : bridge).

(** C27.  Output is delivered whole and in order.  As long as the client takes what it is
    written, at every moment what has been shown is a prefix of what the remote shell
    has printed on standard output, then of what it has printed on standard error, the
    rest of each being still in its buffer - and nothing of standard error is shown
    while the shell still runs: the two streams are not merged but one after the other. *)
Theorem output_in_order (Hs : Bridge_setup ops sid userID serverID ip w h handle db_now pending x = (inr s0, x'))
    (allowed : list str) (acts : list action) (s : bridge)
    (Ht : Forall takes_output acts) (He : exec sid allowed s0 acts = Some s) :
  delivered (printed acts) (printed_err acts) s.
Proof.
  apply Bridge_setup_inv in Hs as (d & _ & ->).
  eapply (delivered_run sid allowed [] []) in He; [done| |done].
  exists [], []. split_and!; [done..|by left].
Qed.

(** The steps of a kill, and of the bridge once its output is over. *)
Definition kill_steps : list action := [KillStarts; KillCancels; KillCloses; KillDeregisters; KillMarks].
Definition end_steps : list action := [StdoutEnds; MainWakes; StdinEnds; MainJoins; MainDeregisters; MainMarks].

(** The steps of a kill are the RPC.  Run one after another they leave the registry
    and the database as [TerminateSession] of Killswitch.v does for the same session,
    with the context cancelled and the SSH connection closed; and the bridge's client
    connection is not touched, so a gateway user gets back to the menu. *)
Theorem kill_steps_are_the_rpc `{UU : UuidText} (allowed : list str) (s : bridge) (start stop : Z)
    (Hu : uuid_parse sid = Some sid) (Hk : killer (th s) = NoKill) (Hr : sessions (cm (sh s)) !! sid = Some handle) :
  exists s' d',
    exec sid allowed s kill_steps = Some s'
    /\ TerminateSession sid start stop (cm (sh s)) (db (sh s))
       = (TermResp true (Z.quot (stop - start) Millisecond) [], [Cancel handle; CloseConns handle], cm (sh s'), d')
    /\ db (sh s') = d' /\ cancelled (th s') = true /\ ssh_open (be s') = false /\ cl s' = cl s.
Proof.
  unfold kill_steps. cbn [exec step]. rewrite Hk, Hr. cbn [step th set_th killer set_killer set_cancelled sh cm].
  eexists _, (Terminate sid StatusTerminatedKill (db (sh s))).2. split; [reflexivity|].
  unfold TerminateSession, TerminateHandle. rewrite Hu, Hr.
  cbn [sh mark set_cm set_db cm db be cl th cancelled ssh_open close_ssh].
  unfold mark. cbn [db set_db]. by destruct (Terminate sid StatusTerminatedKill (db (sh s))) as [e d'].
Qed.

(** C26.  Who marks last wins.  From the start of any session whose row was inserted: a
    kill with the bridge ending inside it leaves the row "terminated-kill", the same
    kill with the bridge ending after it leaves "terminated"; and a session whose shell
    has ended normally leaves the SSH connection open and its keepalive loop running, so
    that when that connection dies later the row of the finished session turns from
    "terminated" into "terminated-timeout". *)
Theorem last_mark_wins (Hs : Bridge_setup ops sid userID serverID ip w h handle db_now pending x = (inr s0, x'))
    (Hdb : outcomes (db x) = []) (allowed : list str) :
  (exists s, exec sid allowed s0 (take 4 kill_steps ++ end_steps ++ [KillMarks]) = Some s
     /\ main (th s) = Returned /\ status_of sid (db (sh s)) = Some StatusTerminatedKill)
  /\ (exists s, exec sid allowed s0 (kill_steps ++ end_steps) = Some s
     /\ main (th s) = Returned /\ status_of sid (db (sh s)) = Some StatusTerminated)
  /\ (exists s, exec sid allowed s0 (ShellExits :: end_steps) = Some s
     /\ main (th s) = Returned /\ ssh_open (be s) = true /\ ka (th s) = KaLoop 0
     /\ status_of sid (db (sh s)) = Some StatusTerminated
     /\ exists s', exec sid allowed s [LinkDrops; KaMiss; KaMiss; KaMiss] = Some s'
        /\ status_of sid (db (sh s')) = Some StatusTerminatedTimeout).
Proof.
  apply Bridge_setup_inv in Hs as (d & Hr & ->). apply Register_active in Hr as [Ho Hst]; [|done].
  assert (status_of sid d <> None) as Hrow by (by rewrite Hst).
  assert (ended StatusTerminated /\ ended StatusTerminatedTimeout /\ ended StatusTerminatedKill) as (? & ? & ?)
    by (unfold ended; set_solver).
  split; [|split].
  - run_steps. eexists. split; [reflexivity|]. split; [done|]. by apply mark_over.
  - run_steps. eexists. split; [reflexivity|]. split; [done|]. by apply mark_over.
  - run_steps. eexists. split; [reflexivity|]. split_and!; [done..| |].
    + by apply mark_status.
    + run_steps. eexists. split; [reflexivity|]. by apply mark_over.
Qed.
End properties.

(** ** Witnesses *)

(** A session of jdoe's on the production server; [q] is what jdoe had typed ahead. *)
Definition calls_ok : ssh_calls := SshCalls None (fun _ _ _ => None) None None None None.

Definition demo_first : Z * str := (5 * Second, §"{}").

Definition demo_shared : shared :=
  Shared NewConnectionManager demo_db (MkWriter (ttyrec_name §"sess") true)
    (LogDir {[ ttyrec_name §"sess" := frames_text [demo_first] ]} []).

Definition demo_setup (q : str) : res bridge * shared :=
  Bridge_setup (PG := demo_postgres) calls_ok §"sess" §"u-jdoe" §"s-prod" (Some §"192.0.2.10") 80 24 7 40 q demo_shared.

Definition demo_begin (q : str) : bridge :=
  Bridge (ClientSide q true false [] false []) (BackendSide (Sink [] None ErrEOF) [] [] [] false true)
    (Threads Waiting false false 0 false (KaLoop 0) NoKill None) (demo_setup q).2.

Lemma demo_setup_ok q : demo_setup q = (inr (demo_begin q), (demo_setup q).2).
Proof. vm_compute. reflexivity. Qed.

(** A line typed and refused, some output on both streams, and the shell gone. *)
Definition demo_actions : list action :=
  [ShellPrints §"$ "; StdoutChunk 2 (6 * Second); ClientSends (§"tmux" ++ LF); StdinChunk 5 None;
   ShellPrintsErr §"bye"; ShellExits; StdoutChunk 3 (7 * Second)].

Definition exec_demo (s : bridge) (acts : list action) : bridge :=
  default s (exec (PG := demo_postgres) (UT := ascii_tables) §"sess" [] s acts).

Lemma exec_demo_ok (q : str) (acts : list action) :
  is_Some (exec (PG := demo_postgres) (UT := ascii_tables) §"sess" [] (demo_begin q) acts) ->
  exec (PG := demo_postgres) (UT := ascii_tables) §"sess" [] (demo_begin q) acts
  = Some (exec_demo (demo_begin q) acts).
Proof. unfold exec_demo. by intros [s ->]. Qed.

Lemma output_in_order_witness :
  exists so se, shown_text (exec_demo (demo_begin []) demo_actions) = so ++ se /\ so ++ [] = §"$ " /\ se ++ [] = §"bye".
Proof.
  destruct (output_in_order (PG := demo_postgres) (UT := ascii_tables) §"sess" §"u-jdoe" §"s-prod" (Some §"192.0.2.10")
    80 24 7 40 [] calls_ok demo_shared _ _ (demo_setup_ok []) [] demo_actions
    (exec_demo (demo_begin []) demo_actions)) as (so & se & H1 & H2 & H3 & _).
  - repeat constructor.
  - apply exec_demo_ok. vm_compute. eauto.
  - exists so, se. split; [exact H1|]. split; [symmetry; exact H2|symmetry; exact H3].
Defined.

Lemma kill_steps_are_the_rpc_witness :
  exists s', exec (PG := demo_postgres) (UT := ascii_tables) §"sess" [] (demo_begin §"q") kill_steps = Some s'
    /\ ssh_open (be s') = false /\ cl_open (cl s') = true.
Proof.
  destruct (kill_steps_are_the_rpc (PG := demo_postgres) (UT := ascii_tables) (UU := demo_uuid) §"sess" 7 [] (demo_begin §"q")
    0 0 eq_refl eq_refl) as (s' & d' & He & _ & _ & _ & Ho & Hc).
  - vm_compute. reflexivity.
  - exists s'. split; [exact He|]. split; [exact Ho|]. rewrite Hc. reflexivity.
Defined.

Lemma last_mark_wins_witness :
  exists s, exec (PG := demo_postgres) (UT := ascii_tables) §"sess" [] (demo_begin []) (kill_steps ++ end_steps) = Some s
    /\ status_of §"sess" (db (sh s)) = Some StatusTerminated.
Proof.
  destruct (last_mark_wins (PG := demo_postgres) (UT := ascii_tables) §"sess" §"u-jdoe" §"s-prod" (Some §"192.0.2.10")
    80 24 7 40 [] calls_ok demo_shared _ _ (demo_setup_ok []) (eq_refl _) []) as (_ & (s & He & _ & Hst) & _).
  exists s. split; [exact He|exact Hst].
Defined.
