(* ===== verification/Among.v ===== *)
(** * A session among others

    The session of Bridge.v shares the registry, the database and the audit directory
    with the rest of the proxy.  [steady] says what must not change under it; every step
    of another session is steady for it.  [exec_among] runs a session whose actions are
    interleaved with what others do to the shared state, and [among_invariant] carries
    an invariant over such a run. *)

From S2P Require Import Prelude GoStr GoTime Net Io Db Commands CmdFilter Session Killswitch AuditLog Bridge.
From stdpp Require Import options.
Open Scope Z_scope.

(** ** What others leave alone *)

(** A change of the shared state that leaves the registry entry, the row and the
    recording of a session as they are, and the database and the disk working. *)
Record steady (sid : str) (x x' : shared) : Prop := {
  st_registry : sessions (cm x') !! sid = sessions (cm x) !! sid;
  st_answers : outcomes (db x) = [] -> outcomes (db x') = [];
  st_row : status_of sid (db x) <> None -> status_of sid (db x') = status_of sid (db x);
  st_works : faults (dir x) = [] -> faults (dir x') = [];
  st_file : files (dir x') !! ttyrec_name sid = files (dir x) !! ttyrec_name sid;
}.

#[export] Instance steady_preorder sid : PreOrder (steady sid).
Proof.
  split.
  - intros x. by constructor.
  - intros x y z [H1 H2 H3 H4 H5] [G1 G2 G3 G4 G5]. constructor; [congruence|auto|..|auto|congruence].
    intros Hx. rewrite G3, H3; [done..|]. by rewrite H3.
Qed.

(** ** Runs *)

(** A moment of a run: the session acts, or others change what is shared; the recorder is
    the session's own. *)
Inductive moment := Own (a : action) | Others (f : shared -> shared).

Definition disturbed (f : shared -> shared) (s : bridge) : bridge :=
  let x := f (sh s) in set_sh s (Shared (cm x) (db x) (recorder (sh s)) (dir x)).

Definition own_actions (ms : list moment) : list action :=
  omap (fun m => match m with Own a => Some a | Others _ => None end) ms.

Section among.
Context {PG : Postgres} {UT : UnicodeTables}.
Variables (sid : str) (allowed : list str).

Fixpoint exec_among (s : bridge) (ms : list moment) : option bridge :=
  match ms with
  | [] => Some s
  | Own a :: ms => match step sid allowed s a with Some s' => exec_among s' ms | None => None end
  | Others f :: ms => exec_among (disturbed f s) ms
  end.

(** Along the run, what others do is steady for the session. *)
Fixpoint calm (s : bridge) (ms : list moment) : Prop :=
  match ms with
  | [] => True
  | Own a :: ms => match step sid allowed s a with Some s' => calm s' ms | None => False end
  | Others f :: ms => steady sid (sh s) (sh (disturbed f s)) /\ calm (disturbed f s) ms
  end.
End among.

(** ** Lemmas *)

Section names.

Lemma ttyrec_name_inj s s' : ttyrec_name s = ttyrec_name s' -> s = s'.
Proof. apply app_inv_tail. Qed.

Lemma last_ttyrec sid : last (ttyrec_name sid) = Some "c"%char.
Proof. unfold ttyrec_name. by rewrite last_app. Qed.

Lemma sidecar_not_ttyrec name sid : name ++ §".sha256" <> ttyrec_name sid.
Proof. intros E%(f_equal last). by rewrite last_ttyrec, last_app in E. Qed.

Lemma admin_log_not_ttyrec sid : admin_log_name <> ttyrec_name sid.
Proof. intros E%(f_equal last). by rewrite last_ttyrec in E. Qed.

(** Operations on a directory that touch a set of names only. *)
Definition touches (P : str -> Prop) (d d' : logdir) : Prop :=
  (faults d = [] -> faults d' = []) /\ forall name, ~ P name -> files d' !! name = files d !! name.

#[export] Instance touches_preorder P : PreOrder (touches P).
Proof. split; [done|]. intros a b c [H1 H2] [G1 G2]. split; [auto|]. intros n Hn. by rewrite G2, H2. Qed.

Lemma fs_op_touches P d : touches P d (fs_op d).2.
Proof. unfold fs_op. destruct (faults d) as [|f fs] eqn:E; [done|]. split; [by rewrite E|done]. Qed.

Lemma put_file_touches name c d : touches (eq name) d (put_file name c d).
Proof. split; [done|]. intros n Hn. by apply lookup_insert_ne. Qed.

Lemma fs_append_touches name s d : touches (eq name) d (fs_append name s d).2.
Proof.
  unfold fs_append. pose proof (fs_op_touches (eq name) d) as H. destruct (fs_op d) as [[err|] d1]; [done|].
  cbn [snd] in *. etrans; [exact H|apply put_file_touches].
Qed.

Lemma writeFrame_touches w now p d : touches (eq (w_name w)) d (writeFrame w now p d).
Proof.
  unfold writeFrame. destruct (w_open w); [|done].
  pose proof (fs_append_touches (w_name w) (frame_header now (zlen p)) d) as H1.
  destruct (fs_append _ _ d) as [e1 d1]. pose proof (fs_append_touches (w_name w) p d1) as H2.
  destruct (fs_append _ _ d1) as [e2 d2]. by etrans.
Qed.

Lemma NewWriter_touches sid uid t t' d : touches (eq (ttyrec_name sid)) d (NewWriter sid uid t t' d).2.
Proof.
  unfold NewWriter, fs_create. pose proof (fs_op_touches (eq (ttyrec_name sid)) d) as H.
  destruct (fs_op d) as [[err|] d1]; [done|]. cbn [snd] in *. etrans; [exact H|].
  etrans; [apply put_file_touches|]. exact (writeFrame_touches (MkWriter (ttyrec_name sid) true) _ _ _).
Qed.

Lemma Finalize_touches w d : touches (eq (w_name w ++ §".sha256")) d (Finalize w d).2.
Proof.
  unfold Finalize. destruct (negb _); [done|].
  do 4 (match goal with |- touches ?P ?x _ => pose proof (fs_op_touches P x) as H; destruct (fs_op x) as [[?|] ?];
        cbn [snd] in *; [done|]; etrans; [exact H|]; clear H end).
  apply put_file_touches.
Qed.
End names.

Lemma Finalize_name w d e w' d' : Finalize w d = (e, w', d') -> w_name w' = w_name w.
Proof.
  unfold Finalize. destruct (negb _); [by intros [= _ <- _]|].
  do 4 (destruct (fs_op _) as [[?|] ?]; [by intros [= _ <- _]|]). by intros [= _ <- _].
Qed.

Section rows.
Context {PG : Postgres}.

(** A view of the database that a statement keeps, it keeps however the statement ends. *)
Lemma run_keeps {A B} (view : database -> B) (stmt : database -> res A * database) d :
  (forall d0, view (stmt d0).2 = view d0) -> (forall d0 os, view (set_outcomes d0 os) = view d0) ->
  view (run stmt d).2 = view d.
Proof. intros Hs Ho. unfold run. destruct (outcomes d) as [|[| | |] os]; cbn [snd]; rewrite ?Hs, ?Ho; done. Qed.

Lemma status_of_map sid st id l :
  id <> sid ->
  filter (fun a => a_session_id a = sid) (map (fun a => if bool_decide (a_session_id a = id) then with_status st a else a) l)
  = filter (fun a => a_session_id a = sid) l.
Proof.
  intros Hne. induction l as [|a l IH]; [done|]. cbn [map]. rewrite !filter_cons, IH.
  case_bool_decide as Ha; [|done]. cbn [with_status a_session_id]. by rewrite !decide_False by congruence.
Qed.

Lemma Terminate_other sid id st d : id <> sid -> status_of sid (Terminate id st d).2 = status_of sid d.
Proof.
  intros Hne. unfold Terminate.
  pose proof (run_keeps (status_of sid) (update_status st id) d) as H.
  destruct (run _ d) as [[|] d1]; cbn [snd] in *; apply H; try done; intros d0; unfold update_status;
    (case_match; [done|]); unfold status_of; cbn [snd active_sessions set_sessions]; by rewrite status_of_map.
Qed.

Lemma Register_other sid id uid srv ip now d : id <> sid -> status_of sid (Register id uid srv ip now d).2 = status_of sid d.
Proof.
  intros Hne. unfold Register.
  pose proof (run_keeps (status_of sid) (insert_session id uid srv (IP_String ip) now) d) as H.
  destruct (run _ d) as [[|] d1]; cbn [snd] in *; apply H; try done; intros d0; unfold insert_session;
    (destruct (inet_in _); [|done]); repeat (case_match; [done|]); unfold status_of; cbn [snd active_sessions set_sessions];
    rewrite filter_app, filter_cons, decide_False, app_nil_r by done; done.
Qed.

Lemma run_answers {A} (stmt : database -> res A * database) d :
  (forall d0, outcomes (stmt d0).2 = outcomes d0) -> outcomes d = [] -> outcomes (run stmt d).2 = [].
Proof. intros Hs Ho. by rewrite run_done, Hs by done. Qed.

Lemma Terminate_answers id st d : outcomes d = [] -> outcomes (Terminate id st d).2 = [].
Proof.
  intros Ho. unfold Terminate. pose proof (run_answers (update_status st id) d) as H.
  destruct (run _ d) as [[|] d1]; cbn [snd] in *; apply H; try done; intros d0; unfold update_status; by case_match.
Qed.

Lemma Register_answers id uid srv ip now d : outcomes d = [] -> outcomes (Register id uid srv ip now d).2 = [].
Proof.
  intros Ho. unfold Register. pose proof (run_answers (insert_session id uid srv (IP_String ip) now) d) as H.
  destruct (run _ d) as [[|] d1]; cbn [snd] in *; apply H; try done; intros d0; unfold insert_session;
    (destruct (inet_in _); [|done]); by repeat (case_match; [done|]).
Qed.
End rows.

Section steps.
Context {PG : Postgres} {UT : UnicodeTables}.

Lemma mark_steady sid id st x : id <> sid -> steady sid x (mark id st x).
Proof.
  intros Hne. constructor; cbn [mark set_db cm db dir]; try done.
  - apply Terminate_answers.
  - intros _. by apply Terminate_other.
Qed.

Lemma set_cm_steady sid id x : id <> sid -> steady sid x (set_cm (Deregister id (cm x)) x).
Proof. intros Hne. constructor; cbn [set_cm cm db dir]; try done. by apply lookup_delete_ne. Qed.

Lemma steady_dir sid (P : str -> Prop) x r d :
  touches P (dir x) d -> ~ P (ttyrec_name sid) -> steady sid x (Shared (cm x) (db x) r d).
Proof. intros [H1 H2] HP. constructor; cbn [cm db dir]; try done. by apply H2. Qed.

(** No step of a session disturbs another. *)
Lemma step_steady sid id allowed s a s' :
  step id allowed s a = Some s' -> w_name (recorder (sh s)) = ttyrec_name id -> id <> sid ->
  steady sid (sh s) (sh s') /\ w_name (recorder (sh s')) = ttyrec_name id.
Proof.
  intros H Hn Hne. assert (ttyrec_name id <> ttyrec_name sid) as Hname by (by intros ?%ttyrec_name_inj).
  step_cases H a; cbn [set_cl set_be set_th sh recorder mark set_db set_cm];
    try (by split); try (split; [by apply mark_steady|done]); try (split; [by apply set_cm_steady|done]).
  - destruct (stdin_chunk_fields allowed len client_takes s) as (_ & _ & _ & _ & _ & _ & -> & _). by split.
  - split; [|done]. match goal with E : audit_Write _ _ _ _ = _ |- _ => injection E as _ <- end.
    eapply steady_dir; [apply writeFrame_touches|]. by rewrite Hn.
  - pose proof (Finalize_touches (recorder (sh s)) (dir (sh s))) as Ht. rewrite Heqp in Ht. split.
    + eapply steady_dir; [exact Ht|]. apply sidecar_not_ttyrec.
    + rewrite <- Hn. by eapply Finalize_name.
  - pose proof (Finalize_touches (recorder (sh s)) (dir (sh s))) as Ht. rewrite Heqp in Ht. split.
    + eapply steady_dir; [exact Ht|]. apply sidecar_not_ttyrec.
    + rewrite <- Hn. by eapply Finalize_name.
Qed.

Lemma step_name id allowed s a s' : step id allowed s a = Some s' -> w_name (recorder (sh s')) = w_name (recorder (sh s)).
Proof.
  intros H. step_cases H a; try done; try (by eapply Finalize_name).
  by destruct (stdin_chunk_fields allowed len client_takes s) as (_ & _ & _ & _ & _ & _ & -> & _).
Qed.

Variables (sid : str) (allowed : list str).

Lemma exec_among_app s ms ms' :
  exec_among sid allowed s (ms ++ ms') = match exec_among sid allowed s ms with Some s' => exec_among sid allowed s' ms' | None => None end.
Proof. revert s. induction ms as [|[a|f] ms IH]; intros s; cbn [app exec_among]; [done| |done]. by destruct (step _ _ s a). Qed.

Lemma calm_app s ms ms' s' :
  exec_among sid allowed s ms = Some s' -> calm sid allowed s ms -> calm sid allowed s' ms' -> calm sid allowed s (ms ++ ms').
Proof.
  revert s. induction ms as [|[a|f] ms IH]; intros s; cbn [app exec_among calm]; [by intros [= <-]| |].
  - destruct (step _ _ s a); [|done]. apply IH.
  - intros H [H1 H2] H3. split; [done|]. by apply IH.
Qed.

(** What the session's actions of a kind keep and what is stable under steady changes
    holds at every moment of a calm run. *)
Lemma among_invariant (P : bridge -> Prop) (kind : action -> Prop) s ms s' :
  (forall s a s', P s -> kind a -> step sid allowed s a = Some s' -> P s') ->
  (forall s f, P s -> steady sid (sh s) (sh (disturbed f s)) -> P (disturbed f s)) ->
  Forall kind (own_actions ms) -> calm sid allowed s ms -> P s -> exec_among sid allowed s ms = Some s' -> P s'.
Proof.
  intros Hstep Hst. revert s. induction ms as [|[a|f] ms IH]; intros s Hk Hc Hs; cbn [exec_among calm own_actions omap list_omap] in *.
  - by intros [= <-].
  - apply Forall_cons in Hk as [Ha Hk]. destruct (step sid allowed s a) as [s1|] eqn:H1; [|done]. apply IH; [done..|by eapply Hstep].
  - destruct Hc as [Hd Hc]. apply IH; [done..|by apply Hst].
Qed.

(** What does not depend on the shared state needs no calm. *)
Lemma among_private (P : bridge -> Prop) (kind : action -> Prop) s ms s' :
  (forall s a s', P s -> kind a -> step sid allowed s a = Some s' -> P s') -> (forall s f, P s -> P (disturbed f s)) ->
  Forall kind (own_actions ms) -> P s -> exec_among sid allowed s ms = Some s' -> P s'.
Proof.
  intros Hstep Hst. revert s. induction ms as [|[a|f] ms IH]; intros s Hk Hs; cbn [exec_among own_actions omap list_omap] in *.
  - by intros [= <-].
  - apply Forall_cons in Hk as [Ha Hk]. destruct (step sid allowed s a) as [s1|] eqn:H1; [|done]. apply IH; [done|by eapply Hstep].
  - apply IH; [done|by apply Hst].
Qed.

(** Once no more output can come, what others do adds nothing to a session's work, and of
    its own actions only those of its client that send. *)
Lemma among_work s ms s' :
  output_over (be s) = true -> exec_among sid allowed s ms = Some s' ->
  output_over (be s') = true /\ (own_done (own_actions ms) + work s' <= work s + 2 * sent_bytes (own_actions ms))%nat.
Proof.
  unfold own_done, sent_bytes. revert s. induction ms as [|[a|f] ms IH]; intros s Ho; cbn [exec_among own_actions omap list_omap] in *.
  - intros [= <-]. split; [done|cbn; lia].
  - destruct (step sid allowed s a) as [s1|] eqn:H1; [|done]. apply work_step in H1 as [Ho1 Hw1]; [|done].
    intros [Ho' Hw]%(IH _ Ho1). split; [done|]. cbn [List.filter map concat]. rewrite length_app.
    change (omap _ ms) with (own_actions ms) in *. destruct (own a); cbn [length]; lia.
  - intros H. by apply IH in H.
Qed.

(** The invariants of Bridge.v are stable. *)
Lemma recorded_ok_stable name first s f :
  name = ttyrec_name sid -> recorded_ok name first s -> steady sid (sh s) (sh (disturbed f s)) -> recorded_ok name first (disturbed f s).
Proof.
  intros -> [H1 H2 H3 H4 H5] [G1 G2 G3 G4 G5]. constructor; [by apply G4|done|done| |done]. by rewrite G5.
Qed.

Lemma marked_ok_stable s f : marked_ok sid s -> steady sid (sh s) (sh (disturbed f s)) -> marked_ok sid (disturbed f s).
Proof.
  intros [H1 H2 H3] [G1 G2 G3 G4 G5]. constructor; [by apply G2|by rewrite G3|].
  intros H. rewrite G3 by done. by apply H3.
Qed.

Lemma typed_ok_stable {TM : Terminal} s f : typed_ok allowed s -> typed_ok allowed (disturbed f s).
Proof. done. Qed.

Lemma bridge_ok_stable s f : bridge_ok s -> bridge_ok (disturbed f s).
Proof. done. Qed.

Lemma own_actions_app ms ms' : own_actions (ms ++ ms') = own_actions ms ++ own_actions ms'.
Proof. apply omap_app. Qed.
End steps.
