(* ===== verification/Fleet.v ===== *)
(** * All sessions of a node: [connectToTarget] and [Bridge], many at a time

    The sessions that run on one proxy share its registry, its database connection and
    its audit directory.  A fleet is all of them together; one step is one action of one
    session's threads, the beginning of a session, a line of the admin log, or something
    others do in the database, so that a list of steps is any interleaving.  Seen from
    one session, a run of the fleet is a run of Among.v. *)

From S2P Require Import Prelude GoStr GoTime Net Io Db Commands CmdFilter Rbac Session Killswitch AuditLog Bridge Among.
From stdpp Require Import options.
Open Scope Z_scope.

(** ** State *)

(** What [connectToTarget] begins a session with: the new UUID, whose session on which
    server with which commands, the clock readings of the recorder and the INSERT, the
    node's address, the terminal's size, what the calls on the SSH connection answer,
    and what the client has typed ahead. *)
Record start := Start {
  b_sid : str;
  b_user : str;
  b_server : str;
  b_allowed : list str;
  b_created : Z;
  b_framed : Z;
  b_now : Z;
  b_node : option str;
  b_width : Z;
  b_height : Z;
  b_calls : ssh_calls;
  b_pending : str;
}.

(** A session that has begun: its own part of the state. *)
Record member := Member {
  m_start : start;
  m_cl : client_side;
  m_be : backend_side;
  m_th : threads;
  m_rec : Writer;
}.

(** The members under the number of their handle, ended ones included, and what they share. *)
Record fleet := Fleet {
  members : gmap nat member;
  f_cm : ConnectionManager;
  f_db : database;
  f_dir : logdir;
}.

Definition new_fleet (d : database) (logs : logdir) : fleet := Fleet ∅ NewConnectionManager d logs.

Definition m_sid (m : member) : str := b_sid (m_start m).

(** A session as Bridge.v has it: its own part and what is shared. *)
Definition view (f : fleet) (m : member) : bridge :=
  Bridge (m_cl m) (m_be m) (m_th m) (Shared (f_cm f) (f_db f) (m_rec m) (f_dir f)).

Definition settle (h : nat) (st : start) (s : bridge) (f : fleet) : fleet :=
  Fleet (<[h := Member st (cl s) (be s) (th s) (recorder (sh s))]> (members f)) (cm (sh s)) (db (sh s)) (dir (sh s)).

(** ** Steps *)

Inductive fleet_act :=
  | Begin (h : nat) (st : start)
  | Act (h : nat) (a : action)
  | Logged (now : Z) (event detail : str)
  | Elsewhere (g : database -> database).

Section fleet.
Context {PG : Postgres} {UT : UnicodeTables}.

(** The new UUID and the new handle are nobody's. *)
Definition fresh (h : nat) (st : start) (f : fleet) : bool :=
  bool_decide (members f !! h = None) && bool_decide (map_Forall (fun _ m => m_sid m <> b_sid st) (members f)).

(** From [audit.NewWriter] to the start of the threads; what fails leaves no session, but
    the recording, which the deferred [Finalize] closes. *)
Definition begin (h : nat) (st : start) (f : fleet) : fleet :=
  match NewWriter (b_sid st) (b_user st) (b_created st) (b_framed st) (f_dir f) with
  | (inl _, d) => Fleet (members f) (f_cm f) (f_db f) d
  | (inr wr, d) =>
      match Bridge_setup (b_calls st) (b_sid st) (b_user st) (b_server st) (b_node st) (b_width st) (b_height st)
              h (b_now st) (b_pending st) (Shared (f_cm f) (f_db f) wr d) with
      | (inl _, x) => Fleet (members f) (cm x) (db x) (Finalize (recorder x) (dir x)).2
      | (inr s, _) => settle h st s f
      end
  end.

Definition fleet_step (f : fleet) (a : fleet_act) : option fleet :=
  match a with
  | Begin h st => if fresh h st f then Some (begin h st f) else None
  | Act h a =>
      m ← members f !! h;
      s ← step (m_sid m) (b_allowed (m_start m)) (view f m) a;
      Some (settle h (m_start m) s f)
  | Logged now event detail => Some (Fleet (members f) (f_cm f) (f_db f) (Log now event detail (f_dir f)))
  | Elsewhere g => Some (Fleet (members f) (f_cm f) (g (f_db f)) (f_dir f))
  end.

Fixpoint fleet_run (f : fleet) (acts : list fleet_act) : option fleet :=
  match acts with
  | [] => Some f
  | a :: acts => f' ← fleet_step f a; fleet_run f' acts
  end.
End fleet.

(** Where a session's threads have it in the registry: its bridge has not taken it out,
    nor has a kill. *)
Definition registered (t : threads) : Prop :=
  main t <> Marking /\ main t <> Returned /\ killer t <> KillDeregistered /\ killer t <> KillDone.

(** The actions of one member in a run. *)
Definition acts_of (h : nat) (acts : list fleet_act) : list action :=
  omap (fun a => match a with Act h' a => if decide (h' = h) then Some a else None | _ => None end) acts.

(** Others may do what they like in the database but fail it or change the row of a
    session that is there. *)
Definition considerate_act (a : fleet_act) : Prop :=
  match a with
  | Elsewhere g => forall d, (outcomes d = [] -> outcomes (g d) = [])
      /\ forall sid, status_of sid d <> None -> status_of sid (g d) = status_of sid d
  | _ => True
  end.

(** ** Lemmas *)

Section lemmas.
Context {PG : Postgres} {UT : UnicodeTables}.

Lemma fresh_spec h st f :
  fresh h st f = true -> members f !! h = None /\ forall h' m, members f !! h' = Some m -> m_sid m <> b_sid st.
Proof. unfold fresh. rewrite andb_true_iff, !bool_decide_eq_true. intros [H1 H2]. split; [done|]. exact H2. Qed.

(** What all members share, as one of them sees it. *)
Definition commons (f : fleet) (r : Writer) : shared := Shared (f_cm f) (f_db f) r (f_dir f).

(** Where a session that begins in a fleet starts. *)
Definition born (h : nat) (st : start) (f : fleet) (s : bridge) : Prop :=
  exists wr d x,
    NewWriter (b_sid st) (b_user st) (b_created st) (b_framed st) (f_dir f) = (inr wr, d)
    /\ Bridge_setup (b_calls st) (b_sid st) (b_user st) (b_server st) (b_node st) (b_width st) (b_height st)
         h (b_now st) (b_pending st) (Shared (f_cm f) (f_db f) wr d) = (inr s, x).

Lemma Bridge_setup_steady sid ops id uid srv ip w h hd now pend x r x1 :
  id <> sid -> Bridge_setup ops id uid srv ip w h hd now pend x = (r, x1) ->
  steady sid x x1 /\ recorder x1 = recorder x /\ dir x1 = dir x /\ match r with inr s => sh s = x1 | inl _ => True end.
Proof.
  intros Hne. unfold Bridge_setup. destruct (must _ _ _); [by intros [= <- <-]|].
  pose proof (Register_other sid id uid srv ip now (db x) Hne) as Hrow.
  pose proof (Register_answers id uid srv ip now (db x)) as Hans.
  destruct (Register _ _ _ _ _ _) as [[err|] d]; cbn [snd] in *; intros [= <- <-];
    (split; [constructor; cbn; auto|done]).
  by apply lookup_insert_ne.
Qed.

(** Seen from a member, the beginning of another is steady. *)
Lemma begin_steady sid r h st f :
  b_sid st <> sid -> steady sid (commons f r) (commons (begin h st f) r).
Proof.
  intros Hne. assert (ttyrec_name (b_sid st) <> ttyrec_name sid) as Hname by (by intros ?%ttyrec_name_inj).
  unfold begin. pose proof (NewWriter_touches (b_sid st) (b_user st) (b_created st) (b_framed st) (f_dir f)) as Ht.
  destruct (NewWriter _ _ _ _ _) as [[err|wr] d]; cbn [snd] in Ht.
  { eapply (steady_dir sid _ (commons f r)); [exact Ht|done]. }
  destruct (Bridge_setup _ _ _ _ _ _ _ _ _ _ _) as [[err|s] x1] eqn:Hs;
    apply (Bridge_setup_steady sid) in Hs as ([G1 G2 G3 G4 G5] & Hr & Hd & Hsh); [|done| |done];
    cbn [commons settle f_cm f_db f_dir cm db dir] in *; destruct Ht as [Ht1 Ht2].
  - pose proof (Finalize_touches (recorder x1) (dir x1)) as [Hf1 Hf2].
    constructor; cbn [cm db dir]; [done|done|done| |].
    + intros Hw. apply Hf1. rewrite Hd. by apply Ht1.
    + rewrite Hf2 by apply sidecar_not_ttyrec. rewrite Hd. by apply Ht2.
  - subst x1. constructor; cbn [cm db dir]; [done|done|done| |].
    + intros Hw. by apply G4, Ht1.
    + etrans; [exact G5|by apply Ht2].
Qed.

Lemma Log_steady sid r now ev detail f :
  steady sid (commons f r) (Shared (f_cm f) (f_db f) r (Log now ev detail (f_dir f))).
Proof.
  eapply (steady_dir sid _ (commons f r)); [apply (fs_append_touches admin_log_name)|]. intros E.
  by apply (admin_log_not_ttyrec sid).
Qed.

(** A beginning adds one member at most. *)
Lemma begin_members h st f :
  (members (begin h st f) = members f \/ exists s, born h st f s /\ begin h st f = settle h st s f).
Proof.
  unfold begin, born. destruct (NewWriter _ _ _ _ _) as [[err|wr] d]; [by left|].
  destruct (Bridge_setup _ _ _ _ _ _ _ _ _ _ _) as [[err|s] x] eqn:Hs; [by left|]. right. exists s. split; [|done].
  by exists wr, d, x.
Qed.

Lemma begin_same_registry h st f : members (begin h st f) = members f -> f_cm (begin h st f) = f_cm f \/ is_Some (members f !! h).
Proof.
  unfold begin. destruct (NewWriter _ _ _ _ _) as [[err|wr] d]; [by left|].
  destruct (Bridge_setup _ _ _ _ _ _ _ _ _ _ _) as [[err|s] x] eqn:Hs.
  - intros _. left. revert Hs. unfold Bridge_setup. destruct (must _ _ _); [by intros [= _ <-]|].
    destruct (Register _ _ _ _ _ _) as [[|] ?]; [by intros [= _ <-]|done].
  - intros E. right. cbn in E. rewrite <- E, lookup_insert_eq. done.
Qed.

Lemma born_fields h st f s :
  born h st f s ->
  w_name (recorder (sh s)) = ttyrec_name (b_sid st) /\ bridge_ok s /\ main (th s) = Waiting /\ killer (th s) = NoKill
  /\ arrived (cl s) = b_pending st /\ pipe (be s) = Sink [] None ErrEOF /\ line_buf (be s) = []
  /\ sessions (cm (sh s)) = <[b_sid st := h]> (sessions (f_cm f)).
Proof.
  intros (wr & d & x & Hw & Hs). apply Bridge_setup_inv in Hs as (d1 & _ & ->). cbn.
  split; [|split_and!; [|done..]; by constructor; [|done|left]].
  revert Hw. unfold NewWriter. destruct (fs_create _ _) as [[|] ?]; [done|]. by intros [= <- _].
Qed.

Definition named (f : fleet) : Prop := forall h m, members f !! h = Some m -> w_name (m_rec m) = ttyrec_name (m_sid m).
Definition distinct (f : fleet) : Prop :=
  forall h h' m m', members f !! h = Some m -> members f !! h' = Some m' -> m_sid m = m_sid m' -> h = h'.

(** The step of a fleet, by what becomes of its members. *)
Lemma fleet_step_cases f a f' :
  fleet_step f a = Some f' ->
  (members f' = members f /\ forall h b, a <> Act h b)
  \/ (exists h st s, a = Begin h st /\ fresh h st f = true /\ born h st f s /\ f' = settle h st s f)
  \/ (exists h b m s, a = Act h b /\ members f !! h = Some m
        /\ step (m_sid m) (b_allowed (m_start m)) (view f m) b = Some s /\ f' = settle h (m_start m) s f).
Proof.
  destruct a as [h st|h b|now ev de|g]; cbn [fleet_step].
  - destruct (fresh h st f) eqn:Hf; [|done]. intros [= <-]. destruct (begin_members h st f) as [Hm|(s & Hb & ->)]; [by left|].
    right. left. by exists h, st, s.
  - destruct (members f !! h) as [m|] eqn:Hm; [|done]. cbn. destruct (step _ _ _ b) as [s|] eqn:Hs; [|done]. cbn.
    intros [= <-]. right. right. by exists h, b, m, s.
  - intros [= <-]. by left.
  - intros [= <-]. by left.
Qed.

Lemma named_step f a f' : named f -> fleet_step f a = Some f' -> named f'.
Proof.
  intros Hn [[Hm _]|[(h & st & s & -> & _ & Hb & ->)|(h & b & m & s & -> & Hm & Hs & ->)]]%fleet_step_cases h' m'.
  - rewrite Hm. apply Hn.
  - cbn. rewrite lookup_insert_Some. intros [[<- <-]|[_ H]]; [|by apply (Hn h')]. cbn. by apply born_fields in Hb as [-> _].
  - cbn. rewrite lookup_insert_Some. intros [[<- <-]|[_ H]]; [|by apply (Hn h')]. cbn.
    apply step_name in Hs as ->. exact (Hn _ _ Hm).
Qed.

Lemma distinct_step f a f' : distinct f -> fleet_step f a = Some f' -> distinct f'.
Proof.
  intros Hn [[Hm _]|[(h & st & s & -> & [_ Hf]%fresh_spec & _ & ->)|(h & b & m & s & -> & Hm & _ & ->)]]%fleet_step_cases h1 h2 m1 m2.
  - rewrite Hm. apply Hn.
  - cbn. rewrite !lookup_insert_Some. intros [[<- <-]|[_ H1]] [[<- <-]|[_ H2]] E; [done|..].
    + by apply Hf in H2.
    + by apply Hf in H1.
    + by eapply Hn.
  - cbn. rewrite !lookup_insert_Some. intros [[<- <-]|[_ H1]] [[<- <-]|[_ H2]] E; [done|..]; by eapply Hn.
Qed.

(** A step as a member sees it that does not take it. *)
Lemma fleet_step_steady f a f' h m r :
  named f -> distinct f -> considerate_act a -> fleet_step f a = Some f' -> members f !! h = Some m ->
  (forall b, a <> Act h b) -> members f' !! h = Some m /\ steady (m_sid m) (commons f r) (commons f' r).
Proof.
  intros Hnm Hd Hc H Hm Ha. destruct a as [h' st|h' b|now ev de|g]; cbn [fleet_step] in H.
  - destruct (fresh h' st f) eqn:Hf; [|done]. injection H as <-. apply fresh_spec in Hf as [Hh Hf]. split.
    + destruct (begin_members h' st f) as [->|(s & _ & ->)]; [done|]. cbn. by rewrite lookup_insert_ne by congruence.
    + apply begin_steady. intros E. by apply (Hf h m).
  - destruct (members f !! h') as [m'|] eqn:Hm'; [|done]. cbn in H. destruct (step _ _ _ b) as [s|] eqn:Hs; [|done].
    injection H as <-. assert (h' <> h) as Hne by (intros ->; by apply (Ha b)). split; [by cbn; rewrite lookup_insert_ne|].
    eapply step_steady in Hs as [[G1 G2 G3 G4 G5] _]; [|by apply (Hnm h')|].
    + by constructor.
    + intros E. by apply Hne, (Hd h' h m' m).
  - injection H as <-. split; [done|]. exact (Log_steady _ r now ev de f).
  - injection H as <-. split; [done|]. destruct (Hc (f_db f)) as [H1 H2]. constructor; cbn [commons cm db dir f_cm f_db f_dir]; auto.
Qed.

Lemma step_steady_somewhere f a f' r :
  named f -> considerate_act a -> fleet_step f a = Some f' -> exists sid, steady sid (commons f r) (commons f' r).
Proof.
  assert (forall s, s ++ §"x" <> s) as Hx by (intros s E%(f_equal length); rewrite length_app in E; cbn in E; lia).
  intros Hn Hc H. destruct a as [h st|h b|now ev de|g]; cbn [fleet_step] in H.
  - destruct (fresh h st f); [|done]. injection H as <-. exists (b_sid st ++ §"x"). apply begin_steady. congruence.
  - destruct (members f !! h) as [m|] eqn:Hm; [|done]. cbn in H. destruct (step _ _ _ b) as [s|] eqn:Hs; [|done].
    injection H as <-. exists (m_sid m ++ §"x").
    eapply step_steady in Hs as [[G1 G2 G3 G4 G5] _]; [by constructor|exact (Hn _ _ Hm)|congruence].
  - injection H as <-. exists []. exact (Log_steady _ r now ev de f).
  - injection H as <-. exists []. destruct (Hc (f_db f)) as [H1 H2].
    constructor; cbn [commons cm db dir f_cm f_db f_dir]; auto.
Qed.

Lemma fleet_run_snoc f acts a : fleet_run f (acts ++ [a]) = (f' ← fleet_run f acts; fleet_step f' a).
Proof.
  revert f. induction acts as [|b acts IH]; intros f; cbn.
  - by destruct (fleet_step f a).
  - destruct (fleet_step f b); [apply IH|done].
Qed.

Lemma fleet_run_app f acts acts' : fleet_run f (acts ++ acts') = (f' ← fleet_run f acts; fleet_run f' acts').
Proof.
  revert f. induction acts as [|b acts IH]; intros f; cbn; [done|]. destruct (fleet_step f b); [apply IH|done].
Qed.

Lemma acts_of_snoc h acts a : acts_of h (acts ++ [a]) = acts_of h acts ++ acts_of h [a].
Proof. apply omap_app. Qed.

Lemma view_settle h st s f : view (settle h st s f) (Member st (cl s) (be s) (th s) (recorder (sh s))) = s.
Proof. by destruct s as [c b t []]. Qed.

(** A fleet that has come about. *)
Record reached (f0 : fleet) (acts : list fleet_act) (f : fleet) : Prop := {
  re_run : fleet_run f0 acts = Some f;
  re_others : Forall considerate_act acts;
}.

Lemma reached_ind (P : list fleet_act -> fleet -> Prop) f0 :
  P [] f0 ->
  (forall acts a f f', reached f0 acts f -> P acts f -> considerate_act a -> fleet_step f a = Some f' -> P (acts ++ [a]) f') ->
  forall acts f, reached f0 acts f -> P acts f.
Proof.
  intros H0 Hs acts. induction acts as [|a acts IH] using rev_ind; intros f [Hr Hc].
  - injection Hr as <-. done.
  - rewrite fleet_run_snoc in Hr. apply Forall_app in Hc as [Hc [Ha _]%Forall_cons].
    destruct (fleet_run f0 acts) as [f1|] eqn:E; [|done]. cbn in Hr. eapply Hs; [|by apply IH|done|done]. by constructor.
Qed.

Section from_empty.
Variables (d : database) (logs : logdir).

Lemma reached_names acts f : reached (new_fleet d logs) acts f -> named f /\ distinct f.
Proof.
  revert acts f. apply (reached_ind (fun _ f => named f /\ distinct f)); [done|].
  intros acts a f f' _ [H1 H2] _ Hs. by split; [eapply named_step|eapply distinct_step].
Qed.

Lemma reached_no_acts acts f : reached (new_fleet d logs) acts f -> forall h, members f !! h = None -> acts_of h acts = [].
Proof.
  revert acts f. apply (reached_ind (fun acts f => forall h, members f !! h = None -> acts_of h acts = [])); [done|].
  intros acts a f f' _ IH _ Hs h Hh. rewrite acts_of_snoc.
  apply fleet_step_cases in Hs as [[Hm Ha]|[(h1 & st & s & -> & _ & _ & ->)|(h1 & b & m & s & -> & Hm & _ & ->)]].
  - rewrite IH by congruence. destruct a as [|h1 b| |]; try done. by destruct (Ha h1 b).
  - cbn in Hh. apply lookup_insert_None in Hh as [Hh _]. by rewrite IH.
  - cbn in Hh. apply lookup_insert_None in Hh as [Hh Hne]. rewrite IH by done. cbn. by rewrite decide_False.
Qed.

(** Nobody makes a working database or disk fail. *)
Lemma reached_works acts f :
  reached (new_fleet d logs) acts f ->
  (outcomes d = [] -> outcomes (f_db f) = []) /\ (faults logs = [] -> faults (f_dir f) = []).
Proof.
  revert acts f. apply (reached_ind (fun _ f => (outcomes d = [] -> outcomes (f_db f) = []) /\ (faults logs = [] -> faults (f_dir f) = [])));
    [done|].
  intros acts a f f' Hr [H1 H2] Ha Hs. apply reached_names in Hr as [Hn _].
  destruct (step_steady_somewhere f a f' (MkWriter [] true) Hn Ha Hs) as [sid [_ G2 _ G4 _]]. cbn in *. auto.
Qed.

(** Every member has begun in a fleet that came about, and has run from there among the
    others by its own actions. *)
Lemma reached_members acts f :
  reached (new_fleet d logs) acts f -> forall h m, members f !! h = Some m ->
  exists before fb s0 ms,
    reached (new_fleet d logs) before fb /\ born h (m_start m) fb s0
    /\ exec_among (m_sid m) (b_allowed (m_start m)) s0 ms = Some (view f m)
    /\ calm (m_sid m) (b_allowed (m_start m)) s0 ms /\ own_actions ms = acts_of h acts.
Proof.
  revert acts f. refine (reached_ind _ _ _ _); [done|].
  intros acts a f f' Hr IH Ha Hs h m Hm. destruct (reached_names acts f Hr) as [Hn Hd].
  pose proof Hs as [[Hsame Hna]|[(h1 & st & s & -> & Hf & Hb & ->)|(h1 & b & m1 & s & -> & Hm1 & Hst & ->)]]%fleet_step_cases.
  - assert (members f !! h = Some m) as Hm0 by (by rewrite <- Hsame).
    destruct (fleet_step_steady f a f' h m (m_rec m) Hn Hd Ha Hs Hm0) as [_ Hsteady]; [done|].
    destruct (IH h m Hm0) as (before & fb & s0 & ms & H1 & H2 & H3 & H4 & H5).
    exists before, fb, s0, (ms ++ [Others (fun _ => commons f' (m_rec m))]). split_and!; [done|done| | |].
    + by rewrite exec_among_app, H3.
    + by eapply calm_app; [exact H3|exact H4|].
    + rewrite own_actions_app, acts_of_snoc, H5. destruct a as [|h1 b| |]; try done. by destruct (Hna h1 b).
  - cbn in Hm. apply lookup_insert_Some in Hm as [[<- <-]|[Hne Hm0]].
    + exists acts, f, s, []. rewrite view_settle. split_and!; [done..|]. rewrite acts_of_snoc. apply fresh_spec in Hf as [Hf _].
      by rewrite (reached_no_acts acts f Hr h1 Hf).
    + destruct (fleet_step_steady _ _ _ h m (m_rec m) Hn Hd Ha Hs Hm0) as [_ Hsteady]; [done|].
      destruct (IH h m Hm0) as (before & fb & s0 & ms & H1 & H2 & H3 & H4 & H5).
      exists before, fb, s0, (ms ++ [Others (fun _ => commons (settle h1 st s f) (m_rec m))]). split_and!; [done|done| | |].
      * by rewrite exec_among_app, H3.
      * by eapply calm_app; [exact H3|exact H4|].
      * by rewrite own_actions_app, acts_of_snoc, H5.
  - cbn in Hm. apply lookup_insert_Some in Hm as [[<- <-]|[Hne Hm0]].
    + destruct (IH h1 m1 Hm1) as (before & fb & s0 & ms & H1 & H2 & H3 & H4 & H5).
      exists before, fb, s0, (ms ++ [Own b]). rewrite view_settle. unfold m_sid in *. cbn [m_start]. split_and!; [done|done| | |].
      * rewrite exec_among_app, H3. cbn. by rewrite Hst.
      * eapply calm_app; [exact H3|exact H4|]. cbn. by rewrite Hst.
      * rewrite own_actions_app, acts_of_snoc, H5. cbn. by rewrite decide_True.
    + destruct (fleet_step_steady _ _ _ h m (m_rec m) Hn Hd Ha Hs Hm0) as [_ Hsteady]; [intros b' [= E]; congruence|].
      destruct (IH h m Hm0) as (before & fb & s0 & ms & H1 & H2 & H3 & H4 & H5).
      exists before, fb, s0, (ms ++ [Others (fun _ => commons (settle h1 (m_start m1) s f) (m_rec m))]). split_and!; [done|done| | |].
      * by rewrite exec_among_app, H3.
      * by eapply calm_app; [exact H3|exact H4|].
      * rewrite own_actions_app, acts_of_snoc, H5. cbn. by rewrite decide_False.
Qed.

(** The registry: a session is in it from its beginning until its bridge or a kill has
    taken it out. *)
Lemma step_registry sid allowed s a s' :
  step sid allowed s a = Some s' ->
  (cm (sh s') = cm (sh s) /\ (registered (th s') <-> registered (th s)))
  \/ (cm (sh s') = Deregister sid (cm (sh s)) /\ ~ registered (th s')).
Proof.
  unfold registered. intros H.
  step_cases H a; cbn [sh th set_th set_cl set_be set_killer set_main set_cancelled set_ka set_result end_stdin end_stdout main killer
    set_cm set_db mark cm]; try (left; split; [done|naive_solver congruence]); try (right; split; [done|naive_solver]).
  destruct (stdin_chunk_fields allowed len client_takes s) as (_ & _ & _ & _ & _ & _ & -> & [->| ->]); by left.
Qed.

Definition registry_ok (f : fleet) : Prop :=
  forall sid h, sessions (f_cm f) !! sid = Some h
    <-> exists m, members f !! h = Some m /\ m_sid m = sid /\ registered (m_th m).

Lemma registry_ok_step f a f' :
  distinct f -> registry_ok f -> fleet_step f a = Some f' -> registry_ok f'.
Proof.
  intros Hd Hr Hs. unfold registry_ok in Hr. pose proof (distinct_step _ _ _ Hd Hs) as Hd'.
  pose proof Hs as [[Hsame Hna]|[(h & st & s & -> & [Hh Hf]%fresh_spec & Hb & ->)|(h & b & m & s & -> & Hm & Hst & ->)]]%fleet_step_cases; intros sid h'.
  - assert (f_cm f' = f_cm f) as Hcm; [|rewrite Hcm, Hsame; apply Hr].
    destruct a as [h st|h b|now ev de|g]; cbn [fleet_step] in Hs; [|by destruct (Hna h b)|by injection Hs as <-|by injection Hs as <-].
    destruct (fresh h st f) eqn:Hf; [|done]. injection Hs as <-. apply begin_same_registry in Hsame as [|[m Hm]]; [done|].
    apply fresh_spec in Hf as [Hf _]. congruence.
  - apply born_fields in Hb as (_ & _ & Hmain & Hkill & _ & _ & _ & Hcm). cbn [settle f_cm members]. rewrite Hcm.
    destruct (decide (sid = b_sid st)) as [->|Hne].
    + rewrite lookup_insert_eq. split.
      * intros [= <-]. rewrite lookup_insert_eq. eexists. split; [done|]. split; [done|]. unfold registered. cbn. rewrite Hmain, Hkill. naive_solver.
      * intros (m & Hm & Hsid & _). rewrite lookup_insert_Some in Hm. destruct Hm as [[<- _]|[_ Hm]]; [done|]. by apply Hf in Hm.
    + rewrite lookup_insert_ne by done. rewrite Hr. split; intros (m & Hm & Hsid & Hl); exists m; (split; [|done]).
      * by rewrite lookup_insert_ne by congruence.
      * rewrite lookup_insert_Some in Hm. destruct Hm as [[_ <-]|[_ Hm]]; [done|done].
  - cbn [settle f_cm members]. apply step_registry in Hst as [[Hcm Hl]|[Hcm Hl]]; rewrite Hcm; cbn [view sh cm th] in *.
    + rewrite Hr. split.
      * intros (m' & Hm' & Hsid & Hl'). destruct (decide (h = h')) as [<-|Hne]; [|by exists m'; rewrite lookup_insert_ne].
        assert (m' = m) as -> by congruence. rewrite lookup_insert_eq. eexists. split_and!; [done|done|]. by apply Hl.
      * intros (m' & Hm' & Hsid & Hl'). rewrite lookup_insert_Some in Hm'. destruct Hm' as [[<- <-]|[_ Hm']]; [|by exists m'].
        exists m. split_and!; [done|done|]. by apply Hl.
    + cbn [Deregister sessions]. destruct (decide (sid = m_sid m)) as [->|Hne].
      * rewrite lookup_delete_eq. split; [done|]. intros (m' & Hm' & Hsid & Hl'). destruct Hl.
        assert (h = h') as <- by (eapply (Hd' h h'); [apply lookup_insert_eq|exact Hm'|done]).
        rewrite lookup_insert_eq in Hm'. by injection Hm' as <-.
      * rewrite lookup_delete_ne by done. rewrite Hr. split; intros (m' & Hm' & Hsid & Hl'); exists m'; (split; [|done]).
        -- rewrite lookup_insert_ne; [done|]. intros <-. congruence.
        -- rewrite lookup_insert_Some in Hm'. destruct Hm' as [[<- <-]|[_ Hm']]; [|done]. by destruct Hne.
Qed.

Lemma reached_registry acts f : reached (new_fleet d logs) acts f -> registry_ok f.
Proof.
  revert acts f. apply (reached_ind (fun _ f => registry_ok f)).
  - intros sid h. cbn. rewrite lookup_empty. split; [done|]. by intros (m & Hm & _).
  - intros acts a f f' Hr IH _ Hs. apply reached_names in Hr as [_ Hd]. by eapply registry_ok_step.
Qed.
End from_empty.

(** The frame a recording begins with. *)
Definition first_frame (st : start) : Z * str := (b_framed st, attribution (b_sid st) (b_user st) (b_created st)).

Lemma born_recorded h st f s :
  faults (f_dir f) = [] -> born h st f s -> recorded_ok (ttyrec_name (b_sid st)) (first_frame st) s.
Proof.
  intros Hw (wr & d & x & Hn & Hs). apply Bridge_setup_inv in Hs as (d1 & _ & ->).
  unfold NewWriter, fs_create, fs_op in Hn. rewrite Hw in Hn. injection Hn as <- <-.
  rewrite writeFrame_ok by done.
  constructor; cbn -[frames_text]; [done|done|done| |constructor].
  rewrite !lookup_insert_eq. f_equal. cbn [default]. rewrite app_nil_l. exact (eq_sym (frames_text_snoc [] (first_frame st))).
Qed.

Lemma born_marked h st f s : outcomes (f_db f) = [] -> born h st f s -> marked_ok (b_sid st) s.
Proof.
  intros Ho (wr & d & x & Hn & Hs). apply Bridge_setup_inv in Hs as (d1 & Hr & ->).
  apply Register_active in Hr as [Ho1 Hst]; [|done]. constructor; cbn -[status_of]; [done|by rewrite Hst|]. by intros [?|?].
Qed.

Lemma born_typed {TM : Terminal} h st f s :
  Forall simple_key (b_pending st) -> born h st f s -> typed_ok (b_allowed st) s.
Proof.
  intros Hp Hb. destruct (born_fields _ _ _ _ Hb) as (_ & _ & _ & _ & Ha & Hpipe & Hline & _). split; [by rewrite Ha|].
  destruct fresh_term_empty as [Hs Hl]. constructor; [|right; right]; cbn; rewrite ?Hpipe, ?Hline; [|exact Hl].
  cbn. by rewrite Hs.
Qed.

(** From any fleet on, a member runs by its own actions among the others. *)
Lemma fleet_run_among f acts f' h m :
  fleet_run f acts = Some f' -> members f !! h = Some m ->
  exists m' ms, members f' !! h = Some m' /\ m_start m' = m_start m
    /\ exec_among (m_sid m) (b_allowed (m_start m)) (view f m) ms = Some (view f' m') /\ own_actions ms = acts_of h acts.
Proof.
  revert f m. induction acts as [|a acts IH]; intros f m; cbn [fleet_run].
  - intros [= <-] Hm. by exists m, [].
  - destruct (fleet_step f a) as [f1|] eqn:H1; [|done]. cbn. intros Hr Hm.
    assert ((exists b s, a = Act h b /\ step (m_sid m) (b_allowed (m_start m)) (view f m) b = Some s /\ f1 = settle h (m_start m) s f)
      \/ members f1 !! h = Some m /\ acts_of h (a :: acts) = acts_of h acts) as [(b & s & -> & Hs & ->)|[Hm1 Ha]].
    { apply fleet_step_cases in H1 as [[Hsame Hna]|[(h1 & st & s & -> & Hf & _ & ->)|(h1 & b & m1 & s & -> & Hm1 & Hs & ->)]].
      - right. rewrite Hsame. split; [done|]. destruct a as [|h1 b| |]; try done. cbn. rewrite decide_False; [done|]. intros ->. by apply (Hna h b).
      - right. apply fresh_spec in Hf as [Hf _]. cbn. rewrite lookup_insert_ne by congruence. by split.
      - destruct (decide (h1 = h)) as [->|Hne].
        + left. exists b, s. rewrite Hm in Hm1. by simplify_eq.
        + right. cbn. by rewrite lookup_insert_ne, decide_False by done. }
    + destruct (IH (settle h (m_start m) s f) (Member (m_start m) (cl s) (be s) (th s) (recorder (sh s)))) as (m' & ms & Hm' & Hst & He & Ho);
        [done|by cbn; rewrite lookup_insert_eq|].
      rewrite view_settle in He. exists m', (Own b :: ms). split_and!; [done..| |]; cbn.
      * rewrite Hs. exact He.
      * rewrite decide_True by done. f_equal. exact Ho.
    + destruct (IH f1 m Hr Hm1) as (m' & ms & Hm' & Hst & He & Ho).
      exists m', (Others (fun _ => commons f1 (m_rec m)) :: ms). split_and!; [done..|exact He|]. etrans; [exact Ho|symmetry; exact Ha].
Qed.

(** A member's own actions one after another. *)
Lemma settle_same h m f : members f !! h = Some m -> settle h (m_start m) (view f m) f = f.
Proof. intros Hm. destruct f, m. unfold settle. cbn in *. by rewrite insert_id. Qed.

Lemma fleet_run_own h m f acts s :
  members f !! h = Some m -> exec (m_sid m) (b_allowed (m_start m)) (view f m) acts = Some s ->
  fleet_run f (map (Act h) acts) = Some (settle h (m_start m) s f).
Proof.
  revert m f. induction acts as [|a acts IH]; intros m f Hm; cbn [exec map fleet_run].
  - intros [= <-]. by rewrite settle_same.
  - destruct (step _ _ _ a) as [s1|] eqn:H1; [|done]. intros Hs. cbn [fleet_step]. rewrite Hm. cbn. rewrite H1. cbn.
    rewrite (IH (Member (m_start m) (cl s1) (be s1) (th s1) (recorder (sh s1)))); [|apply lookup_insert_eq|by rewrite view_settle].
    unfold settle. cbn. by rewrite insert_insert_eq.
Qed.
End lemmas.

(** ** Properties *)

Section properties.
Context {PG : Postgres} {UT : UnicodeTables}.
Variables (d : database) (logs : logdir).

Lemma reached_bridge_ok acts f h m :
  Forall considerate_act acts -> fleet_run (new_fleet d logs) acts = Some f -> members f !! h = Some m ->
  bridge_ok (view f m).
Proof.
  intros Hc Hr Hm.
  destruct (reached_members d logs acts f (Build_reached _ _ _ Hr Hc) h m Hm) as (before & fb & s0 & bs & _ & Hborn & Hb & _ & _).
  apply born_fields in Hborn as (_ & Hok & _).
  by eapply (among_private _ _ bridge_ok (fun _ => True)) in Hb; [|by intros; eapply bridge_ok_step|done|by apply Forall_true|].
Qed.

(** C16.  One session among the others.  However the sessions of a node are interleaved,
    each is, seen by itself, a run of the bridge: it began in a fleet that came about, it
    took exactly its own actions in their order, and all that the others did in between
    left its registry entry, its row and its recording alone. *)
Theorem fleet_projects (acts : list fleet_act) (f : fleet) (h : nat) (m : member)
    (Hc : Forall considerate_act acts) (Hr : fleet_run (new_fleet d logs) acts = Some f) (Hm : members f !! h = Some m) :
  exists before fb s0 ms,
    fleet_run (new_fleet d logs) before = Some fb /\ born h (m_start m) fb s0
    /\ exec_among (m_sid m) (b_allowed (m_start m)) s0 ms = Some (view f m)
    /\ calm (m_sid m) (b_allowed (m_start m)) s0 ms /\ own_actions ms = acts_of h acts.
Proof.
  destruct (reached_members d logs acts f (Build_reached _ _ _ Hr Hc) h m Hm) as (before & fb & s0 & ms & [H1 _] & H).
  by exists before, fb, s0, ms.
Qed.

(** C15.  The registry is the set of live sessions.  At every moment a session's entry is
    there, under its own handle and no other's, exactly while its bridge has not taken
    it out and no kill has; so no session can be killed under another's name, and none
    that runs is missing. *)
Theorem registry_is_live (acts : list fleet_act) (f : fleet)
    (Hc : Forall considerate_act acts) (Hr : fleet_run (new_fleet d logs) acts = Some f) :
  (forall sid h, sessions (f_cm f) !! sid = Some h
     <-> exists m, members f !! h = Some m /\ m_sid m = sid /\ registered (m_th m))
  /\ (forall h h' m m', members f !! h = Some m -> members f !! h' = Some m' -> m_sid m = m_sid m' -> h = h').
Proof.
  pose proof (Build_reached _ _ _ Hr Hc) as H. split; [exact (reached_registry d logs acts f H)|].
  exact (proj2 (reached_names d logs acts f H)).
Qed.

(** C6.  Recordings are kept apart.  On a disk that works, whatever the sessions of a node
    do, in any order and side by side, at every moment the recording of each reads back
    as its attribution frame followed by exactly the chunks of server output that were
    written whole to its client, in that order and with their times: nothing of another
    session, nothing that was not shown, and none of what the client has typed but what
    the server echoes.  (The part of a chunk that gets out before a client's connection
    fails is not in it.) *)
Theorem recordings_separate (acts : list fleet_act) (f : fleet) (h : nat) (m : member)
    (Hc : Forall considerate_act acts) (Hw : faults logs = []) (Hr : fleet_run (new_fleet d logs) acts = Some f)
    (Hm : members f !! h = Some m) (Hb : zlen (first_frame (m_start m)).2 < 2 ^ 32) :
  exists file, files (f_dir f) !! ttyrec_name (m_sid m) = Some file
    /\ frames file = map stamp (first_frame (m_start m) :: outputs (screen (m_cl m))).
Proof.
  destruct (reached_members d logs acts f (Build_reached _ _ _ Hr Hc) h m Hm) as (before & fb & s0 & ms & Hfb & Hborn & He & Hcalm & _).
  apply born_recorded in Hborn; [|by apply (reached_works d logs before fb Hfb)].
  eapply (among_invariant _ _ (recorded_ok (ttyrec_name (m_sid m)) (first_frame (m_start m))) (fun _ => True)) in He
    as [_ _ _ Hf Hch]; [|by intros; eapply recorded_ok_step|by intros; eapply recorded_ok_stable|by apply Forall_true|done|done].
  eexists. split; [exact Hf|]. apply frames_frames_text. constructor; [done|].
  eapply Forall_impl; [exact Hch|]. unfold RateLimit.streamBufSize. simpl. lia.
Qed.

(** C3.  Every line is permitted, in every session.  If a session's client sends nothing
    but printing ASCII, DEL, CR and LF, then whatever its other threads and all other
    sessions do, every line its remote terminal has been given is one its role's policy
    permits: the line as text, for every terminal that treats those keys as [Terminal]
    says, and up to where it stops editing plain lines. *)
Theorem lines_permitted {TM : Terminal} (acts : list fleet_act) (f : fleet) (h : nat) (m : member)
    (Hc : Forall considerate_act acts) (Hr : fleet_run (new_fleet d logs) acts = Some f) (Hm : members f !! h = Some m)
    (Hp : Forall simple_key (b_pending (m_start m))) (Ha : Forall sends_ok (acts_of h acts)) :
  Forall (permitted (b_allowed (m_start m))) (submitted (tty_read (written (pipe (m_be m))))).
Proof.
  destruct (reached_members d logs acts f (Build_reached _ _ _ Hr Hc) h m Hm) as (before & fb & s0 & ms & _ & Hborn & He & Hcalm & Hown).
  apply born_typed in Hborn; [|done]. rewrite <- Hown in Ha.
  eapply (among_invariant _ _ (typed_ok (b_allowed (m_start m))) sends_ok) in He as [_ [Hl _]];
    [exact Hl|by intros; eapply typed_ok_step|by intros; apply typed_ok_stable|done..].
Qed.

(** C17.  No session stays active.  With a database that answers, once the bridge of a
    session has returned, or a kill of it has run to its end, its row says terminated,
    terminated-timeout or terminated-kill, and keeps saying so whatever the other
    sessions do. *)
Theorem ended_are_marked (acts : list fleet_act) (f : fleet) (h : nat) (m : member)
    (Hc : Forall considerate_act acts) (Ho : outcomes d = []) (Hr : fleet_run (new_fleet d logs) acts = Some f)
    (Hm : members f !! h = Some m) (Hend : main (m_th m) = Returned \/ killer (m_th m) = KillDone) :
  exists st, status_of (m_sid m) (f_db f) = Some st /\ ended st.
Proof.
  destruct (reached_members d logs acts f (Build_reached _ _ _ Hr Hc) h m Hm) as (before & fb & s0 & ms & Hfb & Hborn & He & Hcalm & _).
  apply born_marked in Hborn; [|by apply (reached_works d logs before fb Hfb)].
  eapply (among_invariant _ _ (marked_ok (m_sid m)) (fun _ => True)) in He as [_ _ Hmark];
    [by apply Hmark|by intros; eapply marked_ok_step|by intros; eapply marked_ok_stable|by apply Forall_true|done|done].
Qed.

(** C7.  Every session whose output is over ends.  Take a fleet that came about and in it
    a session whose remote shell has ended or whose SSH connection is gone - closed by the
    kill switch, by the keepalive loop or by the network.  Whatever happens from then on,
    in this session - its client, its keepalive loop and the kill switch included - and in
    all others, its own code takes at most [work] more actions, and two for each byte its
    client still sends; while the client takes what it is written, or is gone, the code
    can take another action until its bridge has returned; and then the read deadline is
    off again for the menu and the error is "Access revoked" if the context was cancelled
    at the start, and none if it has not been cancelled by the end. *)
Theorem sessions_end (acts after : list fleet_act) (f f' : fleet) (h : nat) (m m' : member)
    (Hc : Forall considerate_act acts) (Hr : fleet_run (new_fleet d logs) acts = Some f) (Hm : members f !! h = Some m)
    (Hov : output_over (m_be m) = true) (Ha : fleet_run f after = Some f') (Hm' : members f' !! h = Some m') :
  (own_done (acts_of h after) + work (view f' m') <= work (view f m) + 2 * sent_bytes (acts_of h after))%nat
  /\ (blocked (m_cl m') = false -> main (m_th m') <> Returned ->
        exists a, own a = true /\ is_Some (fleet_step f' (Act h a)))
  /\ (main (m_th m') = Returned ->
        (forall a, own a = true -> fleet_step f' (Act h a) = None)
        /\ deadline (m_cl m') = false
        /\ (main (m_th m) = Waiting \/ main (m_th m) = Joining ->
            (cancelled (m_th m) = true -> result (m_th m') = Some ErrRevoked)
            /\ (cancelled (m_th m') = false -> result (m_th m') = None))).
Proof.
  pose proof (reached_bridge_ok acts f h m Hc Hr Hm) as Hb.
  destruct (fleet_run_among f after f' h m Ha Hm) as (m1 & ms & Hm1 & Hst & He & Ho). rewrite Hm' in Hm1. injection Hm1 as <-.
  destruct (among_work _ _ (view f m) _ _ Hov He) as [Hov' Hw]. rewrite Ho in Hw.
  eapply (among_private _ _ bridge_ok (fun _ => True)) in He as Hok'; [|by intros; eapply bridge_ok_step|done|by apply Forall_true|done].
  assert (forall a, is_Some (fleet_step f' (Act h a)) <-> is_Some (step (m_sid m) (b_allowed (m_start m)) (view f' m') a)) as Hstep.
  { intros a. unfold fleet_step, m_sid. rewrite Hm'. cbn [mbind option_bind]. rewrite Hst.
    destruct (step _ _ _ a); cbn; split; intros [? ?]; eauto; done. }
  split; [done|]. split.
  - intros Hbl Hmain. destruct (own_progress (m_sid m) (b_allowed (m_start m)) (view f' m') Hok' Hov' Hbl Hmain) as (a & Hoa & Ha').
    exists a. split; [done|]. by apply Hstep.
  - intros Hmain. split.
    { intros a Hoa. apply eq_None_not_Some. intros Hs%Hstep. rewrite returned_stuck in Hs; [by destruct Hs|done..]. }
    destruct Hok' as [_ Hd _]. cbn [view cl th] in Hd. rewrite Hd, Hmain. split; [done|]. intros Hwait.
    eapply (among_private _ _ (settled (cancelled (m_th m))) (fun _ => True)) in He as [_ Hres];
      [|by intros; eapply settled_step|done|by apply Forall_true|split; [done|cbn; naive_solver]].
    cbn [view th] in Hres. by destruct Hres as [?|[?|?]]; [congruence..|].
Qed.

(** C30.  A client that takes nothing holds its session.  The bridge writes to its client
    without a deadline: once a client that stays connected has stopped reading while
    output waits for it, then whatever happens - the end of the shell, the keepalive
    loop, a kill run to its end, all other sessions - the bridge does not return until the
    client reads again or closes. *)
Theorem stalled_client_holds (acts after : list fleet_act) (f f' : fleet) (h : nat) (m m' : member)
    (Hc : Forall considerate_act acts) (Hr : fleet_run (new_fleet d logs) acts = Some f) (Hm : members f !! h = Some m)
    (Hb : blocked (m_cl m) = true) (Hout : out_buf (m_be m) <> []) (Hd : stdout_done (m_th m) = false)
    (Ha : fleet_run f after = Some f') (Hno : Forall (fun a => lets_go a = false) (acts_of h after))
    (Hm' : members f' !! h = Some m') :
  blocked (m_cl m') = true /\ (main (m_th m') = Waiting \/ main (m_th m') = Joining).
Proof.
  pose proof (reached_bridge_ok acts f h m Hc Hr Hm) as [_ _ Hj]. cbn [view th] in Hj.
  destruct (fleet_run_among f after f' h m Ha Hm) as (m1 & ms & Hm1 & _ & He & Ho). rewrite Hm' in Hm1. injection Hm1 as <-.
  rewrite <- Ho in Hno. eapply (among_private _ _ held (fun a => lets_go a = false)) in He as (Hb' & _ & _ & Hmain);
    [|by intros; eapply held_step|done|done|split_and!; cbn; naive_solver congruence]. done.
Qed.

(** C14.  A kill hits one session.  The RPC for a session finds it exactly if its entry is
    in the registry; then its handle is the one of the member of that id, running the
    steps of the kill in the fleet leaves the registry and the database as the RPC
    leaves them, with that session cancelled and cut off from its server while its
    client stays connected - and every other session as it was. *)
Theorem kill_hits_one_session {UU : UuidText} (acts : list fleet_act) (f : fleet) (sid : str) (start stop : Z)
    (Hc : Forall considerate_act acts) (Hr : fleet_run (new_fleet d logs) acts = Some f) (Hu : uuid_parse sid = Some sid) :
  match sessions (f_cm f) !! sid with
  | None =>
      TerminateSession sid start stop (f_cm f) (f_db f)
      = (TermResp false 0 (§"session " ++ sid ++ §" not found on this node"), [], f_cm f, f_db f)
      /\ forall h m, members f !! h = Some m -> m_sid m = sid -> ~ registered (m_th m)
  | Some h =>
      exists m, members f !! h = Some m /\ m_sid m = sid
        /\ (killer (m_th m) = NoKill ->
              exists f' m',
                fleet_run f (map (Act h) kill_steps) = Some f'
                /\ TerminateSession sid start stop (f_cm f) (f_db f)
                   = (TermResp true (Z.quot (stop - start) Millisecond) [], [Cancel h; CloseConns h], f_cm f', f_db f')
                /\ members f' = <[h := m']> (members f)
                /\ cancelled (m_th m') = true /\ ssh_open (m_be m') = false /\ m_cl m' = m_cl m)
  end.
Proof.
  pose proof (reached_registry d logs acts f (Build_reached _ _ _ Hr Hc)) as Hreg.
  destruct (sessions (f_cm f) !! sid) as [h|] eqn:Hs.
  - destruct (proj1 (Hreg sid h) Hs) as (m & Hm & Hsid & _). exists m. split_and!; [done..|]. intros Hk.
    destruct (kill_steps_are_the_rpc (m_sid m) h (b_allowed (m_start m)) (view f m) start stop) as (s & d' & He & Ht & Hd & Hca & Hop & Hcl);
      [by rewrite Hsid|done|by cbn; rewrite Hsid|].
    apply (fleet_run_own h m f) in He as Hrun; [|done].
    exists (settle h (m_start m) s f), (Member (m_start m) (cl s) (be s) (th s) (recorder (sh s))).
    cbn [settle f_cm f_db members m_cl m_be m_th]. rewrite Hd, <- Hsid. by split_and!.
  - split; [by apply TerminateSession_missing|]. intros h m Hm Hsid Hl.
    assert (sessions (f_cm f) !! sid = Some h) by (apply Hreg; by exists m). congruence.
Qed.
End properties.

(** ** Witnesses *)

Definition demo_start (sid user server : str) (allowed : list str) : start :=
  Start sid user server allowed (4 * Second) (5 * Second) 6 (Some §"192.0.2.10") 80 24 calls_ok [].

(** Two sessions side by side; output of both, a line typed in one, then the kill of the
    other and its end. *)
Definition demo_two : list fleet_act :=
  [Begin 1 (demo_start §"sess" §"u-jdoe" §"s-prod" []); Act 1 (ShellPrints §"$ ");
   Begin 2 (demo_start §"other" §"u-admin" §"s-prod" []); Act 2 (ShellPrints §"# "); Act 2 (StdoutChunk 2 (7 * Second));
   Act 1 (StdoutChunk 2 (8 * Second)); Logged 9 §"[LOGIN]" §"admin"; Act 1 (ClientSends (§"tmux" ++ LF));
   Act 1 (StdinChunk 5 None)].

Definition demo_kill : list fleet_act := map (Act 2) (kill_steps ++ end_steps).

Definition demo_run (acts : list fleet_act) : fleet :=
  default (new_fleet demo_db (LogDir ∅ []))
    (fleet_run (PG := demo_postgres) (UT := ascii_tables) (new_fleet demo_db (LogDir ∅ [])) acts).

Lemma demo_run_ok (acts : list fleet_act) :
  match fleet_run (PG := demo_postgres) (UT := ascii_tables) (new_fleet demo_db (LogDir ∅ [])) acts with Some _ => true | None => false end = true ->
  fleet_run (PG := demo_postgres) (UT := ascii_tables) (new_fleet demo_db (LogDir ∅ [])) acts = Some (demo_run acts).
Proof. unfold demo_run. by destruct (fleet_run _ _). Qed.

Definition demo_member (h : nat) (acts : list fleet_act) : member :=
  default (Member (demo_start [] [] [] []) (ClientSide [] false false [] false []) (BackendSide new_sink [] [] [] true false)
             (Threads Returned true true 0 false KaGone NoKill None) (MkWriter [] false)) (members (demo_run acts) !! h).

Lemma demo_member_ok (h : nat) (acts : list fleet_act) :
  match members (demo_run acts) !! h with Some _ => true | None => false end = true ->
  members (demo_run acts) !! h = Some (demo_member h acts).
Proof. unfold demo_member. by destruct (members _ !! h). Qed.

Ltac demo_facts :=
  lazymatch goal with
  | |- Forall _ _ => repeat constructor
  | |- fleet_run _ _ = Some _ => apply demo_run_ok; vm_compute; reflexivity
  | |- members _ !! _ = Some _ => apply demo_member_ok; vm_compute; reflexivity
  | |- _ => vm_compute; reflexivity
  end.

Lemma fleet_projects_witness :
  exists s0 ms, exec_among (PG := demo_postgres) (UT := ascii_tables) §"sess" [] s0 ms = Some (view (demo_run demo_two) (demo_member 1 demo_two))
    /\ length (own_actions ms) = 4%nat.
Proof.
  destruct (fleet_projects (PG := demo_postgres) (UT := ascii_tables) demo_db (LogDir ∅ []) demo_two (demo_run demo_two) 1 (demo_member 1 demo_two))
    as (before & fb & s0 & ms & _ & _ & He & _ & Hown); [demo_facts..|].
  exists s0, ms. split; [exact He|]. rewrite Hown. vm_compute. reflexivity.
Defined.

Lemma registry_is_live_witness :
  sessions (f_cm (demo_run demo_two)) !! §"other" = Some 2%nat
  /\ (sessions (f_cm (demo_run (demo_two ++ demo_kill))) !! §"other" = None)
  /\ exists m, members (demo_run demo_two) !! 2%nat = Some m /\ m_sid m = §"other" /\ registered (m_th m).
Proof.
  split; [vm_compute; reflexivity|]. split; [vm_compute; reflexivity|].
  apply (proj1 (registry_is_live (PG := demo_postgres) (UT := ascii_tables) demo_db (LogDir ∅ []) demo_two (demo_run demo_two)
    ltac:(demo_facts) ltac:(demo_facts)) §"other" 2%nat). vm_compute. reflexivity.
Defined.

Lemma recordings_separate_witness :
  exists file, files (f_dir (demo_run (demo_two ++ demo_kill))) !! ttyrec_name §"sess" = Some file
    /\ map (fun f => f.2) (tail (frames file)) = [§"$ "].
Proof.
  destruct (recordings_separate (PG := demo_postgres) (UT := ascii_tables) demo_db (LogDir ∅ []) (demo_two ++ demo_kill)
    (demo_run (demo_two ++ demo_kill)) 1 (demo_member 1 (demo_two ++ demo_kill))) as (file & Hf & Hfr); [demo_facts..|].
  exists file. split; [exact Hf|]. rewrite Hfr. vm_compute. reflexivity.
Defined.

Lemma lines_permitted_witness :
  written (pipe (m_be (demo_member 1 demo_two))) = §"tmux" ++ [to_byte 3]
  /\ Forall (permitted (UT := ascii_tables) []) (submitted (tty_read (TM := linux_tty) (written (pipe (m_be (demo_member 1 demo_two)))))).
Proof.
  split; [vm_compute; reflexivity|].
  apply (lines_permitted (PG := demo_postgres) (UT := ascii_tables) (TM := linux_tty) demo_db (LogDir ∅ []) demo_two (demo_run demo_two) 1 (demo_member 1 demo_two)).
  - demo_facts.
  - demo_facts.
  - demo_facts.
  - constructor.
  - assert (Forall simple_key (§"tmux" ++ LF)) as Hk by simple_keys. repeat first [exact Hk|constructor].
Defined.

Lemma ended_are_marked_witness :
  exists st, status_of §"other" (f_db (demo_run (demo_two ++ demo_kill))) = Some st /\ ended st.
Proof.
  apply (ended_are_marked (PG := demo_postgres) (UT := ascii_tables) demo_db (LogDir ∅ []) (demo_two ++ demo_kill)
    (demo_run (demo_two ++ demo_kill)) 2 (demo_member 2 (demo_two ++ demo_kill))); [demo_facts..|].
  left. vm_compute. reflexivity.
Defined.

Lemma kill_hits_one_session_witness :
  exists f' m', fleet_run (PG := demo_postgres) (UT := ascii_tables) (demo_run demo_two) (map (Act 2) kill_steps) = Some f'
    /\ members f' = <[2%nat := m']> (members (demo_run demo_two)) /\ ssh_open (m_be m') = false.
Proof.
  pose proof (kill_hits_one_session (PG := demo_postgres) (UT := ascii_tables) (UU := demo_uuid) demo_db (LogDir ∅ []) demo_two
    (demo_run demo_two) §"other" 0 0 ltac:(demo_facts) ltac:(demo_facts) ltac:(demo_facts)) as H.
  assert (sessions (f_cm (demo_run demo_two)) !! §"other" = Some 2%nat) as E by (vm_compute; reflexivity).
  rewrite E in H. destruct H as (m & Hm & _ & Hk).
  assert (Some m = Some (demo_member 2 demo_two)) as Em.
  { rewrite <- Hm. apply demo_member_ok. vm_compute. reflexivity. }
  apply (inj Some) in Em. subst m. destruct Hk as (f' & m' & Hf & _ & Hmem & _ & Ho & _); [vm_compute; reflexivity|].
  exists f', m'. split; [exact Hf|]. split; [exact Hmem|exact Ho].
Defined.

(** The killed session ends in six steps while the other goes on. *)
Definition demo_killed : list fleet_act := demo_two ++ map (Act 2) kill_steps.
Definition demo_rest : list fleet_act := Act 1 (ShellPrints §"x") :: map (Act 2) end_steps ++ [Act 1 (StdoutChunk 1 (9 * Second))].

Lemma demo_run_more (acts more : list fleet_act) :
  fleet_run (PG := demo_postgres) (UT := ascii_tables) (new_fleet demo_db (LogDir ∅ [])) acts = Some (demo_run acts) ->
  fleet_run (PG := demo_postgres) (UT := ascii_tables) (new_fleet demo_db (LogDir ∅ [])) (acts ++ more) = Some (demo_run (acts ++ more)) ->
  fleet_run (PG := demo_postgres) (UT := ascii_tables) (demo_run acts) more = Some (demo_run (acts ++ more)).
Proof. intros H1 H2. by rewrite fleet_run_app, H1 in H2. Qed.

Lemma sessions_end_witness :
  (6 <= work (view (demo_run demo_killed) (demo_member 2 demo_killed)))%nat
  /\ main (m_th (demo_member 2 (demo_killed ++ demo_rest))) = Returned
  /\ result (m_th (demo_member 2 (demo_killed ++ demo_rest))) = Some ErrRevoked.
Proof.
  assert (fleet_run (PG := demo_postgres) (UT := ascii_tables) (new_fleet demo_db (LogDir ∅ [])) demo_killed = Some (demo_run demo_killed))
    as Hr by demo_facts.
  assert (members (demo_run demo_killed) !! 2%nat = Some (demo_member 2 demo_killed)) as Hm by demo_facts.
  assert (members (demo_run (demo_killed ++ demo_rest)) !! 2%nat = Some (demo_member 2 (demo_killed ++ demo_rest))) as Hm' by demo_facts.
  destruct (sessions_end (PG := demo_postgres) (UT := ascii_tables) demo_db (LogDir ∅ []) demo_killed demo_rest
    (demo_run demo_killed) (demo_run (demo_killed ++ demo_rest)) 2 (demo_member 2 demo_killed) (demo_member 2 (demo_killed ++ demo_rest))
    ltac:(repeat constructor) Hr Hm ltac:(vm_compute; reflexivity)
    ltac:(apply demo_run_more; [exact Hr|demo_facts]) Hm') as (Hw & _ & Hres).
  split; [|split].
  - refine (Nat.le_trans _ _ _ _ (Nat.le_trans _ _ _ Hw _)); apply Nat.leb_le; vm_compute; reflexivity.
  - vm_compute. reflexivity.
  - apply Hres; [vm_compute; reflexivity|left; vm_compute; reflexivity|vm_compute; reflexivity].
Defined.

(** A killed session whose client has stopped reading: its row says so, and its bridge has
    not returned. *)
Definition demo_stall : list fleet_act := demo_two ++ [Act 2 ClientStalls; Act 2 (ShellPrints §"x")].
Definition demo_kill_stalled : list fleet_act := map (Act 2) kill_steps.

Lemma stalled_client_holds_witness :
  status_of §"other" (f_db (demo_run (demo_stall ++ demo_kill_stalled))) = Some StatusTerminatedKill
  /\ (main (m_th (demo_member 2 (demo_stall ++ demo_kill_stalled))) = Waiting
      \/ main (m_th (demo_member 2 (demo_stall ++ demo_kill_stalled))) = Joining).
Proof.
  assert (fleet_run (PG := demo_postgres) (UT := ascii_tables) (new_fleet demo_db (LogDir ∅ [])) demo_stall = Some (demo_run demo_stall))
    as Hr by demo_facts.
  split; [vm_compute; reflexivity|].
  apply (stalled_client_holds (PG := demo_postgres) (UT := ascii_tables) demo_db (LogDir ∅ []) demo_stall demo_kill_stalled
    (demo_run demo_stall) (demo_run (demo_stall ++ demo_kill_stalled)) 2 (demo_member 2 demo_stall) (demo_member 2 (demo_stall ++ demo_kill_stalled))).
  - repeat constructor.
  - exact Hr.
  - demo_facts.
  - vm_compute. reflexivity.
  - vm_compute. discriminate.
  - vm_compute. reflexivity.
  - apply demo_run_more; [exact Hr|demo_facts].
  - repeat constructor.
  - demo_facts.
Defined.
