(* ===== verification/Accept.v ===== *)
(** * A client's connection: [internal/proxy/accept.go]

    [handleConnection] from the first byte to the close - rate limit, disk guard,
    request, authentication, then the admin console, the gateway loop or one direct
    session - and [connectToTarget] from authorization to the end of the bridge.
    What other parties do meanwhile comes in scripts, one for each session; also between
    the actions of a session's threads the others may change what is shared (Among.v). *)

From S2P Require Import Prelude GoStr GoTime Net Json Io Config Db Commands CmdFilter Rbac Gateway Wire Auth RateLimit Vault Session Killswitch AuditLog World AdminOps AdminConsole AdminProps Bridge Among.
From stdpp Require Import options.
Open Scope Z_scope.

(** [ssh.Dial] with a public key and a host key callback, asked for the address and the
    account: on success, the host key the server has shown and what the calls on the new
    connection will answer.  It succeeds only if the callback has accepted that key. *)
Class SshDial `{SSH} := {
  ssh_dial : str -> str -> option signer_t -> (str -> pubkey -> option error) -> res (pubkey * ssh_calls);
  ssh_dial_checked : forall addr account key cb host_key calls,
    ssh_dial addr account key cb = inr (host_key, calls) -> cb addr host_key = None;
}.

(** What the handler does that others can see; [asked] is the world as the policy engine
    and Vault, or the gateway menu, were asked ([None]: no menu was). *)
Inductive event `{TokenBucket} `{VaultServer} `{SSH} :=
  | EvDial (asked : world) (addr account : str)
  | EvBridge (asked : world) (host_key : pubkey) (sessionID userID serverID : str) (allowed : list str)
  | EvAdminConsole (asked : option world) (username : str).

(** What comes from outside in one session or one stay at the console: what others did
    before the menu is drawn and before the session is opened, the new UUID, the clock
    readings, the number of the session's handle in the registry, how many of the client's
    input events arrive before it ends, and the actions of its threads among what others
    do to the registry, the database and the audit directory in between. *)
Record script `{TokenBucket} `{VaultServer} := Script {
  before_menu : world -> world;
  others : world -> world;
  new_uuid : str;
  created : Z;
  framed : Z;
  db_now : Z;
  handle : nat;
  arriving : nat;
  actions : list moment;
  stay : visit;
}.

(** The fields of [Server] that stay as they are: the configuration behind [Auth], the
    disk guard, [ProxyNodeIP] and [VaultDevMode]. *)
Record Server := MkServer {
  Auth_cfg : Config;
  Server_DiskGuard : DiskGuard;
  Server_ProxyNodeIP : str;
  Server_VaultDevMode : bool;
}.

Section accept.
Context {PG : Postgres} {V6 : IPv6Text} {UT : UnicodeTables} {JE : JsonErrors} {BC : Bcrypt}
  {TB : TokenBucket} {VS : VaultServer} {SH : SSH} {SD : SshDial} {KG : KeyGen} {PS : PasswordSsh} {UU : UuidText}.

Definition with_shared (w : world) (x : shared) : world := with_dir (with_cm (with_db w (db x)) (cm x)) (dir x).

Variable srv : Server.

(** The input events that are bytes. *)
Fixpoint bytes_of (i : list inev) : str :=
  match i with
  | [] => []
  | InByte b :: i => b :: bytes_of i
  | InGap :: i => bytes_of i
  end.

(** The client's connection after a session: what was written to it, and what it has
    not read. *)
Definition after_session (n : nat) (c : conn) (s : bridge) : conn :=
  let c := fold_left (fun c e => conn_write c (match e with Output _ p | Partial p | Message p => p end)) (screen (cl s)) c in
  set_inp c (typed (arrived (cl s)) ++ drop n (inp c)).

Definition session_error (c : conn) (err : error) : conn :=
  let c := clearScreen c in
  let c := conn_write c (CRLF ++ ESC ++ §"[31mSession Error:" ++ ESC ++ §"[0m " ++ error_text err
                         ++ CRLF ++ CRLF ++ §"Press any key to continue...") in
  (conn_readKey c).2.

(** The call of [Bridge] and what follows it; [None] while the bridge has not returned. *)
Definition run_bridge (calls : ssh_calls) (sc : script) (user : User) (target : AuthorizedAccess)
    (termWidth termHeight : Z) (interactive : bool) (x : shared) (c : conn)
  : option (option error * conn * shared) :=
  let allowed := default [] (AllowedCmds target) in
  let pending := bytes_of (take (arriving sc) (inp c)) in
  let ended := match Bridge_setup calls (new_uuid sc) (ID user) (ServerID target) (ParseIP (Server_ProxyNodeIP srv))
                       termWidth termHeight (handle sc) (db_now sc) pending x with
    | (inl err, x) => Some (Some err, c, x)
    | (inr s0, _) =>
        match exec_among (new_uuid sc) allowed s0 (actions sc) with
        | Some s =>
            if decide (main (th s) = Returned) then Some (result (th s), after_session (arriving sc) c s, sh s) else None
        | None => None
        end
    end in
  match ended with
  | None => None
  | Some (Some err, c, x) => Some (Some err, if interactive then session_error c err else conn_close c, x)
  | Some (None, c, x) => Some (None, if interactive then c else conn_close c, x)
  end.

(** [connectToTarget]: its error, the connection, the world and the events; [None] while
    it has not returned. *)
Definition connectToTarget (sc : script) (c : conn) (user : User) (host : str) (termWidth termHeight : Z)
    (interactive : bool) (w : world) : option (option error * conn * world) * list event :=
  let asked := others sc w in
  let '(r, d) := Authorize (ID user) (Role user) host (w_db asked) in
  let w := with_db asked d in
  match r with
  | inl err => (Some (Some err, deny c §"access denied by RBAC policy" interactive, w), [])
  | inr target =>
      match FetchPrivateKey (w_vault w) (w_secrets w) (VaultPath target) (w_mem w) with
      | (inl err, m) => (Some (Some err, deny c §"internal proxy error" interactive, with_mem w m), [])
      | (inr key, m) =>
          let wiped := with_mem w (Zero (Some key) m).2 in
          match FetchHostFingerprint (w_vault w) (w_secrets w) (VaultPath target) with
          | inl err => (Some (Some err, deny c §"internal proxy error" interactive, wiped), [])
          | inr fp =>
              let addr := IP_String (PrivateIP target) ++ §":22" in
              let dialled := EvDial asked addr (SSHUser target) in
              match ssh_dial addr (SSHUser target) (signer key) (StrictHostKeyCallback fp (Server_VaultDevMode srv)) with
              | inl err => (Some (Some err, deny c §"failed to connect to target server" interactive, wiped), [dialled])
              | inr (host_key, calls) =>
                  let c := ackReady c interactive in
                  let '(rw, ld) := NewWriter (new_uuid sc) (ID user) (created sc) (framed sc) (w_dir w) in
                  match rw with
                  | inl err =>
                      (Some (Some err, if interactive then c else conn_close c,
                         with_shared wiped (Shared (w_cm w) (w_db w) (MkWriter [] false) ld)), [dialled])
                  | inr wr =>
                      let begun := [dialled; EvBridge asked host_key (new_uuid sc) (ID user) (ServerID target) (default [] (AllowedCmds target))] in
                      match run_bridge calls sc user target termWidth termHeight interactive
                              (Shared (w_cm w) (w_db w) wr ld) c with
                      | Some (err, c, x) =>
                          let '(_, _, ld) := Finalize (recorder x) (dir x) in
                          (Some (err, c, with_shared wiped (Shared (cm x) (db x) (recorder x) ld)), begun)
                      | None => (None, begun)
                      end
                  end
              end
          end
      end
  end.

(** The console's answer, [None] while it has not returned. *)
Definition returned {A} (r : run_result (option A)) : option A := match r with Finished r => r | _ => None end.

(** The gateway loop; each round that opens a session uses up a script.  [None]: the
    loop has not ended where the scripts do. *)
Fixpoint gateway_rounds (scripts : list script) (c : conn) (user : User) (termWidth termHeight : Z) (w : world)
  : option (conn * world) * list event :=
  match scripts with
  | [] => (None, [])
  | sc :: scripts =>
      let asked := before_menu sc w in
      let '(menu, d) := handleGatewayMenu c (ID user) (Role user) (w_db asked) in
      let w := with_db asked d in
      match menu with
      | Finished (inl _, c) => (Some (conn_close c, w), [])
      | Finished (inr target, c) =>
          if bool_decide (target = §"zttp-admin") then
            match returned (handleAdminConsole (stay sc) c (UserName user) w) with
            | None => (None, [EvAdminConsole (Some asked) (UserName user)])
            | Some (c, w) =>
                let '(r, evs) := gateway_rounds scripts c user termWidth termHeight w in
                (r, EvAdminConsole (Some asked) (UserName user) :: evs)
            end
          else
            match connectToTarget sc c user target termWidth termHeight true w with
            | (None, evs) => (None, evs)
            | (Some (_, c, w), evs) =>
                let '(r, evs') := gateway_rounds scripts c user termWidth termHeight w in (r, evs ++ evs')
            end
      | Panicked | OutOfFuel => (None, [])
      end
  end.

(** [ip, _, _ := net.SplitHostPort(...)]: an address that does not split is counted
    under the empty string. *)
Definition source_ip (remoteAddr : str) : str :=
  match SplitHostPort remoteAddr with Some (ip, _) => ip | None => [] end.

(** [handleConnection]; [now], [now'] are the limiter's clock readings and [t] those of
    the authenticator.  The deferred Close is part of every ending. *)
Definition handleConnection (remoteAddr : str) (now now' : Z) (t : clocks) (scripts : list script) (c : conn) (w : world)
  : option (conn * world) * list event :=
  let '(ok, l) := Allow (limiter w) now now' (source_ip remoteAddr) in
  let w := with_limiter w l in
  if negb ok then (Some (deny c §"rate limit exceeded — back off" false, w), []) else
  if ShouldRejectNewConnections (Server_DiskGuard srv)
  then (Some (deny c §"system under heavy load — connection rejected" false, w), []) else
  match readConnectRequest c with
  | (inl err, c) => (Some (deny c (§"invalid protocol: " ++ error_text err) false, w), [])
  | (inr req, c) =>
      let '(r, d, _) := Authenticate (Auth_cfg srv) t (Username req) (Password req) (w_db w) in
      let w := with_db w d in
      match r with
      | inl _ => (Some (deny c §"authentication failed" false, w), [])
      | inr user =>
          if bool_decide (Target req = §"zttp-admin") then
            if bool_decide (Role user = §"security-admin") then
              (match scripts with
               | [] => None
               | sc :: _ =>
                   (fun r => (conn_close r.1, r.2))
                   <$> returned (handleAdminConsole (stay sc) (ackReady c false) (UserName user) w)
               end, [EvAdminConsole None (UserName user)])
            else (Some (deny c §"access denied by RBAC policy" false, w), [])
          else if bool_decide (Target req = §"zttp-gateway") then
            gateway_rounds scripts (ackReady c false) user (TermWidth req) (TermHeight req) w
          else
            match scripts with
            | [] => (None, [])
            | sc :: _ =>
                match connectToTarget sc c user (Target req) (TermWidth req) (TermHeight req) false w with
                | (None, evs) => (None, evs)
                | (Some (_, c, w), evs) => (Some (conn_close c, w), evs)
                end
            end
      end
  end.
End accept.

(** ** Lemmas *)

Section bridge_database.
Context {PG : Postgres} {UT : UnicodeTables}.

Lemma step_reach sid allowed s a s' : step sid allowed s a = Some s' -> db_reach (db (sh s)) (db (sh s')).
Proof.
  intros H. step_cases H a; try reflexivity; try apply Terminate_reach.
  destruct (stdin_chunk_fields allowed len client_takes s) as (_ & _ & _ & _ & _ & _ & -> & _). reflexivity.
Qed.

(** What others do during a session keeps the database well formed. *)
Definition keeps_db (m : moment) : Prop :=
  match m with Own _ => True | Others f => forall x, db_ok (db x) -> db_ok (db (f x)) end.

Lemma exec_among_ok sid allowed s ms s' :
  Forall keeps_db ms -> db_ok (db (sh s)) -> exec_among sid allowed s ms = Some s' -> db_ok (db (sh s')).
Proof.
  intros Hk. revert s. induction Hk as [|[a|f] ms Hm _ IH]; intros s Hd; cbn [exec_among].
  - by intros [= <-].
  - destruct (step sid allowed s a) as [s1|] eqn:H1; [|done]. apply IH. eapply db_reach_ok; [by eapply step_reach|done].
  - apply IH. by apply Hm.
Qed.

Lemma Bridge_setup_reach ops sid userID serverID ip w h handle now pending x r x' :
  Bridge_setup ops sid userID serverID ip w h handle now pending x = (r, x') ->
  db_reach (db x) (db x') /\ match r with inr s => db (sh s) = db x' | inl _ => True end.
Proof.
  unfold Bridge_setup. pose proof (Register_reach sid userID serverID ip now (db x)) as Hr.
  destruct (must _ _ _); [by intros [= <- <-]|].
  destruct (Register _ _ _ _ _ _) as [[err|] d]; intros [= <- <-]; by split.
Qed.
End bridge_database.

Section accept_lemmas.
Context {PG : Postgres} {V6 : IPv6Text} {UT : UnicodeTables} {JE : JsonErrors} {BC : Bcrypt}
  {TB : TokenBucket} {VS : VaultServer} {SH : SSH} {SD : SshDial} {KG : KeyGen} {PS : PasswordSsh} {UU : UuidText}.
Variable srv : Server.

Lemma run_bridge_ok calls sc user target tw tht i x c err c' x' :
  Forall keeps_db (actions sc) -> db_ok (db x) ->
  run_bridge srv calls sc user target tw tht i x c = Some (err, c', x') -> db_ok (db x').
Proof.
  intros Hk Hd. unfold run_bridge. destruct (Bridge_setup _ _ _ _ _ _ _ _ _ _ _) as [[e|s0] x1] eqn:Hs;
    apply Bridge_setup_reach in Hs as [Hr Hs0]; apply db_reach_ok in Hr; [|done| |done].
  - by intros [= _ _ <-].
  - destruct (exec_among _ _ s0 _) as [s|] eqn:He; [|done]. apply exec_among_ok in He; [|done|by rewrite Hs0].
    case_decide; [|done]. by destruct (result (th s)); intros [= _ _ <-].
Qed.

(** The server, user and commands an event is about were allowed by the policy engine
    on the database it was asked about. *)
Definition granted (user : User) (d : database) (s : server_row) (cmds : option (list str)) : Prop :=
  exists u, u ∈ users d /\ u_id u = ID user /\ s ∈ servers d /\ may_access d u (Role user) s
    /\ scan_string_array (commands_of d (Role user)) = inr cmds.

(** The key the server behind the connection showed is the one Vault expects of it, or
    host keys are not checked. *)
Definition host_key_checked (asked : world) (host_key : pubkey) (s : server_row) : Prop :=
  Server_VaultDevMode srv = true
  \/ FetchHostFingerprint (w_vault asked) (w_secrets asked) (s_vault_secret_path s) = inr (computeFingerprint host_key).

Definition allowed_event (user : User) (e : event) : Prop :=
  match e with
  | EvDial asked addr account =>
      db_ok (w_db asked) /\ exists s cmds, granted user (w_db asked) s cmds
        /\ addr = IP_String (ParseIP (inet_host (s_private_ip s))) ++ §":22" /\ account = s_ssh_user s
  | EvBridge asked host_key sid uid srv allowed =>
      db_ok (w_db asked) /\ exists s cmds, granted user (w_db asked) s cmds /\ host_key_checked asked host_key s
        /\ uid = ID user /\ srv = s_id s /\ allowed = default [] cmds
  | EvAdminConsole None name => name = UserName user /\ Role user = §"security-admin"
  | EvAdminConsole (Some asked) name =>
      let d := w_db asked in
      name = UserName user
      /\ (Role user = §"security-admin"
          \/ db_ok d /\ exists u s, u ∈ users d /\ u_id u = ID user /\ s ∈ servers d
               /\ s_hostname s = §"zttp-admin" /\ may_access d u (u_role u) s)
  end.

Lemma StrictHostKeyCallback_accepts fp skip addr key :
  StrictHostKeyCallback fp skip addr key = None -> skip = true \/ computeFingerprint key = fp.
Proof. unfold StrictHostKeyCallback. destruct skip; [by left|]. case_bool_decide; [by right|done]. Qed.

Lemma connectToTarget_events sc c user host tw tht i w r evs :
  db_ok (w_db (others sc w)) -> Forall keeps_db (actions sc) -> connectToTarget srv sc c user host tw tht i w = (r, evs) ->
  Forall (allowed_event user) evs /\ (forall err c' w', r = Some (err, c', w') -> db_ok (w_db w')).
Proof.
  intros Hd Hacts. unfold connectToTarget. pose proof (Authorize_reach (ID user) (Role user) host (w_db (others sc w))) as Hr.
  destruct (Authorize _ _ _ _) as [[err|target] d] eqn:Ha; cbn [snd] in Hr; pose proof (db_reach_ok _ _ Hr Hd) as Hd1.
  { intros [= <- <-]. split; [constructor|]. by intros ? ? ? [= _ _ <-]. }
  apply Authorize_granted in Ha as (u & s & cmds & Hu & Hid & Hs & Hh & Hm & Hc & ->); [|done].
  assert (granted user (w_db (others sc w)) s cmds) as Hg by (by exists u).
  destruct (FetchPrivateKey _ _ _ _) as [[err|key] m].
  { intros [= <- <-]. split; [constructor|]. by intros ? ? ? [= _ _ <-]. }
  destruct (FetchHostFingerprint _ _ _) as [err|fp] eqn:Hfp.
  { intros [= <- <-]. split; [constructor|]. by intros ? ? ? [= _ _ <-]. }
  set (addr := _ ++ §":22"). set (dialled := EvDial _ _ _).
  assert (allowed_event user dialled) as Hdial by (split; [done|]; by exists s, cmds).
  destruct (ssh_dial _ _ _ _) as [err|[hk calls]] eqn:Hdl.
  { intros [= <- <-]. split; [by apply Forall_singleton|]. by intros ? ? ? [= _ _ <-]. }
  apply ssh_dial_checked, StrictHostKeyCallback_accepts in Hdl as Hk.
  destruct (NewWriter _ _ _ _ _) as [[err|wr] ld].
  { intros [= <- <-]. split; [by apply Forall_singleton|]. by intros ? ? ? [= _ _ <-]. }
  assert (forall sid, allowed_event user (EvBridge (others sc w) hk sid (ID user) (s_id s) (default [] cmds))) as Hb.
  { intros sid. split; [done|]. exists s, cmds. split_and!; try done.
    destruct Hk as [?|Hk]; [by left|right]. by rewrite Hk. }
  destruct (run_bridge _ _ _ _ _ _ _ _ _ _) as [[[err c'] x]|] eqn:Hrun.
  - apply run_bridge_ok in Hrun; [|done..]. destruct (Finalize _ _) as [[? ?] ld'].
    intros [= <- <-]. split; [by apply Forall_cons; split; [|apply Forall_singleton]|].
    by intros ? ? ? [= _ _ <-].
  - intros [= <- <-]. split; [by apply Forall_cons; split; [|apply Forall_singleton]|done].
Qed.

(** Others keep the database well formed. *)
Definition well_behaved (sc : script) : Prop :=
  (forall w, db_ok (w_db w) -> db_ok (w_db (others sc w)) /\ db_ok (w_db (before_menu sc w)))
  /\ (forall n, considerate (rounds (stay sc) n)) /\ Forall keeps_db (actions sc).

Lemma console_ok sc c w name c' w' :
  well_behaved sc -> db_ok (w_db w) ->
  returned (handleAdminConsole (stay sc) c name w) = Some (c', w') -> db_ok (w_db w').
Proof.
  intros (_ & Hsc & _) Hd. destruct (handleAdminConsole_total (stay sc) c name w Hsc Hd) as (r & -> & Hr).
  by intros [= ->].
Qed.

Lemma gateway_rounds_events scripts c user tw tht w r evs :
  db_ok (w_db w) -> Forall well_behaved scripts ->
  gateway_rounds srv scripts c user tw tht w = (r, evs) ->
  Forall (allowed_event user) evs /\ (forall c' w', r = Some (c', w') -> db_ok (w_db w')).
Proof.
  intros Hd Hsc. revert c w r evs Hd. induction Hsc as [|sc scripts Hok _ IH]; intros c w r evs Hd; simpl.
  { by intros [= <- <-]. }
  destruct (proj1 Hok _ Hd) as [_ Hb].
  destruct (handleGatewayMenu_returns c (w_db (before_menu sc w)) (ID user) (Role user) Hb)
    as (res & c1 & d1 & -> & Hreach & Hres).
  pose proof (db_reach_ok _ _ Hreach Hb) as Hd1.
  destruct res as [err|target]; [intros [= <- <-]; split; [constructor|by intros ? ? [= _ <-]]|].
  case_bool_decide as Ht.
  - assert (allowed_event user (EvAdminConsole (Some (before_menu sc w)) (UserName user))) as He.
    { split; [done|]. destruct (Hres target eq_refl) as [[_ ?]|(u & s & ? & ? & ? & ? & ?)]; [by left|right].
      split; [done|]. exists u, s. by subst. }
    destruct (returned _) as [[c2 w2]|] eqn:Hc; [|intros [= <- <-]; split; [by apply Forall_singleton|done]].
    destruct (gateway_rounds _ scripts _ _ _ _ _) as [r1 evs1] eqn:Hg. intros [= <- <-].
    apply IH in Hg as [Hev Hw]; [|eapply (console_ok sc); [exact Hok| |exact Hc]; exact Hd1].
    split; [by apply Forall_cons|exact Hw].
  - destruct (connectToTarget _ _ _ _ _ _ _ _ _) as [[[[err c2] w2]|] evs1] eqn:Hc;
      apply connectToTarget_events in Hc as [Hev Hdb]; try (by apply (proj1 Hok)); try exact (proj2 (proj2 Hok)); [|by intros [= <- <-]].
    destruct (gateway_rounds _ scripts _ _ _ _ _) as [r1 evs2] eqn:Hg. intros [= <- <-].
    apply IH in Hg as [Hev2 Hw]; [|by eapply Hdb]. split; [by apply Forall_app|exact Hw].
Qed.

(** What stands behind the events of a connection: the gates let it in, it sent a
    request, and a user of the request's name, not locked out, whose password it knew. *)
Definition permitted (remoteAddr : str) (now now' : Z) (t : clocks) (c : conn) (w : world) (evs : list event) : Prop :=
  (Allow (limiter w) now now' (source_ip remoteAddr)).1 = true /\ ShouldRejectNewConnections (Server_DiskGuard srv) = false
  /\ exists req c1 u user,
      readConnectRequest c = (inr req, c1)
      /\ u ∈ users (w_db w) /\ u_username u = Username req /\ bcrypt_matches (u_password_hash u) (Password req) = true
      /\ (forall l, u_locked_until u = Some l -> l <= at_check t)
      /\ user = MkUser (u_id u) (Username req) (u_role u)
      /\ Forall (allowed_event user) evs.

Lemma handleConnection_sound remoteAddr now now' t scripts c w r evs :
  db_ok (w_db w) -> Forall well_behaved scripts ->
  handleConnection srv remoteAddr now now' t scripts c w = (r, evs) ->
  (evs <> [] -> permitted remoteAddr now now' t c w evs) /\ (forall c' w', r = Some (c', w') -> db_ok (w_db w')).
Proof.
  intros Hd Hsc. unfold handleConnection, permitted.
  assert (forall c0 w0 (P : Prop), (Some (c0, w0), []) = (r, evs) -> db_ok (w_db w0) ->
    (evs <> [] -> P) /\ (forall c' w', r = Some (c', w') -> db_ok (w_db w'))) as Hnone.
  { intros c0 w0 P [= <- <-] H0. split; [done|]. by intros ? ? [= _ <-]. }
  destruct (Allow (limiter w) now now' (source_ip remoteAddr)) as [[] l]; cbn [negb]; [|intros H; by eapply Hnone].
  destruct (ShouldRejectNewConnections _); [intros H; by eapply Hnone|].
  destruct (readConnectRequest c) as [[err|req] c1]; [intros H; by eapply Hnone|].
  destruct (Authenticate (Auth_cfg srv) t (Username req) (Password req) _) as [[ra d] ev] eqn:Ha.
  pose proof (Authenticate_reach (Auth_cfg srv) t (Username req) (Password req) (w_db w)) as Hreach.
  cbn [with_limiter w_db] in Ha. rewrite Ha in Hreach. cbn [fst snd] in Hreach.
  pose proof (db_reach_ok _ _ Hreach Hd) as Hd1.
  destruct ra as [err|user]; [intros H; by eapply Hnone|].
  apply Authenticate_verified in Ha as (u & Hu & Hn & Hp & Hlk & -> & _). intros Hh.
  enough (Forall (allowed_event (MkUser (u_id u) (Username req) (u_role u))) evs
          /\ (forall c' w', r = Some (c', w') -> db_ok (w_db w'))) as [Hev Hw].
  { split; [|exact Hw]. intros _. split; [done|]. split; [done|].
    by exists req, c1, u, (MkUser (u_id u) (Username req) (u_role u)). }
  revert Hh. case_bool_decide as Hadm; [case_bool_decide as Hrole|case_bool_decide as Hgw].
  - intros [= <- <-]. split; [by apply Forall_singleton|]. intros c' w'. destruct Hsc as [|sc scripts Hok _]; [done|].
    destruct (returned _) as [[c2 w2]|] eqn:Hc; [|done]. intros [= _ <-]. by eapply (console_ok sc); [exact Hok| |exact Hc].
  - intros [= <- <-]. split; [done|]. by intros ? ? [= _ <-].
  - intros Hh. by eapply gateway_rounds_events in Hh.
  - destruct Hsc as [|sc scripts Hok _]; [by intros [= <- <-]|].
    destruct (connectToTarget _ _ _ _ _ _ _ _ _) as [[[[err c2] w2]|] evs1] eqn:Hc;
      apply connectToTarget_events in Hc as [Hev Hdb]; try (by apply (proj1 Hok)); try exact (proj2 (proj2 Hok)); intros [= <- <-].
    + split; [done|]. intros ? ? [= _ <-]. by eapply Hdb.
    + done.
Qed.
End accept_lemmas.

(** ** Properties *)

Section properties.
Context {PG : Postgres} {V6 : IPv6Text} {UT : UnicodeTables} {JE : JsonErrors} {BC : Bcrypt}
  {TB : TokenBucket} {VS : VaultServer} {SH : SSH} {SD : SshDial} {KG : KeyGen} {PS : PasswordSsh} {UU : UuidText}.

(** C2.  Nothing happens without permission.  Whatever a client sends and whatever the
    database, Vault, the servers and the other parties do: if anything at all happens on
    a connection, then the rate limiter and the disk guard let it in, it sent a request,
    and there is a user of the request's name whose password it knew and who was not
    locked out; every connection the proxy opens is to the address and account of a
    server the policy engine allowed that user on the database as it stood, every bridge
    is also to a server whose host key is the one Vault expects (or host keys are not
    checked at all) and carries the role's command list; and the admin console is opened
    for security administrators - or, from the gateway, for anyone in whose reach there
    is a server named "zttp-admin". *)
Theorem connection_authorized (srv : Server)
    (remoteAddr : str) (now now' : Z) (t : clocks) (scripts : list script) (c : conn) (w : world)
    (r : option (conn * world)) (evs : list event)
    (Hd : db_ok (w_db w)) (Hsc : Forall well_behaved scripts)
    (Hh : handleConnection srv remoteAddr now now' t scripts c w = (r, evs))
    (Hne : evs <> []) :
  (Allow (limiter w) now now' (source_ip remoteAddr)).1 = true /\ ShouldRejectNewConnections (Server_DiskGuard srv) = false
  /\ exists req c1 u user,
      readConnectRequest c = (inr req, c1)
      /\ u ∈ users (w_db w) /\ u_username u = Username req /\ bcrypt_matches (u_password_hash u) (Password req) = true
      /\ (forall l, u_locked_until u = Some l -> l <= at_check t)
      /\ user = MkUser (u_id u) (Username req) (u_role u)
      /\ Forall (allowed_event srv user) evs.
Proof. exact (proj1 (handleConnection_sound srv _ _ _ _ _ _ _ _ _ Hd Hsc Hh) Hne). Qed.

(** How a connection is turned away before any session: the status byte, the reason
    with its length, and the close; [read] is what is left of the client's input. *)
Definition turned_away (reason : str) (read : list inev) (c : conn) (out : option (conn * world) * list event) (d : database) : Prop :=
  exists c' w', out = (Some (c', w'), []) /\ inp c' = read /\ is_open c' = false
    /\ written (outp c') = written (outp c) ++ deny_bytes reason /\ w_db w' = d.

Lemma turned_away_deny reason c0 c w d :
  is_open c = true -> budget (outp c) = None -> outp c = outp c0 -> w_db w = d ->
  turned_away reason (inp c) c0 (Some (deny c reason false, w), []) d.
Proof. intros Ho Hb Hc <-. rewrite deny_eq by done. eexists _, _. split; [done|]. by rewrite <- Hc. Qed.

Lemma readConnectRequest_conn c r c1 :
  readConnectRequest c = (r, c1) -> is_open c1 = is_open c /\ outp c1 = outp c.
Proof.
  assert (forall b n c r c1, conn_read_full b n c = (r, c1) -> is_open c1 = is_open c /\ outp c1 = outp c) as Hf.
  { clear. intros b n c r c1. unfold conn_read_full. destruct (n <=? 0); [by intros [= _ <-]|].
    destruct (is_open c) eqn:Ho; cbn [negb]; [|by intros [= _ <-]].
    destruct (read_full b n (inp c)) as [[s e] i]. intros [= _ <-]. by rewrite <- Ho. }
  unfold readConnectRequest. destruct (conn_read_full true 4 c) as [[err|l] c2] eqn:H2; apply Hf in H2 as [Ho2 Hw2].
  { intros [= _ <-]. by rewrite Ho2. }
  destruct (4096 <? from_be l); [intros [= _ <-]; by rewrite Ho2|].
  destruct (conn_read_full true (from_be l) c2) as [[err|data] c3] eqn:H3; apply Hf in H3 as [Ho3 Hw3].
  - intros [= _ <-]. split; congruence.
  - destruct (unmarshal_request data); intros [= _ <-]; split; congruence.
Qed.

(** C9.  The gates, in order.  A client over its rate is told to back off and one that
    comes while the disk is full is told so, both before a byte of theirs is read and
    without touching the database; a request that does not parse gets the parser's
    complaint; a failed authentication gets one and the same answer whatever the reason
    (unknown name, wrong password, locked account, database down); and a client who asks
    for the admin console without the role is refused. *)
Theorem gates (srv : Server)
    (remoteAddr : str) (now now' : Z) (t : clocks) (scripts : list script) (c : conn) (w : world)
    (Ho : is_open c = true) (Hb : budget (outp c) = None) :
  let out := handleConnection srv remoteAddr now now' t scripts c w in
  match (Allow (limiter w) now now' (source_ip remoteAddr)).1, ShouldRejectNewConnections (Server_DiskGuard srv), readConnectRequest c with
  | false, _, _ => turned_away §"rate limit exceeded — back off" (inp c) c out (w_db w)
  | true, true, _ => turned_away §"system under heavy load — connection rejected" (inp c) c out (w_db w)
  | true, false, (inl err, c1) => turned_away (§"invalid protocol: " ++ error_text err) (inp c1) c out (w_db w)
  | true, false, (inr req, c1) =>
      match Authenticate (Auth_cfg srv) t (Username req) (Password req) (w_db w) with
      | (inl _, d, _) => turned_away §"authentication failed" (inp c1) c out d
      | (inr user, d, _) =>
          Target req = §"zttp-admin" -> Role user <> §"security-admin" ->
          turned_away §"access denied by RBAC policy" (inp c1) c out d
      end
  end.
Proof.
  cbn zeta. unfold handleConnection.
  destruct (Allow (limiter w) now now' (source_ip remoteAddr)) as [[] l]; cbn [negb fst];
    [|by apply turned_away_deny].
  destruct (ShouldRejectNewConnections (Server_DiskGuard srv)); [by apply turned_away_deny|].
  destruct (readConnectRequest c) as [r c1] eqn:Hr. apply readConnectRequest_conn in Hr as [Hop Hout].
  rewrite Ho in Hop. rewrite <- Hout in Hb. destruct r as [err|req]; [by apply turned_away_deny|].
  cbn [with_limiter w_db]. destruct (Authenticate _ _ _ _ _) as [[[err|user] d] ev].
  - by apply turned_away_deny.
  - intros -> Hrole. rewrite bool_decide_true, bool_decide_false by done. by apply turned_away_deny.
Qed.
End properties.

(** ** Witnesses *)

(** Every server shows the key "K"; the one of the production database is pinned. *)
Definition demo_dial : SshDial (H := demo_ssh).
Proof.
  refine {| ssh_dial addr account key cb := match cb addr (§"K" : pubkey (SSH := demo_ssh)) with
                                            | None => inr (§"K" : pubkey (SSH := demo_ssh), calls_ok) | Some err => inl err end |}.
  intros addr account key cb hk calls. destruct (cb addr _) eqn:E; [done|]. by intros [= <- _].
Defined.

Definition demo_script : script (H := exact) (H0 := demo_vault) :=
  @Script exact demo_vault (fun w => w) (fun w => w) §"sess" 5 6 7 3 0 (map Own (ShellExits :: end_steps)) demo_visit.

Lemma demo_script_well_behaved : well_behaved (TB := exact) (VS := demo_vault) demo_script.
Proof.
  split; [intros w Hw; split; exact Hw|]. split; [intros n w Hw; exact Hw|].
  apply Forall_forall. intros m Hm. change (actions demo_script) with (map Own (ShellExits :: end_steps)) in Hm.
  apply list_elem_of_fmap in Hm as (a & -> & _). exact I.
Qed.

Definition demo_server : Server := MkServer demo_config (NewDiskGuard 95) §"127.0.0.1" false.

Definition demo_handle (req : ConnectRequest) (keys : str) (d : database) :=
  handleConnection (PG := demo_postgres) (V6 := no_ipv6) (UT := ascii_tables) (JE := demo_json_errors) (BC := demo_bcrypt)
    (TB := exact) (VS := demo_vault) (SH := demo_ssh) (SD := demo_dial) (KG := demo_keygen) (PS := demo_password_ssh) (UU := demo_uuid)
    demo_server §"203.0.113.7:50123" 0 0 (demo_clocks 1) [demo_script]
    (client (written (SendConnectRequest new_sink req).2 ++ keys)) (demo_world d).

Definition demo_direct : ConnectRequest := Request §"jdoe" §"1" §"prod-db-01" 80 24.

Lemma connection_authorized_witness :
  length (demo_handle demo_direct [] demo_db).2 = 2%nat
  /\ exists user, UserName user = §"jdoe"
     /\ Forall (allowed_event (PG := demo_postgres) (V6 := no_ipv6) (TB := exact) (VS := demo_vault) (SH := demo_ssh) demo_server user)
          (demo_handle demo_direct [] demo_db).2.
Proof.
  split; [vm_compute; reflexivity|].
  destruct (connection_authorized (PG := demo_postgres) (V6 := no_ipv6) (UT := ascii_tables) (JE := demo_json_errors)
    (BC := demo_bcrypt) (TB := exact) (VS := demo_vault) (SH := demo_ssh) (SD := demo_dial) (KG := demo_keygen) (PS := demo_password_ssh) (UU := demo_uuid)
    demo_server
    §"203.0.113.7:50123" 0 0 (demo_clocks 1) [demo_script]
    (client (written (SendConnectRequest new_sink demo_direct).2 ++ [])) (demo_world demo_db)
    (demo_handle demo_direct [] demo_db).1 (demo_handle demo_direct [] demo_db).2)
    as (_ & _ & req & c1 & u & user & Hreq & _ & _ & _ & _ & Huser & He).
  - exact demo_db_ok.
  - constructor; [exact demo_script_well_behaved|constructor].
  - apply surjective_pairing.
  - intros E. apply (f_equal length) in E. vm_compute in E. discriminate E.
  - exists user. split; [|exact He]. rewrite Huser. vm_compute in Hreq. injection Hreq as <- _. reflexivity.
Defined.

Lemma gates_witness :
  turned_away §"authentication failed" [] (client (written (SendConnectRequest new_sink (Request §"jdoe" §"2" [] 0 0)).2 ++ []))
    (demo_handle (Request §"jdoe" §"2" [] 0 0) [] demo_db)
    (Authenticate (PG := demo_postgres) (BC := demo_bcrypt) demo_config (demo_clocks 1) §"jdoe" §"2" demo_db).1.2.
Proof.
  pose proof (gates (PG := demo_postgres) (V6 := no_ipv6) (UT := ascii_tables) (JE := demo_json_errors)
    (BC := demo_bcrypt) (TB := exact) (VS := demo_vault) (SH := demo_ssh) (SD := demo_dial) (KG := demo_keygen) (PS := demo_password_ssh) (UU := demo_uuid)
    demo_server §"203.0.113.7:50123" 0 0 (demo_clocks 1) [demo_script]
    (client (written (SendConnectRequest new_sink (Request §"jdoe" §"2" [] 0 0)).2 ++ [])) (demo_world demo_db)
    eq_refl eq_refl) as H.
  vm_compute in H |- *. exact H.
Defined.

(** A development engineer with a grant for a server that happens to be called
    "zttp-admin" picks it in the gateway and gets the admin console. *)
Definition named_db : database :=
  DB (users demo_db)
     (servers demo_db ++ [ServerRow §"s-x" §"zttp-admin" (Inet §"10.0.1.12" 32) §"secret/data/ssh/x" §"root" §"lab"])
     (policies demo_db) (grants demo_db ++ [GrantRow §"u-bob" §"s-x"]) [] [] 0.

Example console_by_server_name :
  exists keys, match (demo_handle (Request §"bob" §"2" §"zttp-gateway" 80 24) keys named_db).2 with
    | [EvAdminConsole (Some w) name] =>
        name = §"bob" /\ map u_role (filter (fun u => u_username u = §"bob") (users (w_db w))) = [§"backend-dev"]
    | _ => False
    end.
Proof.
  exists (ESC ++ §"[B" ++ ESC ++ §"[B" ++ LF). vm_compute. split; reflexivity.
Qed.
