(* ===== verification/Main.v ===== *)
(** * The proxy as a program: [cmd/proxy/main.go], with [internal/db/db.go],
    [internal/proxy/listener.go], [internal/health/health.go] and [AcceptLoop]

    Start-up from the configuration to the listener, what goes on at the top level
    afterwards - connections, timers, the kill-switch RPC, HTTP requests - and what
    holds of a proxy from its start whatever happens. *)

From S2P Require Import Prelude GoStr GoTime Json Net Io Tls Config Db Rbac Wire Auth RateLimit Vault Session Killswitch AuditLog World AdminOps AdminConsole AdminProps Bridge Accept.
From stdpp Require Import options.
Open Scope Z_scope.

(** ** The connection pool *)

(** The settings of a [sql.DB]; [maxIdleCount] is 0 for the default of 2 and negative
    for none. *)
Record pool := Pool { maxOpen : Z; maxIdleCount : Z; maxLifetime : Z; maxIdleTime : Z }.

Definition new_pool : pool := Pool 0 0 0 0.

Definition idle_limit (p : pool) : Z := if maxIdleCount p =? 0 then 2 else Z.max 0 (maxIdleCount p).

Definition set_idle (n : Z) (p : pool) : pool := Pool (maxOpen p) n (maxLifetime p) (maxIdleTime p).

Definition SetMaxIdleConns (n : Z) (p : pool) : pool :=
  let p := set_idle (if 0 <? n then n else -1) p in
  if (0 <? maxOpen p) && (maxOpen p <? idle_limit p) then set_idle (maxOpen p) p else p.

Definition SetMaxOpenConns (n : Z) (p : pool) : pool :=
  let p := Pool (Z.max 0 n) (maxIdleCount p) (maxLifetime p) (maxIdleTime p) in
  if (0 <? maxOpen p) && (maxOpen p <? idle_limit p) then SetMaxIdleConns n p else p.

Definition SetConnMaxLifetime (d : Z) (p : pool) : pool := Pool (maxOpen p) (maxIdleCount p) (Z.max 0 d) (maxIdleTime p).
Definition SetConnMaxIdleTime (d : Z) (p : pool) : pool := Pool (maxOpen p) (maxIdleCount p) (maxLifetime p) (Z.max 0 d).

(** A statement with no effect. *)
Definition Ping (d : database) : res () * database := run (fun d => (inr tt, d)) d.

(** [db.Connect]; [open_error] is what the driver says of the data source name. *)
Definition Connect (cfg : Config) (open_error : option error) (d : database) : res pool * database :=
  match open_error with
  | Some err => (inl (ErrWrap §"open postgres connection" err), d)
  | None =>
      let db := SetMaxOpenConns (DBMaxOpenConns cfg) new_pool in
      let db := SetMaxIdleConns (DBMaxIdleConns cfg) db in
      let db := SetConnMaxLifetime (30 * Minute) db in
      let db := SetConnMaxIdleTime (5 * Minute) db in
      match Ping d with
      | (inl err, d) =>
          (inl (ErrText (§"ping postgres: " ++ error_text err ++ LF ++ §"  Is Postgres running? Try: docker compose up -d postgres")), d)
      | (inr _, d) => (inr db, d)
      end
  end.

(** ** Listeners and the health probe *)

(** What the machine answers at start-up: the [.env] file and the environment; opening
    the data source, building the Vault API client, making the audit directory; the TLS
    key pair; and listening on an address, for the proxy, and for the kill switch, whose
    [Serve] may also fail. *)
Record machine := Machine {
  dotenv : env;
  environ : env;
  open_error : option error;
  api_error : option error;
  mkdir_error : option error;
  key_pair : str -> str -> option error;
  listening : str -> option error;
  serving : option error;
}.

(** A listener: its address, the files of its certificate and its settings. *)
Record listener := Listener { ln_addr : str; ln_cert : str * str; ln_config : tls_config }.

Definition NewTLSListener (addr certFile keyFile : str) (m : machine) : res listener :=
  match key_pair m certFile keyFile with
  | Some err => inl (ErrWrap §"load tls cert" err)
  | None =>
      match listening m addr with
      | Some err => inl (ErrWrap (§"tls listen on " ++ addr) err)
      | None => inr (Listener addr (certFile, keyFile) listener_config)
      end
  end.

(** It fails before it serves, or serves, and then returns when [Serve] does. *)
Definition StartGRPCServer (addr certFile keyFile : str) (m : machine) : res (option error) :=
  match key_pair m certFile keyFile with
  | Some err => inl (ErrWrap §"grpc tls" err)
  | None =>
      match listening m addr with
      | Some err => inl (ErrWrap §"grpc listen" err)
      | None => inr (serving m)
      end
  end.

(** The error it returns in the end, if it does. *)
Definition rpc_error (r : res (option error)) : option error :=
  match r with inl err => Some err | inr e => e end.

(** [time.Since(start).Round(time.Second).String()], for a duration of at least 0. *)
Definition round_seconds (d : Z) : Z :=
  let r := d mod Second in (if r + r <? Second then d - r else d + (Second - r)) / Second.

Definition seconds_text (s : Z) : str :=
  (if 3600 <=? s then itoa (s / 3600) ++ §"h" else [])
  ++ (if 60 <=? s then itoa (s / 60 mod 60) ++ §"m" else []) ++ itoa (s mod 60) ++ §"s".

(** [health.Handler]. *)
Definition Handler (startTime now now' : Z) (d : database) : http_response * database :=
  let uptime := seconds_text (round_seconds (now' - startTime)) in
  let status st dbst := json_object [(§"status", VStr st); (§"database", VStr dbst);
                                     (§"timestamp", VStr (format_rfc3339 now)); (§"uptime", VStr uptime)] ++ LF in
  match Ping d with
  | (inl _, d) => (Http 503 (status §"degraded" §"unreachable"), d)
  | (inr _, d) => (Http 200 (status §"ok" §"ok"), d)
  end.

Definition ReadyHandler : http_response := Http 200 §"ready".

(** ** The program *)

Section main.
Context {PG : Postgres} {V6 : IPv6Text} {UT : UnicodeTables} {JE : JsonErrors} {BC : Bcrypt} {VI : Viper}
  {TB : TokenBucket} {VS : VaultServer} {SH : SSH} {SD : SshDial} {KG : KeyGen} {PS : PasswordSsh} {UU : UuidText} {GR : Grpc}.

(** A proxy that is up: the server, its pool, its listener, the world, the warning of the
    clean-up, if it failed, what [StartGRPCServer] comes to in its goroutine, and with what
    the process has ended since. *)
Record proxy := Proxy {
  p_server : Server;
  p_pool : pool;
  p_listener : listener;
  p_world : world;
  p_warning : option error;
  p_killswitch : res (option error);
  p_exit : option (str * error);
}.

Inductive launch := Fatal (msg : str) (err : error) | Up (p : proxy).

Definition static_token (cfg : Config) : bool := VaultDevMode cfg || negb (bool_decide (VaultToken cfg = [])).

(** [main] up to the accept loop.  The kill-switch server runs in a goroutine of its own:
    its failure does not keep the proxy from coming up, and ends the process when it comes
    ([KillSwitchFails] below). *)
Definition main (m : machine) (v : vstate) (d : database) (logs : logdir) : launch * database :=
  match Load (dotenv m) (environ m) with
  | inl err => (Fatal §"Configuration load failed" err, d)
  | inr cfg =>
      match Connect cfg (open_error m) d with
      | (inl err, d) => (Fatal §"PostgreSQL connection failed" err, d)
      | (inr p, d) =>
          match Vault.New cfg (api_error m) v with
          | inl err => (Fatal §"Vault client initialization failed" err, d)
          | inr vaultClient =>
              match mkdir_error m with
              | Some err => (Fatal §"Failed to create audit log directory" err, d)
              | None =>
                  let diskGuard := NewDiskGuard (AuditDiskMaxPct cfg) in
                  let '(warning, d) := CleanupOrphanedSessions (ProxyNodeIP cfg) d in
                  let ks := StartGRPCServer (GRPCListenAddr cfg) (TLSCertFile cfg) (TLSKeyFile cfg) m in
                  match NewTLSListener (ProxyListenAddr cfg) (TLSCertFile cfg) (TLSKeyFile cfg) m with
                  | inl err => (Fatal §"Failed to start proxy listener" err, d)
                  | inr ln =>
                      (Up (Proxy
                         (MkServer cfg diskGuard (ProxyNodeIP cfg) (static_token cfg)) p ln
                         (World (RateLimit.New (RateLimitPerMin cfg)) d vaultClient v NewConnectionManager logs [] []) warning ks None), d)
                  end
              end
          end
      end
  end.

(** The routes of the HTTP server, and their handlers: the kill switch is called with the
    proxy's own certificate as its CA.  Other requests are refused by net/http. *)
Inductive http_request := GetHealthz | GetReadyz | PostTerminate (id : str).

Definition serve_http (cfg : Config) (startTime now now' : Z) (r : http_request) (d : database) : http_response * database :=
  match r with
  | GetHealthz => Handler startTime now now' d
  | GetReadyz => (ReadyHandler, d)
  | PostTerminate id => killSwitchHandler (TLSCertFile cfg) id d
  end.

(** What happens at the top level of a running proxy: a tick of the renewal of Vault's
    token, of the disk guard, of the limiter's clean-up; a kill over RPC; an HTTP request;
    a connection, with what [handleConnection] takes, or a failed accept; the kill-switch
    server's goroutine failing, which ends the process; and what goes on elsewhere - other
    nodes, and connections that have not ended. *)
Inductive happening :=
  | Renewal
  | DiskChecked (r : res statfs)
  | Swept (now : Z)
  | KillCall (sessionId : str) (start stop : Z)
  | Requested (r : http_request) (startTime now now' : Z)
  | AcceptFailed
  | Accepted (remoteAddr : str) (now now' : Z) (t : clocks) (scripts : list script) (c : conn)
  | KillSwitchFails
  | Elsewhere (f : world -> world).

Definition with_server (p : proxy) (s : Server) : proxy :=
  Proxy s (p_pool p) (p_listener p) (p_world p) (p_warning p) (p_killswitch p) (p_exit p).
Definition with_world (p : proxy) (w : world) : proxy :=
  Proxy (p_server p) (p_pool p) (p_listener p) w (p_warning p) (p_killswitch p) (p_exit p).
Definition exit_with (p : proxy) (msg : str) (err : error) : proxy :=
  Proxy (p_server p) (p_pool p) (p_listener p) (p_world p) (p_warning p) (p_killswitch p) (Some (msg, err)).

Definition checked (s : Server) (r : res statfs) : Server :=
  MkServer (Auth_cfg s) (monitor_tick (Server_DiskGuard s) r) (Server_ProxyNodeIP s) (Server_VaultDevMode s).

(** [None]: not possible; there is no renewal of a static token, no RPC where the server
    for it never came up, and nothing once the process has ended. *)
Definition happen (p : proxy) (h : happening) : option (proxy * list event) :=
  let w := p_world p in
  if bool_decide (is_Some (p_exit p)) then None else
  match h with
  | Renewal =>
      if Server_VaultDevMode (p_server p) then None else Some (with_world p (with_vault w (renew (w_vault w) (w_secrets w))), [])
  | DiskChecked r => Some (with_server p (checked (p_server p) r), [])
  | Swept now => Some (with_world p (with_limiter w (Cleanup (limiter w) now)), [])
  | KillCall sid start stop =>
      match p_killswitch p with
      | inl _ => None
      | inr _ =>
          let '(_, acts, cm, d) := TerminateSession sid start stop (w_cm w) (w_db w) in
          Some (with_world p (add_kills (with_cm (with_db w d) cm) acts), [])
      end
  | Requested r startTime now now' =>
      Some (with_world p (with_db w (serve_http (Auth_cfg (p_server p)) startTime now now' r (w_db w)).2), [])
  | AcceptFailed => Some (p, [])
  | Accepted remoteAddr now now' t scripts c =>
      let '(r, evs) := handleConnection (p_server p) remoteAddr now now' t scripts c w in
      Some (with_world p (match r with Some (_, w) => w | None => w end), evs)
  | KillSwitchFails =>
      match rpc_error (p_killswitch p) with
      | Some err => Some (exit_with p §"Failed to start gRPC Kill Switch server" err, [])
      | None => None
      end
  | Elsewhere f => Some (with_world p (f w), [])
  end.

(** A history: before each happening the proxy as it was, and the events it had. *)
Fixpoint history (p : proxy) (hs : list happening) : option (list (proxy * happening * list event) * proxy) :=
  match hs with
  | [] => Some ([], p)
  | h :: hs =>
      '(p', evs) ← happen p h;
      '(past, q) ← history p' hs;
      Some ((p, h, evs) :: past, q)
  end.
End main.

(** ** Lemmas *)

Section main_lemmas.
Context {PG : Postgres} {V6 : IPv6Text} {UT : UnicodeTables} {JE : JsonErrors} {BC : Bcrypt} {VI : Viper}
  {TB : TokenBucket} {VS : VaultServer} {SH : SSH} {SD : SshDial} {KG : KeyGen} {PS : PasswordSsh} {UU : UuidText} {GR : Grpc}.

Lemma pool_bounded n i : 1 <= n ->
  let p := SetMaxIdleConns i (SetMaxOpenConns n new_pool) in maxOpen p = n /\ 0 <= idle_limit p <= n.
Proof.
  intros Hn. cbn zeta. unfold SetMaxOpenConns, SetMaxIdleConns, set_idle, idle_limit, new_pool. cbn.
  split; repeat case_match; cbn in *; lia.
Qed.

Lemma Ping_reach d : db_reach d (Ping d).2.
Proof. apply (run_read_reach (fun _ => inr tt)). Qed.

Lemma Connect_reach cfg e d : db_reach d (Connect cfg e d).2.
Proof.
  unfold Connect. destruct e; [done|]. pose proof (Ping_reach d) as H. by destruct (Ping d) as [[|] d1].
Qed.

Lemma CleanupOrphanedSessions_reach ip d : db_reach d (CleanupOrphanedSessions ip d).2.
Proof.
  unfold CleanupOrphanedSessions.
  pose proof (run_reach (terminate_orphans ip) d ltac:(intros; constructor)) as H. by destruct (run _ d) as [[|] d1].
Qed.

Lemma Handler_reach t0 t1 t2 d : db_reach d (Handler t0 t1 t2 d).2.
Proof. unfold Handler. pose proof (Ping_reach d) as H. by destruct (Ping d) as [[|] d1]. Qed.

Lemma serve_http_reach cfg t0 t1 t2 r d : db_reach d (serve_http cfg t0 t1 t2 r d).2.
Proof.
  destruct r; [apply Handler_reach|done|]. unfold serve_http, killSwitchHandler. case_bool_decide; [done|].
  pose proof (run_read_reach (node_query id) d) as Hr. destruct (run _ d) as [[err|ip] d1]; cbn [snd] in Hr.
  - by destruct (decide _).
  - by destruct (ks_TerminateSession _ _ _ _).
Qed.

Lemma TerminateSession_reach sid start stop cm d : db_reach d (TerminateSession sid start stop cm d).2.
Proof.
  unfold TerminateSession. destruct (uuid_parse sid) as [u|]; [|done].
  destruct (TerminateHandle u start stop cm) as [[[|] ?] ?]; [done|].
  pose proof (Terminate_reach u StatusTerminatedKill d) as H. by destruct (Terminate _ _ _).
Qed.

Lemma Load_valid file vars cfg : Load file vars = inr cfg -> validate cfg = None.
Proof. unfold Load. destruct (unmarshal_config _ _); [|done]. destruct (validate c) eqn:E; [done|]. by intros [= <-]. Qed.

Lemma Connect_pool cfg e d p d' :
  Connect cfg e d = (inr p, d') -> 1 <= DBMaxOpenConns cfg ->
  e = None /\ Ping d = (inr tt, d') /\ maxOpen p = DBMaxOpenConns cfg /\ 0 <= idle_limit p <= maxOpen p.
Proof.
  unfold Connect. destruct e; [done|]. destruct (Ping d) as [[err|[]] d1]; [done|].
  intros [= <- <-] Hn. destruct (pool_bounded (DBMaxOpenConns cfg) (DBMaxIdleConns cfg) Hn) as [Ho Hi].
  split; [done|]. split; [done|]. split; [exact Ho|].
  change (0 <= idle_limit (SetMaxIdleConns (DBMaxIdleConns cfg) (SetMaxOpenConns (DBMaxOpenConns cfg) new_pool))
          <= maxOpen (SetMaxIdleConns (DBMaxIdleConns cfg) (SetMaxOpenConns (DBMaxOpenConns cfg) new_pool))).
  rewrite Ho. exact Hi.
Qed.

Lemma New_token_of cfg e v vc :
  Vault.New cfg e v = inr vc ->
  Vault.cfg vc = cfg
  /\ if static_token cfg then token vc = VaultToken cfg
     else approle_login v (VaultRoleID cfg) (VaultSecretID cfg) = inr (Some (token vc)).
Proof.
  unfold Vault.New, static_token. destruct e; [done|]. destruct (_ || _); [by intros [= <-]|].
  destruct (_ || _); [done|]. unfold loginAppRole. cbn [Vault.cfg].
  destruct (approle_login _ _ _) as [|[t|]]; [done| |done]. by intros [= <-].
Qed.

Lemma cleanup_leaves_none ip d d' :
  CleanupOrphanedSessions ip d = (None, d') ->
  exists i, inet_in ip = Some i /\ Forall (fun a => active_on i a = false) (active_sessions d').
Proof.
  unfold CleanupOrphanedSessions. destruct (run (terminate_orphans ip) d) as [[err|n] d1] eqn:Hr; [done|]. intros [= <-].
  assert (exists d0, terminate_orphans ip d0 = (inr n, d1)) as [d0 H].
  { unfold run in Hr. destruct (outcomes d) as [|[| | |] os]; try done; by eexists. }
  unfold terminate_orphans in H. destruct (inet_in ip) as [i|]; [|done]. exists i. split; [done|].
  injection H as _ <-. cbn. apply Forall_map, Forall_forall. intros a _.
  destruct (orphaned i a) eqn:E; [done|]. unfold active_on. rewrite andb_comm. exact E.
Qed.

(** The inner steps of a start-up that succeeded. *)
Lemma main_up m v d logs p d' :
  main m v d logs = (Up p, d') ->
  exists cfg d1 vc,
    Load (dotenv m) (environ m) = inr cfg
    /\ Connect cfg (open_error m) d = (inr (p_pool p), d1)
    /\ Vault.New cfg (api_error m) v = inr vc
    /\ CleanupOrphanedSessions (ProxyNodeIP cfg) d1 = (p_warning p, d')
    /\ p_server p = MkServer cfg (NewDiskGuard (AuditDiskMaxPct cfg)) (ProxyNodeIP cfg) (static_token cfg)
    /\ p_world p = World (RateLimit.New (RateLimitPerMin cfg)) d' vc v NewConnectionManager logs [] []
    /\ mkdir_error m = None
    /\ NewTLSListener (ProxyListenAddr cfg) (TLSCertFile cfg) (TLSKeyFile cfg) m = inr (p_listener p)
    /\ p_killswitch p = StartGRPCServer (GRPCListenAddr cfg) (TLSCertFile cfg) (TLSKeyFile cfg) m
    /\ p_exit p = None.
Proof.
  unfold main. destruct (Load _ _) as [|cfg]; [done|]. destruct (Connect _ _ _) as [[|pl] d1] eqn:Hc; [done|].
  destruct (Vault.New _ _ _) as [|vc] eqn:Hv; [done|]. destruct (mkdir_error m); [done|].
  destruct (CleanupOrphanedSessions _ _) as [w d2] eqn:Ho. destruct (NewTLSListener _ _ _ _) as [|ln] eqn:Hl; [done|].
  intros [= <- <-]. exists cfg, d1, vc. by split_and!.
Qed.

(** Whether the goroutine of the kill switch can end the process. *)
Lemma kill_switch_fails p m cfg :
  key_pair m (TLSCertFile cfg) (TLSKeyFile cfg) = None ->
  p_killswitch p = StartGRPCServer (GRPCListenAddr cfg) (TLSCertFile cfg) (TLSKeyFile cfg) m -> p_exit p = None ->
  if bool_decide (listening m (GRPCListenAddr cfg) = None /\ serving m = None)
  then happen p KillSwitchFails = None
  else exists q, happen p KillSwitchFails = Some (q, []) /\ forall h, happen q h = None.
Proof.
  intros Hk Hg Hx. unfold happen at 1 2. rewrite Hg, Hx. unfold StartGRPCServer. rewrite Hk.
  destruct (listening m _) as [e|], (serving m) as [e'|]; cbn; try done; by eexists.
Qed.

(** What a happening may be: what goes on elsewhere keeps the database well formed. *)
Definition fair (h : happening) : Prop :=
  match h with
  | Accepted _ _ _ _ scripts _ => Forall well_behaved scripts
  | Elsewhere f => forall w, db_ok (w_db w) -> db_ok (w_db (f w))
  | _ => True
  end.

(** The settings of a server that stay what they were at start-up. *)
Definition settings (s : Server) : Config * str * bool := (Auth_cfg s, Server_ProxyNodeIP s, Server_VaultDevMode s).

(** What a moment of a history guarantees. *)
Definition sound_moment (q : proxy) (h : happening) (evs : list event) : Prop :=
  match h with
  | Accepted addr now now' t _ c => evs <> [] -> permitted (p_server q) addr now now' t c (p_world q) evs
  | _ => evs = []
  end.

Lemma happen_sound p h p' evs :
  db_ok (w_db (p_world p)) -> fair h -> happen p h = Some (p', evs) ->
  sound_moment p h evs /\ db_ok (w_db (p_world p')) /\ settings (p_server p') = settings (p_server p).
Proof.
  intros Hd Hf. unfold happen. case_bool_decide; [done|]. destruct h.
  - destruct (Server_VaultDevMode _) eqn:Hv; [done|]. by intros [= <- <-].
  - by intros [= <- <-].
  - by intros [= <- <-].
  - pose proof (TerminateSession_reach sessionId start stop (w_cm (p_world p)) (w_db (p_world p))) as Hr.
    destruct (p_killswitch p); [done|]. destruct (TerminateSession _ _ _ _ _) as [[[r acts] cm] d]. intros [= <- <-]. split_and!; [done| |done].
    by eapply db_reach_ok.
  - intros [= <- <-]. split_and!; [done| |done]. eapply db_reach_ok; [apply serve_http_reach|done].
  - by intros [= <- <-].
  - destruct (handleConnection _ _ _ _ _ _ _ _) as [r evs0] eqn:Hh. intros [= <- <-].
    destruct (handleConnection_sound _ _ _ _ _ _ _ _ _ _ Hd Hf Hh) as [Hp Hw].
    split_and!; [exact Hp| |done]. cbn. destruct r as [[c' w']|]; [by eapply Hw|done].
  - destruct (rpc_error _); [|done]. by intros [= <- <-].
  - intros [= <- <-]. split_and!; [done| |done]. by apply Hf.
Qed.

Lemma history_sound p hs past q :
  db_ok (w_db (p_world p)) -> Forall fair hs -> history p hs = Some (past, q) ->
  Forall (fun m : proxy * happening * list event =>
            sound_moment m.1.1 m.1.2 m.2 /\ settings (p_server m.1.1) = settings (p_server p)) past
  /\ db_ok (w_db (p_world q)) /\ settings (p_server q) = settings (p_server p).
Proof.
  intros Hd Hf. revert p past Hd. induction Hf as [|h hs Hh _ IH]; intros p past Hd; cbn [history].
  { intros [= <- <-]. by split_and!. }
  destruct (happen p h) as [[p' evs]|] eqn:Hs; [|done]. cbn.
  destruct (happen_sound _ _ _ _ Hd Hh Hs) as (Hm & Hd' & Hset).
  destruct (history p' hs) as [[past' q']|] eqn:Hhist; [|done]. cbn. intros [= <- <-].
  destruct (IH p' past' Hd' Hhist) as (Hall & Hq & Hqs). rewrite Hset in Hqs, Hall.
  split_and!; [|done|done]. by constructor.
Qed.
End main_lemmas.

(** ** Properties *)

Section properties.
Context {PG : Postgres} {V6 : IPv6Text} {UT : UnicodeTables} {JE : JsonErrors} {BC : Bcrypt} {VI : Viper}
  {TB : TokenBucket} {VS : VaultServer} {SH : SSH} {SD : SshDial} {KG : KeyGen} {PS : PasswordSsh} {UU : UuidText} {GR : Grpc}.

(** Everything [main] waits for answers. *)
Definition all_answer (m : machine) (v : vstate) (d : database) : Prop :=
  exists cfg vc d1,
    Load (dotenv m) (environ m) = inr cfg /\ open_error m = None /\ Ping d = (inr tt, d1)
    /\ Vault.New cfg (api_error m) v = inr vc /\ mkdir_error m = None
    /\ key_pair m (TLSCertFile cfg) (TLSKeyFile cfg) = None
    /\ listening m (ProxyListenAddr cfg) = None.

(** C35.  Start-up.  The proxy comes up exactly if its configuration is valid and the
    database, Vault, the audit directory, the key pair and its listener answer, and stays
    up unless the kill switch's listener or server fails, which ends the process; a
    clean-up that fails is only a warning.  When it is up, the pool has 1 to 200
    connections and no more idle ones than open ones, the listener is on the configured
    address and completes no handshake but one of TLS 1.3, accounts lock after at least one
    failure, host keys are checked unless a static Vault token or dev mode is set - then
    the token is the static one, and else the one AppRole gave - the disk guard lets
    connections in, no session is registered, and unless there was the warning no session
    of this node is active in the database. *)
Theorem start_up (m : machine) (v : vstate) (d : database) (logs : logdir) :
  match main m v d logs with
  | (Fatal _ _, _) => ~ all_answer m v d
  | (Up p, d') =>
      let cfg := Auth_cfg (p_server p) in
      all_answer m v d /\ Load (dotenv m) (environ m) = inr cfg /\ 1 <= MaxFailedAttempts cfg
      /\ 1 <= maxOpen (p_pool p) <= 200 /\ 0 <= idle_limit (p_pool p) <= maxOpen (p_pool p)
      /\ ln_addr (p_listener p) = ProxyListenAddr cfg
      /\ (forall offered version, mutual_version (ln_config (p_listener p)) offered = Some version
            <-> version = VersionTLS13 /\ VersionTLS13 ∈ offered)
      /\ Server_VaultDevMode (p_server p) = static_token cfg
      /\ (if static_token cfg then token (w_vault (p_world p)) = VaultToken cfg
          else approle_login v (VaultRoleID cfg) (VaultSecretID cfg) = inr (Some (token (w_vault (p_world p)))))
      /\ ShouldRejectNewConnections (Server_DiskGuard (p_server p)) = false
      /\ sessions (w_cm (p_world p)) = ∅ /\ w_db (p_world p) = d'
      /\ (if bool_decide (listening m (GRPCListenAddr cfg) = None /\ serving m = None)
          then happen p KillSwitchFails = None
          else exists q, happen p KillSwitchFails = Some (q, []) /\ forall h, happen q h = None)
      /\ (p_warning p = None -> exists i, inet_in (ProxyNodeIP cfg) = Some i
            /\ Forall (fun a => active_on i a = false) (active_sessions d'))
  end.
Proof.
  destruct (main m v d logs) as [[msg err|p] d'] eqn:Hm.
  - intros (cfg & vc & d1 & Hl & Ho & Hp & Hv & Hk & Hc & Hn). revert Hm. unfold main, Connect.
    rewrite Hl, Ho, Hp, Hv, Hk. destruct (CleanupOrphanedSessions _ _) as [w d2].
    unfold NewTLSListener. by rewrite Hc, Hn.
  - apply main_up in Hm as (cfg & d1 & vc & Hl & Hc & Hv & Ho & Hsrv & Hw & Hk & Hn & Hg & Hx). cbn zeta.
    rewrite Hsrv, Hw. cbn. destruct (validate_None cfg (Load_valid _ _ _ Hl)) as (_ & _ & Hmax & Hopen).
    destruct (Connect_pool _ _ _ _ _ Hc) as (Hop & Hping & Hpool & Hidle); [lia|].
    destruct (New_token_of _ _ _ _ Hv) as [Hcfg Htok].
    assert (p_listener p = Listener (ProxyListenAddr cfg) (TLSCertFile cfg, TLSKeyFile cfg) listener_config) as ->.
    { revert Hn. unfold NewTLSListener. destruct (key_pair m _ _); [done|]. destruct (listening m _); [done|]. by intros [= <-]. }
    assert (key_pair m (TLSCertFile cfg) (TLSKeyFile cfg) = None /\ listening m (ProxyListenAddr cfg) = None) as [Hkey Hlst].
    { revert Hn. unfold NewTLSListener. destruct (key_pair m _ _); [done|]. by destruct (listening m _). }
    assert (all_answer m v d) as Hall by (by exists cfg, vc, d1).
    pose proof (kill_switch_fails p m cfg Hkey Hg Hx) as Hks.
    split_and!; try done; try lia; [intros offered version; by apply only_tls13|]. intros Hwarn. rewrite Hwarn in Ho. by apply cleanup_leaves_none in Ho.
Qed.

(** A bridge is to a server whose host key has the fingerprint Vault had for it. *)
Definition pinned (e : event) : Prop :=
  match e with
  | EvBridge asked host_key _ _ serverID _ =>
      exists s, s ∈ servers (w_db asked) /\ s_id s = serverID
        /\ FetchHostFingerprint (w_vault asked) (w_secrets asked) (s_vault_secret_path s) = inr (computeFingerprint host_key)
  | _ => True
  end.

(** C1.  From start-up on.  Whatever happens at a proxy that has come up - connections
    of any content, timers, kills, HTTP requests, other nodes, faults of the database -
    its configuration stays the one it has loaded and the tables keep their invariants;
    every event of every connection is permitted by the database at its time and to a
    user who has logged in on that connection; nothing but a connection has such events;
    and with neither VAULT_TOKEN nor VAULT_DEV_MODE set, every bridge is to a server whose
    host key has the fingerprint Vault had for it. *)
Theorem proxy_sound (m : machine) (v : vstate) (d d' : database) (logs : logdir) (p q : proxy)
    (hs : list happening) (past : list (proxy * happening * list event))
    (Hd : db_ok d) (Hup : main m v d logs = (Up p, d')) (Hf : Forall fair hs) (Hh : history p hs = Some (past, q)) :
  exists cfg,
    Load (dotenv m) (environ m) = inr cfg
    /\ Forall (fun s : proxy * happening * list event =>
          sound_moment s.1.1 s.1.2 s.2
          /\ settings (p_server s.1.1) = (cfg, ProxyNodeIP cfg, static_token cfg)
          /\ (static_token cfg = false -> Forall pinned s.2)) past
    /\ db_ok (w_db (p_world q)).
Proof.
  apply main_up in Hup as (cfg & d1 & vc & Hl & Hc & _ & Ho & Hsrv & Hw & _). exists cfg. split; [done|].
  assert (db_ok (w_db (p_world p))) as Hp.
  { rewrite Hw. cbn. pose proof (CleanupOrphanedSessions_reach (ProxyNodeIP cfg) d1) as H2. rewrite Ho in H2.
    pose proof (Connect_reach cfg (open_error m) d) as H1. rewrite Hc in H1. by do 2 (eapply db_reach_ok; [done|]). }
  destruct (history_sound p hs past q Hp Hf Hh) as (Hall & Hq & _). rewrite Hsrv in Hall. split; [|done].
  eapply Forall_impl; [exact Hall|]. intros [[s h] evs] [Hm Hset]. cbn in *. split_and!; [done..|].
  intros Hst. destruct (decide (evs = [])) as [->|Hne]; [constructor|].
  destruct h; try by destruct (Hne Hm). destruct (Hm Hne) as (_ & _ & req & c1 & u & user & _ & _ & _ & _ & _ & _ & Hev).
  eapply Forall_impl; [exact Hev|]. intros [|asked hk sid uid srv cmds|] He; [done| |done].
  destruct He as (_ & r & rc & (u' & _ & _ & Hr & _) & Hk & _ & -> & _). exists r. split_and!; [done..|].
  destruct Hk as [Hk|Hk]; [|done]. injection Hset as _ _ Hdev. congruence.
Qed.
End properties.

(** ** Witnesses *)

(** AppRole credentials in the environment, everything else at its default, and a
    machine on which everything works. *)
Definition demo_machine : machine :=
  Machine [] [(§"VAULT_ROLE_ID", §"proxy"); (§"VAULT_SECRET_ID", §"s3cret"); (§"AUDIT_DISK_MAX_PCT", §"90")]
    None None None (fun _ _ => None) (fun _ => None) None.

Definition demo_main := main (PG := demo_postgres) (VI := demo_viper) (TB := exact) (VS := demo_vault) demo_machine demo_pinned demo_db (LogDir ∅ []).

Definition demo_proxy : proxy (TB := exact) (VS := demo_vault) :=
  match demo_main with
  | (Up p, _) => p
  | _ => @Proxy exact demo_vault demo_server new_pool (Listener [] ([], []) listener_config) (demo_world demo_db) None (inr None) None
  end.

Definition demo_connection : happening (TB := exact) (VS := demo_vault) :=
  @Accepted exact demo_vault §"203.0.113.7:50123" 0 0 (demo_clocks 1) [demo_script]
    (client (written (SendConnectRequest new_sink demo_direct).2)).

Definition demo_history :=
  history (PG := demo_postgres) (V6 := no_ipv6) (UT := ascii_tables) (JE := demo_json_errors) (BC := demo_bcrypt)
    (TB := exact) (VS := demo_vault) (SH := demo_ssh) (SD := demo_dial) (KG := demo_keygen) (PS := demo_password_ssh) (UU := demo_uuid) (GR := demo_grpc)
    demo_proxy [@Renewal exact demo_vault; @DiskChecked exact demo_vault (inr (Statfs 100 50 4096)); demo_connection;
                @Requested exact demo_vault GetHealthz 0 (90 * Second) (90 * Second)].

(** Evaluating a test is quicker than evaluating to a world. *)
Lemma demo_main_up : match demo_main.1 with Up _ => true | _ => false end = true -> demo_main = (Up demo_proxy, demo_main.2).
Proof. unfold demo_proxy. by destruct demo_main as [[|p] d]. Qed.

Lemma some_default {A B} (o : option (A * B)) x :
  match o with Some _ => true | None => false end = true -> o = Some ((default x o).1, (default x o).2).
Proof. by destruct o as [[a b]|]. Qed.

Lemma proxy_sound_witness :
  exists past q, demo_history = Some (past, q)
    /\ map (fun s => length s.2) past = [0; 0; 2; 0]%nat
    /\ token (w_vault (p_world q)) = §"token-of-proxy"
    /\ Forall (fun s => Forall (pinned (TB := exact) (VS := demo_vault) (SH := demo_ssh)) s.2) past.
Proof.
  destruct (proxy_sound (PG := demo_postgres) (V6 := no_ipv6) (UT := ascii_tables) (JE := demo_json_errors) (BC := demo_bcrypt)
    (VI := demo_viper) (TB := exact) (VS := demo_vault) (SH := demo_ssh) (SD := demo_dial) (KG := demo_keygen) (PS := demo_password_ssh)
    (UU := demo_uuid) (GR := demo_grpc) demo_machine demo_pinned demo_db demo_main.2 (LogDir ∅ []) demo_proxy
    (default ([], demo_proxy) demo_history).2
    [@Renewal exact demo_vault; @DiskChecked exact demo_vault (inr (Statfs 100 50 4096)); demo_connection;
     @Requested exact demo_vault GetHealthz 0 (90 * Second) (90 * Second)]
    (default ([], demo_proxy) demo_history).1) as (cfg & Hl & Hall & _).
  - exact demo_db_ok.
  - apply demo_main_up. vm_compute. reflexivity.
  - constructor; [exact I|]. constructor; [exact I|]. constructor; [|constructor; [exact I|constructor]].
    constructor; [exact demo_script_well_behaved|constructor].
  - apply some_default. vm_compute. reflexivity.
  - exists (default ([], demo_proxy) demo_history).1, (default ([], demo_proxy) demo_history).2.
    split; [apply some_default; vm_compute; reflexivity|]. split; [vm_compute; reflexivity|]. split; [vm_compute; reflexivity|].
    eapply Forall_impl; [exact Hall|]. intros s (_ & _ & H). apply H.
    assert (static_token cfg = static_token (Auth_cfg (p_server demo_proxy))) as ->.
    { f_equal. vm_compute in Hl. injection Hl as <-. vm_compute. reflexivity. }
    vm_compute. reflexivity.
Defined.
